(* ===== verification/_CoqProject ===== *)
-Q . S2P
Prelude.v
Floats.v
Messages.v
JsonData.v
Regex.v
Calendar.v
Supervisor.v
ControlMux.v
SafetyGuard.v
ControlChain.v
TeleopGateway.v
ActionRuntime.v
ActionCapture.v
PolicyTransport.v
PolicyGateway.v
Observation.v
ShadowEvaluator.v
TraceAggregator.v
Json.v
Text.v
Numbers.v
EpisodeRecorder.v
FileSystem.v
Jobs.v
JobProperties.v
Http.v
HttpServer.v
OpsApi.v
VlaDebug.v
OpsServices.v
Calibration.v
DecimalText.v
CalibrationProperties.v
OpsData.v
OpsDataProperties.v
OpsStatus.v
OpsStatusProperties.v
Storage.v
DatasetExporter.v
ObservationReplay.v
PolicyPath.v
TeleopPath.v
Operation.v
JobStorage.v
Interplay.v
