(* ===== verification/Prelude.v ===== *)
(** * Verification of the vehicle VLA platform

    The platform drives a small vehicle from three kinds of sources (navigation,
    a vision-language-action policy, a human on a phone) through ROS 2 nodes,
    records what happens as episodes, turns episodes into training data, and is
    operated from a web console.  This development models its C++ nodes, under
    [ros_ws/src/], in Rocq and proves what makes them correct.  File names below
    are relative to [ros_ws/src/].

    ** The program and its parts

    - The control chain.  [vehicle_supervisor] owns the control mode;
      [vehicle_teleop_gateway] leases control to one phone and turns its
      commands into velocities; [vla_policy_gateway] asks a policy process for
      actions over a transport; [vla_action_runtime] plays the actions as
      velocities; [vla_control_mux] selects one source by mode and lease;
      [vla_safety_guard] limits the selection, stops for obstacles and stale
      inputs, and is the only publisher of [/cmd_vel].
    - Data.  [observation_adapter] packs sensor inputs into observations,
      [observation_monitor] reports their health, [vehicle_action_capture]
      encodes the selected and executed commands as training actions,
      [shadow_evaluator] compares the policy with the driver,
      [episode_recorder] records bags, [observation_replay] plays them back,
      [dataset_exporter] turns a bag into a dataset, [storage_manager] lists and
      deletes episodes, jobs and logs, [pipeline_trace_aggregator] describes the
      state of every stage.
    - Operation.  [operation_orchestrator] starts and stops the systemd units of
      the components along their dependencies; [vla_debug_orchestrator] runs the
      policy on frozen observations and can execute one guarded step; the
      operations service [vehicle_ops_api] is an HTTP server with the routes of
      the console, the jobs (child processes), the calibration of the camera,
      the catalogues of data sets and models, and the status page.

    The nodes interact only through topics, services and actions.  Most nodes run
    their callbacks on one executor thread.  The gateway of the teleoperation has
    goal threads besides, the operations service an accepting thread, workers and
    the thread of a job: there the model interleaves critical sections.

    ** Files

    A node is a record of its member variables, one definition per callback
    (returning the new state and what is published, in order), an [Event] type
    with one constructor per callback and [next] or [step], the dispatch of one
    executor callback or section; [run] plays a list of events.  Clock readings
    are arguments, one for each call the code makes.

    Shared:
    - [Prelude]: this file.  Results of code that may throw ([Outcome]), record
      update, machines ([run], [reachable]), machine integers, rendering of
      integers, strings and their tests, tactics and hints.
    - [Floats]: binary64 and binary32 on the Standard Library's [spec_float],
      with the comparisons, [std::min]/[max]/[clamp] and conversions the nodes
      use, NaN included.
    - [Messages]: the messages of [vehicle_interfaces/msg] field by field, and
      [rclcpp] time as the class [Rclcpp].
    - [JsonData]: JSON values and [nlohmann::json] as the class [Nlohmann], with
      its documented round trip as [NlohmannRoundTrip].
    - [Regex]: regular expressions matched by derivatives, for the job requests.
    - [Calendar]: civil time, [gmtime_r], [localtime_r] and the stamps written
      with [std::put_time].
    - [Json]: the [json_escape] functions and a strict reader of string literals.
    - [Text]: searches, lines, words, UTF-8.
    - [Numbers]: the text a stream writes for a floating-point number;
      [DecimalText]: what [std::stod] reads back of it.
    - [FileSystem]: the operations of [std::filesystem] the tools use, on a finite
      map from paths to nodes.

    Control chain:
    - [Supervisor]: [vehicle_runtime/src/vehicle_supervisor_node.cpp].
    - [ControlMux]: [vehicle_runtime/src/vla_control_mux_node.cpp]; its contract
      is [authorised]/[arbitrate].
    - [SafetyGuard]: [vehicle_runtime/src/vla_safety_guard_node.cpp]; [monitor]
      is the protocol of its event stream.
    - [ControlChain]: supervisor, multiplexer and guard composed over a network
      that delivers published messages late, repeatedly or never.
    - [TeleopGateway]: [vehicle_runtime/src/vehicle_teleop_gateway_node.cpp], as a
      step relation in which the executor's callbacks and the goal threads
      interleave at every lock and at every publication after an unlock.
    - [ActionRuntime]: [vehicle_runtime/src/vla_action_runtime_node.cpp] and the
      mobility adapters it creates.
    - [PolicyTransport]: [vehicle_policy_transport/]: the interface as a class
      with laws, the mock and the Unix-socket transport with its framing and
      partial reads and writes.
    - [PolicyGateway]: [vehicle_runtime/src/vla_policy_gateway_node.cpp], proved
      against the interface of the transport.
    - [PolicyPath]: policy gateway, action runtime, debug orchestrator and control
      chain composed; [TeleopPath]: operations service, teleoperation gateway and
      control chain composed.

    Data:
    - [ActionCapture]: [vehicle_runtime/src/vehicle_action_capture_node.cpp].
    - [Observation]: modules [Monitor]
      ([vehicle_data/src/observation_monitor_node.cpp]) and [Adapter]
      ([vehicle_adapters/src/observation_adapter_node.cpp]).
    - [ShadowEvaluator]: [vehicle_data/src/shadow_evaluator_node.cpp].
    - [EpisodeRecorder]: [vehicle_data/src/episode_recorder_node.cpp].
    - [ObservationReplay]: [vehicle_data/src/observation_replay_node.cpp].
    - [DatasetExporter]: [vehicle_data/src/dataset_exporter.cpp], the whole program.
    - [Storage]: [vehicle_storage/src/storage_manager_node.cpp].
    - [TraceAggregator]: [vehicle_pipeline_trace/src/pipeline_trace_aggregator_node.cpp].

    Operation:
    - [Operation]: [vehicle_operation/src/operation_orchestrator_node.cpp], in a
      state-and-exception monad over a class of system operations.
    - [VlaDebug]: [vehicle_vla_debug/src/vla_debug_orchestrator_node.cpp].
    - [Jobs], [JobProperties]: [vehicle_ops/src/job_manager.cpp]: requests, the
      critical sections of the interface, the worker thread and the child process.
    - [Calibration], [CalibrationProperties]:
      [vehicle_ops/src/camera_calibration_manager.cpp] and its handlers.
    - [vehicle_ops/src/vehicle_ops_api_node.cpp], by part: [Http] (reading,
      authorising, routing and answering a request), [HttpServer] (threads and
      queue), [OpsApi] (shared state, active debug session, teleoperation, gates
      of the jobs), [OpsServices] (handlers that ask other nodes, files),
      [OpsData], [OpsDataProperties] (data sets, reviews, models, plugins),
      [OpsStatus], [OpsStatusProperties] (status page, parameters).
    - [JobStorage]: job manager and storage manager on one disk; [Interplay]:
      theorems about two components that meet in a message.

    ** What is proved

    - Whole chain: a command other than zero reaches the vehicle only from the
      source that an announced mode and the lease authorise, fresh and limited;
      a safe stop works through to zero ([ControlChain]).  What moves the vehicle
      in a policy mode is a sample of an action predicted for a fresh observation
      ([PolicyPath]); what moves it for the phone answers a request with the
      operator's token ([TeleopPath]).
    - Guard: limits, obstacle decision, stale inputs, event protocol, and what a
      NaN command does.
    - Teleoperation, for every interleaving: motion only decided under a live lease
      and a fresh dead-man command, no replayed sequence numbers, exclusive
      handover (and the one way it fails), revocation after expiry; and the two
      races left by publishing and revoking after the unlock.
    - Supervisor and multiplexer: refinement of their contracts, consistency of
      the reachable states.
    - Policy: framing is a remote call, what a published action answers, chunks
      are played in order, all raw commands are finite; single steps of the debug
      orchestrator are confirmed, bounded and fit the selected plugin.
    - Data: captured actions replay, observations meet their contract, shadow
      comparisons pair the right messages, escaped JSON reads back, recordings
      get fresh names and truthful states, replays are paced and complete, exports
      are complete, all or nothing, and lose no image, cleanups touch only what was
      selected and never the episode being recorded or the job that runs.
    - Components: dependency-ordered starts, guarded stops, termination on every
      dependency graph, soundness of a loaded configuration.
    - Operations service: requests do not depend on the segmentation of the stream
      up to the limit, only the operator acts, clients are served in order,
      teleoperation commands and runtime changes are gated, debug sessions are
      bounded, requests to other nodes are explicit, reviews and downloads stay in
      their directories, the catalogue agrees with the gate, the status page is
      JSON exactly when its numbers are finite and its texts printable.
    - Jobs: commands are confined, one at a time, they end, their history survives
      a restart; calibration: results belong to the samples, the old calibration
      survives a failure, the matrix reads back to 15 digits.

    Theorems whose doc comment starts with a number [C1], [C2], ... are the
    properties; the others are lemmas and further facts.  Findings about the
    code (what it does against what its comments and documents say) are stated
    as theorems or examples where they could be.

    ** Interfaces and assumptions

    Third-party code is a class of operations or a record of answers that the
    definitions take: [Rclcpp] (time), [Nlohmann] (JSON), the peer and the kernel
    of [PolicyTransport] and its protobuf messages, [OpenCV] and [Libm] of
    [Calibration], rosbag2 and the disk ([World] of [EpisodeRecorder],
    [DatasetExporter], [Jobs] and [Calibration], [Rosbag2]), systemd, the ROS graph
    and the clocks ([System] of [Operation]), the nodes the service asks
    ([Services]).  Theorems hold for every instance, with the hypotheses they
    name: [NlohmannRoundTrip] (a printed value is read back), [NlohmannUtf8]
    (printing throws for texts that are not UTF-8), [NlohmannNumbers] (what is
    parsed is not a NaN), [NlohmannLayout] (how members are printed),
    [NlohmannLaws] (what the trace reads of details it printed).  The
    demonstration worlds are the instances the witnesses evaluate with.  Library
    functions whose rounding is implementation-defined ([atan], [tan]) are
    parameters; a time zone is a function from the time to its distance from UTC.

    ** Bounds and fuel

    Integers are [Z]; where the code's width matters the wrap-around is written
    out ([wrap64], [swrap32], ...).  Loops that are not structural carry fuel,
    and a theorem says that it is enough: rendering of integers
    ([parse_base_string]), the search for a free episode name (one more than
    the taken names), the recursion over dependencies (one more than the
    components, [control_fuel_is_enough]), socket reads and writes (as many
    successful calls as bytes), the reader of the status page (the [cost] of the
    document).

    ** What is not modelled

    [main] functions, parameter plumbing of [rclcpp] and quality-of-service
    settings; log output; payloads of messages that are only passed on; launch
    files, the Python policy runtime, training scripts and tools, the web
    client, deployment scripts and the vendored chassis driver: they are not C++
    of this repository's own, and the model meets them only as what they send or
    answer. *)
From stdpp Require Export base tactics list gmap strings.
From Stdlib Require Export ZArith Lia String Ascii.

(** ** Results of code that may throw

    [Returns a] is a normal return, [Throws what] an exception derived from
    [std::exception] together with its [what()] text. *)
Inductive Outcome (A : Type) : Type :=
| Returns (a : A)
| Throws (what : string).
Arguments Returns {A} _.
Arguments Throws {A} _.

Declare Scope outcome_scope.
Delimit Scope outcome_scope with outcome.

Definition obind {A B} (m : Outcome A) (k : A -> Outcome B) : Outcome B :=
  match m with
  | Returns a => k a
  | Throws e => Throws e
  end.

Notation "'let!' x ':=' m 'in' k" := (obind m (fun x => k))
  (at level 10, x pattern, m at level 100, k at level 200) : outcome_scope.

Definition returns {A} (m : Outcome A) : bool :=
  match m with Returns _ => true | Throws _ => false end.

Lemma obind_returns {A B} (m : Outcome A) (k : A -> Outcome B) b :
  obind m k = Returns b <-> exists a, m = Returns a /\ k a = Returns b.
Proof. destruct m; simpl; naive_solver. Qed.

Lemma obind_throws {A B} (m : Outcome A) (k : A -> Outcome B) e :
  obind m k = Throws e <->
  m = Throws e \/ exists a, m = Returns a /\ k a = Throws e.
Proof. destruct m; simpl; naive_solver. Qed.

(** Mapping a throwing function over a list, left to right, stopping at the
    first exception (a [for] loop inside one [try] block). *)
Fixpoint omap_list {A B} (f : A -> Outcome B) (l : list A) : Outcome (list B) :=
  match l with
  | [] => Returns []
  | x :: r =>
      obind (f x) (fun y => obind (omap_list f r) (fun ys => Returns (y :: ys)))
  end.

Lemma omap_list_returns {A B} (f : A -> Outcome B) l ys :
  omap_list f l = Returns ys <-> Forall2 (fun x y => f x = Returns y) l ys.
Proof.
  revert ys; induction l as [|x r IH]; intros ys; simpl.
  - split; [intros [= <-]; constructor | by inversion 1].
  - rewrite obind_returns. split.
    + intros (y & Hy & H). apply obind_returns in H as (zs & Hzs & [= <-]).
      constructor; [done | by apply IH].
    + inversion 1 as [|? y ? zs Hy Hzs]; subst. exists y; split; [done|].
      apply obind_returns. exists zs; split; [by apply IH | done].
Qed.

(** ** Record update

    A record type declares its eta expansion once; [s <| f := v |>] then
    rebuilds the record with field [f] replaced.  The setter of a projection is
    found by replacing the occurrence of that projection in the expansion. *)
Class Eta (R : Type) := eta : R -> R.
Class Setter {R T : Type} (proj : R -> T) := upd : (T -> T) -> R -> R.
Arguments upd {R T} proj {_} _ _ /.

Ltac derive_setter :=
  lazymatch goal with
  | |- @Setter ?R ?T ?proj =>
      let g := fresh "g" in
      let r := fresh "r" in
      unfold Setter; intros g r;
      let e := eval hnf in (@eta R _ r) in
      lazymatch e with
      | context C [proj r] =>
          let t := context C [g (proj r)] in exact t
      end
  end.

#[export] Hint Extern 1 (Setter _) => derive_setter : typeclass_instances.

Notation "s <| f := v |>" := (upd f (fun _ => v) s)
  (at level 1, f at level 0, v at level 200, left associativity).

(** ** Reachability of a step relation that emits outputs *)
Section Reachability.
Context {St Ev Out : Type}.
Variable step : St -> Ev -> St -> list Out -> Prop.
Variable init : St -> Prop.

Inductive reachable : St -> Prop :=
| reach_init s : init s -> reachable s
| reach_step s e s' o : reachable s -> step s e s' o -> reachable s'.

Lemma reachable_invariant (I : St -> Prop) :
  (forall s, init s -> I s) ->
  (forall s e s' o, reachable s -> I s -> step s e s' o -> I s') ->
  forall s, reachable s -> I s.
Proof. intros Hi Hs s; induction 1; eauto. Qed.
End Reachability.

(** A deterministic machine: run a list of events, collecting the outputs. *)
Section Machine.
Context {St Ev Out : Type}.
Variable next : St -> Ev -> St * list Out.

Fixpoint run (s : St) (es : list Ev) : St * list Out :=
  match es with
  | [] => (s, [])
  | e :: r =>
      let '(s1, o1) := next s e in
      let '(s2, o2) := run s1 r in
      (s2, o1 ++ o2)
  end.

Lemma run_app s es1 es2 :
  run s (es1 ++ es2) =
  let '(s1, o1) := run s es1 in
  let '(s2, o2) := run s1 es2 in (s2, o1 ++ o2).
Proof.
  revert s; induction es1 as [|e r IH]; intros s; simpl.
  - by destruct (run s es2).
  - destruct (next s e) as [s1 o1]. rewrite IH.
    destruct (run s1 r) as [s2 o2]. destruct (run s2 es2) as [s3 o3].
    by rewrite app_assoc.
Qed.

Lemma run_app_fst s es1 es2 : fst (run s (es1 ++ es2)) = fst (run (fst (run s es1)) es2).
Proof.
  rewrite run_app. destruct (run s es1) as [s1 o1]; simpl. by destruct (run s1 es2).
Qed.

Lemma run_app_snd s es1 es2 :
  snd (run s (es1 ++ es2)) = snd (run s es1) ++ snd (run (fst (run s es1)) es2).
Proof.
  rewrite run_app. destruct (run s es1) as [s1 o1]; simpl. by destruct (run s1 es2).
Qed.

Lemma run_one s e : run s [e] = next s e.
Proof. simpl. destruct (next s e) as [s1 o1]. by rewrite app_nil_r. Qed.

Lemma run_invariant (I : St -> Prop) :
  (forall s e, I s -> I (fst (next s e))) ->
  forall es s, I s -> I (fst (run s es)).
Proof.
  intros Hs es; induction es as [|e r IH]; intros s H; simpl; [done|].
  specialize (Hs s e H). destruct (next s e) as [s1 o1]; simpl in *.
  specialize (IH s1 Hs). by destruct (run s1 r).
Qed.

(** the same for events of a kind *)
Lemma run_invariant_on (E : Ev -> Prop) (I : St -> Prop) :
  (forall s e, E e -> I s -> I (fst (next s e))) ->
  forall es s, Forall E es -> I s -> I (fst (run s es)).
Proof.
  intros Hs es s He. revert s. induction He as [|e r He _ IH]; intros s H; simpl; [done|].
  specialize (Hs s e He H). destruct (next s e) as [s1 o1]; simpl in *.
  specialize (IH s1 Hs). by destruct (run s1 r).
Qed.

(** an invariant together with what it guarantees of every output *)
Lemma run_outputs (I : St -> Prop) (E : Ev -> Prop) (P : Out -> Prop) :
  (forall s e, E e -> I s -> I (fst (next s e)) /\ Forall P (snd (next s e))) ->
  forall es s, Forall E es -> I s -> I (fst (run s es)) /\ Forall P (snd (run s es)).
Proof.
  intros Hs es; induction es as [|e r IH]; intros s He H; simpl.
  - split; [done|constructor].
  - apply Forall_cons in He as [He Hr]. destruct (Hs s e He H) as [H1 H2].
    destruct (next s e) as [s1 o1]; simpl in *. destruct (IH s1 Hr H1) as [H3 H4].
    destruct (run s1 r) as [s2 o2]; simpl in *. split; [done|]. by apply Forall_app.
Qed.
End Machine.

(** ** Machine integers *)
Definition wrap (w z : Z) : Z := z mod 2 ^ w.
Definition wrap8 := wrap 8.
Definition wrap32 := wrap 32.
Definition wrap64 := wrap 64.
(** two's complement reading of a [w]-bit word *)
Definition swrap (w z : Z) : Z := (z + 2 ^ (w - 1)) mod 2 ^ w - 2 ^ (w - 1).
Definition swrap32 := swrap 32.
Definition swrap64 := swrap 64.

Section MachineIntegers.
Local Open Scope Z_scope.

Lemma wrap_range w z : 0 <= w -> 0 <= wrap w z < 2 ^ w.
Proof. intros. unfold wrap. apply Z.mod_pos_bound. lia. Qed.

Lemma wrap_small w z : 0 <= z < 2 ^ w -> wrap w z = z.
Proof. apply Z.mod_small. Qed.

Lemma swrap_small w z :
  0 < w -> - 2 ^ (w - 1) <= z < 2 ^ (w - 1) -> swrap w z = z.
Proof.
  intros Hw Hz. unfold swrap.
  assert (2 ^ w = 2 * 2 ^ (w - 1)) as E.
  { rewrite <- Z.pow_succ_r by lia. f_equal. lia. }
  rewrite Z.mod_small; lia.
Qed.

Lemma wrap64_succ z : 0 <= z < 2 ^ 64 - 1 -> wrap64 (z + 1) = z + 1.
Proof. intros. apply wrap_small. lia. Qed.
End MachineIntegers.

(** ** Rendering integers

    [base_string b z] writes the non-negative [z] in base [b] with lowercase
    digits: [std::to_string] for base 10, [std::hex] for base 16.  The fuel
    follows the value; [parse_base_string] shows it is enough. *)
Definition digit_char (d : Z) : ascii :=
  ascii_of_N (Z.to_N (if (d <? 10)%Z then 48 + d else 87 + d)%Z).

Fixpoint base_digits (b : Z) (fuel : nat) (z : Z) (acc : string) : string :=
  match fuel with
  | O => acc
  | S f =>
      let acc' := String (digit_char (z mod b)%Z) acc in
      if (z <? b)%Z then acc' else base_digits b f (z / b)%Z acc'
  end.

Definition base_string (b z : Z) : string :=
  base_digits b (S (Z.to_nat (Z.log2 z))) z "".

Definition to_string (z : Z) : string :=
  if (z <? 0)%Z then String "-"%char (base_string 10 (- z)) else base_string 10 z.
Definition hex_string (z : Z) : string := base_string 16 z.

(** reading a rendered number back *)
Definition digit_value (c : ascii) : Z :=
  let n := Z.of_N (N_of_ascii c) in if (n <? 58)%Z then n - 48 else n - 87.

Fixpoint parse_base (b : Z) (s : string) (acc : Z) : Z :=
  match s with
  | EmptyString => acc
  | String c r => parse_base b r (acc * b + digit_value c)%Z
  end.

Section Rendering.
Local Open Scope Z_scope.

Lemma digit_value_char d : 0 <= d < 16 -> digit_value (digit_char d) = d.
Proof.
  intros Hd. assert (d ∈ (Z.of_nat <$> seq 0 16)) as Hin.
  { apply list_elem_of_fmap. exists (Z.to_nat d). rewrite elem_of_seq. lia. }
  revert Hin. cbn. rewrite !elem_of_cons, elem_of_nil.
  intros H. repeat destruct H as [->|H]; done.
Qed.

Lemma parse_base_digits b fuel z acc :
  2 <= b <= 16 -> 0 <= z < 2 ^ Z.of_nat fuel ->
  parse_base b (base_digits b fuel z acc) 0 = parse_base b acc z.
Proof.
  intros Hb. revert z acc; induction fuel as [|f IH]; intros z acc Hz.
  { assert (z = 0) as -> by (simpl in Hz; lia). done. }
  cbn [base_digits].
  assert (0 <= z mod b < b) by (apply Z.mod_pos_bound; lia).
  destruct (Z.ltb_spec z b).
  - simpl. rewrite digit_value_char by lia. rewrite Z.mod_small by lia. done.
  - rewrite IH.
    + simpl. rewrite digit_value_char by lia. f_equal.
      rewrite (Z.div_mod z b) at 3 by lia. lia.
    + split; [apply Z.div_pos; lia|]. apply Z.div_lt_upper_bound; [lia|].
      rewrite Nat2Z.inj_succ, Z.pow_succ_r in Hz by lia.
      assert (0 < 2 ^ Z.of_nat f) by lia. nia.
Qed.

Lemma parse_base_string b z :
  2 <= b <= 16 -> 0 <= z -> parse_base b (base_string b z) 0 = z.
Proof.
  intros Hb Hz. unfold base_string. rewrite parse_base_digits; [done|done|].
  split; [done|]. rewrite Nat2Z.inj_succ, Z2Nat.id by apply Z.log2_nonneg.
  destruct (Z.eq_dec z 0) as [->|]; [done|]. apply Z.log2_spec. lia.
Qed.

Lemma base_string_inj b z1 z2 :
  2 <= b <= 16 -> 0 <= z1 -> 0 <= z2 -> base_string b z1 = base_string b z2 -> z1 = z2.
Proof.
  intros Hb H1 H2 E. rewrite <- (parse_base_string b z1), <- (parse_base_string b z2) by done.
  by rewrite E.
Qed.

Lemma to_string_inj a b : 0 <= a -> 0 <= b -> to_string a = to_string b -> a = b.
Proof.
  intros Ha Hb. unfold to_string.
  rewrite (proj2 (Z.ltb_ge _ _) Ha), (proj2 (Z.ltb_ge _ _) Hb). by apply base_string_inj.
Qed.

(** a character a rendered number never contains *)
Fixpoint str_has (c : ascii) (s : string) : bool :=
  match s with
  | EmptyString => false
  | String d r => Ascii.eqb c d || str_has c r
  end.

Lemma digit_char_not_dash d : 0 <= d < 16 -> Ascii.eqb "-" (digit_char d) = false.
Proof.
  intros Hd. apply Ascii.eqb_neq. intros E.
  apply (f_equal digit_value) in E. rewrite digit_value_char in E by done.
  vm_compute in E. lia.
Qed.

Lemma base_digits_no_char c b fuel z acc :
  2 <= b <= 16 -> (forall d, 0 <= d < 16 -> Ascii.eqb c (digit_char d) = false) ->
  str_has c acc = false -> str_has c (base_digits b fuel z acc) = false.
Proof.
  intros Hb Hc. revert z acc; induction fuel as [|f IH]; intros z acc Ha; [done|].
  cbn [base_digits].
  assert (str_has c (String (digit_char (z mod b)) acc) = false).
  { cbn [str_has]. rewrite Hc, Ha; [done|].
    assert (0 <= z mod b < b) by (apply Z.mod_pos_bound; lia). lia. }
  destruct (z <? b); [done|]. by apply IH.
Qed.

Lemma base_digits_no_dash b fuel z acc :
  2 <= b <= 16 -> str_has "-" acc = false ->
  str_has "-" (base_digits b fuel z acc) = false.
Proof. intros Hb. by apply base_digits_no_char, digit_char_not_dash. Qed.

(** the text before the first [c] determines where it is *)
Lemma split_at_char c a1 a2 b1 b2 :
  str_has c a1 = false -> str_has c a2 = false ->
  (a1 ++ String c b1 = a2 ++ String c b2)%string -> a1 = a2 /\ b1 = b2.
Proof.
  revert a2; induction a1 as [|x r IH]; intros [|y q] H1 H2 E;
    cbn [str_has String.append] in *.
  - by injection E.
  - injection E as <- _. by rewrite Ascii.eqb_refl in H2.
  - injection E as -> _. by rewrite Ascii.eqb_refl in H1.
  - injection E as <- E. apply orb_false_iff in H1 as [_ H1], H2 as [_ H2].
    destruct (IH q H1 H2 E) as [-> ->]. done.
Qed.

Lemma split_at_dash a1 a2 b1 b2 :
  str_has "-" a1 = false -> str_has "-" a2 = false ->
  (a1 ++ String "-" b1 = a2 ++ String "-" b2)%string -> a1 = a2 /\ b1 = b2.
Proof. apply split_at_char. Qed.
End Rendering.

(** ** Strings *)
Definition str_empty (s : string) : bool :=
  match s with EmptyString => true | String _ _ => false end.

Definition str_eqb (a b : string) : bool := String.eqb a b.

Definition str_in (s : string) (l : list string) : bool :=
  existsb (str_eqb s) l.

Lemma str_empty_spec s : str_empty s = true <-> s = ""%string.
Proof. by destruct s. Qed.

Lemma str_eqb_spec a b : str_eqb a b = true <-> a = b.
Proof. apply String.eqb_eq. Qed.

Lemma str_eqb_refl a : str_eqb a a = true.
Proof. by apply str_eqb_spec. Qed.

Lemma str_eqb_neq a b : str_eqb a b = false <-> a <> b.
Proof. apply String.eqb_neq. Qed.

Lemma str_in_spec s l : str_in s l = true <-> s ∈ l.
Proof.
  unfold str_in. rewrite existsb_exists. setoid_rewrite str_eqb_spec.
  rewrite list_elem_of_In. naive_solver.
Qed.

Lemma append_cons c r s : (String c r ++ s = String c (r ++ s))%string.
Proof. done. Qed.

Lemma string_app_assoc (a b c : string) : ((a ++ b) ++ c = a ++ (b ++ c))%string.
Proof. induction a as [|x r IH]; [done|]. by rewrite !append_cons, IH. Qed.

Lemma str_app_nil s : (s ++ "")%string = s.
Proof. induction s as [|x r IH]; [done|]. by rewrite append_cons, IH. Qed.

(** [std::string::find] of a substring, as a test *)
Fixpoint str_prefix (needle s : string) : bool :=
  match needle, s with
  | EmptyString, _ => true
  | String a n, String b r => Ascii.eqb a b && str_prefix n r
  | _, EmptyString => false
  end.
Fixpoint str_contains (needle s : string) : bool :=
  str_prefix needle s ||
  match s with EmptyString => false | String _ r => str_contains needle r end.

(** [std::filesystem::path] concatenation with [operator/] on POSIX *)
Definition starts_with_slash (s : string) : bool :=
  match s with String c _ => Ascii.eqb c "/" | EmptyString => false end.
Fixpoint ends_with_slash (s : string) : bool :=
  match s with
  | EmptyString => false
  | String c EmptyString => Ascii.eqb c "/"
  | String _ r => ends_with_slash r
  end.
Definition path_join (a b : string) : string :=
  if starts_with_slash b || str_empty a then b
  else if ends_with_slash a then (a ++ b)%string else (a ++ "/" ++ b)%string.

(** Text with double quotes, written with single quotes: JSON fragments of the
    sources are [quoted] literals. *)
Definition dquote : ascii := ascii_of_nat 34.
Fixpoint quoted (s : string) : string :=
  match s with
  | EmptyString => EmptyString
  | String c r => String (if Ascii.eqb c "'"%char then dquote else c) (quoted r)
  end.

(** ** Tactics and hints *)
Create HintDb vehicle.
Create Rewrite HintDb vehicle.
#[export] Hint Rewrite str_eqb_spec str_empty_spec str_in_spec
  andb_true_iff orb_true_iff negb_true_iff andb_false_iff orb_false_iff
  negb_false_iff Z.eqb_eq Z.ltb_lt Z.leb_le Z.eqb_neq Z.ltb_ge Z.leb_gt : vehicle.

Ltac reflect_bools := autorewrite with vehicle in *.

(** destruct the scrutinee of an [if] or [match] in the goal or a hypothesis *)
Ltac split_match :=
  match goal with
  | |- context [match ?x with _ => _ end] => destruct x eqn:?
  | H : context [match ?x with _ => _ end] |- _ => destruct x eqn:?
  end.

