(* ===== verification/Floats.v ===== *)
(** * IEEE 754 floating point as the nodes use it

    [double] is binary64 and [float] binary32, both represented by the
    executable specification type [spec_float] of the Standard Library, whose
    operations round to nearest even.  The comparisons, [std::min], [std::max],
    [std::clamp], [std::abs], [std::isfinite] and the two conversions are the
    ones the sources call; NaN is a value like any other, so that the
    theorems say what happens to it. *)
From S2P Require Import Prelude.
From Stdlib Require Export SpecFloat.

(** ** The two formats *)
Abbreviation double := spec_float.
Abbreviation float32 := spec_float.

Definition dadd : double -> double -> double := SFadd 53 1024.
Definition dsub : double -> double -> double := SFsub 53 1024.
Definition dmul : double -> double -> double := SFmul 53 1024.
Definition ddiv : double -> double -> double := SFdiv 53 1024.
Definition dabs : double -> double := SFabs.
Definition dneg : double -> double := SFopp.
Definition fsub : float32 -> float32 -> float32 := SFsub 24 128.
Definition fdiv : float32 -> float32 -> float32 := SFdiv 24 128.
Definition fadd : float32 -> float32 -> float32 := SFadd 24 128.
Definition dzero : double := S754_zero false.
Definition fzero : float32 := S754_zero false.
Definition dinf : double := S754_infinity false.

Definition dlt : double -> double -> bool := SFltb.
Definition dle : double -> double -> bool := SFleb.
Definition deq : double -> double -> bool := SFeqb.

Definition is_nan (x : double) : bool :=
  match x with S754_nan => true | _ => false end.

(** [std::isfinite] *)
Definition isfinite (x : double) : bool :=
  match x with S754_zero _ | S754_finite _ _ _ => true | _ => false end.

(** [std::min(a, b)], [std::max(a, b)] and [std::clamp(v, lo, hi)], with the
    comparisons in the order the Standard specifies them. *)
Definition dmin (a b : double) : double := if dlt b a then b else a.
Definition dmax (a b : double) : double := if dlt a b then b else a.
Definition dclamp (v lo hi : double) : double :=
  if dlt v lo then lo else if dlt hi v then hi else v.

(** [static_cast<float>(double)] and [static_cast<double>(float)] *)
Definition round_to (prec emax : Z) (x : spec_float) : spec_float :=
  match x with
  | S754_finite s m e => binary_round prec emax s m e
  | _ => x
  end.
Definition to_float : double -> float32 := round_to 24 128.
Definition to_double : float32 -> double := round_to 53 1024.

(** [static_cast<double>] of an integer and [static_cast<int64_t>] of a double
    (truncation towards zero; the C++ conversion is undefined outside the
    range of the integer type, which the callers do not rely on). *)
Definition of_int (z : Z) : double := binary_normalize 53 1024 z 0 false.
Definition of_intf (z : Z) : float32 := binary_normalize 24 128 z 0 false.
Definition trunc_int (x : double) : Z :=
  match x with
  | S754_finite s m e =>
      let a := Z.shiftl (Zpos m) e in if s then Z.opp a else a
  | _ => 0%Z
  end.

(** Decimal literals: [n / 10^k] with exact operands is correctly rounded. *)
Definition lit (n : Z) (k : Z) : double := ddiv (of_int n) (of_int (10 ^ k)).
Definition litf (n : Z) (k : Z) : float32 := to_float (lit n k).

(** ** The order on non-NaN values

    [fkey] maps a value to a triple compared lexicographically; it is the order
    [SFcompare] computes, and it makes the order facts linear arithmetic. *)
Definition fkey (x : double) : Z * Z * Z :=
  match x with
  | S754_infinity s => (if s then -2 else 2, 0, 0)%Z
  | S754_zero _ => (0, 0, 0)%Z
  | S754_finite s m e => if s then (-1, - e, - Zpos m)%Z else (1, e, Zpos m)%Z
  | S754_nan => (0, 0, 0)%Z
  end.

Definition key_lt (a b : Z * Z * Z) : Prop :=
  let '(c1, e1, m1) := a in let '(c2, e2, m2) := b in
  (c1 < c2 \/ (c1 = c2 /\ (e1 < e2 \/ (e1 = e2 /\ m1 < m2))))%Z.

Lemma SFcompare_key x y :
  is_nan x = false -> is_nan y = false ->
  match SFcompare x y with
  | Some Lt => key_lt (fkey x) (fkey y)
  | Some Gt => key_lt (fkey y) (fkey x)
  | Some Eq => fkey x = fkey y
  | None => False
  end.
Proof.
  destruct x as [[]|[]| |[] m e], y as [[]|[]| |[] m' e']; simpl; try done; intros _ _;
    try lia.
  - destruct (Z.compare_spec e e'); simpl; try lia. subst.
    change (Pos.compare_cont Eq m m') with (Pos.compare m m').
    destruct (Pos.compare_spec m m'); simpl; subst; try lia. done.
  - destruct (Z.compare_spec e e'); simpl; try lia. subst.
    change (Pos.compare_cont Eq m m') with (Pos.compare m m').
    destruct (Pos.compare_spec m m'); simpl; subst; try lia. done.
Qed.

Lemma SFcompare_nan_l x y : is_nan x = true -> SFcompare x y = None.
Proof. by destruct x, y. Qed.
Lemma SFcompare_nan_r x y : is_nan y = true -> SFcompare x y = None.
Proof. by destruct x as [| | |[]], y. Qed.

Lemma dlt_key x y :
  dlt x y = true <->
  is_nan x = false /\ is_nan y = false /\ key_lt (fkey x) (fkey y).
Proof.
  unfold dlt, SFltb. destruct (is_nan x) eqn:Hx.
  { rewrite SFcompare_nan_l by done. naive_solver. }
  destruct (is_nan y) eqn:Hy.
  { rewrite SFcompare_nan_r by done. naive_solver. }
  pose proof (SFcompare_key x y Hx Hy) as H.
  destruct (SFcompare x y) as [[]|]; [rewrite H| | |done];
    destruct (fkey x) as [[? ?] ?], (fkey y) as [[? ?] ?]; simpl in *; 
    split; try done; intros; try lia; naive_solver lia.
Qed.

Lemma dle_key x y :
  dle x y = true <->
  is_nan x = false /\ is_nan y = false /\ ~ key_lt (fkey y) (fkey x).
Proof.
  unfold dle, SFleb. destruct (is_nan x) eqn:Hx.
  { rewrite SFcompare_nan_l by done. naive_solver. }
  destruct (is_nan y) eqn:Hy.
  { rewrite SFcompare_nan_r by done. naive_solver. }
  pose proof (SFcompare_key x y Hx Hy) as H.
  destruct (SFcompare x y) as [[]|]; [rewrite H| | |done];
    destruct (fkey x) as [[? ?] ?], (fkey y) as [[? ?] ?]; simpl in *;
    split; try done; intros; try lia; naive_solver lia.
Qed.

Lemma key_lt_irrefl a : ~ key_lt a a.
Proof. destruct a as [[? ?] ?]; simpl; lia. Qed.
Lemma key_lt_trans a b c : key_lt a b -> key_lt b c -> key_lt a c.
Proof.
  destruct a as [[? ?] ?], b as [[? ?] ?], c as [[? ?] ?]; simpl; lia.
Qed.
Lemma key_lt_total a b : key_lt a b \/ a = b \/ key_lt b a.
Proof.
  destruct a as [[a1 a2] a3], b as [[b1 b2] b3]; simpl.
  destruct (Z.lt_trichotomy a1 b1) as [|[|]], (Z.lt_trichotomy a2 b2) as [|[|]],
    (Z.lt_trichotomy a3 b3) as [|[|]]; subst; auto; lia.
Qed.

(** [dorder] solves goals about [dlt], [dle] and [is_nan] by passing to keys. *)
Ltac fkeys :=
  repeat match goal with
  | |- context [fkey ?x] => destruct (fkey x) as [[? ?] ?]; simpl in *
  | H : context [fkey ?x] |- _ => destruct (fkey x) as [[? ?] ?]; simpl in *
  end.

Lemma dlt_false_key x y :
  is_nan x = false -> is_nan y = false ->
  dlt x y = false <-> ~ key_lt (fkey x) (fkey y).
Proof.
  intros Hx Hy. rewrite <- not_true_iff_false, dlt_key. naive_solver.
Qed.

Lemma dle_false_key x y :
  is_nan x = false -> is_nan y = false ->
  dle x y = false <-> key_lt (fkey y) (fkey x).
Proof.
  intros Hx Hy. rewrite <- not_true_iff_false, dle_key.
  destruct (key_lt_total (fkey y) (fkey x)) as [H|[H|H]].
  - tauto.
  - rewrite H. pose proof (key_lt_irrefl (fkey x)). tauto.
  - pose proof (key_lt_irrefl (fkey x)).
    assert (~ key_lt (fkey y) (fkey x)) by (intros ?; eauto using key_lt_trans). tauto.
Qed.

Lemma dlt_dle x y : dlt x y = true -> dle x y = true.
Proof. rewrite dlt_key, dle_key. intros (?&?&?); fkeys; repeat split; auto; lia. Qed.

Lemma dle_refl x : is_nan x = false -> dle x x = true.
Proof. intros. rewrite dle_key. repeat split; auto. apply key_lt_irrefl. Qed.

Lemma dle_trans x y z : dle x y = true -> dle y z = true -> dle x z = true.
Proof.
  rewrite !dle_key. intros (?&?&?) (?&?&?); fkeys; repeat split; auto; lia.
Qed.

Lemma dlt_le_trans x y z : dlt x y = true -> dle y z = true -> dlt x z = true.
Proof.
  rewrite !dlt_key, !dle_key. intros (?&?&?) (?&?&?); fkeys; repeat split; auto; lia.
Qed.

Lemma dle_lt_trans x y z : dle x y = true -> dlt y z = true -> dlt x z = true.
Proof.
  rewrite !dlt_key, !dle_key. intros (?&?&?) (?&?&?); fkeys; repeat split; auto; lia.
Qed.

Lemma dle_not_dlt x y : dle x y = true -> dlt y x = false.
Proof. rewrite dle_key. intros (_ & _ & Hk). apply not_true_iff_false. rewrite dlt_key. tauto. Qed.

Lemma dlt_irrefl x : dlt x x = false.
Proof. apply not_true_iff_false. rewrite dlt_key. intros (_ & _ & H). by apply key_lt_irrefl in H. Qed.

Lemma dlt_not_le x y :
  is_nan x = false -> is_nan y = false -> dlt x y = negb (dle y x).
Proof.
  intros Hx Hy. destruct (dle y x) eqn:H; simpl.
  - apply dlt_false_key; auto. apply dle_key in H. tauto.
  - apply dlt_key. apply dle_false_key in H; auto.
Qed.

Lemma dlt_nan_l x y : is_nan x = true -> dlt x y = false.
Proof. intros. unfold dlt, SFltb. by rewrite SFcompare_nan_l. Qed.
Lemma dlt_nan_r x y : is_nan y = true -> dlt x y = false.
Proof. intros. unfold dlt, SFltb. by rewrite SFcompare_nan_r. Qed.
Lemma dle_nan_l x y : is_nan x = true -> dle x y = false.
Proof. intros. unfold dle, SFleb. by rewrite SFcompare_nan_l. Qed.
Lemma dle_nan_r x y : is_nan y = true -> dle x y = false.
Proof. intros. unfold dle, SFleb. by rewrite SFcompare_nan_r. Qed.

Lemma dle_is_nan x y : dle x y = true -> is_nan x = false /\ is_nan y = false.
Proof. rewrite dle_key. tauto. Qed.
Lemma dlt_is_nan x y : dlt x y = true -> is_nan x = false /\ is_nan y = false.
Proof. rewrite dlt_key. tauto. Qed.

(** Signs: [- |r| <= 0 <= |l|]. *)
Lemma dabs_nonneg l : is_nan l = false -> dle dzero (dabs l) = true.
Proof. by destruct l as [[]|[]| |[] m e]. Qed.
Lemma dneg_abs_nonpos r : is_nan r = false -> dle (dneg (dabs r)) dzero = true.
Proof. by destruct r as [[]|[]| |[] m e]. Qed.
Lemma is_nan_dabs x : is_nan (dabs x) = is_nan x.
Proof. by destruct x. Qed.
Lemma is_nan_dneg x : is_nan (dneg x) = is_nan x.
Proof. by destruct x. Qed.
Lemma isfinite_not_nan x : isfinite x = true -> is_nan x = false.
Proof. by destruct x. Qed.

Lemma dneg_abs_le_abs r l :
  is_nan r = false -> is_nan l = false ->
  dle (dneg (dabs r)) (dabs l) = true.
Proof.
  intros. eapply dle_trans; [by apply dneg_abs_nonpos | by apply dabs_nonneg].
Qed.

(** ** [std::clamp]

    On a value that is not NaN the result lies in the interval; a NaN value
    satisfies neither comparison and is returned unchanged. *)
Lemma dclamp_bounds v lo hi :
  is_nan v = false -> dle lo hi = true ->
  dle lo (dclamp v lo hi) = true /\ dle (dclamp v lo hi) hi = true.
Proof.
  intros Hv Hlh. destruct (dle_is_nan _ _ Hlh) as [Hlo Hhi]. unfold dclamp.
  destruct (dlt v lo) eqn:H1; [split; [by apply dle_refl | done]|].
  destruct (dlt hi v) eqn:H2; [split; [done | by apply dle_refl]|].
  rewrite dlt_not_le in H1, H2 by done. by apply negb_false_iff in H1, H2.
Qed.

Lemma dclamp_nan v lo hi : is_nan v = true -> dclamp v lo hi = v.
Proof. intros. unfold dclamp. by rewrite dlt_nan_l, dlt_nan_r. Qed.

Lemma dclamp_id v lo hi :
  dle lo v = true -> dle v hi = true -> dclamp v lo hi = v.
Proof.
  intros H1 H2. destruct (dle_is_nan _ _ H1), (dle_is_nan _ _ H2).
  unfold dclamp. by rewrite !dlt_not_le, H1, H2 by done.
Qed.

(** Zero stays zero in an interval around it, whatever the bounds are (even
    NaN bounds, which compare false with everything). *)
Lemma dclamp_zero r l : dclamp dzero (dneg (dabs r)) (dabs l) = dzero.
Proof. by destruct r as [[]|[]| |[] ? ?], l as [[]|[]| |[] ? ?]. Qed.

Lemma dmin_nan_r a b : is_nan b = true -> dmin a b = a.
Proof. intros. unfold dmin. by rewrite dlt_nan_l. Qed.

Lemma dmin_lt a b c :
  is_nan b = false -> is_nan a = false ->
  dlt (dmin a b) c = dlt a c || dlt b c.
Proof.
  intros Hb Ha. unfold dmin. destruct (dlt b a) eqn:H.
  - destruct (dlt a c) eqn:H2; simpl; [|done].
    eapply dlt_le_trans; [apply H|by apply dlt_dle].
  - destruct (dlt a c) eqn:H2; simpl; [done|]. symmetry.
    rewrite dlt_not_le in H by done. apply negb_false_iff in H.
    apply not_true_iff_false. intros H3.
    by rewrite (dle_lt_trans _ _ _ H H3) in H2.
Qed.

Lemma is_nan_dmin a b : is_nan a = false -> is_nan b = false -> is_nan (dmin a b) = false.
Proof. intros. unfold dmin. by destruct (dlt b a). Qed.


(** ** Exactness of the widening conversion

    A binary32 value is a binary64 value: [to_double] only renormalises the
    mantissa, so it is finite on finite inputs. *)
Definition valid_float (x : float32) : Prop := valid_binary 24 128 x = true.

Lemma digits2_iter_xO n m :
  Zpos (digits2_pos (Pos.iter xO m n)) = (Zpos (digits2_pos m) + Zpos n)%Z.
Proof.
  revert m. induction n as [|n IH] using Pos.peano_ind; intros m.
  - simpl. lia.
  - rewrite Pos.iter_succ. simpl. specialize (IH m). lia.
Qed.

Lemma valid_float_bounds s m e :
  valid_float (S754_finite s m e) ->
  (Zpos (digits2_pos m) <= 24 /\ -149 <= e <= 104)%Z.
Proof.
  unfold valid_float; simpl. unfold bounded, canonical_mantissa.
  rewrite andb_true_iff, Z.eqb_eq, Z.leb_le. unfold fexp, emin. lia.
Qed.

Lemma to_double_finite_bounds s m e :
  (Zpos (digits2_pos m) <= 24)%Z -> (-149 <= e <= 104)%Z ->
  isfinite (to_double (S754_finite s m e)) = true.
Proof.
  intros Hd He. simpl. unfold binary_round. set (d := Zpos (digits2_pos m)) in *.
  assert (0 < d)%Z by (subst d; lia).
  assert (fexp 53 1024 (d + e) = d + e - 53)%Z as -> by (unfold fexp, emin; lia).
  unfold shl_align. destruct (d + e - 53 - e)%Z as [|p|p] eqn:Hp; try lia.
  assert (Zpos p = 53 - d)%Z as Hp' by lia.
  unfold binary_round_aux, shr_fexp. simpl Zdigits2.
  rewrite digits2_iter_xO. fold d.
  replace (fexp 53 1024 (d + Zpos p + (d + e - 53)) - (d + e - 53))%Z with 0%Z
    by (unfold fexp, emin; lia).
  simpl. rewrite digits2_iter_xO. fold d.
  replace (fexp 53 1024 (d + Zpos p + (d + e - 53)) - (d + e - 53))%Z with 0%Z
    by (unfold fexp, emin; lia).
  cbn -[Z.leb Z.add Z.sub]. by destruct (Z.leb_spec (d + e - 53) (1024 - 53)); [|lia].
Qed.

Lemma to_double_finite x :
  valid_float x -> isfinite x = true -> isfinite (to_double x) = true.
Proof.
  destruct x as [| | |s m e]; try done. intros Hv _.
  apply valid_float_bounds in Hv as [Hd He]. by apply to_double_finite_bounds.
Qed.

Lemma is_nan_to_double x : is_nan x = true -> to_double x = S754_nan.
Proof. by destruct x. Qed.

(** ** Rounding never invents a NaN *)
Lemma shr_1_nonneg r : (0 <= shr_m r)%Z -> (0 <= shr_m (shr_1 r))%Z.
Proof. destruct r as [[|[p|p|]|p] r s]; simpl; lia. Qed.

Lemma iter_shr_nonneg n r :
  (0 <= shr_m r)%Z -> (0 <= shr_m (iter_pos shr_1 n r))%Z.
Proof. revert r; induction n; simpl; auto using shr_1_nonneg. Qed.

Lemma shr_fexp_nonneg prec emax m e l :
  (0 <= m)%Z -> (0 <= shr_m (fst (shr_fexp prec emax m e l)))%Z.
Proof.
  intros Hm. unfold shr_fexp, shr.
  assert (0 <= shr_m (shr_record_of_loc m l))%Z as H
    by (destruct l as [|[]]; simpl; lia).
  destruct (_ - e)%Z; simpl; auto using iter_shr_nonneg.
Qed.

Lemma round_nearest_even_nonneg m l : (0 <= m -> 0 <= round_nearest_even m l)%Z.
Proof. destruct l as [|[]]; simpl; try lia. destruct (Z.even m); lia. Qed.

Lemma binary_round_aux_not_nan prec emax s m e l :
  (0 <= m)%Z -> is_nan (binary_round_aux prec emax s m e l) = false.
Proof.
  intros Hm. unfold binary_round_aux.
  pose proof (shr_fexp_nonneg prec emax m e l Hm) as H1.
  destruct (shr_fexp prec emax m e l) as [r1 e1]; simpl in *.
  pose proof (shr_fexp_nonneg prec emax
    (round_nearest_even (shr_m r1) (loc_of_shr_record r1)) e1 loc_Exact
    (round_nearest_even_nonneg _ _ H1)) as H2.
  destruct (shr_fexp prec emax _ e1 loc_Exact) as [r2 e2]; simpl in *.
  destruct (shr_m r2); simpl; [done| |lia]. by destruct (_ <=? _)%Z.
Qed.

Lemma round_to_nan prec emax x : is_nan (round_to prec emax x) = is_nan x.
Proof.
  destruct x; simpl; try done. unfold binary_round.
  destruct (shl_align _ _ _) as [mz ez]. by apply binary_round_aux_not_nan.
Qed.

(** ** Narrowing yields a binary32 value

    The mantissa of a rounded value has at most 24 digits, so that widening a
    narrowed finite value stays finite. *)
Lemma Zdigits2_nonneg m : (0 <= Zdigits2 m)%Z.
Proof. destruct m; simpl; lia. Qed.

Lemma shr_1_digits r :
  (0 <= shr_m r)%Z -> Zdigits2 (shr_m (shr_1 r)) = Z.max 0 (Zdigits2 (shr_m r) - 1).
Proof. destruct r as [[|[p|p|]|p] r s]; simpl; lia. Qed.

Lemma iter_shr_digits n r :
  (0 <= shr_m r)%Z ->
  Zdigits2 (shr_m (iter_pos shr_1 n r)) = Z.max 0 (Zdigits2 (shr_m r) - Zpos n).
Proof.
  revert r; induction n as [n IH|n IH|]; intros r Hr; simpl.
  - rewrite !IH by auto using shr_1_nonneg, iter_shr_nonneg.
    rewrite shr_1_digits by done. lia.
  - rewrite !IH by auto using iter_shr_nonneg. lia.
  - by rewrite shr_1_digits.
Qed.

Lemma shr_record_m m l : shr_m (shr_record_of_loc m l) = m.
Proof. by destruct l as [|[]]. Qed.

Lemma shr_fexp_bounds m e l r e' :
  (0 <= m)%Z -> shr_fexp 24 128 m e l = (r, e') ->
  (0 <= shr_m r /\ Zdigits2 (shr_m r) <= 24 /\ -149 <= e')%Z.
Proof.
  intros Hm E. pose proof (shr_fexp_nonneg 24 128 m e l Hm) as Hr. rewrite E in Hr.
  split; [done|]. unfold shr_fexp, shr in E.
  pose proof (Zdigits2_nonneg m). set (d := Zdigits2 m) in *.
  assert (fexp 24 128 (d + e) = Z.max (d + e - 24) (-149)) as Hf by done.
  destruct (fexp 24 128 (d + e) - e)%Z as [|n|n] eqn:En; injection E as <- <-.
  - rewrite shr_record_m. unfold d in *. lia.
  - rewrite iter_shr_digits by (by rewrite shr_record_m). rewrite shr_record_m. fold d. lia.
  - rewrite shr_record_m. unfold d in *. lia.
Qed.

Lemma narrow_widen_finite x :
  isfinite (to_float x) = true -> isfinite (to_double (to_float x)) = true.
Proof.
  destruct x as [| | |s m e]; try done. unfold to_float, round_to, binary_round.
  destruct (shl_align m e _) as [mz ez]. unfold binary_round_aux.
  destruct (shr_fexp 24 128 (Zpos mz) ez loc_Exact) as [r1 e1] eqn:E1.
  apply shr_fexp_bounds in E1 as (H1 & _ & _); [|lia].
  destruct (shr_fexp 24 128 _ e1 loc_Exact) as [r2 e2] eqn:E2.
  apply shr_fexp_bounds in E2 as (H2 & Hd & He); [|by apply round_nearest_even_nonneg].
  destruct (shr_m r2) as [|q|q]; [done| |done].
  destruct (Z.leb_spec e2 (128 - 24)); [|done]. intros _.
  apply to_double_finite_bounds; [exact Hd|lia].
Qed.

(** ** Signs of converted integers and quotients *)
Definition nonnegative (x : spec_float) : Prop :=
  match x with
  | S754_zero s | S754_infinity s | S754_finite s _ _ => s = false
  | S754_nan => True
  end.

Lemma nonnegative_not_lt_zero x : nonnegative x -> dlt x dzero = false.
Proof. destruct x as [[]|[]| |[] m e]; simpl; done. Qed.

Lemma binary_round_aux_sign prec emax m e l :
  nonnegative (binary_round_aux prec emax false m e l).
Proof.
  unfold binary_round_aux.
  destruct (shr_fexp prec emax m e l) as [r1 e1], (shr_fexp _ _ _ e1 _) as [r2 e2].
  destruct (shr_m r2); simpl; try done. by destruct (e2 <=? emax - prec)%Z.
Qed.

Lemma of_int_nonnegative z : (0 <= z)%Z -> nonnegative (of_int z).
Proof.
  intros Hz. unfold of_int, binary_normalize. destruct z as [|q|q]; [done| |lia].
  unfold binary_round. destruct (shl_align _ _ _) as [mz ez]. apply binary_round_aux_sign.
Qed.

Lemma ddiv_nonnegative x y : nonnegative x -> nonnegative y -> nonnegative (ddiv x y).
Proof.
  destruct x as [[]|[]| |[] mx ex], y as [[]|[]| |[] my ey]; simpl; intros; try done.
  unfold ddiv, SFdiv. destruct (SFdiv_core_binary _ _ _ _ _ _) as [[mz ez] lz].
  apply binary_round_aux_sign.
Qed.
