(* ===== verification/Messages.v ===== *)
(** * ROS messages and time

    The messages of [vehicle_interfaces] field by field, the parts of the
    [geometry_msgs] and [std_msgs] types the nodes read and write, and the
    interface to [rclcpp] time.  Every message lives in a module of its own, so
    that [SystemState.mode] reads like the C++ field access; [zero] is the
    default-constructed message.  Integers are [Z], [float32] and [float64]
    are the IEEE values of [Floats], [uint8] byte arrays are lists of [Z]. *)
From S2P Require Import Prelude Floats.

(** [builtin_interfaces::msg::Time] (and [Duration], which has the same two
    fields). *)
Record Time := MakeTime { sec : Z; nanosec : Z }.
Definition time_zero : Time := MakeTime 0 0.

(** ** [rclcpp] time

    [rclcpp] is not part of the repository: the conversions it provides are the
    operations of a class, and every definition that uses them takes an
    instance.  An [rclcpp::Time] is its number of nanoseconds. *)
Class Rclcpp := {
  (** [rclcpp::Time(msg).nanoseconds()] *)
  time_ns : Time -> Z;
  (** assigning an [rclcpp::Time] (or [Duration]) to a message field *)
  to_msg : Z -> Time;
  (** [rclcpp::Duration::seconds()] of a duration in nanoseconds *)
  seconds : Z -> double;
  (** [rclcpp::Duration::from_seconds], in nanoseconds *)
  from_seconds : double -> Z
}.

(** The behaviour documented for [rclcpp], as one instance: the theorems'
    witnesses evaluate with it, the theorems hold for every instance. *)
Definition rclcpp_doc : Rclcpp := {|
  time_ns t := (sec t * 1000000000 + nanosec t)%Z;
  to_msg n := MakeTime (n / 1000000000) (n mod 1000000000);
  seconds n := ddiv (of_int n) (of_int 1000000000);
  from_seconds d := trunc_int (dmul d (of_int 1000000000))
|}.

(** [std::chrono::duration<double>] of a [steady_clock] duration in
    nanoseconds, and [duration_cast] of a floating duration back to the
    clock's integer nanoseconds. *)
Definition chrono_seconds (ns : Z) : double := ddiv (of_int ns) (of_int 1000000000).
Definition chrono_duration_cast (s : double) : Z := trunc_int (dmul s (of_int 1000000000)).

Lemma chrono_seconds_nonneg ns : (0 <= ns)%Z -> dlt (chrono_seconds ns) dzero = false.
Proof.
  intros Hn. apply nonnegative_not_lt_zero, ddiv_nonnegative; by apply of_int_nonnegative.
Qed.

(** [std::chrono::duration<float, std::milli>] of a duration in nanoseconds *)
Definition chrono_millis_float (ns : Z) : float32 := fdiv (of_intf ns) (of_intf 1000000).

(** ** [std_msgs] and [geometry_msgs] *)
Module Header.
Record HeaderMsg := Make { stamp : Time; frame_id : string }.
Definition zero : HeaderMsg := Make time_zero "".
End Header.
Abbreviation Header := Header.HeaderMsg.

Module Vector3.
Record Vector3Msg := Make { x : double; y : double; z : double }.
#[export] Instance eta_Vector3 : Eta Vector3Msg := fun v => Make (x v) (y v) (z v).
Definition zero : Vector3Msg := Make dzero dzero dzero.
End Vector3.
Abbreviation Vector3 := Vector3.Vector3Msg.

Module Twist.
Record TwistMsg := Make { linear : Vector3; angular : Vector3 }.
#[export] Instance eta_Twist : Eta TwistMsg := fun t => Make (linear t) (angular t).
Definition zero : TwistMsg := Make Vector3.zero Vector3.zero.
(** a twist with a forward speed and a yaw rate only *)
Definition planar (v w : double) : TwistMsg :=
  Make (Vector3.Make v dzero dzero) (Vector3.Make dzero dzero w).
End Twist.
Abbreviation Twist := Twist.TwistMsg.

Module TwistStamped.
Record TwistStampedMsg := Make { header : Header; twist : Twist }.
#[export] Instance eta_TwistStamped : Eta TwistStampedMsg :=
  fun t => Make (header t) (twist t).
Definition zero : TwistStampedMsg := Make Header.zero Twist.zero.
End TwistStamped.
Abbreviation TwistStamped := TwistStamped.TwistStampedMsg.

(** ** [vehicle_interfaces] *)
Module SystemState.
Definition MODE_MANUAL : Z := 0.
Definition MODE_NAV2 : Z := 1.
Definition MODE_VLA_SHADOW : Z := 2.
Definition MODE_VLA_ASSISTED : Z := 3.
Definition MODE_VLA_AUTONOMOUS : Z := 4.
Definition MODE_MOBILE_TELEOP : Z := 5.
Definition MODE_REMOTE_TELEOP : Z := 6.
Definition MODE_SAFE_STOP : Z := 7.
Definition MODE_FAULT : Z := 8.
Record SystemStateMsg := Make {
  header : Header;
  mode : Z;
  control_source : string;
  active_mission_id : string;
  active_policy_id : string;
  safe_to_move : bool;
  status_message : string }.
#[export] Instance eta_SystemState : Eta SystemStateMsg := fun m =>
  Make (header m) (mode m) (control_source m) (active_mission_id m) (active_policy_id m) (safe_to_move m) (status_message m).
Definition zero : SystemStateMsg :=
  Make Header.zero 0%Z ""%string ""%string ""%string false ""%string.
End SystemState.

Module PolicyStatus.
Definition STATE_DISCONNECTED : Z := 0.
Definition STATE_LOADING : Z := 1.
Definition STATE_READY : Z := 2.
Definition STATE_ERROR : Z := 3.
Record PolicyStatusMsg := Make {
  header : Header;
  state : Z;
  provider_id : string;
  model_id : string;
  protocol_version : string;
  observation_schema : string;
  action_schema : string;
  inference_latency_ms : float32;
  message : string }.
#[export] Instance eta_PolicyStatus : Eta PolicyStatusMsg := fun m =>
  Make (header m) (state m) (provider_id m) (model_id m) (protocol_version m) (observation_schema m) (action_schema m) (inference_latency_ms m) (message m).
Definition zero : PolicyStatusMsg :=
  Make Header.zero 0%Z ""%string ""%string ""%string ""%string ""%string fzero ""%string.
End PolicyStatus.

Module SafetyEvent.
Definition SEVERITY_INFO : Z := 0.
Definition SEVERITY_WARNING : Z := 1.
Definition SEVERITY_STOP : Z := 2.
Definition SEVERITY_FAULT : Z := 3.
Record SafetyEventMsg := Make {
  header : Header;
  severity : Z;
  rule_id : string;
  reason : string;
  active : bool }.
#[export] Instance eta_SafetyEvent : Eta SafetyEventMsg := fun m =>
  Make (header m) (severity m) (rule_id m) (reason m) (active m).
Definition zero : SafetyEventMsg :=
  Make Header.zero 0%Z ""%string ""%string false.
End SafetyEvent.

Module ControlLease.
Record ControlLeaseMsg := Make {
  header : Header;
  lease_id : string;
  controller_id : string;
  source : string;
  expires_at : Time;
  max_linear_velocity : float32;
  max_angular_velocity : float32;
  remote : bool;
  active : bool }.
#[export] Instance eta_ControlLease : Eta ControlLeaseMsg := fun m =>
  Make (header m) (lease_id m) (controller_id m) (source m) (expires_at m) (max_linear_velocity m) (max_angular_velocity m) (remote m) (active m).
Definition zero : ControlLeaseMsg :=
  Make Header.zero ""%string ""%string ""%string time_zero fzero fzero false false.
End ControlLease.

Module TeleopCommand.
Record TeleopCommandMsg := Make {
  header : Header;
  lease_id : string;
  controller_id : string;
  sequence : Z;
  valid_for : Time;
  deadman : bool;
  manual_obstacle_override : bool;
  linear_normalized : float32;
  angular_normalized : float32 }.
#[export] Instance eta_TeleopCommand : Eta TeleopCommandMsg := fun m =>
  Make (header m) (lease_id m) (controller_id m) (sequence m) (valid_for m) (deadman m) (manual_obstacle_override m) (linear_normalized m) (angular_normalized m).
Definition zero : TeleopCommandMsg :=
  Make Header.zero ""%string ""%string 0%Z time_zero false false fzero fzero.
End TeleopCommand.

Module CompressedImage.
Record CompressedImageMsg := Make {
  header : Header;
  format : string;
  data : list Z }.
#[export] Instance eta_CompressedImage : Eta CompressedImageMsg := fun m =>
  Make (header m) (format m) (data m).
Definition zero : CompressedImageMsg :=
  Make Header.zero ""%string [].
End CompressedImage.

Module PolicyObservation.
Record PolicyObservationMsg := Make {
  header : Header;
  observation_id : string;
  schema_version : string;
  task : string;
  image_keys : list string;
  images : list CompressedImage.CompressedImageMsg;
  state_keys : list string;
  state : list float32;
  state_valid : list bool;
  generated_at : Time;
  valid_until : Time }.
#[export] Instance eta_PolicyObservation : Eta PolicyObservationMsg := fun m =>
  Make (header m) (observation_id m) (schema_version m) (task m) (image_keys m) (images m) (state_keys m) (state m) (state_valid m) (generated_at m) (valid_until m).
Definition zero : PolicyObservationMsg :=
  Make Header.zero ""%string ""%string ""%string [] [] [] [] [] time_zero time_zero.
End PolicyObservation.

Module PolicyAction.
Record PolicyActionMsg := Make {
  header : Header;
  request_id : string;
  observation_id : string;
  model_id : string;
  schema_version : string;
  schema_hash : string;
  feature_names : list string;
  feature_units : list string;
  generated_at : Time;
  valid_until : Time;
  control_period : Time;
  action_vectors : list (list float32);
  actions : list Twist }.
#[export] Instance eta_PolicyAction : Eta PolicyActionMsg := fun m =>
  Make (header m) (request_id m) (observation_id m) (model_id m) (schema_version m) (schema_hash m) (feature_names m) (feature_units m) (generated_at m) (valid_until m) (control_period m) (action_vectors m) (actions m).
Definition zero : PolicyActionMsg :=
  Make Header.zero ""%string ""%string ""%string ""%string ""%string [] [] time_zero time_zero time_zero [] [].
End PolicyAction.

Module TrainingAction.
Record TrainingActionMsg := Make {
  header : Header;
  observation_id : string;
  action_schema : string;
  schema_hash : string;
  feature_names : list string;
  feature_units : list string;
  values : list float32;
  source : string;
  safety_intervened : bool;
  safety_reasons : list string }.
#[export] Instance eta_TrainingAction : Eta TrainingActionMsg := fun m =>
  Make (header m) (observation_id m) (action_schema m) (schema_hash m) (feature_names m) (feature_units m) (values m) (source m) (safety_intervened m) (safety_reasons m).
Definition zero : TrainingActionMsg :=
  Make Header.zero ""%string ""%string ""%string [] [] [] ""%string false [].
End TrainingAction.

Module EpisodeState.
Definition STATE_IDLE : Z := 0.
Definition STATE_RECORDING : Z := 1.
Definition STATE_FINALIZING : Z := 2.
Definition STATE_ERROR : Z := 3.
Record EpisodeStateMsg := Make {
  header : Header;
  state : Z;
  episode_id : string;
  task : string;
  directory : string;
  message_count : Z;
  image_count : Z;
  elapsed_seconds : float32;
  message : string }.
#[export] Instance eta_EpisodeState : Eta EpisodeStateMsg := fun m =>
  Make (header m) (state m) (episode_id m) (task m) (directory m) (message_count m) (image_count m) (elapsed_seconds m) (message m).
Definition zero : EpisodeStateMsg :=
  Make Header.zero 0%Z ""%string ""%string ""%string 0%Z 0%Z fzero ""%string.
End EpisodeState.

Module ObservationStatus.
Record ObservationStatusMsg := Make {
  header : Header;
  ready : bool;
  camera_ready : bool;
  camera_calibrated : bool;
  odometry_ready : bool;
  imu_ready : bool;
  camera_age_seconds : float32;
  odometry_age_seconds : float32;
  imu_age_seconds : float32;
  image_width : Z;
  image_height : Z;
  message : string }.
#[export] Instance eta_ObservationStatus : Eta ObservationStatusMsg := fun m =>
  Make (header m) (ready m) (camera_ready m) (camera_calibrated m) (odometry_ready m) (imu_ready m) (camera_age_seconds m) (odometry_age_seconds m) (imu_age_seconds m) (image_width m) (image_height m) (message m).
Definition zero : ObservationStatusMsg :=
  Make Header.zero false false false false false fzero fzero fzero 0%Z 0%Z ""%string.
End ObservationStatus.

Module ShadowComparison.
Record ShadowComparisonMsg := Make {
  header : Header;
  request_id : string;
  observation_id : string;
  model_id : string;
  prediction_generated_at : Time;
  evaluated_at : Time;
  predicted : Twist;
  executed : Twist;
  linear_absolute_error : float32;
  angular_absolute_error : float32;
  within_threshold : bool;
  message : string }.
#[export] Instance eta_ShadowComparison : Eta ShadowComparisonMsg := fun m =>
  Make (header m) (request_id m) (observation_id m) (model_id m) (prediction_generated_at m) (evaluated_at m) (predicted m) (executed m) (linear_absolute_error m) (angular_absolute_error m) (within_threshold m) (message m).
Definition zero : ShadowComparisonMsg :=
  Make Header.zero ""%string ""%string ""%string time_zero time_zero Twist.zero Twist.zero fzero fzero false ""%string.
End ShadowComparison.

Module ShadowMetrics.
Record ShadowMetricsMsg := Make {
  header : Header;
  model_id : string;
  sample_count : Z;
  linear_mean_absolute_error : float32;
  angular_mean_absolute_error : float32;
  latest_linear_absolute_error : float32;
  latest_angular_absolute_error : float32;
  latest_prediction_age_seconds : float32;
  prediction_fresh : bool;
  message : string }.
#[export] Instance eta_ShadowMetrics : Eta ShadowMetricsMsg := fun m =>
  Make (header m) (model_id m) (sample_count m) (linear_mean_absolute_error m) (angular_mean_absolute_error m) (latest_linear_absolute_error m) (latest_angular_absolute_error m) (latest_prediction_age_seconds m) (prediction_fresh m) (message m).
Definition zero : ShadowMetricsMsg :=
  Make Header.zero ""%string 0%Z fzero fzero fzero fzero fzero false ""%string.
End ShadowMetrics.

Module PipelineStage.
Definition STATUS_WAITING : Z := 0.
Definition STATUS_LIVE : Z := 1.
Definition STATUS_READY : Z := 2.
Definition STATUS_RUNNING : Z := 3.
Definition STATUS_STALE : Z := 4.
Definition STATUS_SKIPPED : Z := 5.
Definition STATUS_REJECTED : Z := 6.
Definition STATUS_FAILED : Z := 7.
Record PipelineStageMsg := Make {
  stage_id : string;
  label : string;
  component : string;
  status : Z;
  updated_at : Time;
  age_seconds : float32;
  latency_ms : float32;
  input_summary : string;
  output_summary : string;
  message : string;
  detail_json : string;
  control_boundary : bool;
  publishes_control : bool }.
#[export] Instance eta_PipelineStage : Eta PipelineStageMsg := fun m =>
  Make (stage_id m) (label m) (component m) (status m) (updated_at m) (age_seconds m) (latency_ms m) (input_summary m) (output_summary m) (message m) (detail_json m) (control_boundary m) (publishes_control m).
Definition zero : PipelineStageMsg :=
  Make ""%string ""%string ""%string 0%Z time_zero fzero fzero ""%string ""%string ""%string ""%string false false.
End PipelineStage.

Module PipelineTrace.
Record PipelineTraceMsg := Make {
  header : Header;
  trace_id : string;
  observation_id : string;
  mode : string;
  provider_id : string;
  model_id : string;
  stages : list PipelineStage.PipelineStageMsg;
  shadow_only : bool;
  publishes_control : bool }.
#[export] Instance eta_PipelineTrace : Eta PipelineTraceMsg := fun m =>
  Make (header m) (trace_id m) (observation_id m) (mode m) (provider_id m) (model_id m) (stages m) (shadow_only m) (publishes_control m).
Definition zero : PipelineTraceMsg :=
  Make Header.zero ""%string ""%string ""%string ""%string ""%string [] false false.
End PipelineTrace.

Module ComponentState.
Record ComponentStateMsg := Make {
  component_id : string;
  display_name : string;
  group_name : string;
  unit_name : string;
  state : string;
  managed : bool;
  healthy : bool;
  can_start : bool;
  can_stop : bool;
  can_restart : bool;
  pid : Z;
  uptime_seconds : double;
  last_exit_code : Z;
  message : string;
  dependencies : list string;
  expected_nodes : list string;
  health_topics : list string }.
#[export] Instance eta_ComponentState : Eta ComponentStateMsg := fun m =>
  Make (component_id m) (display_name m) (group_name m) (unit_name m) (state m) (managed m) (healthy m) (can_start m) (can_stop m) (can_restart m) (pid m) (uptime_seconds m) (last_exit_code m) (message m) (dependencies m) (expected_nodes m) (health_topics m).
Definition zero : ComponentStateMsg :=
  Make ""%string ""%string ""%string ""%string ""%string false false false false false 0%Z dzero 0%Z ""%string [] [] [].
End ComponentState.

Module StorageItem.
Record StorageItemMsg := Make {
  item_id : string;
  display_name : string;
  path : string;
  bytes : Z;
  modified_at : Time;
  is_protected : bool;
  message : string }.
#[export] Instance eta_StorageItem : Eta StorageItemMsg := fun m =>
  Make (item_id m) (display_name m) (path m) (bytes m) (modified_at m) (is_protected m) (message m).
Definition zero : StorageItemMsg :=
  Make ""%string ""%string ""%string 0%Z time_zero false ""%string.
End StorageItem.

Module StorageCategory.
Record StorageCategoryMsg := Make {
  category_id : string;
  display_name : string;
  path : string;
  bytes : Z;
  item_count : Z;
  cleanup_allowed : bool;
  automatic_cleanup : bool;
  message : string }.
#[export] Instance eta_StorageCategory : Eta StorageCategoryMsg := fun m =>
  Make (category_id m) (display_name m) (path m) (bytes m) (item_count m) (cleanup_allowed m) (automatic_cleanup m) (message m).
Definition zero : StorageCategoryMsg :=
  Make ""%string ""%string ""%string 0%Z 0%Z false false ""%string.
End StorageCategory.

(** Make the record-update instances available to the clients. *)
#[export] Existing Instance Vector3.eta_Vector3.
#[export] Existing Instance Twist.eta_Twist.
#[export] Existing Instance TwistStamped.eta_TwistStamped.
#[export] Existing Instance SystemState.eta_SystemState.
#[export] Existing Instance PolicyStatus.eta_PolicyStatus.
#[export] Existing Instance SafetyEvent.eta_SafetyEvent.
#[export] Existing Instance ControlLease.eta_ControlLease.
#[export] Existing Instance TeleopCommand.eta_TeleopCommand.
#[export] Existing Instance CompressedImage.eta_CompressedImage.
#[export] Existing Instance PolicyObservation.eta_PolicyObservation.
#[export] Existing Instance PolicyAction.eta_PolicyAction.
#[export] Existing Instance TrainingAction.eta_TrainingAction.
#[export] Existing Instance EpisodeState.eta_EpisodeState.
#[export] Existing Instance ObservationStatus.eta_ObservationStatus.
#[export] Existing Instance ShadowComparison.eta_ShadowComparison.
#[export] Existing Instance ShadowMetrics.eta_ShadowMetrics.
#[export] Existing Instance PipelineStage.eta_PipelineStage.
#[export] Existing Instance PipelineTrace.eta_PipelineTrace.
#[export] Existing Instance ComponentState.eta_ComponentState.
#[export] Existing Instance StorageItem.eta_StorageItem.
#[export] Existing Instance StorageCategory.eta_StorageCategory.
