(* ===== verification/JsonData.v ===== *)
(** * JSON values and the exceptions of the operations service

    [nlohmann::json] is third-party: [JsonValue] is the data its values hold,
    and the class [Nlohmann] has the operations whose behaviour the model leaves
    open (parsing, printing, arithmetic conversions).  Access to members follows
    its documentation: [value] throws when the value is not an object or the
    member has another type.  [Exn] tells apart the exception classes that the
    HTTP handlers of [vehicle_ops] answer differently. *)
From S2P Require Import Prelude Floats.
Local Open Scope Z_scope.

(** ** Values *)
Inductive JsonValue :=
| J_null
| J_bool (b : bool)
| J_integer (z : Z)
| J_number (x : double)
| J_string (s : string)
| J_array (l : list JsonValue)
| J_object (members : list (string * JsonValue)).

(** [dump] and [dump_indent] throw [type_error] when a string is not UTF-8,
    [parse] throws [parse_error], a conversion throws [type_error]. *)
Class Nlohmann := {
  dump : JsonValue -> Outcome string;
  (** [stream << std::setw(n) << value] *)
  dump_indent : Z -> JsonValue -> Outcome string;
  parse : string -> Outcome JsonValue;
  get_int : JsonValue -> Outcome Z;
  get_uint32 : JsonValue -> Outcome Z;
  get_uint64 : JsonValue -> Outcome Z;
  get_float : JsonValue -> Outcome float32;
  get_double : JsonValue -> Outcome double
}.

(** ** Exceptions

    By the classes the handlers catch: [std::invalid_argument],
    [std::length_error] and [std::out_of_range] are [std::logic_error]s,
    [std::filesystem::filesystem_error] is a [std::runtime_error], and
    [nlohmann::json::exception] derives from [std::exception] directly. *)
Inductive Exn :=
| InvalidArgument (what : string)
| LengthError (what : string)
| OutOfRange (what : string)
| RuntimeError (what : string)
| JsonError (what : string)
| OtherError (what : string).

Definition what (e : Exn) : string :=
  match e with
  | InvalidArgument w | LengthError w | OutOfRange w | RuntimeError w | JsonError w | OtherError w => w
  end.

Inductive Result (A : Type) : Type :=
| Done (a : A)
| Raised (e : Exn).
Arguments Done {A} _.
Arguments Raised {A} _.

Definition rbind {A B} (m : Result A) (k : A -> Result B) : Result B :=
  match m with
  | Done a => k a
  | Raised e => Raised e
  end.

Declare Scope result_scope.
Delimit Scope result_scope with result.
Notation "'let?' x ':=' m 'in' k" := (rbind m (fun x => k))
  (at level 10, x pattern, m at level 100, k at level 200) : result_scope.

(** [if (b) {throw e;}] *)
Definition check (b : bool) (e : Exn) : Result unit := if b then Done tt else Raised e.

(** a call into the JSON library *)
Definition json {A} (m : Outcome A) : Result A :=
  match m with
  | Returns a => Done a
  | Throws w => Raised (JsonError w)
  end.

Lemma rbind_done {A B} (m : Result A) (k : A -> Result B) b :
  rbind m k = Done b <-> exists a, m = Done a /\ k a = Done b.
Proof. destruct m; simpl; naive_solver. Qed.

Lemma check_done b e u : check b e = Done u <-> b = true.
Proof. destruct b, u; simpl; naive_solver. Qed.

Fixpoint rmap {A B} (f : A -> Result B) (l : list A) : Result (list B) :=
  match l with
  | [] => Done []
  | x :: r => rbind (f x) (fun y => rbind (rmap f r) (fun ys => Done (y :: ys)))
  end.

Lemma rmap_done {A B} (f : A -> Result B) l ys :
  rmap f l = Done ys <-> Forall2 (fun x y => f x = Done y) l ys.
Proof.
  revert ys; induction l as [|x r IH]; intros ys; simpl.
  - split; [intros [= <-]; constructor | by inversion 1].
  - rewrite rbind_done. split.
    + intros (y & Hy & (zs & Hzs & [= <-])%rbind_done). constructor; [done|]. by apply IH.
    + inversion 1 as [|? y ? zs Hy Hzs]; subst. exists y; split; [done|].
      apply rbind_done. exists zs; split; [by apply IH|done].
Qed.

(** ** Access *)
Fixpoint find_member (key : string) (members : list (string * JsonValue)) : option JsonValue :=
  match members with
  | [] => None
  | (k, v) :: r => if str_eqb k key then Some v else find_member key r
  end.

Definition is_object (v : JsonValue) : bool := match v with J_object _ => true | _ => false end.
Definition is_array (v : JsonValue) : bool := match v with J_array _ => true | _ => false end.
Definition is_string (v : JsonValue) : bool := match v with J_string _ => true | _ => false end.
Definition is_null (v : JsonValue) : bool := match v with J_null => true | _ => false end.

(** [v.contains(key)] together with [v.at(key)]: no member of what is not an object *)
Definition member (key : string) (v : JsonValue) : option JsonValue :=
  match v with J_object members => find_member key members | _ => None end.

Definition json_size (v : JsonValue) : Z :=
  match v with
  | J_null => 0
  | J_array l => Z.of_nat (List.length l)
  | J_object members => Z.of_nat (List.length members)
  | _ => 1
  end.

Definition type_error {A} : Outcome A := Throws "type_error".

(** [v.value(key, default)] for a [default] of type [A], [get] being the conversion *)
Definition value {A} (get : JsonValue -> Outcome A) (key : string) (default : A) (v : JsonValue)
  : Outcome A :=
  match v with
  | J_object members =>
      match find_member key members with
      | Some x => get x
      | None => Returns default
      end
  | _ => type_error
  end.

Definition get_string (v : JsonValue) : Outcome string :=
  match v with J_string s => Returns s | _ => type_error end.
Definition get_bool (v : JsonValue) : Outcome bool :=
  match v with J_bool b => Returns b | _ => type_error end.
Definition get_json (v : JsonValue) : Outcome JsonValue := Returns v.

Definition value_string := value get_string.
Definition value_bool := value get_bool.
Definition value_json := value get_json.

(** [v[key] = x] of an object (the member is replaced or added) or of null,
    which becomes one; the sources use it on nothing else *)
Fixpoint set_member (key : string) (x : JsonValue) (members : list (string * JsonValue))
  : list (string * JsonValue) :=
  match members with
  | [] => [(key, x)]
  | (k, v) :: r => if str_eqb k key then (k, x) :: r else (k, v) :: set_member key x r
  end.
Definition set (key : string) (x : JsonValue) (v : JsonValue) : JsonValue :=
  match v with J_object members => J_object (set_member key x members) | _ => J_object [(key, x)] end.

Lemma find_set_member key x members : find_member key (set_member key x members) = Some x.
Proof.
  induction members as [|[k v] r IH]; simpl; [by rewrite str_eqb_refl|].
  destruct (str_eqb k key) eqn:E; simpl; by rewrite E.
Qed.
Lemma find_set_other key other x members :
  key <> other -> find_member other (set_member key x members) = find_member other members.
Proof.
  intros Hne. induction members as [|[k v] r IH]; simpl.
  - by rewrite (proj2 (str_eqb_neq _ _) Hne).
  - destruct (str_eqb k key) eqn:E; simpl; [|by rewrite IH].
    apply str_eqb_spec in E as ->. by rewrite (proj2 (str_eqb_neq _ _) Hne).
Qed.

(** ** Values as maps

    [nlohmann::json] keeps the members of an object sorted by key: two values
    are the same when their members are, whatever the order. *)
Inductive same : JsonValue -> JsonValue -> Prop :=
| same_refl v : same v v
| same_array l l' : Forall2 same l l' -> same (J_array l) (J_array l')
| same_object m m' :
    (forall key, option_Forall2 same (find_member key m) (find_member key m')) ->
    same (J_object m) (J_object m').

Lemma same_member v v' key : same v v' -> option_Forall2 same (member key v) (member key v').
Proof.
  intros Hs. destruct Hs as [v| |m m' Hm]; simpl; [|constructor|apply Hm].
  destruct (member key v); constructor. apply same_refl.
Qed.

(** the text of a member *)
Lemma same_string v v' key s :
  same v v' -> member key v = Some (J_string s) -> member key v' = Some (J_string s).
Proof.
  intros Hs E. pose proof (same_member v v' key Hs) as Hm. rewrite E in Hm.
  inversion Hm as [? x Hx|]; subst. by inversion Hx.
Qed.
Lemma same_integer v v' key z :
  same v v' -> member key v = Some (J_integer z) -> member key v' = Some (J_integer z).
Proof.
  intros Hs E. pose proof (same_member v v' key Hs) as Hm. rewrite E in Hm.
  inversion Hm as [? x Hx|]; subst. by inversion Hx.
Qed.

(** the values the library can write and read back: integers of 64 bits, finite
    numbers, one member of each name *)
Fixpoint distinct (l : list string) : bool :=
  match l with [] => true | x :: r => negb (existsb (str_eqb x) r) && distinct r end.
Fixpoint well_formed (v : JsonValue) : bool :=
  match v with
  | J_integer z => (- 2 ^ 63 <=? z) && (z <? 2 ^ 64)
  | J_number x => isfinite x
  | J_array l => forallb well_formed l
  | J_object members => distinct (map fst members) && forallb (fun m => well_formed (snd m)) members
  | _ => true
  end.

Definition newline : string := String (ascii_of_nat 10) "".

(** the documented behaviour: what is written is read back, and an integer that
    fits is converted to itself *)
Class NlohmannRoundTrip `{Nlohmann} := {
  reads_back n v text : well_formed v = true -> dump_indent n v = Returns text ->
    exists v', parse (text ++ newline)%string = Returns v' /\ same v v';
  get_int_exact z : - 2 ^ 31 <= z < 2 ^ 31 -> get_int (J_integer z) = Returns z
}.

(** ** Induction and equality *)
Section Induction.
Variable P : JsonValue -> Prop.
Hypothesis Pnull : P J_null.
Hypothesis Pbool : forall b, P (J_bool b).
Hypothesis Pinteger : forall z, P (J_integer z).
Hypothesis Pnumber : forall x, P (J_number x).
Hypothesis Pstring : forall s, P (J_string s).
Hypothesis Parray : forall l, Forall P l -> P (J_array l).
Hypothesis Pobject : forall m, Forall (fun e => P (snd e)) m -> P (J_object m).

Fixpoint json_induction (v : JsonValue) : P v :=
  match v with
  | J_null => Pnull
  | J_bool b => Pbool b
  | J_integer z => Pinteger z
  | J_number x => Pnumber x
  | J_string s => Pstring s
  | J_array l => Parray l ((fix go l : Forall P l :=
      match l with
      | [] => Forall_nil_2 _
      | x :: r => Forall_cons_2 _ x r (json_induction x) (go r)
      end) l)
  | J_object m => Pobject m ((fix go m : Forall (fun e => P (snd e)) m :=
      match m with
      | [] => Forall_nil_2 _
      | e :: r => Forall_cons_2 _ e r (json_induction (snd e)) (go r)
      end) m)
  end.
End Induction.

(** equality of values without numbers *)
Fixpoint json_eqb (a b : JsonValue) : bool :=
  match a, b with
  | J_null, J_null => true
  | J_bool x, J_bool y => Bool.eqb x y
  | J_integer x, J_integer y => x =? y
  | J_string x, J_string y => str_eqb x y
  | J_array l, J_array l' =>
      (fix go l l' : bool :=
         match l, l' with
         | [], [] => true
         | x :: r, y :: r' => json_eqb x y && go r r'
         | _, _ => false
         end) l l'
  | J_object m, J_object m' =>
      (fix go m m' : bool :=
         match m, m' with
         | [], [] => true
         | (k, x) :: r, (k', y) :: r' => str_eqb k k' && json_eqb x y && go r r'
         | _, _ => false
         end) m m'
  | _, _ => false
  end.

Lemma json_eqb_eq a b : json_eqb a b = true -> a = b.
Proof.
  revert b. induction a as [|x|x|x|x|l IH|m IH] using json_induction; intros b; destruct b as [|y|y|y|y|l'|m'];
    simpl; try done.
  - by intros ->%Bool.eqb_prop.
  - by intros ->%Z.eqb_eq.
  - by intros ->%str_eqb_spec.
  - revert l'. induction IH as [|x r Hx _ IHr]; intros [|y r']; simpl; try done.
    intros [->%Hx E]%andb_true_iff. specialize (IHr r' E). by simplify_eq.
  - revert m'. induction IH as [|[k x] r Hx _ IHr]; intros [|[k' y] r']; simpl in *; try done.
    intros [[->%str_eqb_spec ->%Hx]%andb_true_iff E]%andb_true_iff. specialize (IHr r' E). by simplify_eq.
Qed.
