(* ===== verification/Regex.v ===== *)
(** * Regular expressions

    The part of [std::regex] (ECMAScript) the job manager uses: character
    classes, bounded repetition, alternatives and sequences, matched against a
    whole string by [std::regex_match].  [regex_match] computes with
    derivatives; [regex_match_spec] proves it equal to the language of the
    expression. *)
From S2P Require Import Prelude.

Inductive regex :=
| Never
| Empty
| Class (c : ascii -> bool)
| Or (a b : regex)
| Seq (a b : regex)
| Star (a : regex).

Fixpoint nullable (r : regex) : bool :=
  match r with
  | Never | Class _ => false
  | Empty | Star _ => true
  | Or a b => nullable a || nullable b
  | Seq a b => nullable a && nullable b
  end.

(** without this a derivative grows by one alternative per character *)
Definition seq_ (a b : regex) : regex := match a with Never => Never | Empty => b | _ => Seq a b end.
Definition or_ (a b : regex) : regex :=
  match a, b with
  | Never, _ => b
  | _, Never => a
  | _, _ => Or a b
  end.

Fixpoint derivative (x : ascii) (r : regex) : regex :=
  match r with
  | Never | Empty => Never
  | Class c => if c x then Empty else Never
  | Or a b => or_ (derivative x a) (derivative x b)
  | Seq a b =>
      if nullable a then or_ (seq_ (derivative x a) b) (derivative x b)
      else seq_ (derivative x a) b
  | Star a => seq_ (derivative x a) (Star a)
  end.

(** [std::regex_match(s, r)] *)
Fixpoint regex_match (s : string) (r : regex) : bool :=
  match s with
  | EmptyString => nullable r
  | String x rest => regex_match rest (derivative x r)
  end.

(** ** The language of an expression *)
Inductive matches : regex -> string -> Prop :=
| M_empty : matches Empty ""
| M_class c x : c x = true -> matches (Class c) (String x "")
| M_left a b s : matches a s -> matches (Or a b) s
| M_right a b s : matches b s -> matches (Or a b) s
| M_seq a b s t : matches a s -> matches b t -> matches (Seq a b) (s ++ t)
| M_star_nil a : matches (Star a) ""
| M_star_cons a s t : matches a s -> matches (Star a) t -> matches (Star a) (s ++ t).

Lemma matches_seq_inv a b s : matches (Seq a b) s -> exists u v, s = (u ++ v)%string /\ matches a u /\ matches b v.
Proof. inversion 1; subst. by eexists _, _. Qed.

Lemma matches_or_inv a b s : matches (Or a b) s <-> matches a s \/ matches b s.
Proof. split; [inversion 1; subst; auto|]. intros [?|?]; by constructor. Qed.

Lemma matches_never s : ~ matches Never s.
Proof. by inversion 1. Qed.

Lemma matches_empty s : matches Empty s <-> s = ""%string.
Proof. split; [by inversion 1|]. intros ->. constructor. Qed.

Lemma matches_seq_ a b s : matches (seq_ a b) s <-> matches (Seq a b) s.
Proof.
  destruct a; simpl; try done; split.
  - by intros ?%matches_never.
  - by intros (u & v & _ & ?%matches_never & _)%matches_seq_inv.
  - intros H. by apply (M_seq Empty b "" s M_empty).
  - intros (u & v & -> & ->%matches_empty & Hv)%matches_seq_inv. done.
Qed.

Lemma matches_or_ a b s : matches (or_ a b) s <-> matches (Or a b) s.
Proof.
  rewrite matches_or_inv. pose proof (matches_never s).
  destruct a, b; simpl; rewrite ?matches_or_inv; tauto.
Qed.

Lemma nullable_spec r : nullable r = true <-> matches r "".
Proof.
  induction r as [| |c|a IHa b IHb|a IHa b IHb|a IH]; simpl.
  - split; [done|by intros ?%matches_never].
  - split; [constructor|done].
  - split; [done|by inversion 1].
  - by rewrite orb_true_iff, matches_or_inv, IHa, IHb.
  - rewrite andb_true_iff, IHa, IHb. split.
    + intros [Ha Hb]. by apply (M_seq a b "" "").
    + intros (u & v & E & Hu & Hv)%matches_seq_inv. by destruct u, v.
  - split; [constructor|done].
Qed.

(** a match of [Star a] that starts with [x] starts with a match of [a] that does *)
Lemma star_cons_inv a x s :
  matches (Star a) (String x s) ->
  exists u v, s = (u ++ v)%string /\ matches a (String x u) /\ matches (Star a) v.
Proof.
  remember (Star a) as r eqn:Er. remember (String x s) as w eqn:Ew. intros H. revert Er x s Ew.
  induction H as [| | | | | |a' w1 w2 H1 _ H2 IH2]; intros Er y tl Ew; simplify_eq.
  destruct w1 as [|z w1].
  - by apply IH2.
  - simpl in Ew. injection Ew as -> <-. by exists w1, w2.
Qed.

Lemma derivative_spec x r s : matches (derivative x r) s <-> matches r (String x s).
Proof.
  revert s. induction r as [| |c|a IHa b IHb|a IHa b IHb|a IH]; intros s; simpl.
  - split; by intros ?%matches_never.
  - split; [by intros ?%matches_never|by inversion 1].
  - destruct (c x) eqn:E; split.
    + intros ->%matches_empty. by constructor.
    + inversion 1; subst. constructor.
    + by intros ?%matches_never.
    + inversion 1; congruence.
  - by rewrite matches_or_, !matches_or_inv, IHa, IHb.
  - assert (matches (seq_ (derivative x a) b) s <->
      exists u v, s = (u ++ v)%string /\ matches a (String x u) /\ matches b v) as Hseq.
    { rewrite matches_seq_. split.
      - intros (u & v & -> & Hu%IHa & Hv)%matches_seq_inv. by exists u, v.
      - intros (u & v & -> & Hu%IHa & Hv). by constructor. }
    assert (matches (Seq a b) (String x s) <->
      (exists u v, s = (u ++ v)%string /\ matches a (String x u) /\ matches b v) \/
      matches a "" /\ matches b (String x s)) as Hinv.
    { split.
      - intros ([|y u] & v & E & Hu & Hv)%matches_seq_inv; simpl in E.
        { right. rewrite E. by split. }
        injection E as <- ->. left. by exists u, v.
      - intros [(u & v & -> & Hu & Hv)|[Ha Hb]];
          [by apply (M_seq a b (String x u) v)|by apply (M_seq a b "" (String x s))]. }
    rewrite Hinv. destruct (nullable a) eqn:En.
    + rewrite matches_or_, matches_or_inv, Hseq, IHb. apply nullable_spec in En. tauto.
    + rewrite Hseq. split; [by left|]. intros [?|[Ha _]]; [done|].
      apply nullable_spec in Ha. congruence.
  - rewrite matches_seq_. split.
    + intros (u & v & -> & Hu%IH & Hv)%matches_seq_inv. by apply (M_star_cons a (String x u) v).
    + intros (u & v & -> & Hu & Hv)%star_cons_inv. constructor; [by apply IH|done].
Qed.

Lemma regex_match_matches s r : regex_match s r = true <-> matches r s.
Proof.
  revert r; induction s as [|x s IH]; intros r; simpl; [apply nullable_spec|].
  by rewrite IH, derivative_spec.
Qed.

(** ** Bounded repetition *)
Fixpoint repeat_exactly (n : nat) (r : regex) : regex :=
  match n with O => Empty | S k => Seq r (repeat_exactly k r) end.
Fixpoint up_to (n : nat) (r : regex) : regex :=
  match n with O => Empty | S k => Or Empty (Seq r (up_to k r)) end.
(** [r{lo,hi}] *)
Definition between (lo hi : nat) (r : regex) : regex := Seq (repeat_exactly lo r) (up_to (hi - lo) r).
(** [r+] *)
Definition plus (r : regex) : regex := Seq r (Star r).
(** a literal word *)
Fixpoint word (s : string) : regex :=
  match s with EmptyString => Empty | String x r => Seq (Class (Ascii.eqb x)) (word r) end.

(** all characters satisfy [c] *)
Fixpoint all_of (c : ascii -> bool) (s : string) : bool :=
  match s with EmptyString => true | String x r => c x && all_of c r end.

Lemma all_of_app c s t : all_of c (s ++ t) = all_of c s && all_of c t.
Proof. induction s as [|x s IH]; simpl; [done|]. by rewrite IH, andb_assoc. Qed.

Lemma length_app_string s t : String.length (s ++ t) = (String.length s + String.length t)%nat.
Proof. induction s; simpl; [done|by f_equal]. Qed.

Lemma matches_class_seq c r s :
  matches (Seq (Class c) r) s <-> exists x t, s = String x t /\ c x = true /\ matches r t.
Proof.
  split.
  - intros (u & v & -> & Hu & Hv)%matches_seq_inv. inversion Hu; subst. by eexists _, _.
  - intros (x & t & -> & Hc & Ht). apply (M_seq _ _ (String x "")); [by constructor|done].
Qed.

Lemma matches_up_to c n s :
  matches (up_to n (Class c)) s <-> all_of c s = true /\ (String.length s <= n)%nat.
Proof.
  revert s; induction n as [|n IH]; intros s; simpl.
  - rewrite matches_empty. destruct s; simpl; (split; [done || (intros; split; [done|lia])|intros [_ ?]; done || lia]).
  - rewrite matches_or_inv, matches_empty, matches_class_seq. split.
    + intros [->|(x & t & -> & Hc & [Ha Hl]%IH)]; simpl; [split; [done|lia]|].
      rewrite Hc, Ha. split; [done|lia].
    + intros [Ha Hl]. destruct s as [|x t]; [by left|right]. simpl in Ha, Hl.
      apply andb_true_iff in Ha as [Hc Ha]. exists x, t. split_and!; [done|done|]. apply IH. split; [done|lia].
Qed.

Lemma matches_exactly c n s :
  matches (repeat_exactly n (Class c)) s <-> all_of c s = true /\ String.length s = n.
Proof.
  revert s; induction n as [|n IH]; intros s; simpl.
  - rewrite matches_empty. destruct s; simpl; [done|]. split; [done|]. by intros [_ ?].
  - rewrite matches_class_seq. split.
    + intros (x & t & -> & Hc & [Ha Hl]%IH). simpl. by rewrite Hc, Ha, Hl.
    + intros [Ha Hl]. destruct s as [|x t]; [done|]. simpl in Ha, Hl.
      apply andb_true_iff in Ha as [Hc Ha]. exists x, t. split_and!; [done|done|]. apply IH. split; [done|lia].
Qed.

Lemma all_of_split c n m s :
  all_of c s = true -> (n <= String.length s <= n + m)%nat ->
  exists u v, s = (u ++ v)%string /\ all_of c u = true /\ String.length u = n /\
    all_of c v = true /\ (String.length v <= m)%nat.
Proof.
  revert s; induction n as [|n IH]; intros s Ha Hl.
  { exists ""%string, s. split_and!; [done|done|done|done|lia]. }
  destruct s as [|x s]; simpl in Ha, Hl; [lia|]. apply andb_true_iff in Ha as [Hx Ha].
  destruct (IH s Ha) as (u & v & -> & Hu & Hn & Hv & Hm); [lia|].
  exists (String x u), v. simpl. rewrite Hx, Hu, Hn. done.
Qed.

(** [[c]{lo,hi}] is a length and a test of every character *)
Lemma matches_between c lo hi s :
  (lo <= hi)%nat ->
  matches (between lo hi (Class c)) s <-> all_of c s = true /\ (lo <= String.length s <= hi)%nat.
Proof.
  intros Hle. unfold between. split.
  - intros (u & v & -> & [Hu Hn]%matches_exactly & [Hv Hm]%matches_up_to)%matches_seq_inv.
    rewrite all_of_app, Hu, Hv, length_app_string. split; [done|lia].
  - intros [Ha Hl]. destruct (all_of_split c lo (hi - lo) s Ha) as (u & v & -> & Hu & Hn & Hv & Hm); [lia|].
    constructor; [by apply matches_exactly|by apply matches_up_to].
Qed.

Lemma matches_star c s : matches (Star (Class c)) s <-> all_of c s = true.
Proof.
  split.
  - remember (Star (Class c)) as r eqn:Er. intros Hm.
    induction Hm as [| | | | |b|b u v Hu _ Hv IH]; simplify_eq; [done|].
    inversion Hu as [|? x Hx| | | | |]; subst. rewrite all_of_app. simpl. rewrite Hx. by apply IH.
  - induction s as [|x s IH]; simpl; [constructor|]. intros [Hx Ha]%andb_true_iff.
    apply (M_star_cons _ (String x "") s); [by constructor|by apply IH].
Qed.

Lemma matches_plus c s : matches (plus (Class c)) s <-> all_of c s = true /\ s <> ""%string.
Proof.
  unfold plus. rewrite matches_class_seq. split.
  - intros (x & t & -> & Hc & Ht%matches_star). simpl. by rewrite Hc, Ht.
  - intros [Ha Hne]. destruct s as [|x t]; [done|]. simpl in Ha. apply andb_true_iff in Ha as [Hx Ht].
    exists x, t. split_and!; [done|done|by apply matches_star].
Qed.

Lemma matches_word w s : matches (word w) s <-> s = w.
Proof.
  revert s; induction w as [|x w IH]; intros s; simpl; [apply matches_empty|].
  rewrite matches_class_seq. split.
  - intros (y & t & -> & Hy & ->%IH). apply Ascii.eqb_eq in Hy. congruence.
  - intros ->. exists x, w. split_and!; [done|apply Ascii.eqb_refl|by apply IH].
Qed.

Lemma all_of_mono (c d : ascii -> bool) s :
  (forall x, c x = true -> d x = true) -> all_of c s = true -> all_of d s = true.
Proof.
  intros H. induction s as [|x s IH]; simpl; [done|]. intros [Hx Hs]%andb_true_iff. rewrite (H x Hx). auto.
Qed.
