(* ===== verification/Calendar.v ===== *)
(** * The wall clock: civil time and its text

    [vehicle_ops/src/job_manager.cpp], [vehicle_ops_api_node.cpp],
    [camera_calibration_manager.cpp], [vehicle_data/src/dataset_exporter.cpp] and
    [episode_recorder_node.cpp] stamp their files with a time: a reading of
    [std::chrono::system_clock] in whole seconds, broken down by [gmtime_r] or
    [localtime_r] and written by [std::put_time] with a numeric format.

    The calendar is the proleptic Gregorian one: [gmtime_valid], [timegm_gmtime]
    and [gmtime_timegm] say that [gmtime] and [timegm] are inverse between the
    seconds and the dates of the calendar, which is what the C library documents
    of [gmtime_r]; [stamps_read_back] that a stamp determines its second.  A time
    zone is a function from the time to its distance from
    UTC in seconds, which the time zone database gives and the code does not
    contain. *)
From S2P Require Import Prelude.
Local Open Scope Z_scope.

(** the members of [std::tm] the formats read *)
Record tm := MakeTm {
  tm_year : Z;      (* since 1900 *)
  tm_mon : Z;       (* 0 to 11 *)
  tm_mday : Z;
  tm_hour : Z;
  tm_min : Z;
  tm_sec : Z }.

(** ** Years and months *)

(** days from 1970-01-01 to the first day of a year *)
Definition year_start (y : Z) : Z :=
  365 * (y - 1970) + ((y - 1) / 4 - (y - 1) / 100 + (y - 1) / 400 - 477).
Definition leap (y : Z) : bool :=
  (y mod 4 =? 0) && (negb (y mod 100 =? 0) || (y mod 400 =? 0)).
Definition year_length (y : Z) : Z := if leap y then 366 else 365.

(** the year a day is in: the mean year gives it up to one *)
Definition year_of (day : Z) : Z :=
  let y := 1970 + (400 * day) / 146097 in
  if day <? year_start y then y - 1
  else if year_start (y + 1) <=? day then y + 1
  else y.

(** days of a year before a month, counted from 0 *)
Definition month_start (leap_year : bool) (month : Z) : Z :=
  let later := if leap_year then 1 else 0 in
  if month =? 0 then 0 else if month =? 1 then 31 else if month =? 2 then 59 + later
  else if month =? 3 then 90 + later else if month =? 4 then 120 + later
  else if month =? 5 then 151 + later else if month =? 6 then 181 + later
  else if month =? 7 then 212 + later else if month =? 8 then 243 + later
  else if month =? 9 then 273 + later else if month =? 10 then 304 + later
  else if month =? 11 then 334 + later else 365 + later.
Fixpoint month_of (leap_year : bool) (fuel : nat) (month day_of_year : Z) : Z :=
  match fuel with
  | O => month
  | S n => if day_of_year <? month_start leap_year (month + 1) then month
           else month_of leap_year n (month + 1) day_of_year
  end.

(** ** [gmtime_r] and [localtime_r] *)
Definition gmtime (seconds : Z) : tm :=
  let day := seconds / 86400 in
  let second := seconds mod 86400 in
  let y := year_of day in
  let day_of_year := day - year_start y in
  let month := month_of (leap y) 11 0 day_of_year in
  MakeTm (y - 1900) month (day_of_year - month_start (leap y) month + 1)
    (second / 3600) (second mod 3600 / 60) (second mod 60).
Definition localtime (utc_offset : Z -> Z) (seconds : Z) : tm := gmtime (seconds + utc_offset seconds).

(** the time a broken-down UTC time stands for *)
Definition timegm (t : tm) : Z :=
  let y := tm_year t + 1900 in
  86400 * (year_start y + month_start (leap y) (tm_mon t) + tm_mday t - 1)
  + 3600 * tm_hour t + 60 * tm_min t + tm_sec t.

(** ** [std::put_time] *)
Definition two_digits (z : Z) : string :=
  String (digit_char (z / 10)) (String (digit_char (z mod 10)) EmptyString).

(** [%Y-%m-%dT%H:%M:%SZ] *)
Definition put_iso (t : tm) : string :=
  (to_string (tm_year t + 1900) ++ "-" ++ two_digits (tm_mon t + 1) ++ "-" ++ two_digits (tm_mday t)
   ++ "T" ++ two_digits (tm_hour t) ++ ":" ++ two_digits (tm_min t) ++ ":" ++ two_digits (tm_sec t) ++ "Z")%string.
(** [%Y%m%d-%H%M%S] *)
Definition put_compact (t : tm) : string :=
  (to_string (tm_year t + 1900) ++ two_digits (tm_mon t + 1) ++ two_digits (tm_mday t)
   ++ "-" ++ two_digits (tm_hour t) ++ two_digits (tm_min t) ++ two_digits (tm_sec t))%string.

(** ** The stamps of the program *)
Definition utc_timestamp (seconds : Z) : string := put_iso (gmtime seconds).
Definition iso_timestamp : Z -> string := utc_timestamp.
Definition timestamp_token (utc_offset : Z -> Z) (seconds : Z) : string :=
  put_compact (localtime utc_offset seconds).
Definition timestamp_id (utc_offset : Z -> Z) (seconds : Z) : string :=
  ("episode-" ++ timestamp_token utc_offset seconds)%string.

Example unix_epoch : utc_timestamp 0 = "1970-01-01T00:00:00Z"%string. Proof. reflexivity. Qed.
Example leap_day : utc_timestamp 1709251199 = "2024-02-29T23:59:59Z"%string. Proof. reflexivity. Qed.
Example century : utc_timestamp 4107542400 = "2100-03-01T00:00:00Z"%string. Proof. reflexivity. Qed.
Example before_the_epoch : utc_timestamp (-1) = "1969-12-31T23:59:59Z"%string. Proof. reflexivity. Qed.
Example east_of_utc : timestamp_id (fun _ => 28800) 1735660800 = "episode-20250101-000000"%string.
Proof. reflexivity. Qed.

(** ** The calendar *)

Lemma year_start_next y : year_start (y + 1) = year_start y + year_length y.
Proof.
  unfold year_start, year_length, leap. destruct (Z.eqb_spec (y mod 4) 0), (Z.eqb_spec (y mod 100) 0), (Z.eqb_spec (y mod 400) 0);
    cbn [andb orb negb]; Z.to_euclidean_division_equations; lia.
Qed.

Lemma year_of_range day : year_start (year_of day) <= day < year_start (year_of day + 1).
Proof.
  unfold year_of. set (q := (400 * day) / 146097).
  assert (146097 * q <= 400 * day < 146097 * (q + 1)) as Hq
    by (unfold q; Z.to_euclidean_division_equations; lia).
  destruct (Z.ltb_spec day (year_start (1970 + q))) as [L|L];
    [|destruct (Z.leb_spec (year_start (1970 + q + 1)) day) as [L'|L']]; [| |lia];
    (split; [try lia|try (replace (1970 + q - 1 + 1) with (1970 + q) by lia; lia)]);
    unfold year_start in *; clearbody q; Z.to_euclidean_division_equations; lia.
Qed.

Lemma year_of_unique y day : year_start y <= day < year_start (y + 1) -> year_of day = y.
Proof.
  intros H. pose proof (year_of_range day) as H'. unfold year_start in *.
  destruct (Z.lt_trichotomy (year_of day) y) as [L|[E|L]]; [exfalso|done|exfalso];
    Z.to_euclidean_division_equations; lia.
Qed.

Definition month_length (leap_year : bool) (month : Z) : Z :=
  month_start leap_year (month + 1) - month_start leap_year month.
Definition valid_tm (t : tm) : Prop :=
  0 <= tm_mon t < 12 /\ 1 <= tm_mday t <= month_length (leap (tm_year t + 1900)) (tm_mon t) /\
  0 <= tm_hour t < 24 /\ 0 <= tm_min t < 60 /\ 0 <= tm_sec t < 60.

Ltac months m :=
  let Hm := fresh "Hm" in
  assert (m = 0 \/ m = 1 \/ m = 2 \/ m = 3 \/ m = 4 \/ m = 5 \/ m = 6 \/ m = 7 \/ m = 8 \/ m = 9 \/ m = 10 \/ m = 11)
    as Hm by lia;
  destruct Hm as [-> | [-> | [-> | [-> | [-> | [-> | [-> | [-> | [-> | [-> | [-> | -> ]]]]]]]]]]].

Lemma month_length_bounds l month : 0 <= month < 12 -> 28 <= month_length l month <= 31.
Proof. intros Hm. months month; destruct l; vm_compute; split; congruence. Qed.

(** the comparisons of [month_of] one after the other *)
Ltac compute_months :=
  repeat match goal with
    | |- context [month_start ?l ?m] => let v := eval vm_compute in (month_start l m) in change (month_start l m) with v
    | H : context [month_start ?l ?m] |- _ => let v := eval vm_compute in (month_start l m) in change (month_start l m) with v in H
    end.
Ltac search_months d :=
  repeat (let E := fresh "E" in
    destruct (d <? _) eqn:E; [apply Z.ltb_lt in E; compute_months; lia|apply Z.ltb_ge in E]);
  compute_months; lia.

Lemma month_of_range (l : bool) day_of_year : 0 <= day_of_year < (if l then 366 else 365)%Z ->
  0 <= month_of l 11 0 day_of_year < 12 /\
  month_start l (month_of l 11 0 day_of_year) <= day_of_year < month_start l (month_of l 11 0 day_of_year + 1).
Proof. intros Hd. destruct l; cbn [month_of] in *; search_months day_of_year. Qed.

Lemma month_of_unique (l : bool) month day_of_year : 0 <= month < 12 ->
  month_start l month <= day_of_year < month_start l (month + 1) -> month_of l 11 0 day_of_year = month.
Proof. intros Hm. months month; destruct l; cbn [month_of]; intros Hd; search_months day_of_year. Qed.

Lemma month_start_end (l : bool) : month_start l 12 = if l then 366 else 365.
Proof. by destruct l. Qed.

(** [gmtime] gives a date of the calendar *)
Lemma gmtime_valid seconds : valid_tm (gmtime seconds).
Proof.
  unfold valid_tm, gmtime; cbn [tm_year tm_mon tm_mday tm_hour tm_min tm_sec].
  replace (year_of (seconds / 86400) - 1900 + 1900) with (year_of (seconds / 86400)) by lia.
  pose proof (year_of_range (seconds / 86400)) as Hy. rewrite year_start_next in Hy. unfold year_length in Hy.
  set (y := year_of _) in *. set (d := seconds / 86400 - year_start y).
  destruct (month_of_range (leap y) d) as [Hm Hd]; [destruct (leap y); lia|].
  split; [done|]. split; [unfold month_length; lia|].
  clear. Z.to_euclidean_division_equations; lia.
Qed.

Lemma timegm_gmtime seconds : timegm (gmtime seconds) = seconds.
Proof.
  unfold timegm, gmtime; cbn [tm_year tm_mon tm_mday tm_hour tm_min tm_sec].
  replace (year_of (seconds / 86400) - 1900 + 1900) with (year_of (seconds / 86400)) by lia.
  generalize (month_start (leap (year_of (seconds / 86400))) (month_of (leap (year_of (seconds / 86400))) 11 0
    (seconds / 86400 - year_start (year_of (seconds / 86400))))).
  generalize (year_start (year_of (seconds / 86400))). intros s m.
  Z.to_euclidean_division_equations; lia.
Qed.

Lemma gmtime_timegm t : valid_tm t -> gmtime (timegm t) = t.
Proof.
  destruct t as [y m d h i s]. unfold valid_tm, timegm; cbn [tm_year tm_mon tm_mday tm_hour tm_min tm_sec].
  intros (Hm & Hd & Hh & Hi & Hs). set (Y := y + 1900) in *.
  set (D := year_start Y + month_start (leap Y) m + d - 1).
  assert ((86400 * D + 3600 * h + 60 * i + s) / 86400 = D) as Ed by (clearbody D; Z.to_euclidean_division_equations; lia).
  assert ((86400 * D + 3600 * h + 60 * i + s) mod 86400 = 3600 * h + 60 * i + s) as Er
    by (clearbody D; Z.to_euclidean_division_equations; lia).
  assert (year_of D = Y) as Ey.
  { apply year_of_unique. rewrite year_start_next. unfold year_length, month_length in *.
    assert (0 <= month_start (leap Y) m /\ month_start (leap Y) (m + 1) <= if leap Y then 366 else 365)
      by (months m; destruct (leap Y); vm_compute; split; congruence).
    unfold D. destruct (leap Y); lia. }
  unfold gmtime. rewrite Ed, Er, Ey.
  replace (D - year_start Y) with (month_start (leap Y) m + d - 1) by (unfold D; lia).
  rewrite (month_of_unique (leap Y) m) by (unfold month_length in Hd; lia).
  f_equal; [unfold Y; lia|lia|clear -Hh Hi Hs; Z.to_euclidean_division_equations; lia..].
Qed.

(** ** Reading stamps back *)
Definition read_two (s : string) : Z * string :=
  match s with
  | String a (String b r) => (10 * digit_value a + digit_value b, r)
  | _ => (0, s)
  end.
Definition skip (s : string) : string := match s with String _ r => r | EmptyString => s end.
Definition read_iso (s : string) : tm :=
  let '(hundreds, s) := read_two s in let '(years, s) := read_two s in
  let '(month, s) := read_two (skip s) in let '(day, s) := read_two (skip s) in
  let '(hour, s) := read_two (skip s) in let '(minute, s) := read_two (skip s) in
  let '(second, s) := read_two (skip s) in
  MakeTm (100 * hundreds + years - 1900) (month - 1) day hour minute second.
Definition read_compact (s : string) : tm :=
  let '(hundreds, s) := read_two s in let '(years, s) := read_two s in
  let '(month, s) := read_two s in let '(day, s) := read_two s in
  let '(hour, s) := read_two (skip s) in let '(minute, s) := read_two s in
  let '(second, s) := read_two s in
  MakeTm (100 * hundreds + years - 1900) (month - 1) day hour minute second.

(** the years whose number has four digits *)
Definition four_digits (t : tm) : Prop := 1000 <= tm_year t + 1900 < 10000.

Lemma read_two_digits z s : 0 <= z < 100 -> read_two (two_digits z ++ s) = (z, s).
Proof.
  intros Hz. cbv [two_digits String.append read_two].
  rewrite !digit_value_char by (Z.to_euclidean_division_equations; lia).
  f_equal. Z.to_euclidean_division_equations; lia.
Qed.

Lemma base_digits_step fuel z acc : 10 <= z ->
  base_digits 10 (S fuel) z acc = base_digits 10 fuel (z / 10) (String (digit_char (z mod 10)) acc).
Proof. intros Hz. cbn [base_digits]. by rewrite (proj2 (Z.ltb_ge _ _) Hz). Qed.
Lemma base_digits_last fuel z acc : z < 10 ->
  base_digits 10 (S fuel) z acc = String (digit_char (z mod 10)) acc.
Proof. intros Hz. cbn [base_digits]. by rewrite (proj2 (Z.ltb_lt _ _) Hz). Qed.

Lemma to_string_four z : 1000 <= z < 10000 ->
  to_string z = (two_digits (z / 100) ++ two_digits (z mod 100))%string.
Proof.
  intros Hz. unfold to_string. rewrite (proj2 (Z.ltb_ge _ _)) by lia. unfold base_string.
  assert (9 <= Z.log2 z) as Hl by (apply Z.log2_le_pow2; lia).
  replace (S (Z.to_nat (Z.log2 z))) with (S (S (S (S (Z.to_nat (Z.log2 z) - 3))))) by lia.
  generalize (Z.to_nat (Z.log2 z) - 3)%nat. intros k.
  rewrite 3 base_digits_step, base_digits_last by (Z.to_euclidean_division_equations; lia).
  cbv [two_digits String.append].
  assert (z / 10 / 10 / 10 mod 10 = z / 100 / 10) as -> by (Z.to_euclidean_division_equations; lia).
  assert (z / 10 / 10 mod 10 = z / 100 mod 10) as -> by (Z.to_euclidean_division_equations; lia).
  assert (z / 10 mod 10 = z mod 100 / 10) as -> by (Z.to_euclidean_division_equations; lia).
  assert (z mod 10 = z mod 100 mod 10) as <- by (Z.to_euclidean_division_equations; lia). done.
Qed.

Lemma valid_fields t : valid_tm t ->
  0 <= tm_mon t + 1 < 100 /\ 0 <= tm_mday t < 100 /\ 0 <= tm_hour t < 100 /\ 0 <= tm_min t < 100 /\ 0 <= tm_sec t < 100.
Proof.
  intros (Hm & Hd & Hh & Hi & Hs). pose proof (month_length_bounds (leap (tm_year t + 1900)) _ Hm). lia.
Qed.

Lemma skip_character c s : skip (String c EmptyString ++ s) = s.
Proof. done. Qed.
Lemma rebuilt t :
  MakeTm (100 * ((tm_year t + 1900) / 100) + (tm_year t + 1900) mod 100 - 1900) (tm_mon t + 1 - 1)
    (tm_mday t) (tm_hour t) (tm_min t) (tm_sec t) = t.
Proof.
  rewrite <- Z.div_mod by done. rewrite !Z.add_simpl_r. by destruct t.
Qed.

Lemma put_iso_reads t : valid_tm t -> four_digits t -> read_iso (put_iso t) = t.
Proof.
  intros Hv Hy. destruct (valid_fields t Hv) as (Hm & Hd & Hh & Hi & Hs).
  unfold put_iso, read_iso. rewrite (to_string_four _ Hy), string_app_assoc.
  rewrite 2 read_two_digits by (unfold four_digits in Hy; Z.to_euclidean_division_equations; lia).
  repeat (rewrite skip_character, read_two_digits by done).
  apply rebuilt.
Qed.

Lemma put_compact_reads t : valid_tm t -> four_digits t -> read_compact (put_compact t) = t.
Proof.
  intros Hv Hy. destruct (valid_fields t Hv) as (Hm & Hd & Hh & Hi & Hs).
  unfold put_compact, read_compact. rewrite (to_string_four _ Hy), string_app_assoc.
  rewrite 4 read_two_digits by first [done|unfold four_digits in Hy; Z.to_euclidean_division_equations; lia].
  rewrite skip_character. rewrite <- (str_app_nil (two_digits (tm_sec t))), !read_two_digits by done.
  apply rebuilt.
Qed.

(** the seconds of the years 1970 to 9999 *)
Definition year_10000 : Z := 253402300800.

Lemma year_start_mono a b : a <= b -> year_start a <= year_start b.
Proof.
  intros H. destruct (Z.eq_dec a b) as [->|]; [lia|].
  unfold year_start. Z.to_euclidean_division_equations; lia.
Qed.

Lemma gmtime_four_digits seconds : 0 <= seconds < year_10000 -> four_digits (gmtime seconds).
Proof.
  intros Hs. unfold four_digits, gmtime, year_10000 in *; cbn [tm_year].
  assert (0 <= seconds / 86400 < 2932897) as Hd by (Z.to_euclidean_division_equations; lia).
  pose proof (year_of_range (seconds / 86400)) as Hy. set (y := year_of _) in *.
  destruct (Z.le_gt_cases (y + 1) 1970) as [L|L]; [apply year_start_mono in L; change (year_start 1970) with 0 in L; lia|].
  destruct (Z.le_gt_cases 10000 y) as [L'|L']; [apply year_start_mono in L'; change (year_start 10000) with 2932897 in L'; lia|]. lia.
Qed.

(** a stamp determines the second it was made in *)
Lemma stamps_read_back seconds : 0 <= seconds < year_10000 -> timegm (read_iso (utc_timestamp seconds)) = seconds.
Proof.
  intros Hs. unfold utc_timestamp. rewrite put_iso_reads by (apply gmtime_valid || by apply gmtime_four_digits).
  apply timegm_gmtime.
Qed.

Lemma tokens_read_back utc_offset seconds : 0 <= seconds + utc_offset seconds < year_10000 ->
  timegm (read_compact (timestamp_token utc_offset seconds)) = seconds + utc_offset seconds.
Proof.
  intros Hs. unfold timestamp_token, localtime. rewrite put_compact_reads by (apply gmtime_valid || by apply gmtime_four_digits).
  apply timegm_gmtime.
Qed.

(** Two tokens are equal exactly when the local clocks agree: in one second, or
    an hour apart when the clocks are put back. *)
Lemma tokens_meet utc_offset s1 s2 :
  0 <= s1 + utc_offset s1 < year_10000 -> 0 <= s2 + utc_offset s2 < year_10000 ->
  timestamp_token utc_offset s1 = timestamp_token utc_offset s2 <-> s1 + utc_offset s1 = s2 + utc_offset s2.
Proof.
  intros H1 H2. split; intros E.
  - by rewrite <- (tokens_read_back utc_offset s1), <- (tokens_read_back utc_offset s2), E.
  - unfold timestamp_token, localtime. by rewrite E.
Qed.

(** a token is fifteen characters: digits and a dash *)
Lemma timestamp_token_characters utc_offset seconds : 0 <= seconds + utc_offset seconds < year_10000 ->
  exists digits : list Z, Forall (fun d => 0 <= d < 10) digits /\ List.length digits = 14%nat /\
    timestamp_token utc_offset seconds =
    (foldr (fun d s => String (digit_char d) s) EmptyString (take 8 digits) ++ "-" ++
     foldr (fun d s => String (digit_char d) s) EmptyString (drop 8 digits))%string.
Proof.
  intros Hs. unfold timestamp_token, localtime. pose proof (gmtime_valid (seconds + utc_offset seconds)) as Hv.
  pose proof (gmtime_four_digits _ Hs) as Hy. destruct (valid_fields _ Hv) as (Hm & Hd & Hh & Hi & Hc).
  set (t := gmtime _) in *. unfold four_digits in Hy. unfold put_compact. rewrite (to_string_four _ Hy).
  set (y := tm_year t + 1900) in *. clearbody y.
  exists [y / 100 / 10; y / 100 mod 10; y mod 100 / 10; y mod 100 mod 10; (tm_mon t + 1) / 10; (tm_mon t + 1) mod 10;
    tm_mday t / 10; tm_mday t mod 10; tm_hour t / 10; tm_hour t mod 10; tm_min t / 10; tm_min t mod 10;
    tm_sec t / 10; tm_sec t mod 10].
  split; [|split; [done|reflexivity]].
  repeat (apply List.Forall_cons; [Z.to_euclidean_division_equations; lia|]). constructor.
Qed.
