(* ===== verification/Supervisor.v ===== *)
(** * The vehicle supervisor

    Models [vehicle_runtime/src/vehicle_supervisor_node.cpp]: the node that owns
    the control mode.  The record holds the node's member variables, each
    subscription, service and timer callback is one definition that returns the
    new state and what was published, and [next] dispatches one executor
    callback.  [ok] is the node's invariant; [admissible] is the abstract
    contract of a mode request, which [on_mode_request] is proved to implement. *)
From S2P Require Import Prelude Floats Messages.
Import SystemState.
Local Open Scope Z_scope.

(** ** Requests and responses of the two services *)
Record RequestControlMode := MakeModeRequest {
  requested_mode : Z; requester : string; reason : string }.
Record ModeResponse := MakeModeResponse {
  accepted : bool; current_mode : Z; response_message : string }.
Record RequestSafeStop := MakeStopRequest {
  stop_requester : string; stop_reason : string }.
Record StopResponse := MakeStopResponse {
  stop_accepted : bool; stop_message : string }.

(** ** State *)
Record VehicleSupervisor := MakeSupervisor {
  policy_ready_ : bool;
  safety_stop_active_ : bool;
  state_ : SystemStateMsg }.
#[export] Instance eta_supervisor : Eta VehicleSupervisor := fun s =>
  MakeSupervisor (policy_ready_ s) (safety_stop_active_ s) (state_ s).

Section Supervisor.
Context `{Rclcpp}.

Definition control_source_for (mode : Z) : string :=
  if mode =? MODE_NAV2 then "nav2"
  else if mode =? MODE_VLA_SHADOW then "vla_shadow"
  else if (mode =? MODE_VLA_ASSISTED) || (mode =? MODE_VLA_AUTONOMOUS) then "vla"
  else if mode =? MODE_MOBILE_TELEOP then "mobile_teleop"
  else if mode =? MODE_REMOTE_TELEOP then "remote_teleop"
  else if mode =? MODE_SAFE_STOP then "safe_stop"
  else if mode =? MODE_FAULT then "fault"
  else "manual".

Definition is_vla_mode (mode : Z) : bool :=
  (mode =? MODE_VLA_SHADOW) || (mode =? MODE_VLA_ASSISTED) ||
  (mode =? MODE_VLA_AUTONOMOUS).

(** [publish_state]: stamp [state_] and publish it. *)
Definition publish_state (now : Z) (s : VehicleSupervisor)
  : VehicleSupervisor * list SystemStateMsg :=
  let st := (state_ s) <| header := Header.Make (to_msg now) "base_link" |> in
  (s <| state_ := st |>, [st]).

Definition set_mode (now : Z) (mode' : Z) (why : string) (s : VehicleSupervisor)
  : VehicleSupervisor * list SystemStateMsg :=
  let st := (state_ s)
    <| mode := mode' |>
    <| control_source := control_source_for mode' |>
    <| safe_to_move := negb (mode' =? MODE_SAFE_STOP) && negb (mode' =? MODE_FAULT) |>
    <| status_message := if str_empty why then "Mode changed"%string else why |> in
  publish_state now (s <| state_ := st |>).

(** the constructor: initial state and first publication *)
Definition initial (now : Z) : VehicleSupervisor * list SystemStateMsg :=
  let st := SystemState.zero
    <| mode := MODE_MANUAL |>
    <| control_source := "manual" |>
    <| safe_to_move := true |>
    <| status_message := "Phase-0 supervisor ready" |> in
  publish_state now (MakeSupervisor false false st).

Definition on_policy_status (message : PolicyStatus.PolicyStatusMsg)
    (s : VehicleSupervisor) : VehicleSupervisor :=
  s <| policy_ready_ := PolicyStatus.state message =? PolicyStatus.STATE_READY |>
    <| state_ := (state_ s) <| active_policy_id := PolicyStatus.model_id message |> |>.

Definition on_safety_event (now : Z) (message : SafetyEvent.SafetyEventMsg)
    (s : VehicleSupervisor) : VehicleSupervisor * list SystemStateMsg :=
  let stop := SafetyEvent.active message &&
    (SafetyEvent.SEVERITY_STOP <=? SafetyEvent.severity message) in
  let s1 := s <| safety_stop_active_ := stop |> in
  if stop then set_mode now MODE_SAFE_STOP (SafetyEvent.reason message) s1
  else (s1, []).

Definition on_mode_request (now : Z) (request : RequestControlMode)
    (s : VehicleSupervisor)
  : VehicleSupervisor * list SystemStateMsg * ModeResponse :=
  let refuse m := (s, [], MakeModeResponse false (mode (state_ s)) m) in
  if MODE_FAULT <? requested_mode request then refuse "Unknown control mode"%string
  else if safety_stop_active_ s &&
    negb (requested_mode request =? MODE_SAFE_STOP) &&
    negb (requested_mode request =? MODE_MANUAL)
  then refuse "Safety stop is active"%string
  else
    let requires_policy :=
      (requested_mode request =? MODE_VLA_ASSISTED) ||
      (requested_mode request =? MODE_VLA_AUTONOMOUS) in
    if requires_policy && negb (policy_ready_ s)
    then refuse "Policy is not ready for vehicle control mode"%string
    else
      let '(s', out) := set_mode now (requested_mode request) (reason request) s in
      (s', out, MakeModeResponse true (mode (state_ s'))
         ("Control mode updated for " ++ requester request)).

Definition on_safe_stop (now : Z) (request : RequestSafeStop)
    (s : VehicleSupervisor)
  : VehicleSupervisor * list SystemStateMsg * StopResponse :=
  let why := if str_empty (stop_reason request) then "Safe stop requested"%string
             else stop_reason request in
  let '(s', out) := set_mode now MODE_SAFE_STOP why s in
  (s', out, MakeStopResponse true ("Safe stop accepted for " ++ stop_requester request)).

(** ** The node as a machine: one callback per step *)
Inductive Event :=
| PolicyStatusReceived (message : PolicyStatus.PolicyStatusMsg)
| SafetyEventReceived (now : Z) (message : SafetyEvent.SafetyEventMsg)
| ModeRequested (now : Z) (request : RequestControlMode)
| SafeStopRequested (now : Z) (request : RequestSafeStop)
| TimerFired (now : Z).

Definition next (s : VehicleSupervisor) (e : Event)
  : VehicleSupervisor * list SystemStateMsg :=
  match e with
  | PolicyStatusReceived m => (on_policy_status m s, [])
  | SafetyEventReceived now m => on_safety_event now m s
  | ModeRequested now r => let '(s', out, _) := on_mode_request now r s in (s', out)
  | SafeStopRequested now r => let '(s', out, _) := on_safe_stop now r s in (s', out)
  | TimerFired now => publish_state now s
  end.

(** a [uint8] field of a request *)
Definition event_ok (e : Event) : Prop :=
  match e with
  | ModeRequested _ r => 0 <= requested_mode r < 256
  | _ => True
  end.

(** ** Invariant *)
Record ok (s : VehicleSupervisor) : Prop := {
  ok_range : 0 <= mode (state_ s) <= MODE_FAULT;
  ok_source : control_source (state_ s) = control_source_for (mode (state_ s));
  ok_motion : safe_to_move (state_ s) =
    negb (mode (state_ s) =? MODE_SAFE_STOP) && negb (mode (state_ s) =? MODE_FAULT);
  ok_stop : safety_stop_active_ s = true ->
    mode (state_ s) = MODE_SAFE_STOP \/ mode (state_ s) = MODE_MANUAL }.

(** the contract of a mode request, independent of the order of the checks *)
Definition admissible (s : VehicleSupervisor) (m : Z) : Prop :=
  m <= MODE_FAULT /\
  (safety_stop_active_ s = true -> m = MODE_SAFE_STOP \/ m = MODE_MANUAL) /\
  (m = MODE_VLA_ASSISTED \/ m = MODE_VLA_AUTONOMOUS -> policy_ready_ s = true).

Definition admissibleb (s : VehicleSupervisor) (m : Z) : bool :=
  (m <=? MODE_FAULT) &&
  (negb (safety_stop_active_ s) || (m =? MODE_SAFE_STOP) || (m =? MODE_MANUAL)) &&
  (negb ((m =? MODE_VLA_ASSISTED) || (m =? MODE_VLA_AUTONOMOUS)) || policy_ready_ s).

(** ** Lemmas *)
Lemma admissibleb_spec s m : admissibleb s m = true <-> admissible s m.
Proof.
  unfold admissibleb, admissible. reflect_bools.
  destruct (safety_stop_active_ s), (policy_ready_ s);
    unfold MODE_FAULT, MODE_SAFE_STOP, MODE_MANUAL, MODE_VLA_ASSISTED,
      MODE_VLA_AUTONOMOUS; naive_solver lia.
Qed.

Lemma on_mode_request_cases now r s :
  (admissible s (requested_mode r) /\
   on_mode_request now r s =
     let '(s', out) := set_mode now (requested_mode r) (reason r) s in
     (s', out, MakeModeResponse true (requested_mode r)
                 ("Control mode updated for " ++ requester r))) \/
  (~ admissible s (requested_mode r) /\
   exists m, on_mode_request now r s =
     (s, [], MakeModeResponse false (mode (state_ s)) m)).
Proof.
  rewrite <- admissibleb_spec. unfold on_mode_request, admissibleb.
  rewrite Z.ltb_antisym. set (rm := requested_mode r).
  destruct (rm <=? MODE_FAULT); simpl; [|right; split; [done|eauto]].
  destruct (safety_stop_active_ s); simpl;
    destruct (rm =? MODE_SAFE_STOP) eqn:E1, (rm =? MODE_MANUAL) eqn:E2; simpl;
    try (right; split; [done|by eauto]);
    destruct ((rm =? MODE_VLA_ASSISTED) || (rm =? MODE_VLA_AUTONOMOUS)),
      (policy_ready_ s); simpl;
    try (right; split; [done|by eauto]); left; done.
Qed.

Lemma set_mode_ok now m why s :
  0 <= m <= MODE_FAULT ->
  (safety_stop_active_ s = true -> m = MODE_SAFE_STOP \/ m = MODE_MANUAL) ->
  ok (fst (set_mode now m why s)).
Proof. intros Hm Hs. by split. Qed.

Lemma initial_ok now : ok (fst (initial now)).
Proof. split; simpl; try done. Qed.

Lemma next_ok s e : event_ok e -> ok s -> ok (fst (next s e)).
Proof.
  intros He Hok. destruct e as [m|now m|now r|now r|now]; simpl.
  - by destruct Hok.
  - unfold on_safety_event. destruct (_ && _) eqn:E.
    + apply set_mode_ok; [done|]. by left.
    + destruct Hok. split; simpl; try done.
  - destruct (on_mode_request_cases now r s) as [[(Hr&Hs&_) ->]|[_ [? ->]]]; [|done].
    simpl. apply (set_mode_ok now (requested_mode r) (reason r) s); [|done].
    simpl in He. lia.
  - apply set_mode_ok; [done|]. by left.
  - by destruct Hok.
Qed.

(** states reached by a list of callbacks from start-up *)
Definition reached (s : VehicleSupervisor) : Prop :=
  exists now es, Forall event_ok es /\ s = fst (run next (fst (initial now)) es).

Lemma reached_ok s : reached s -> ok s.
Proof.
  intros (now & es & Hes & ->). pose proof (initial_ok now) as H0.
  revert H0. generalize (fst (initial now)). induction Hes as [|e r He _ IH];
    intros s0 H0; simpl; [done|].
  pose proof (next_ok s0 e He H0) as H1.
  destruct (next s0 e) as [s1 o1]; simpl in *.
  specialize (IH s1 H1). by destruct (run next s1 r).
Qed.

Lemma next_mode s e :
  mode (state_ (fst (next s e))) = mode (state_ s) \/
  match e with
  | SafetyEventReceived _ m =>
      SafetyEvent.active m = true /\
      SafetyEvent.SEVERITY_STOP <= SafetyEvent.severity m /\
      mode (state_ (fst (next s e))) = MODE_SAFE_STOP
  | ModeRequested _ r =>
      admissible s (requested_mode r) /\
      mode (state_ (fst (next s e))) = requested_mode r
  | SafeStopRequested _ _ => mode (state_ (fst (next s e))) = MODE_SAFE_STOP
  | _ => False
  end.
Proof.
  destruct e as [m|now m|now r|now r|now]; simpl; auto.
  - unfold on_safety_event. destruct (_ && _) eqn:E; auto.
    right. reflect_bools. tauto.
  - destruct (on_mode_request_cases now r s) as [[Ha ->]|[_ [? ->]]]; auto.
Qed.

(** ** Properties *)

(** C22: The mode service implements its contract: a request is accepted exactly
    when the mode exists, a latched safety stop allows it (only SAFE_STOP and
    MANUAL) and, for the two VLA driving modes, the policy is ready.  An accepted
    request installs the requested mode with the matching control source and
    publishes that state once; a refused one changes nothing, publishes nothing
    and reports the current mode. *)
Theorem mode_request_implements_contract now r s :
  let '(s', out, resp) := on_mode_request now r s in
  (accepted resp = true <-> admissible s (requested_mode r)) /\
  current_mode resp = mode (state_ s') /\
  (accepted resp = true ->
     mode (state_ s') = requested_mode r /\
     control_source (state_ s') = control_source_for (requested_mode r) /\
     out = [state_ s']) /\
  (accepted resp = false -> s' = s /\ out = []).
Proof.
  destruct (on_mode_request_cases now r s) as [[Ha ->]|[Ha [m ->]]]; simpl.
  - split; [done|]. split_and!; done.
  - split; [naive_solver|]. split_and!; done.
Qed.

(** C29: In every state the supervisor can reach, the published control source
    and [safe_to_move] flag agree with the mode, the mode is one of the nine
    defined ones, and while a safety stop is latched the mode is SAFE_STOP or
    MANUAL: no sequence of callbacks brings the vehicle into a driving mode
    before the guard clears the stop. *)
Theorem reached_states_consistent s :
  reached s ->
  0 <= mode (state_ s) <= MODE_FAULT /\
  control_source (state_ s) = control_source_for (mode (state_ s)) /\
  (safe_to_move (state_ s) = false <->
     mode (state_ s) = MODE_SAFE_STOP \/ mode (state_ s) = MODE_FAULT) /\
  (safety_stop_active_ s = true ->
     mode (state_ s) = MODE_SAFE_STOP \/ mode (state_ s) = MODE_MANUAL).
Proof.
  intros [Hr Hs Hm Hst]%reached_ok.
  split; [done|]. split; [done|]. split; [|done].
  rewrite Hm; reflect_bools; tauto.
Qed.

(** Entering a VLA driving mode needs a ready policy and no latched safety
    stop, whatever the callback is that changes the mode. *)
Theorem vla_driving_mode_entry s e m :
  m = MODE_VLA_ASSISTED \/ m = MODE_VLA_AUTONOMOUS ->
  mode (state_ s) <> m ->
  mode (state_ (fst (next s e))) = m ->
  policy_ready_ s = true /\ safety_stop_active_ s = false /\
  exists now r, e = ModeRequested now r /\ requested_mode r = m.
Proof.
  intros Hm Hne He. destruct (next_mode s e) as [Heq|Hc]; [congruence|].
  assert (m <> MODE_SAFE_STOP /\ m <> MODE_MANUAL) as [Hns Hnm]
    by (destruct Hm as [-> | ->]; done).
  destruct e as [x|now x|now r|now r|now]; simpl in Hc, He; try done; try naive_solver congruence.
  destruct Hc as [(_ & Hs & Hp) Hr]. rewrite He in Hr. clear He. subst m.
  split; [by apply Hp|]. split; [|by eauto].
  destruct (safety_stop_active_ s); [|done]. by destruct Hs.
Qed.

(** Losing the policy does not end a VLA driving mode: a policy status that
    is not READY clears [policy_ready_] but keeps the mode and
    [safe_to_move] as they are, and publishes nothing. *)
Theorem policy_loss_keeps_mode s message :
  PolicyStatus.state message <> PolicyStatus.STATE_READY ->
  policy_ready_ (on_policy_status message s) = false /\
  mode (state_ (on_policy_status message s)) = mode (state_ s) /\
  safe_to_move (state_ (on_policy_status message s)) = safe_to_move (state_ s) /\
  snd (next s (PolicyStatusReceived message)) = [].
Proof. intros Hm. simpl. split; [by apply Z.eqb_neq|done]. Qed.
End Supervisor.

(** ** Witnesses *)
Section Witnesses.
#[local] Existing Instance rclcpp_doc.

Definition demo_ready : PolicyStatus.PolicyStatusMsg :=
  PolicyStatus.zero <| PolicyStatus.state := PolicyStatus.STATE_READY |>.
Definition demo_error : PolicyStatus.PolicyStatusMsg :=
  PolicyStatus.zero <| PolicyStatus.state := PolicyStatus.STATE_ERROR |>.
Definition demo_stop : SafetyEvent.SafetyEventMsg :=
  SafetyEvent.zero <| SafetyEvent.severity := SafetyEvent.SEVERITY_STOP |>
    <| SafetyEvent.active := true |> <| SafetyEvent.reason := "scan lost" |>.
Definition demo_autonomous : RequestControlMode :=
  MakeModeRequest MODE_VLA_AUTONOMOUS "ops" "mission".

Definition demo_trace : list Event :=
  [PolicyStatusReceived demo_ready; ModeRequested 1 demo_autonomous;
   SafetyEventReceived 2 demo_stop; ModeRequested 3 demo_autonomous].

Lemma demo_trace_reached : reached (fst (run next (fst (initial 0)) demo_trace)).
Proof.
  exists 0, demo_trace. split; [|done].
  repeat constructor; simpl; unfold MODE_VLA_AUTONOMOUS; lia.
Qed.

Lemma reached_states_consistent_witness :
  let s := fst (run next (fst (initial 0)) demo_trace) in
  safety_stop_active_ s = true /\
  (mode (state_ s) = MODE_SAFE_STOP \/ mode (state_ s) = MODE_MANUAL).
Proof.
  split; [reflexivity|].
  apply (reached_states_consistent _ demo_trace_reached). reflexivity.
Defined.

Lemma vla_driving_mode_entry_witness :
  let s := on_policy_status demo_ready (fst (initial 0)) in
  policy_ready_ s = true /\ safety_stop_active_ s = false /\
  exists now r, ModeRequested 1 demo_autonomous = ModeRequested now r /\
    requested_mode r = MODE_VLA_AUTONOMOUS.
Proof.
  apply (vla_driving_mode_entry (on_policy_status demo_ready (fst (initial 0)))
           (ModeRequested 1 demo_autonomous) MODE_VLA_AUTONOMOUS);
    [right; reflexivity | vm_compute; discriminate | vm_compute; reflexivity].
Defined.

Lemma policy_loss_keeps_mode_witness :
  let s := fst (run next (fst (initial 0))
             [PolicyStatusReceived demo_ready; ModeRequested 1 demo_autonomous]) in
  mode (state_ (on_policy_status demo_error s)) = MODE_VLA_AUTONOMOUS /\
  policy_ready_ (on_policy_status demo_error s) = false.
Proof.
  destruct (policy_loss_keeps_mode
    (fst (run next (fst (initial 0))
       [PolicyStatusReceived demo_ready; ModeRequested 1 demo_autonomous]))
    demo_error) as (H1 & H2 & _); [vm_compute; discriminate|].
  split; [rewrite H2; vm_compute; reflexivity | exact H1].
Defined.
End Witnesses.
