(* ===== verification/ControlMux.v ===== *)
(** * The control multiplexer

    Models [vehicle_runtime/src/vla_control_mux_node.cpp]: the node that selects
    one candidate command according to the control mode.  [on_state],
    [on_lease], [on_nav], [on_vla], [on_mobile] are the five subscription
    callbacks, [publish_selected] the timer callback.  [authorised] is the
    abstract arbitration the node promises; [selection_refines_arbitration]
    proves that the callback's cascade of conditions implements it. *)
From S2P Require Import Prelude Floats Messages.
Local Open Scope Z_scope.

Record VlaControlMux := MakeMux {
  mode_ : Z;
  timeout_seconds_ : double;
  output_frame_ : string;
  teleop_lease_active_ : bool;
  teleop_lease_remote_ : bool;
  nav_command_ : Twist;
  vla_command_ : Twist;
  mobile_command_ : Twist;
  nav_stamp_ : Z;
  vla_stamp_ : Z;
  mobile_stamp_ : Z }.
#[export] Instance eta_mux : Eta VlaControlMux := fun s =>
  MakeMux (mode_ s) (timeout_seconds_ s) (output_frame_ s) (teleop_lease_active_ s)
    (teleop_lease_remote_ s) (nav_command_ s) (vla_command_ s) (mobile_command_ s)
    (nav_stamp_ s) (vla_stamp_ s) (mobile_stamp_ s).

(** initial values of the member variables; the two parameters are declared *)
Definition initial (source_timeout : double) (output_frame : string) : VlaControlMux :=
  MakeMux SystemState.MODE_MANUAL source_timeout output_frame false false
    Twist.zero Twist.zero Twist.zero 0 0 0.

Section Mux.
Context `{Rclcpp}.

Definition on_state (message : SystemState.SystemStateMsg) (s : VlaControlMux) :=
  s <| mode_ := SystemState.mode message |>.

Definition on_lease (message : ControlLease.ControlLeaseMsg) (s : VlaControlMux) :=
  let s1 := s <| teleop_lease_active_ := ControlLease.active message |>
              <| teleop_lease_remote_ := ControlLease.remote message |> in
  if negb (ControlLease.active message) then
    s1 <| mobile_command_ := Twist.zero |> <| mobile_stamp_ := 0 |>
  else s1.

Definition on_nav (now : Z) (message : Twist) (s : VlaControlMux) :=
  s <| nav_command_ := message |> <| nav_stamp_ := now |>.

Definition on_vla (message : TwistStamped) (s : VlaControlMux) :=
  s <| vla_command_ := TwistStamped.twist message |>
    <| vla_stamp_ := time_ns (Header.stamp (TwistStamped.header message)) |>.

Definition on_mobile (message : TwistStamped) (s : VlaControlMux) :=
  s <| mobile_command_ := TwistStamped.twist message |>
    <| mobile_stamp_ := time_ns (Header.stamp (TwistStamped.header message)) |>.

(** [fresh]: [now] is the clock reading of this call *)
Definition fresh (now : Z) (s : VlaControlMux) (stamp : Z) : bool :=
  (0 <? stamp) && dle (seconds (now - stamp)) (timeout_seconds_ s).

(** [publish_selected]: [stamp_now] is read for the header, [now] by [fresh] *)
Definition publish_selected (stamp_now now : Z) (s : VlaControlMux) : TwistStamped :=
  let header := Header.Make (to_msg stamp_now) (output_frame_ s) in
  let twist :=
    if (mode_ s =? SystemState.MODE_NAV2) && fresh now s (nav_stamp_ s) then nav_command_ s
    else if ((mode_ s =? SystemState.MODE_VLA_ASSISTED) ||
             (mode_ s =? SystemState.MODE_VLA_AUTONOMOUS)) && fresh now s (vla_stamp_ s)
    then vla_command_ s
    else if teleop_lease_active_ s &&
      (((mode_ s =? SystemState.MODE_MOBILE_TELEOP) && negb (teleop_lease_remote_ s)) ||
       ((mode_ s =? SystemState.MODE_REMOTE_TELEOP) && teleop_lease_remote_ s)) &&
      fresh now s (mobile_stamp_ s)
    then mobile_command_ s
    else Twist.zero in
  TwistStamped.Make header twist.

(** ** The node as a machine *)
Inductive Event :=
| StateReceived (message : SystemState.SystemStateMsg)
| LeaseReceived (message : ControlLease.ControlLeaseMsg)
| NavReceived (now : Z) (message : Twist)
| VlaReceived (message : TwistStamped)
| MobileReceived (message : TwistStamped)
| TimerFired (stamp_now now : Z).

Definition next (s : VlaControlMux) (e : Event) : VlaControlMux * list TwistStamped :=
  match e with
  | StateReceived m => (on_state m s, [])
  | LeaseReceived m => (on_lease m s, [])
  | NavReceived now m => (on_nav now m s, [])
  | VlaReceived m => (on_vla m s, [])
  | MobileReceived m => (on_mobile m s, [])
  | TimerFired stamp_now now => (s, [publish_selected stamp_now now s])
  end.

(** ** The arbitration the node promises *)
Inductive Source := Nav | Vla | Mobile.

Definition authorised (mode : Z) (lease_active lease_remote : bool) : option Source :=
  match mode with
  | 1 => Some Nav
  | 3 | 4 => Some Vla
  | 5 => if lease_active && negb lease_remote then Some Mobile else None
  | 6 => if lease_active && lease_remote then Some Mobile else None
  | _ => None
  end.

Definition candidate (s : VlaControlMux) (src : Source) : Twist * Z :=
  match src with
  | Nav => (nav_command_ s, nav_stamp_ s)
  | Vla => (vla_command_ s, vla_stamp_ s)
  | Mobile => (mobile_command_ s, mobile_stamp_ s)
  end.

Definition arbitrate (now : Z) (s : VlaControlMux) : Twist :=
  match authorised (mode_ s) (teleop_lease_active_ s) (teleop_lease_remote_ s) with
  | Some src =>
      let '(command, stamp) := candidate s src in
      if fresh now s stamp then command else Twist.zero
  | None => Twist.zero
  end.

Lemma mode_dispatch (m : Z) :
  m = 1 \/ m = 3 \/ m = 4 \/ m = 5 \/ m = 6 \/
  ((m =? 1) = false /\ (m =? 3) = false /\ (m =? 4) = false /\ (m =? 5) = false /\
   (m =? 6) = false /\ forall a r, authorised m a r = None).
Proof.
  destruct (Z.eqb_spec m 1), (Z.eqb_spec m 3), (Z.eqb_spec m 4), (Z.eqb_spec m 5),
    (Z.eqb_spec m 6); auto 7.
  do 5 right. split_and!; auto. intros a r. unfold authorised.
  destruct m as [|p|p]; try done.
  do 3 (destruct p as [p|p|]; try done).
Qed.

Lemma publish_selected_twist stamp_now now s :
  TwistStamped.twist (publish_selected stamp_now now s) = arbitrate now s.
Proof.
  unfold publish_selected, arbitrate; simpl.
  unfold SystemState.MODE_NAV2, SystemState.MODE_VLA_ASSISTED,
    SystemState.MODE_VLA_AUTONOMOUS, SystemState.MODE_MOBILE_TELEOP,
    SystemState.MODE_REMOTE_TELEOP.
  destruct (mode_dispatch (mode_ s)) as [E|[E|[E|[E|[E|(E1&E3&E4&E5&E6&E)]]]]].
  1-5: rewrite E; simpl; by destruct (teleop_lease_active_ s), (teleop_lease_remote_ s).
  rewrite E, E1, E3, E4, E5, E6; simpl. by rewrite andb_false_r.
Qed.

(** ** Properties *)

(** C33: What the multiplexer publishes is exactly the arbitration of its
    contract: the command of the one source the mode (and, for the teleoperation
    modes, an active lease of the matching kind) authorises, if that command is
    fresh, and the zero command otherwise; the header carries the clock and the
    configured frame. *)
Theorem selection_refines_arbitration stamp_now now s :
  publish_selected stamp_now now s =
  TwistStamped.Make (Header.Make (to_msg stamp_now) (output_frame_ s)) (arbitrate now s).
Proof. rewrite <- (publish_selected_twist stamp_now). reflexivity. Qed.

(** A mode that authorises no source (MANUAL, VLA_SHADOW, SAFE_STOP, FAULT or
    an undefined value) selects the zero command, whatever was received. *)
Theorem non_driving_mode_selects_zero stamp_now now s :
  mode_ s <> SystemState.MODE_NAV2 ->
  mode_ s <> SystemState.MODE_VLA_ASSISTED ->
  mode_ s <> SystemState.MODE_VLA_AUTONOMOUS ->
  mode_ s <> SystemState.MODE_MOBILE_TELEOP ->
  mode_ s <> SystemState.MODE_REMOTE_TELEOP ->
  TwistStamped.twist (publish_selected stamp_now now s) = Twist.zero.
Proof.
  intros H1 H3 H4 H5 H6. rewrite publish_selected_twist. unfold arbitrate.
  destruct (mode_dispatch (mode_ s)) as [E|[E|[E|[E|[E|(_&_&_&_&_&E)]]]]]; try done.
  by rewrite E.
Qed.

Lemma stamp_cleared_zero stamp_now now s :
  mobile_stamp_ s = 0 ->
  mode_ s = SystemState.MODE_MOBILE_TELEOP \/ mode_ s = SystemState.MODE_REMOTE_TELEOP ->
  TwistStamped.twist (publish_selected stamp_now now s) = Twist.zero.
Proof.
  intros Hz Hm. rewrite publish_selected_twist. unfold arbitrate.
  destruct Hm as [-> | ->]; simpl;
    destruct (teleop_lease_active_ s), (teleop_lease_remote_ s); simpl; try done;
    unfold fresh; by rewrite Hz.
Qed.

Lemma next_keeps_cleared s e :
  (forall m, e <> MobileReceived m) -> mobile_stamp_ s = 0 ->
  mobile_stamp_ (fst (next s e)) = 0.
Proof.
  intros Hne Hz. destruct e as [m|m|n m|m|m|n n']; simpl; try done.
  - unfold on_lease. by destruct (negb _).
  - by destruct (Hne m).
Qed.

(** Revoking the lease forgets the teleoperation command: after a lease
    message with [active = false], no sequence of callbacks without a new
    teleoperation command (in particular no newly granted lease) makes the
    multiplexer select anything but zero in a teleoperation mode. *)
Theorem revoked_lease_forgets_command lease es s stamp_now now :
  ControlLease.active lease = false ->
  Forall (fun e => forall m, e <> MobileReceived m) es ->
  let s' := fst (run next (on_lease lease s) es) in
  mode_ s' = SystemState.MODE_MOBILE_TELEOP \/
  mode_ s' = SystemState.MODE_REMOTE_TELEOP ->
  TwistStamped.twist (publish_selected stamp_now now s') = Twist.zero.
Proof.
  intros Hl Hes s' Hm. apply stamp_cleared_zero; [|done]. subst s'. clear Hm.
  assert (mobile_stamp_ (on_lease lease s) = 0) as Hz by (unfold on_lease; by rewrite Hl).
  revert Hz. generalize (on_lease lease s).
  induction Hes as [|e r He _ IH]; intros s0 Hz; simpl; [done|].
  pose proof (next_keeps_cleared s0 e He Hz) as H1.
  destruct (next s0 e) as [s1 o1]; simpl in *. specialize (IH s1 H1).
  by destruct (run next s1 r).
Qed.
End Mux.

(** ** Witnesses *)
Section Witnesses.
#[local] Existing Instance rclcpp_doc.

Definition demo_mux : VlaControlMux :=
  (initial (lit 3 1) "base_link") <| mode_ := SystemState.MODE_MOBILE_TELEOP |>
    <| teleop_lease_active_ := true |>
    <| mobile_command_ := Twist.planar (lit 2 1) dzero |> <| mobile_stamp_ := 1000 |>.

Example demo_mux_selects_command :
  TwistStamped.twist (publish_selected 2000 2000 demo_mux) = Twist.planar (lit 2 1) dzero.
Proof. vm_compute. reflexivity. Qed.

Lemma non_driving_mode_selects_zero_witness :
  let s := demo_mux <| mode_ := SystemState.MODE_SAFE_STOP |> in
  TwistStamped.twist (publish_selected 2000 2000 s) = Twist.zero.
Proof.
  apply (non_driving_mode_selects_zero 2000 2000
    (demo_mux <| mode_ := SystemState.MODE_SAFE_STOP |>)); vm_compute; discriminate.
Defined.

Lemma revoked_lease_forgets_command_witness :
  let granted := ControlLease.zero <| ControlLease.active := true |> in
  let s' := fst (run next (on_lease ControlLease.zero demo_mux) [LeaseReceived granted]) in
  mode_ s' = SystemState.MODE_MOBILE_TELEOP /\ teleop_lease_active_ s' = true /\
  TwistStamped.twist (publish_selected 2000 2000 s') = Twist.zero.
Proof.
  split; [reflexivity|]. split; [reflexivity|].
  apply (revoked_lease_forgets_command ControlLease.zero
    [LeaseReceived (ControlLease.zero <| ControlLease.active := true |>)] demo_mux 2000 2000).
  - reflexivity.
  - repeat constructor; discriminate.
  - left; reflexivity.
Defined.
End Witnesses.
