(* ===== verification/SafetyGuard.v ===== *)
(** * The safety guard

    Models [vehicle_runtime/src/vla_safety_guard_node.cpp], the only publisher of
    [/cmd_vel].  [on_scan] is the laser callback with its loop over the beams,
    [publish_event] the edge-triggered event publisher, [publish_safe_command]
    the timer callback; the clock readings each callback takes are arguments.
    [min_range_spec] states what the laser loop computes, [monitor] is the
    protocol the event stream follows, and the last theorem records that a NaN
    command is not stopped. *)
From S2P Require Import Prelude Floats Messages.
Local Open Scope Z_scope.

(** the fields of [sensor_msgs::msg::LaserScan] the node reads *)
Record LaserScan := MakeScan {
  angle_min : float32;
  angle_increment : float32;
  range_min : float32;
  range_max : float32;
  ranges : list float32 }.

(** the parameters, fixed by the constructor *)
Record Parameters := MakeParameters {
  max_linear_velocity_ : double;
  max_reverse_velocity_ : double;
  max_angular_velocity_ : double;
  command_timeout_ : double;
  scan_timeout_ : double;
  stop_distance_ : double;
  obstacle_half_angle_ : double;
  require_scan_ : bool }.

Definition default_parameters : Parameters :=
  MakeParameters (lit 4 1) (lit 2 1) (lit 8 1) (lit 3 1) (lit 5 1) (lit 45 2) (lit 52 2) false.

Record VlaSafetyGuard := MakeGuard {
  params : Parameters;
  manual_obstacle_override_ : bool;
  minimum_front_range_ : double;
  active_severity_ : Z;
  active_rule_ : string;
  selected_command_ : Twist;
  command_stamp_ : Z;
  scan_stamp_ : Z;
  manual_override_stamp_ : Z }.
#[export] Instance eta_guard : Eta VlaSafetyGuard := fun s =>
  MakeGuard (params s) (manual_obstacle_override_ s) (minimum_front_range_ s)
    (active_severity_ s) (active_rule_ s) (selected_command_ s) (command_stamp_ s)
    (scan_stamp_ s) (manual_override_stamp_ s).

Definition initial (p : Parameters) : VlaSafetyGuard :=
  MakeGuard p false dinf SafetyEvent.SEVERITY_INFO "" Twist.zero 0 0 0.

(** what the node publishes, in order *)
Inductive Publication :=
| Command (twist : Twist)
| Event (event : SafetyEvent.SafetyEventMsg).

Section Guard.
Context `{Rclcpp}.

(** ** Subscriptions *)
Definition on_command (now : Z) (message : TwistStamped) (s : VlaSafetyGuard) :=
  let stamp := time_ns (Header.stamp (TwistStamped.header message)) in
  s <| selected_command_ := TwistStamped.twist message |>
    <| command_stamp_ := if stamp =? 0 then now else stamp |>.

Definition on_override (now : Z) (data : bool) (s : VlaSafetyGuard) :=
  s <| manual_obstacle_override_ := data |> <| manual_override_stamp_ := now |>.

(** one beam counts: inside the frontal sector, finite and within the sensor's
    range *)
Definition beam_counts (p : Parameters) (scan : LaserScan) (angle : double) (range : float32) : bool :=
  dle (dabs angle) (obstacle_half_angle_ p) && isfinite range &&
  dle (range_min scan) range && dle range (range_max scan).

(** the loop body: the running minimum and the running angle *)
Definition scan_step (p : Parameters) (scan : LaserScan) (acc : double * double) (range : float32)
  : double * double :=
  let '(minimum, angle) := acc in
  (if beam_counts p scan angle range then dmin minimum (to_double range) else minimum,
   dadd angle (to_double (angle_increment scan))).

Definition on_scan (now : Z) (message : LaserScan) (s : VlaSafetyGuard) : VlaSafetyGuard :=
  let '(minimum, _) :=
    fold_left (scan_step (params s) message) (ranges message)
      (dinf, to_double (angle_min message)) in
  s <| minimum_front_range_ := minimum |> <| scan_stamp_ := now |>.

(** ** Timer *)
Definition is_fresh (now stamp : Z) (timeout : double) : bool :=
  (0 <? stamp) && dle (seconds (now - stamp)) timeout.

(** [publish_event]: publishes only on a change of rule or severity; the
    previous rule, if any, is cleared first *)
Definition publish_event (now_cleared now : Z) (severity : Z) (rule reason : string)
    (s : VlaSafetyGuard) : VlaSafetyGuard * list Publication :=
  if str_eqb (active_rule_ s) rule && (active_severity_ s =? severity) then (s, [])
  else
    let cleared :=
      if negb (str_empty (active_rule_ s)) then
        [Event (SafetyEvent.Make (Header.Make (to_msg now_cleared) "") (active_severity_ s)
                  (active_rule_ s) "Safety condition cleared" false)]
      else [] in
    let s1 := s <| active_rule_ := rule |> <| active_severity_ := severity |> in
    let raised :=
      if negb (str_empty rule) then
        [Event (SafetyEvent.Make (Header.Make (to_msg now) "") severity rule reason true)]
      else [] in
    (s1, cleared ++ raised).

(** the speed limits applied to the selected command *)
Definition limited (p : Parameters) (selected : Twist) : Twist :=
  Twist.planar
    (dclamp (Vector3.x (Twist.linear selected))
       (dneg (dabs (max_reverse_velocity_ p))) (dabs (max_linear_velocity_ p)))
    (dclamp (Vector3.z (Twist.angular selected))
       (dneg (dabs (max_angular_velocity_ p))) (dabs (max_angular_velocity_ p))).

(** the clock readings of one timer callback *)
Record Readings := MakeReadings {
  t_command : Z; t_scan : Z; t_override : Z; t_cleared : Z; t_event : Z }.

Definition scan_fresh (t : Readings) (s : VlaSafetyGuard) : bool :=
  is_fresh (t_scan t) (scan_stamp_ s) (scan_timeout_ (params s)).
Definition command_fresh (t : Readings) (s : VlaSafetyGuard) : bool :=
  is_fresh (t_command t) (command_stamp_ s) (command_timeout_ (params s)).
Definition manual_override_active (t : Readings) (s : VlaSafetyGuard) : bool :=
  manual_obstacle_override_ s &&
  is_fresh (t_override t) (manual_override_stamp_ s) (command_timeout_ (params s)).

Definition publish_safe_command (t : Readings) (s : VlaSafetyGuard)
  : VlaSafetyGuard * list Publication :=
  let with_event severity rule reason output :=
    let '(s', events) := publish_event (t_cleared t) (t_event t) severity rule reason s in
    (s', events ++ [Command output]) in
  if negb (command_fresh t s) then
    with_event SafetyEvent.SEVERITY_WARNING "command_timeout"%string
      "Selected velocity command is stale"%string Twist.zero
  else if require_scan_ (params s) && negb (scan_fresh t s) &&
          negb (manual_override_active t s) then
    with_event SafetyEvent.SEVERITY_STOP "scan_timeout"%string
      "Required obstacle scan is unavailable"%string Twist.zero
  else
    let output := limited (params s) (selected_command_ s) in
    if manual_override_active t s then
      with_event SafetyEvent.SEVERITY_WARNING "manual_obstacle_override"%string
        "Operator accepted responsibility for obstacle avoidance"%string output
    else if dlt dzero (Vector3.x (Twist.linear output)) && scan_fresh t s &&
            dlt (minimum_front_range_ s) (stop_distance_ (params s)) then
      with_event SafetyEvent.SEVERITY_WARNING "front_obstacle"%string
        "Forward command blocked by obstacle; reverse escape remains available"%string
        Twist.zero
    else
      with_event SafetyEvent.SEVERITY_INFO ""%string ""%string output.

(** ** The node as a machine *)
Inductive Callback :=
| CommandReceived (now : Z) (message : TwistStamped)
| ScanReceived (now : Z) (message : LaserScan)
| OverrideReceived (now : Z) (data : bool)
| TimerFired (t : Readings).

Definition next (s : VlaSafetyGuard) (c : Callback) : VlaSafetyGuard * list Publication :=
  match c with
  | CommandReceived now m => (on_command now m s, [])
  | ScanReceived now m => (on_scan now m s, [])
  | OverrideReceived now d => (on_override now d s, [])
  | TimerFired t => publish_safe_command t s
  end.

(** ** What the node promises *)

(** the beams of a scan with the angle the loop computes for each *)
Fixpoint beams_from (increment angle : double) (rs : list float32) : list (double * float32) :=
  match rs with
  | [] => []
  | r :: rs' => (angle, r) :: beams_from increment (dadd angle increment) rs'
  end.
Definition beams (scan : LaserScan) : list (double * float32) :=
  beams_from (to_double (angle_increment scan)) (to_double (angle_min scan)) (ranges scan).

Definition obstacle_within (p : Parameters) (scan : LaserScan) (distance : double) : bool :=
  existsb (fun '(angle, r) => beam_counts p scan angle r && dlt (to_double r) distance)
    (beams scan).

(** the decision of one timer callback: event to show and command to send *)
Definition verdict (t : Readings) (s : VlaSafetyGuard) : Z * string * string * Twist :=
  if negb (command_fresh t s) then
    (SafetyEvent.SEVERITY_WARNING, "command_timeout"%string,
     "Selected velocity command is stale"%string, Twist.zero)
  else if require_scan_ (params s) && negb (scan_fresh t s) &&
          negb (manual_override_active t s) then
    (SafetyEvent.SEVERITY_STOP, "scan_timeout"%string,
     "Required obstacle scan is unavailable"%string, Twist.zero)
  else
    let output := limited (params s) (selected_command_ s) in
    if manual_override_active t s then
      (SafetyEvent.SEVERITY_WARNING, "manual_obstacle_override"%string,
       "Operator accepted responsibility for obstacle avoidance"%string, output)
    else if dlt dzero (Vector3.x (Twist.linear output)) && scan_fresh t s &&
            dlt (minimum_front_range_ s) (stop_distance_ (params s)) then
      (SafetyEvent.SEVERITY_WARNING, "front_obstacle"%string,
       "Forward command blocked by obstacle; reverse escape remains available"%string,
       Twist.zero)
    else (SafetyEvent.SEVERITY_INFO, ""%string, ""%string, output).

Definition commands (pubs : list Publication) : list Twist :=
  omap (fun p => match p with Command c => Some c | Event _ => None end) pubs.
Definition events (pubs : list Publication) : list SafetyEvent.SafetyEventMsg :=
  omap (fun p => match p with Command _ => None | Event e => Some e end) pubs.

(** the safety rule currently shown to the subscribers *)
Definition view (s : VlaSafetyGuard) : option (Z * string) :=
  if str_empty (active_rule_ s) then None else Some (active_severity_ s, active_rule_ s).

(** the protocol of the event stream: a rule is raised only when none is shown,
    and a clearing event names exactly the rule that is shown *)
Definition monitor_step (v : option (Z * string)) (e : SafetyEvent.SafetyEventMsg)
  : option (option (Z * string)) :=
  match v with
  | None => if SafetyEvent.active e && negb (str_empty (SafetyEvent.rule_id e))
            then Some (Some (SafetyEvent.severity e, SafetyEvent.rule_id e)) else None
  | Some (sev, rule) =>
      if negb (SafetyEvent.active e) && (SafetyEvent.severity e =? sev) &&
         str_eqb (SafetyEvent.rule_id e) rule then Some None else None
  end.
Fixpoint monitor (v : option (Z * string)) (es : list SafetyEvent.SafetyEventMsg)
  : option (option (Z * string)) :=
  match es with
  | [] => Some v
  | e :: r => match monitor_step v e with Some v' => monitor v' r | None => None end
  end.

(** ** Lemmas *)
Lemma commands_app a b : commands (a ++ b) = commands a ++ commands b.
Proof. apply omap_app. Qed.
Lemma events_app a b : events (a ++ b) = events a ++ events b.
Proof. apply omap_app. Qed.

Lemma monitor_app es1 es2 v v1 :
  monitor v es1 = Some v1 -> monitor v (es1 ++ es2) = monitor v1 es2.
Proof.
  revert v; induction es1 as [|e r IH]; intros v; simpl; [by intros [= ->]|].
  destruct (monitor_step v e); [apply IH | done].
Qed.

Lemma publish_safe_command_verdict t s :
  let '(severity, rule, reason, output) := verdict t s in
  publish_safe_command t s =
    (fst (publish_event (t_cleared t) (t_event t) severity rule reason s),
     snd (publish_event (t_cleared t) (t_event t) severity rule reason s) ++ [Command output]).
Proof.
  unfold publish_safe_command, verdict.
  destruct (negb (command_fresh t s)); [by destruct (publish_event _ _ _ _ _ _)|].
  destruct (_ && _ && _); [by destruct (publish_event _ _ _ _ _ _)|].
  destruct (manual_override_active t s); [by destruct (publish_event _ _ _ _ _ _)|].
  destruct (_ && _ && _); by destruct (publish_event _ _ _ _ _ _).
Qed.

Lemma publish_event_commands nc n sev rule why s :
  commands (snd (publish_event nc n sev rule why s)) = [].
Proof. unfold publish_event. by repeat case_match. Qed.

Lemma publish_event_monitor nc n sev rule why s :
  let r := publish_event nc n sev rule why s in
  monitor (view s) (events (snd r)) = Some (view (fst r)).
Proof.
  unfold publish_event. destruct (str_eqb (active_rule_ s) rule && _) eqn:E; [done|].
  unfold view. cbn [fst snd]. destruct (str_empty (active_rule_ s)) eqn:E1, (str_empty rule) eqn:E2;
    cbn; rewrite ?E1, ?E2; cbn; rewrite ?Z.eqb_refl, ?str_eqb_refl; cbn; rewrite ?E2; done.
Qed.

Lemma publish_safe_command_command t s :
  commands (snd (publish_safe_command t s)) = [snd (verdict t s)].
Proof.
  pose proof (publish_safe_command_verdict t s) as E.
  destruct (verdict t s) as [[[sev rule] why] out]. rewrite E; simpl.
  by rewrite commands_app, publish_event_commands.
Qed.

Lemma publish_safe_command_state t s :
  let '(severity, rule, reason, _) := verdict t s in
  fst (publish_safe_command t s) = s <| active_rule_ := rule |> <| active_severity_ := severity |>.
Proof.
  pose proof (publish_safe_command_verdict t s) as E.
  destruct (verdict t s) as [[[sev rule] why] out]. rewrite E; simpl.
  unfold publish_event. destruct (_ && _) eqn:Eq; [|done].
  apply andb_true_iff in Eq as [<-%str_eqb_spec <-%Z.eqb_eq]. by destruct s.
Qed.

Lemma next_monitor s c :
  monitor (view s) (events (snd (next s c))) = Some (view (fst (next s c))).
Proof.
  destruct c as [n m|n m|n d|t]; simpl; try done.
  - unfold on_scan. by destruct (fold_left _ _ _).
  - pose proof (publish_safe_command_verdict t s) as E.
    destruct (verdict t s) as [[[sev rule] why] out]. rewrite E; simpl.
    rewrite events_app; simpl. rewrite app_nil_r. apply publish_event_monitor.
Qed.

Lemma scan_fold_lt p scan d rs m a :
  is_nan m = false ->
  let r := fold_left (scan_step p scan) rs (m, a) in
  is_nan (fst r) = false /\
  dlt (fst r) d = dlt m d ||
    existsb (fun '(angle, r) => beam_counts p scan angle r && dlt (to_double r) d)
      (beams_from (to_double (angle_increment scan)) a rs).
Proof.
  revert m a; induction rs as [|r rs IH]; intros m a Hm; simpl.
  - by rewrite orb_false_r.
  - destruct (beam_counts p scan a r) eqn:E; simpl; [|by apply IH].
    assert (is_nan (to_double r) = false) as Hr.
    { unfold to_double. rewrite round_to_nan. unfold beam_counts in E.
      reflect_bools. apply isfinite_not_nan. tauto. }
    destruct (IH (dmin m (to_double r)) (dadd a (to_double (angle_increment scan))))
      as [H1 H2]; [by apply is_nan_dmin|].
    split; [done|]. rewrite H2, dmin_lt by done. by rewrite orb_assoc.
Qed.

Lemma on_scan_lt now scan s d :
  dlt (minimum_front_range_ (on_scan now scan s)) d = obstacle_within (params s) scan d.
Proof.
  unfold on_scan, obstacle_within, beams.
  destruct (scan_fold_lt (params s) scan d (ranges scan) dinf (to_double (angle_min scan)) eq_refl)
    as [_ E].
  destruct (fold_left _ _ _) as [m a]; simpl in *. rewrite E.
  by destruct d as [[]|[]| |[] ? ?].
Qed.

(** ** Properties *)

(** C6: Every timer callback publishes exactly one command, and that command
    drives only forward speed and yaw rate.  Each of the two is inside the
    configured limits (reverse and forward, and the symmetric yaw-rate limit),
    or it is the NaN the selected command carried: limits are never exceeded by
    a number. *)
Theorem published_command_within_limits t s :
  is_nan (max_linear_velocity_ (params s)) = false ->
  is_nan (max_reverse_velocity_ (params s)) = false ->
  is_nan (max_angular_velocity_ (params s)) = false ->
  exists v w,
    commands (snd (publish_safe_command t s)) = [Twist.planar v w] /\
    (is_nan v = true /\ v = Vector3.x (Twist.linear (selected_command_ s)) \/
     dle (dneg (dabs (max_reverse_velocity_ (params s)))) v = true /\
     dle v (dabs (max_linear_velocity_ (params s))) = true) /\
    (is_nan w = true /\ w = Vector3.z (Twist.angular (selected_command_ s)) \/
     dle (dneg (dabs (max_angular_velocity_ (params s)))) w = true /\
     dle w (dabs (max_angular_velocity_ (params s))) = true).
Proof.
  intros Hl Hr Ha. rewrite publish_safe_command_command.
  assert (forall v lo hi, is_nan lo = false -> is_nan hi = false ->
    is_nan (dclamp v (dneg (dabs lo)) (dabs hi)) = true /\
      dclamp v (dneg (dabs lo)) (dabs hi) = v \/
    dle (dneg (dabs lo)) (dclamp v (dneg (dabs lo)) (dabs hi)) = true /\
    dle (dclamp v (dneg (dabs lo)) (dabs hi)) (dabs hi) = true) as Hc.
  { intros v lo hi Hlo Hhi. destruct (is_nan v) eqn:Hv.
    - left. by rewrite dclamp_nan.
    - right. apply dclamp_bounds; [done|]. by apply dneg_abs_le_abs. }
  pose proof (Hc (Vector3.x (Twist.linear (selected_command_ s))) _ _ Hr Hl) as Hx.
  pose proof (Hc (Vector3.z (Twist.angular (selected_command_ s))) _ _ Ha Ha) as Hz.
  assert (snd (verdict t s) = Twist.zero \/
          snd (verdict t s) = limited (params s) (selected_command_ s)) as [-> | ->].
  { unfold verdict. destruct (negb (command_fresh t s)); [by left|].
    destruct (_ && _ && _); [by left|]. destruct (manual_override_active t s); [by right|].
    destruct (_ && _ && _); [by left|by right]. }
  - exists dzero, dzero. split; [done|].
    split; right; split; (by apply dneg_abs_nonpos) || (by apply dabs_nonneg).
  - eexists _, _. split; [reflexivity|].
    split; [destruct Hx as [[? E]|?]; [left; by rewrite E in *|by right]|].
    destruct Hz as [[? E]|?]; [left; by rewrite E in *|by right].
Qed.

(** C8: Obstacle stop.  After a scan has been processed, while command and scan
    are fresh and no manual override is active, the published command is the
    limited selected command, unless that would drive forward with some counted
    beam closer than the stop distance: then it is zero. *)
Theorem obstacle_decision now scan t s0 :
  let s := on_scan now scan s0 in
  command_fresh t s = true ->
  scan_fresh t s = true ->
  manual_override_active t s = false ->
  commands (snd (publish_safe_command t s)) =
    [if dlt dzero (Vector3.x (Twist.linear (limited (params s) (selected_command_ s)))) &&
        obstacle_within (params s) scan (stop_distance_ (params s))
     then Twist.zero else limited (params s) (selected_command_ s)].
Proof.
  intros s Hc Hs Hm. rewrite publish_safe_command_command. unfold verdict.
  rewrite Hc, Hs, Hm; simpl. rewrite andb_false_r; simpl.
  assert (params s = params s0) as Hp
    by (subst s; unfold on_scan; by destruct (fold_left _ _ _)).
  subst s. rewrite on_scan_lt, Hp. rewrite andb_true_r. by destruct (_ && _).
Qed.

(** C9: Nothing moves without a fresh command, and nothing moves without the
    required laser unless the operator took over: in both cases the published
    command is zero and the matching rule is raised. *)
Theorem stale_inputs_stop t s :
  command_fresh t s = false \/
  (require_scan_ (params s) = true /\ scan_fresh t s = false /\
   manual_override_active t s = false) ->
  commands (snd (publish_safe_command t s)) = [Twist.zero] /\
  view (fst (publish_safe_command t s)) =
    if command_fresh t s then Some (SafetyEvent.SEVERITY_STOP, "scan_timeout"%string)
    else Some (SafetyEvent.SEVERITY_WARNING, "command_timeout"%string).
Proof.
  intros Hc. rewrite publish_safe_command_command.
  pose proof (publish_safe_command_state t s) as E. unfold verdict in *.
  destruct (command_fresh t s); simpl in *; [|by rewrite E].
  destruct Hc as [|(H1 & H2 & H3)]; [done|]. rewrite H1, H2, H3 in *; simpl in *.
  by rewrite E.
Qed.

(** C10: The event stream follows its protocol in every execution: rules are
    raised one at a time, each is cleared before the next is raised, the
    clearing event names the rule that was shown, and a subscriber that follows
    the stream always knows the guard's active rule. *)
Theorem event_stream_follows_protocol p cs :
  let '(s, pubs) := run next (initial p) cs in
  monitor None (events pubs) = Some (view s).
Proof.
  change None with (view (initial p)). generalize (initial p).
  induction cs as [|c cs IH]; intros s; simpl; [done|].
  pose proof (next_monitor s c) as H1. destruct (next s c) as [s1 o1]; simpl in *.
  specialize (IH s1). destruct (run next s1 cs) as [s2 o2].
  by rewrite events_app, (monitor_app _ _ _ _ H1).
Qed.

(** A NaN forward speed is not stopped: with a fresh command whose forward
    speed is NaN, the guard publishes that NaN although the laser sees an
    obstacle at any distance, because neither [std::clamp] nor the comparison
    with zero catches it. *)
Theorem nan_command_passes_guard t s :
  command_fresh t s = true ->
  (require_scan_ (params s) = true -> scan_fresh t s = true) ->
  is_nan (Vector3.x (Twist.linear (selected_command_ s))) = true ->
  exists w, commands (snd (publish_safe_command t s)) = [Twist.planar S754_nan w].
Proof.
  intros Hc Hs Hn. rewrite publish_safe_command_command. unfold verdict.
  rewrite Hc. assert (require_scan_ (params s) && negb (scan_fresh t s) = false) as ->
    by (destruct (require_scan_ (params s)); [by rewrite Hs|done]).
  simpl. rewrite dclamp_nan by done.
  destruct (Vector3.x (Twist.linear (selected_command_ s))) eqn:E; try done.
  rewrite (dlt_nan_r dzero) by done; simpl.
  destruct (manual_override_active t s); simpl; unfold limited; rewrite E;
    rewrite dclamp_nan by done; eauto.
Qed.
End Guard.

(** ** Witnesses *)
Section Witnesses.
#[local] Existing Instance rclcpp_doc.

(** one beam straight ahead, 0.2 m away *)
Definition demo_scan : LaserScan :=
  MakeScan fzero (litf 1 2) (litf 1 1) (litf 12 0) [litf 2 1].
Definition demo_guard (v : double) : VlaSafetyGuard :=
  (initial default_parameters) <| selected_command_ := Twist.planar v dzero |>
    <| command_stamp_ := 1000 |>.
Definition demo_readings : Readings := MakeReadings 2000 2000 2000 2000 2000.

Lemma published_command_within_limits_witness :
  exists v w,
    commands (snd (publish_safe_command demo_readings (demo_guard (lit 3 0)))) =
      [Twist.planar v w] /\ dle v (lit 4 1) = true.
Proof.
  destruct (published_command_within_limits demo_readings (demo_guard (lit 3 0))
    ltac:(vm_compute; reflexivity) ltac:(vm_compute; reflexivity)
    ltac:(vm_compute; reflexivity))
    as (v & w & E & Hv & _).
  exists v, w. split; [exact E|].
  destruct Hv as [[Hn Hv]|[_ Hv]]; [|exact Hv].
  exfalso. rewrite Hv in Hn. vm_compute in Hn. discriminate.
Defined.

Lemma obstacle_decision_witness :
  commands (snd (publish_safe_command demo_readings
    (on_scan 1000 demo_scan (demo_guard (lit 3 1))))) = [Twist.zero].
Proof.
  rewrite (obstacle_decision 1000 demo_scan demo_readings (demo_guard (lit 3 1)));
    vm_compute; reflexivity.
Defined.

Lemma stale_inputs_stop_witness :
  commands (snd (publish_safe_command demo_readings (initial default_parameters))) =
    [Twist.zero].
Proof.
  apply (stale_inputs_stop demo_readings (initial default_parameters)).
  left; vm_compute; reflexivity.
Defined.

Lemma nan_command_passes_guard_witness :
  exists w, commands (snd (publish_safe_command demo_readings
    (on_scan 1000 demo_scan (demo_guard S754_nan)))) = [Twist.planar S754_nan w].
Proof.
  apply (nan_command_passes_guard demo_readings
    (on_scan 1000 demo_scan (demo_guard S754_nan)));
    [vm_compute; reflexivity | discriminate | vm_compute; reflexivity].
Defined.
End Witnesses.
