(* ===== verification/ControlChain.v ===== *)
(** * The control chain: supervisor, multiplexer and guard together

    The three nodes of [vehicle_runtime] that decide what reaches [/cmd_vel],
    composed the way the topics connect them: the supervisor's states go to the
    multiplexer, the multiplexer's selections to the guard.  The network may
    deliver any message published so far, late, repeatedly or never: an event
    names the published message it delivers by its position.  Everything else
    the nodes receive (requests, commands of the sources, leases, scans) is
    arbitrary.  The selections are kept with the multiplexer state they were
    made in, which is not part of the message. *)
From S2P Require Import Prelude Floats Messages Supervisor ControlMux SafetyGuard.
Local Open Scope Z_scope.

Record Selection := MakeSelection { stamp_now : Z; fresh_now : Z; selector : VlaControlMux }.

Record Chain := MakeChain {
  supervisor : VehicleSupervisor;
  published_states : list SystemState.SystemStateMsg;
  mux : VlaControlMux;
  selections : list Selection;
  guard : VlaSafetyGuard }.
#[export] Instance eta_chain : Eta Chain := fun c =>
  MakeChain (supervisor c) (published_states c) (mux c) (selections c) (guard c).

Section Chain.
Context `{Rclcpp}.

Definition message_of (s : Selection) : TwistStamped :=
  publish_selected (stamp_now s) (fresh_now s) (selector s).

(** start-up: the supervisor publishes its first state *)
Definition chain_initial (now : Z) (source_timeout : double) (frame : string)
    (p : SafetyGuard.Parameters) : Chain :=
  let '(s, out) := Supervisor.initial now in
  MakeChain s out (ControlMux.initial source_timeout frame) [] (SafetyGuard.initial p).

Inductive ChainEvent :=
| SupervisorCallback (e : Supervisor.Event)
| StateDelivered (i : nat)
| LeaseDelivered (m : ControlLease.ControlLeaseMsg)
| NavDelivered (now : Z) (m : Twist)
| VlaDelivered (m : TwistStamped)
| MobileDelivered (m : TwistStamped)
| MuxTimer (stamp_now now : Z)
| SelectionDelivered (now : Z) (i : nat)
| ScanDelivered (now : Z) (m : LaserScan)
| OverrideDelivered (now : Z) (data : bool)
| GuardTimer (t : Readings).

Definition on_mux (e : ControlMux.Event) (c : Chain) : Chain * list Twist :=
  (c <| mux := fst (ControlMux.next (mux c) e) |>, []).

Definition on_guard (e : SafetyGuard.Callback) (c : Chain) : Chain * list Twist :=
  let '(g, out) := SafetyGuard.next (guard c) e in (c <| guard := g |>, commands out).

(** the outputs are what is published on [/cmd_vel] *)
Definition chain_next (c : Chain) (e : ChainEvent) : Chain * list Twist :=
  match e with
  | SupervisorCallback e =>
      let '(s, out) := Supervisor.next (supervisor c) e in
      (c <| supervisor := s |> <| published_states := published_states c ++ out |>, [])
  | StateDelivered i =>
      match published_states c !! i with
      | Some m => on_mux (StateReceived m) c
      | None => (c, [])
      end
  | LeaseDelivered m => on_mux (LeaseReceived m) c
  | NavDelivered now m => on_mux (NavReceived now m) c
  | VlaDelivered m => on_mux (VlaReceived m) c
  | MobileDelivered m => on_mux (MobileReceived m) c
  | MuxTimer stamp now => (c <| selections := selections c ++ [MakeSelection stamp now (mux c)] |>, [])
  | SelectionDelivered now i =>
      match selections c !! i with
      | Some s => on_guard (CommandReceived now (message_of s)) c
      | None => (c, [])
      end
  | ScanDelivered now m => on_guard (ScanReceived now m) c
  | OverrideDelivered now d => on_guard (OverrideReceived now d) c
  | GuardTimer t => on_guard (SafetyGuard.TimerFired t) c
  end.

Definition chain_event_ok (e : ChainEvent) : Prop :=
  match e with SupervisorCallback e => Supervisor.event_ok e | _ => True end.

(** ** Invariant *)
Definition announced (m : SystemState.SystemStateMsg) : Prop :=
  SystemState.control_source m = control_source_for (SystemState.mode m) /\
  SystemState.safe_to_move m =
    negb (SystemState.mode m =? SystemState.MODE_SAFE_STOP) &&
    negb (SystemState.mode m =? SystemState.MODE_FAULT).

Definition known_mode (c : Chain) (x : VlaControlMux) : Prop :=
  exists m, m ∈ published_states c /\ SystemState.mode m = mode_ x.

(** what the guard holds: nothing yet, or one of the selections *)
Definition holds_selection (c : Chain) : Prop :=
  selected_command_ (guard c) = Twist.zero \/
  exists s, s ∈ selections c /\
    selected_command_ (guard c) = TwistStamped.twist (message_of s) /\
    (time_ns (to_msg (stamp_now s)) = 0 \/
     command_stamp_ (guard c) = time_ns (to_msg (stamp_now s))).

Record chain_ok (p : SafetyGuard.Parameters) (c : Chain) : Prop := {
  ch_supervisor : Supervisor.ok (supervisor c);
  ch_states : Forall announced (published_states c);
  ch_mux : known_mode c (mux c);
  ch_selections : Forall (fun s => known_mode c (selector s)) (selections c);
  ch_guard : holds_selection c;
  ch_params : SafetyGuard.params (guard c) = p }.

Lemma ok_announced s : Supervisor.ok s -> announced (state_ s).
Proof. by intros []. Qed.

(** what the supervisor publishes is the state it is left in *)
Lemma supervisor_publishes s e :
  snd (Supervisor.next s e) = [] \/ snd (Supervisor.next s e) = [state_ (fst (Supervisor.next s e))].
Proof.
  destruct e as [m|now m|now r|now r|now]; cbn; auto.
  - unfold on_safety_event. destruct (_ && _); auto.
  - destruct (on_mode_request_cases now r s) as [[_ ->]|[_ [x ->]]]; auto.
Qed.

Lemma supervisor_outputs s e : Supervisor.ok (fst (Supervisor.next s e)) ->
  Forall announced (snd (Supervisor.next s e)).
Proof.
  intros Hok%ok_announced. destruct (supervisor_publishes s e) as [-> | ->]; repeat constructor; apply Hok.
Qed.

Lemma chain_initial_ok now timeout frame p : chain_ok p (chain_initial now timeout frame p).
Proof.
  split; cbn; try done.
  - repeat constructor.
  - eexists. split; [apply list_elem_of_here|done].
  - by left.
Qed.

Lemma on_mux_ok p e c :
  (forall m, e <> StateReceived m) -> (forall a b, e <> ControlMux.TimerFired a b) ->
  chain_ok p c -> chain_ok p (fst (on_mux e c)).
Proof.
  intros H1 H2 [A B C D E F]. unfold on_mux. split; cbn; try done.
  destruct C as (m & Hm & Hmode). exists m. split; [done|].
  destruct e as [x|x|n x|x|x|a b]; cbn; try done.
  - by destruct (H1 x).
  - unfold on_lease. by destruct (negb _).
Qed.

Lemma on_guard_ok p e c :
  (forall now m, e = CommandReceived now m -> exists s, s ∈ selections c /\ m = message_of s) ->
  chain_ok p c -> chain_ok p (fst (on_guard e c)).
Proof.
  intros Hc [A B C D E F]. unfold on_guard.
  destruct (SafetyGuard.next (guard c) e) as [g out] eqn:Eg. split; cbn; try done.
  - unfold holds_selection. cbn. destruct e as [now m|now m|now d|t]; cbn in Eg.
    + injection Eg as <- _. destruct (Hc now m eq_refl) as (s & Hs & ->). right. exists s.
      split; [done|]. split; [done|]. cbn. destruct (Z.eqb_spec (time_ns (to_msg (stamp_now s))) 0); auto.
    + injection Eg as <- _. unfold on_scan. by destruct (fold_left _ _ _).
    + by injection Eg as <- _.
    + pose proof (publish_safe_command_state t (guard c)) as Hv.
      destruct (verdict t (guard c)) as [[[sev rule] why] v]. rewrite Eg in Hv. cbn in Hv. by subst g.
  - destruct e as [now m|now m|now d|t]; cbn in Eg; try by injection Eg as <- _.
    + injection Eg as <- _. unfold on_scan. by destruct (fold_left _ _ _).
    + pose proof (publish_safe_command_state t (guard c)) as Hv.
      destruct (verdict t (guard c)) as [[[sev rule] why] v]. rewrite Eg in Hv. cbn in Hv. by subst g.
Qed.

Lemma chain_next_ok p c e :
  chain_event_ok e -> chain_ok p c -> chain_ok p (fst (chain_next c e)).
Proof.
  intros He Hok. destruct e as [e|i|m|now m|m|m|a b|now i|now m|now d|t]; cbn [chain_next];
    try by (apply on_mux_ok || apply on_guard_ok).
  - pose proof (Supervisor.next_ok _ e He (ch_supervisor _ _ Hok)) as Hs.
    pose proof (supervisor_outputs _ _ Hs) as Ho. destruct Hok as [A B C D E F].
    destruct (Supervisor.next (supervisor c) e) as [s out]. cbn in *.
    assert (forall x, known_mode c x -> known_mode (c <| supervisor := s |>
      <| published_states := published_states c ++ out |>) x) as Hk.
    { intros x (m & Hm & Hx). exists m. split; [apply elem_of_app; by left|done]. }
    split; cbn; try done; [by apply Forall_app|by apply Hk|].
    eapply Forall_impl; [exact D|]. intros x Hx. by apply Hk.
  - destruct (published_states c !! i) as [m|] eqn:Ei; [|done]. destruct Hok as [A B C D E F].
    split; cbn; try done. exists m. split; [by eapply list_elem_of_lookup_2|done].
  - destruct Hok as [A B C D E F]. split; cbn; try done.
    + apply Forall_app. split; [done|]. by repeat constructor.
    + destruct E as [E|(s & Hs & E)]; [by left|right]. exists s. split; [apply elem_of_app; by left|done].
  - destruct (selections c !! i) as [s|] eqn:Ei; [|done]. apply on_guard_ok; [|done].
    intros n m [= <- <-]. exists s. split; [by eapply list_elem_of_lookup_2|done].
Qed.

Lemma limited_zero p : limited p Twist.zero = Twist.zero.
Proof. unfold limited. cbn. by rewrite !dclamp_zero. Qed.

Lemma chain_run_ok p es c : Forall chain_event_ok es -> chain_ok p c -> chain_ok p (fst (run chain_next c es)).
Proof. apply run_invariant_on. intros s e. apply chain_next_ok. Qed.

(** what the multiplexer hears in an event *)
Definition mux_hears (c : Chain) (e : ChainEvent) : option ControlMux.Event :=
  match e with
  | StateDelivered i => StateReceived <$> published_states c !! i
  | LeaseDelivered m => Some (LeaseReceived m)
  | NavDelivered now m => Some (NavReceived now m)
  | VlaDelivered m => Some (VlaReceived m)
  | MobileDelivered m => Some (MobileReceived m)
  | _ => None
  end.

(** a property of the multiplexer, kept by what it hears, holds of it and of every
    state it has selected in *)
Lemma chain_next_muxes (P : VlaControlMux -> Prop) c e :
  (forall x, mux_hears c e = Some x -> P (mux c) -> P (fst (ControlMux.next (mux c) x))) ->
  P (mux c) -> Forall (fun s => P (selector s)) (selections c) ->
  P (mux (fst (chain_next c e))) /\ Forall (fun s => P (selector s)) (selections (fst (chain_next c e))).
Proof.
  intros He Hm Hs.
  destruct e as [e|i|m|now m|m|m|a b|now i|now m|now d|t]; cbn [chain_next mux_hears] in *; unfold on_guard;
    try (split; [by apply (He _ eq_refl)|exact Hs]); try (by destruct (SafetyGuard.next _ _)).
  - by destruct (Supervisor.next _ e).
  - destruct (published_states c !! i); [|by split]. split; [by apply (He _ eq_refl)|exact Hs].
  - split; [exact Hm|]. apply Forall_app. split; [exact Hs|]. constructor; [exact Hm|constructor].
  - destruct (selections c !! i); [|by split]. by destruct (SafetyGuard.next _ _).
Qed.

(** why the guard sends [v]: the selection behind it, its source and the mode
    that authorises it *)
Record authorised_motion (c : Chain) (p : SafetyGuard.Parameters) (t : Readings) (v : Twist)
    (s : Selection) (src : Source) : Prop := {
  am_selected : s ∈ selections c;
  am_authorised : authorised (mode_ (selector s)) (teleop_lease_active_ (selector s))
    (teleop_lease_remote_ (selector s)) = Some src;
  am_command : v = limited p (fst (candidate (selector s) src));
  am_fresh : fresh (fresh_now s) (selector s) (snd (candidate (selector s) src)) = true;
  am_announced : exists m, m ∈ published_states c /\ SystemState.mode m = mode_ (selector s) /\
    SystemState.safe_to_move m = true /\
    SystemState.control_source m = control_source_for (mode_ (selector s));
  am_timely : time_ns (to_msg (stamp_now s)) = 0 \/
    is_fresh (t_command t) (time_ns (to_msg (stamp_now s))) (command_timeout_ p) = true }.

Lemma guard_motion p c t v : chain_ok p c -> v ∈ snd (chain_next c (GuardTimer t)) -> v <> Twist.zero ->
  exists s src, authorised_motion c p t v s src.
Proof.
  intros [A B C D E F] Hv Hne.
  cbn [chain_next] in Hv. unfold on_guard in Hv. cbn [SafetyGuard.next] in Hv.
  pose proof (publish_safe_command_command t (guard c)) as Hc.
  destruct (publish_safe_command t (guard c)) as [g out]. cbn [snd] in *. rewrite Hc in Hv.
  apply list_elem_of_singleton in Hv.
  assert (command_fresh t (guard c) = true /\ v = limited p (selected_command_ (guard c))) as [Hf Hl].
  { unfold verdict in Hv. destruct (command_fresh t (guard c)); [|done]. split; [done|]. revert Hv.
    rewrite F. destruct (_ && _ && _); [done|]. destruct (manual_override_active _ _); [done|].
    by destruct (_ && _ && _). }
  destruct E as [E|(s & Hs & E & Hst)]; [by rewrite E, limited_zero in Hl|].
  unfold message_of in E. rewrite publish_selected_twist in E.
  rewrite Forall_forall in D. destruct (D s Hs) as (m & Hm & Hmode).
  rewrite Forall_forall in B. destruct (B m Hm) as [Hsrc Hsafe]. unfold arbitrate in E.
  destruct (authorised _ _ _) as [src|] eqn:Ha; [|by rewrite E, limited_zero in Hl].
  destruct (candidate (selector s) src) as [command stamp] eqn:Ecand.
  destruct (fresh _ _ stamp) eqn:Hfresh; [|by rewrite E, limited_zero in Hl].
  exists s, src. rewrite Hmode in Hsrc. rewrite E in Hl. split; rewrite ?Ecand; try done.
  - exists m. split_and!; try done. rewrite Hsafe, Hmode.
    destruct (mode_dispatch (mode_ (selector s))) as [E'|[E'|[E'|[E'|[E'|(_&_&_&_&_&E')]]]]];
      try (by rewrite E'). by rewrite E' in Ha.
  - destruct Hst as [?|Hst]; [by left|right]. unfold command_fresh in Hf. by rewrite Hst, F in Hf.
Qed.

(** C1: Nothing moves without authorisation, in the three nodes together and
    whatever the network does: when the guard sends a command other than zero,
    the multiplexer has selected that command (before the guard's limits) at
    some point from the one source that the mode it then knew, and the lease,
    authorise, and the command was fresh then; that mode was announced by the
    supervisor as safe to move with the source's name; and the guard's copy is
    within its timeout. *)
Theorem motion_is_authorised now timeout frame p es t v :
  Forall chain_event_ok es ->
  let c := fst (run chain_next (chain_initial now timeout frame p) es) in
  v ∈ snd (chain_next c (GuardTimer t)) -> v <> Twist.zero ->
  exists s src command stamp m,
    s ∈ selections c /\
    authorised (mode_ (selector s)) (teleop_lease_active_ (selector s))
      (teleop_lease_remote_ (selector s)) = Some src /\
    candidate (selector s) src = (command, stamp) /\
    fresh (fresh_now s) (selector s) stamp = true /\
    v = limited p command /\
    m ∈ published_states c /\ SystemState.mode m = mode_ (selector s) /\
    SystemState.safe_to_move m = true /\
    SystemState.control_source m = control_source_for (mode_ (selector s)) /\
    (time_ns (to_msg (stamp_now s)) = 0 \/
     is_fresh (t_command t) (time_ns (to_msg (stamp_now s))) (command_timeout_ p) = true).
Proof.
  intros Hes c Hv Hne. pose proof (chain_run_ok p es _ Hes (chain_initial_ok now timeout frame p)) as Hok.
  destruct (guard_motion p c t v Hok Hv Hne) as (s & src & [Hs Ha Hc Hf (m & Hm & Hmode & Hsafe & Hsrc) Ht]).
  destruct (candidate (selector s) src) as [command stamp] eqn:Ec. by exists s, src, command, stamp, m.
Qed.

(** what the sources and sensors send *)
Definition from_outside (e : ChainEvent) : Prop :=
  match e with
  | NavDelivered _ _ | VlaDelivered _ | MobileDelivered _ | LeaseDelivered _
  | ScanDelivered _ _ | OverrideDelivered _ _ => True
  | _ => False
  end.

(** the mode, the selections and the guard's command are the same, and nothing
    is sent *)
Definition same_decision (c c' : Chain) : Prop :=
  mode_ (mux c') = mode_ (mux c) /\ selections c' = selections c /\
  selected_command_ (guard c') = selected_command_ (guard c).

Lemma from_outside_quiet c e :
  from_outside e -> same_decision c (fst (chain_next c e)) /\ snd (chain_next c e) = [].
Proof.
  destruct e as [e|i|m|now m|m|m|a b|now i|now m|now d|t]; try done; intros _; cbn.
  - split; [|done]. split; [|done]. cbn. unfold on_lease. by destruct (negb _).
  - unfold on_guard. cbn. unfold on_scan. by destruct (fold_left _ _ _).
Qed.

Lemma outside_run_quiet es c :
  Forall from_outside es ->
  same_decision c (fst (run chain_next c es)) /\ snd (run chain_next c es) = [].
Proof.
  intros Hes. revert c; induction Hes as [|e r He _ IH]; intros c; [done|]. cbn [run].
  destruct (from_outside_quiet c e He) as [(H1 & H2 & H3) H4].
  destruct (chain_next c e) as [c1 o1]. cbn [fst snd] in *. destruct (IH c1) as [(I1 & I2 & I3) I4].
  destruct (run chain_next c1 r) as [c2 o2]. cbn [fst snd] in *. unfold same_decision.
  rewrite H4, I4, I1, I2, I3. done.
Qed.

Lemma safe_stop_selects_zero a b x :
  mode_ x = SystemState.MODE_SAFE_STOP ->
  TwistStamped.twist (message_of (MakeSelection a b x)) = Twist.zero.
Proof. intros Hm. unfold message_of. rewrite publish_selected_twist. unfold arbitrate. cbn. by rewrite Hm. Qed.

Lemma zero_command_sends_zero c t :
  selected_command_ (guard c) = Twist.zero -> snd (chain_next c (GuardTimer t)) = [Twist.zero].
Proof.
  intros Hz. cbn [chain_next]. unfold on_guard. cbn [SafetyGuard.next].
  pose proof (publish_safe_command_command t (guard c)) as Hc.
  destruct (publish_safe_command t (guard c)) as [g out]. cbn [snd] in *. rewrite Hc. f_equal.
  unfold verdict. rewrite Hz, limited_zero. by repeat case_match.
Qed.

(** serving the stop request and delivering the state it publishes *)
Lemma safe_stop_reaches_mux c now request :
  let c' := fst (run chain_next c [SupervisorCallback (SafeStopRequested now request);
                                   StateDelivered (List.length (published_states c))]) in
  mode_ (mux c') = SystemState.MODE_SAFE_STOP /\ selections c' = selections c /\
  snd (run chain_next c [SupervisorCallback (SafeStopRequested now request);
                         StateDelivered (List.length (published_states c))]) = [].
Proof.
  cbv zeta. cbn [run chain_next Supervisor.next]. unfold on_safe_stop, set_mode, publish_state.
  cbn -[lookup].
  rewrite (lookup_app_r (published_states c)), Nat.sub_diag by lia. done.
Qed.

(** C4: A safe stop works through: from any state of the three nodes, once the
    request is served, the resulting state has reached the multiplexer, and its
    next selection the guard, the guard's tick sends zero and nothing else was
    sent, whatever the sources and sensors keep sending in between. *)
Theorem safe_stop_stops_vehicle c now request between1 between2 a b arrival t :
  Forall from_outside between1 -> Forall from_outside between2 ->
  snd (run chain_next c
    ([SupervisorCallback (SafeStopRequested now request); StateDelivered (List.length (published_states c))] ++
     between1 ++ [MuxTimer a b; SelectionDelivered arrival (List.length (selections c))] ++
     between2 ++ [GuardTimer t])) = [Twist.zero].
Proof.
  intros H1 H2. rewrite run_app_snd. destruct (safe_stop_reaches_mux c now request) as (M1 & S1 & ->).
  cbv zeta in *. set (c1 := fst (run chain_next c _)) in *. rewrite run_app_snd.
  destruct (outside_run_quiet between1 c1 H1) as [(M2 & S2 & _) ->].
  set (c2 := fst (run chain_next c1 _)) in *. rewrite run_app_snd.
  assert (exists c3, fst (run chain_next c2 [MuxTimer a b; SelectionDelivered arrival (List.length (selections c))]) = c3 /\
    selected_command_ (guard c3) = Twist.zero /\
    snd (run chain_next c2 [MuxTimer a b; SelectionDelivered arrival (List.length (selections c))]) = [])
    as (c3 & -> & G3 & ->).
  { eexists. split; [done|]. cbn -[lookup]. rewrite S2, S1, (lookup_app_r (selections c)), Nat.sub_diag by lia.
    cbn. split; [|done]. apply (safe_stop_selects_zero a b (mux c2)), (eq_trans M2 M1). }
  rewrite run_app_snd. destruct (outside_run_quiet between2 c3 H2) as [(_ & _ & G4) ->].
  cbn [app]. rewrite run_one. apply zero_command_sends_zero. by rewrite G4.
Qed.
End Chain.

(** ** Witnesses *)
Section Witnesses.
#[local] Existing Instance rclcpp_doc.

(** navigation drives forward: mode request, navigation command, selection *)
Definition demo_chain_events : list ChainEvent :=
  [SupervisorCallback (ModeRequested 1000 (MakeModeRequest SystemState.MODE_NAV2 "web" ""));
   StateDelivered 1; NavDelivered 2000 (Twist.planar (lit 2 1) dzero); MuxTimer 3000 3000;
   SelectionDelivered 4000 0].
Definition demo_chain : Chain :=
  fst (run chain_next (chain_initial 0 (lit 3 1) "base_link" default_parameters) demo_chain_events).
Definition demo_readings : Readings := MakeReadings 5000 5000 5000 5000 5000.

Lemma motion_is_authorised_witness :
  exists s src m, s ∈ selections demo_chain /\
    authorised (mode_ (selector s)) (teleop_lease_active_ (selector s))
      (teleop_lease_remote_ (selector s)) = Some src /\
    m ∈ published_states demo_chain /\ SystemState.safe_to_move m = true.
Proof.
  destruct (motion_is_authorised 0 (lit 3 1) "base_link" default_parameters demo_chain_events demo_readings
    (Twist.planar (lit 2 1) dzero)) as (s & src & command & stamp & m & H1 & H2 & _ & _ & _ & H6 & _ & H8 & _).
  - repeat constructor; vm_compute; discriminate.
  - vm_compute. apply list_elem_of_here.
  - vm_compute. discriminate.
  - exists s, src, m. split_and!; [exact H1|exact H2|exact H6|exact H8].
Defined.

Lemma safe_stop_stops_vehicle_witness :
  snd (run chain_next demo_chain
    [SupervisorCallback (SafeStopRequested 6000 (MakeStopRequest "web" "")); StateDelivered 2;
     NavDelivered 6500 (Twist.planar (lit 2 1) dzero); MuxTimer 7000 7000; SelectionDelivered 7500 1;
     GuardTimer demo_readings]) = [Twist.zero].
Proof.
  refine (safe_stop_stops_vehicle demo_chain 6000 (MakeStopRequest "web" "")
    [NavDelivered 6500 (Twist.planar (lit 2 1) dzero)] [] 7000 7000 7500 demo_readings _ _);
    repeat constructor.
Defined.
End Witnesses.
