(* ===== verification/TeleopGateway.v ===== *)
(** * The teleoperation gateway

    Models [vehicle_runtime/src/vehicle_teleop_gateway_node.cpp]: control leases
    are acquired through a ROS action, renewed, released and expired, and the
    commands of the lease holder become [/mobile_teleop/cmd_vel].

    The node is multi-threaded: subscriptions, services and the timer run on
    the executor's thread, and every accepted goal runs [execute] on a detached
    thread of its own.  All shared members are protected by one mutex, so the
    model interleaves *sections* of the callbacks: a section is one locked block,
    or one publication, request or answer made after the unlock, when other
    threads may have changed what it was decided on.  [Node] is the
    shared state, a [Task] is what a thread still has to do, and [step] lets
    either the executor's thread or one of the detached threads take its next
    section.  The clock readings a section makes are the arguments of
    the step. *)
From S2P Require Import Prelude Floats Messages.
Local Open Scope Z_scope.

(** ** Requests, responses and parameters *)
Record Goal' := MakeGoal {
  controller_id : string;
  source : string;
  requested_duration : Time;
  requested_max_linear_velocity : float32;
  requested_max_angular_velocity : float32;
  remote : bool }.

Record Result := MakeResult {
  granted : bool; lease : ControlLease.ControlLeaseMsg; message : string }.

Record ReleaseRequest := MakeRelease {
  release_lease_id : string; release_controller_id : string }.
Record ReleaseResponse := MakeReleaseResponse {
  released : bool; release_message : string }.

Record Parameters := MakeParameters {
  maximum_lease_seconds_ : double;
  minimum_lease_seconds_ : double;
  command_timeout_seconds_ : double;
  maximum_linear_velocity_ : double;
  maximum_angular_velocity_ : double;
  publish_frequency_ : double;
  output_frame_ : string }.

Definition default_parameters : Parameters :=
  MakeParameters (lit 300 1) (lit 30 1) (lit 3 1) (lit 4 1) (lit 8 1) (lit 200 1)
    "base_link".

(** The members the mutex protects.  A [time_point] of the steady clock is its
    number of nanoseconds since the clock's epoch. *)
Record Node := MakeNode {
  lease_ : ControlLease.ControlLeaseMsg;
  lease_deadline_ : Z;
  command_deadline_ : Z;
  last_sequence_ : Z;
  linear_normalized_ : double;
  angular_normalized_ : double;
  deadman_ : bool;
  manual_obstacle_override_ : bool;
  pending_controller_id_ : string;
  lease_counter_ : Z }.
#[export] Instance eta_node : Eta Node := fun s =>
  MakeNode (lease_ s) (lease_deadline_ s) (command_deadline_ s) (last_sequence_ s)
    (linear_normalized_ s) (angular_normalized_ s) (deadman_ s)
    (manual_obstacle_override_ s) (pending_controller_id_ s) (lease_counter_ s).

Definition initial : Node :=
  MakeNode ControlLease.zero 0 0 0 dzero dzero false false "" 0.

(** The clock readings of one locked section: the steady clock read by
    [lease_expired_locked] and again when a deadline is set or tested, the ROS
    clock read by [make_lease_id], for the header and for [expires_at]. *)
Record Clock := MakeClock {
  steady_check : Z; steady_set : Z; ros_id : Z; ros_stamp : Z; ros_expiry : Z }.

(** What the node does besides updating its members. *)
Inductive Output :=
| LeasePublished (m : ControlLease.ControlLeaseMsg)
| CommandPublished (m : TwistStamped)
| OverridePublished (data : bool)
| ModeRequested (mode : Z) (why : string)
| GoalRejected
| GoalAccepted
| GoalFinished (succeeded : bool) (result : Result)
| ReleaseAnswered (response : ReleaseResponse).

Section Gateway.
Context `{Rclcpp}.
Variable p : Parameters.

(** the constructor's parameter check *)
Definition constructor : Outcome Node :=
  if dle (minimum_lease_seconds_ p) dzero ||
     dlt (maximum_lease_seconds_ p) (minimum_lease_seconds_ p) ||
     dle (command_timeout_seconds_ p) dzero || dle (publish_frequency_ p) dzero ||
     dle (maximum_linear_velocity_ p) dzero || dle (maximum_angular_velocity_ p) dzero
  then Throws "Invalid teleop gateway parameters" else Returns initial.

Definition duration_seconds (d : Time) : double :=
  dadd (of_int (sec d)) (ddiv (of_int (nanosec d)) (of_int 1000000000)).

Definition lease_expired_locked (steady : Z) (s : Node) : bool :=
  (lease_deadline_ s =? 0) || (lease_deadline_ s <=? steady).

(** "teleop-" and two numbers in hexadecimal ([std::hex] stays set; a negative
    [int64_t] prints as its two's complement) *)
Definition make_lease_id (ros : Z) (count : Z) : string :=
  ("teleop-" ++ hex_string (wrap64 ros) ++ "-" ++ hex_string count)%string.

(** ** handle_goal *)
Definition well_formed_goal (g : Goal') : bool :=
  let duration := duration_seconds (requested_duration g) in
  negb (str_empty (controller_id g) || str_empty (source g) ||
    dlt duration (minimum_lease_seconds_ p) || dlt (maximum_lease_seconds_ p) duration ||
    negb (isfinite (requested_max_linear_velocity g)) ||
    negb (isfinite (requested_max_angular_velocity g)) ||
    dle (requested_max_linear_velocity g) fzero ||
    dle (requested_max_angular_velocity g) fzero).

Definition handle_goal (steady : Z) (g : Goal') (s : Node) : Node * bool :=
  if negb (well_formed_goal g) then (s, false)
  else if (ControlLease.active (lease_ s) && negb (lease_expired_locked steady s) &&
           negb (str_eqb (ControlLease.controller_id (lease_ s)) (controller_id g))) ||
          (negb (str_empty (pending_controller_id_ s)) &&
           negb (str_eqb (pending_controller_id_ s) (controller_id g)))
  then (s, false)
  else (s <| pending_controller_id_ := controller_id g |>, true).

(** ** execute: the locked section that grants or renews the lease *)
Definition renewal (steady : Z) (g : Goal') (s : Node) : bool :=
  ControlLease.active (lease_ s) && negb (lease_expired_locked steady s) &&
  str_eqb (ControlLease.controller_id (lease_ s)) (controller_id g).

Definition fmin (a b : float32) : float32 := if dlt b a then b else a.

Definition grant (c : Clock) (g : Goal') (s : Node) : Node :=
  let duration := dclamp (duration_seconds (requested_duration g))
    (minimum_lease_seconds_ p) (maximum_lease_seconds_ p) in
  let s1 :=
    if renewal (steady_check c) g s then s
    else
      let count := wrap64 (lease_counter_ s + 1) in
      s <| lease_counter_ := count |>
        <| lease_ := (lease_ s)
             <| ControlLease.lease_id := make_lease_id (ros_id c) count |> |>
        <| last_sequence_ := 0 |> in
  let l := lease_ s1 in
  s1 <| lease_ := ControlLease.Make
          (Header.Make (to_msg (ros_stamp c)) (Header.frame_id (ControlLease.header l)))
          (ControlLease.lease_id l) (controller_id g) (source g)
          (to_msg (ros_expiry c + from_seconds duration))
          (fmin (requested_max_linear_velocity g) (to_float (maximum_linear_velocity_ p)))
          (fmin (requested_max_angular_velocity g) (to_float (maximum_angular_velocity_ p)))
          (remote g) true |>
     <| lease_deadline_ := steady_set c + chrono_duration_cast duration |>
     <| command_deadline_ := 0 |>
     <| pending_controller_id_ := "" |>
     <| deadman_ := false |>
     <| manual_obstacle_override_ := false |>
     <| linear_normalized_ := dzero |>
     <| angular_normalized_ := dzero |>.

(** ** on_command *)
Definition command_accepted (steady : Z) (m : TeleopCommand.TeleopCommandMsg) (s : Node) : bool :=
  negb (negb (ControlLease.active (lease_ s)) || lease_expired_locked steady s ||
    negb (str_eqb (TeleopCommand.lease_id m) (ControlLease.lease_id (lease_ s))) ||
    negb (str_eqb (TeleopCommand.controller_id m) (ControlLease.controller_id (lease_ s))) ||
    (TeleopCommand.sequence m <=? last_sequence_ s)).

Definition command_valid_for (m : TeleopCommand.TeleopCommandMsg) : double :=
  dclamp (duration_seconds (TeleopCommand.valid_for m)) (lit 1 2) (command_timeout_seconds_ p).

Definition on_command (c : Clock) (m : TeleopCommand.TeleopCommandMsg) (s : Node) : Node :=
  if negb (command_accepted (steady_check c) m s) then s
  else
    s <| last_sequence_ := TeleopCommand.sequence m |>
      <| deadman_ := TeleopCommand.deadman m |>
      <| manual_obstacle_override_ :=
           TeleopCommand.deadman m && TeleopCommand.manual_obstacle_override m |>
      <| linear_normalized_ :=
           dclamp (to_double (TeleopCommand.linear_normalized m)) (of_int (-1)) (of_int 1) |>
      <| angular_normalized_ :=
           dclamp (to_double (TeleopCommand.angular_normalized m)) (of_int (-1)) (of_int 1) |>
      <| command_deadline_ := steady_set c + chrono_duration_cast (command_valid_for m) |>.

(** ** on_release: its locked check *)
Definition release_matches (r : ReleaseRequest) (s : Node) : bool :=
  negb (negb (ControlLease.active (lease_ s)) ||
    negb (str_eqb (release_lease_id r) (ControlLease.lease_id (lease_ s))) ||
    negb (str_eqb (release_controller_id r) (ControlLease.controller_id (lease_ s)))).

(** ** on_timer: its locked section, which decides what is published after it *)
Definition command_valid (c : Clock) (s : Node) : bool :=
  ControlLease.active (lease_ s) &&
  negb (ControlLease.active (lease_ s) && lease_expired_locked (steady_check c) s) &&
  deadman_ s && negb (command_deadline_ s =? 0) && (steady_set c <=? command_deadline_ s).

Definition timer_twist (c : Clock) (s : Node) : Twist :=
  if command_valid c s then
    Twist.planar
      (dmul (linear_normalized_ s) (to_double (ControlLease.max_linear_velocity (lease_ s))))
      (dmul (angular_normalized_ s) (to_double (ControlLease.max_angular_velocity (lease_ s))))
  else Twist.zero.

(** [obstacle_override.data] *)
Definition timer_override (c : Clock) (s : Node) : bool :=
  command_valid c s && manual_obstacle_override_ s.
Definition timer_command (c : Clock) (s : Node) : TwistStamped :=
  TwistStamped.Make (Header.Make (to_msg (ros_stamp c)) (output_frame_ p)) (timer_twist c s).
(** [expired] *)
Definition timer_expired (c : Clock) (s : Node) : bool :=
  ControlLease.active (lease_ s) && lease_expired_locked (steady_check c) s.

(** ** revoke_lease: its locked section; [None] when there is no lease *)
Definition revoke (c : Clock) (s : Node) : option Node :=
  if negb (ControlLease.active (lease_ s)) then None
  else Some (s
    <| lease_ := (lease_ s) <| ControlLease.active := false |>
         <| ControlLease.header := Header.Make (to_msg (ros_stamp c))
              (Header.frame_id (ControlLease.header (lease_ s))) |>
         <| ControlLease.expires_at := to_msg (ros_expiry c) |> |>
    <| deadman_ := false |>
    <| manual_obstacle_override_ := false |>
    <| linear_normalized_ := dzero |>
    <| angular_normalized_ := dzero |>
    <| command_deadline_ := 0 |>).

(** ** request_mode

    What the supervisor's service did with the request, as far as the waiting
    thread sees it: not there within one second, no answer within two, or an
    answer. *)
Inductive ModeAnswer :=
| Unavailable
| TimedOut
| Answered (accepted : bool) (message : string).

Definition request_mode (a : ModeAnswer) : bool * string :=
  match a with
  | Unavailable => (false, "Vehicle supervisor is unavailable")
  | TimedOut => (false, "Control mode request timed out")
  | Answered ok m => (ok, m)
  end.

Definition mode_request_sent (a : ModeAnswer) : bool :=
  match a with Unavailable => false | _ => true end.

Definition teleop_mode (g : Goal') : Z :=
  if remote g then SystemState.MODE_REMOTE_TELEOP else SystemState.MODE_MOBILE_TELEOP.

(** ** What a thread still has to do

    Each constructor is one atomic section; the rest of the function follows. *)
Inductive Reply :=
| NoReply
| AbortGoal (why : string)
| SucceedGoal (granted_lease : ControlLease.ControlLeaseMsg)
| AnswerRelease (answer : bool) (text : string).

Inductive Task :=
| Grant (g : Goal')                                   (* execute: first lock *)
| CopyGranted (g : Goal')                             (* publish_lease: lock *)
| SendGranted (g : Goal') (m : ControlLease.ControlLeaseMsg)
| AskMode (g : Goal')                                 (* request_mode *)
| CopyResult                                          (* result->lease = lease_ *)
| Revoke (why : string) (k : Reply)                   (* revoke_lease: lock *)
| CopyRevoked (why : string) (k : Reply)              (* publish_lease: lock *)
| SendRevoked (why : string) (k : Reply) (m : ControlLease.ControlLeaseMsg)
| AskManual (why : string) (k : Reply)                (* request_mode_async *)
| SendOverride (data : bool) (command : option TwistStamped) (expired : bool)
| SendCommand (command : TwistStamped) (expired : bool)   (* on_timer's publications *)
| Finish (k : Reply).

(** the rest of [on_timer] after its locked section *)
Definition on_timer (c : Clock) (s : Node) : Task :=
  SendOverride (timer_override c s)
    (if ControlLease.active (lease_ s) then Some (timer_command c s) else None) (timer_expired c s).
Definition after_command (expired : bool) : option Task :=
  if expired then Some (Revoke "Lease expired" NoReply) else None.

Definition finish (k : Reply) : list Output :=
  match k with
  | NoReply => []
  | AbortGoal why => [GoalFinished false (MakeResult false ControlLease.zero why)]
  | SucceedGoal l => [GoalFinished true (MakeResult true l "Control lease granted")]
  | AnswerRelease answer text => [ReleaseAnswered (MakeReleaseResponse answer text)]
  end.

(** One atomic section of a task.  [a] is the supervisor's answer to
    [request_mode]; for [request_mode_async] only its availability counts. *)
Definition task_step (c : Clock) (a : ModeAnswer) (t : Task) (s : Node)
  : Node * option Task * list Output :=
  match t with
  | Grant g => (grant c g s, Some (CopyGranted g), [])
  | CopyGranted g => (s, Some (SendGranted g (lease_ s)), [])
  | SendGranted g m => (s, Some (AskMode g), [LeasePublished m])
  | AskMode g =>
      let '(ok, why) := request_mode a in
      (s, Some (if ok then CopyResult else Revoke "Control mode rejected" (AbortGoal why)),
       if mode_request_sent a then [ModeRequested (teleop_mode g) "Teleop lease acquired"]
       else [])
  | CopyResult => (s, Some (Finish (SucceedGoal (lease_ s))), [])
  | Revoke why k =>
      match revoke c s with
      | None => (s, Some (Finish k), [])
      | Some s' => (s', Some (CopyRevoked why k), [])
      end
  | CopyRevoked why k => (s, Some (SendRevoked why k (lease_ s)), [])
  | SendRevoked why k m => (s, Some (AskManual why k), [LeasePublished m])
  | AskManual why k =>
      (s, Some (Finish k),
       if mode_request_sent a then [ModeRequested SystemState.MODE_MANUAL why] else [])
  | SendOverride data command expired =>
      (s, match command with
          | Some m => Some (SendCommand m expired)
          | None => after_command expired
          end, [OverridePublished data])
  | SendCommand m expired => (s, after_command expired, [CommandPublished m])
  | Finish k => (s, None, finish k)
  end.

(** ** The node: the executor's thread and the detached threads *)
Record System := MakeSystem {
  node : Node;
  executor : option Task;    (* rest of the callback the executor is running *)
  threads : list Task;       (* one per goal whose [execute] has not returned *)
  clock : Z }.               (* latest reading of the steady clock *)

Definition start : System := MakeSystem initial None [] 0.

Inductive Event :=
| GoalReceived (c : Clock) (g : Goal')
| CommandReceived (c : Clock) (m : TeleopCommand.TeleopCommandMsg)
| ReleaseReceived (c : Clock) (r : ReleaseRequest)
| TimerFired (c : Clock)
| ExecutorStep (c : Clock) (a : ModeAnswer)
| ThreadStep (i : nat) (c : Clock) (a : ModeAnswer).

Definition event_clock (e : Event) : Clock :=
  match e with
  | GoalReceived c _ | CommandReceived c _ | ReleaseReceived c _ | TimerFired c
  | ExecutorStep c _ | ThreadStep _ c _ => c
  end.

(** the steady clock never goes back *)
Definition clock_ok (s : System) (c : Clock) : bool :=
  (clock s <=? steady_check c) && (steady_check c <=? steady_set c).

(** a callback starts only when the executor's thread is idle *)
Definition step (s : System) (e : Event) : option (System * list Output) :=
  let n := node s in
  if negb (clock_ok s (event_clock e)) then None
  else
    let t := steady_set (event_clock e) in
    match e, executor s with
    | GoalReceived c g, None =>
        let '(n', ok) := handle_goal (steady_check c) g n in
        if ok then
          Some (MakeSystem n' None (threads s ++ [Grant g]) t, [GoalAccepted])
        else Some (MakeSystem n' None (threads s) t, [GoalRejected])
    | CommandReceived c m, None =>
        Some (MakeSystem (on_command c m n) None (threads s) t, [])
    | ReleaseReceived c r, None =>
        Some (MakeSystem n
          (Some (if release_matches r n
                 then Revoke "Released by controller" (AnswerRelease true "Control lease released")
                 else Finish (AnswerRelease false "Active lease does not match")))
          (threads s) t, [])
    | TimerFired c, None => Some (MakeSystem n (Some (on_timer c n)) (threads s) t, [])
    | ExecutorStep c a, Some task =>
        let '(n', task', out) := task_step c a task n in
        Some (MakeSystem n' task' (threads s) t, out)
    | ThreadStep i c a, _ =>
        match threads s !! i with
        | Some task =>
            let '(n', task', out) := task_step c a task n in
            Some (MakeSystem n' (executor s)
                    (match task' with
                     | Some u => <[i := u]> (threads s)
                     | None => delete i (threads s)
                     end) t, out)
        | None => None
        end
    | _, _ => None
    end.

(** Executions from [s] through states that satisfy [allowed]. *)
Inductive runs (allowed : System -> Prop) (s : System) : list Event -> System -> Prop :=
| runs_start : runs allowed s [] s
| runs_step es s1 e s2 o :
    runs allowed s es s1 -> step s1 e = Some (s2, o) -> allowed s2 ->
    runs allowed s (es ++ [e]) s2.

Definition any (_ : System) : Prop := True.

(** ** How one step changes the shared state

    Every step either leaves the node alone or is one of four updates; the
    case analysis of [step] is done here once. *)
Inductive change (e : Event) (n : Node) : Node -> Prop :=
| Unchanged : change e n n
| Goal_pending g : change e n (n <| pending_controller_id_ := controller_id g |>)
| Granted g : change e n (grant (event_clock e) g n)
| Commanded c m : e = CommandReceived c m -> change e n (on_command c m n)
| Revoked n' : revoke (event_clock e) n = Some n' -> change e n n'.

Lemma task_step_change e a t n n' t' o :
  task_step (event_clock e) a t n = (n', t', o) -> change e n n'.
Proof.
  destruct t; simpl; intros E.
  all: repeat split_match; simplify_eq; econstructor; eauto.
Qed.

Lemma step_clock s e s' o :
  step s e = Some (s', o) ->
  clock s <= steady_check (event_clock e) <= steady_set (event_clock e) /\
  clock s' = steady_set (event_clock e).
Proof.
  unfold step. destruct (clock_ok s (event_clock e)) eqn:Hc; [simpl|done].
  unfold clock_ok in Hc. apply andb_true_iff in Hc as [H1%Z.leb_le H2%Z.leb_le].
  intros E. split; [done|]. destruct e; repeat split_match; simplify_eq/=; done.
Qed.

Lemma step_change s e s' o : step s e = Some (s', o) -> change e (node s) (node s').
Proof.
  unfold step. destruct (clock_ok s (event_clock e)); [simpl|done]. intros E.
  destruct e as [c g|c m|c r|c|c a|i c a]; simpl in *; repeat split_match; simplify_eq/=;
    try (eapply Unchanged); try (by eapply Commanded).
  all: try (match goal with H : task_step _ _ _ _ = _ |- change ?e _ _ =>
    apply (task_step_change e) in H; exact H end).
  all: match goal with H : handle_goal _ _ _ = _ |- _ => unfold handle_goal in H end;
    repeat split_match; simplify_eq; eauto using change.
Qed.

(** *** Field equations *)
Lemma on_command_lease c m n : lease_ (on_command c m n) = lease_ n.
Proof. unfold on_command. by split_match. Qed.
Lemma on_command_counter c m n : lease_counter_ (on_command c m n) = lease_counter_ n.
Proof. unfold on_command. by split_match. Qed.
Lemma grant_fields c g n :
  ControlLease.active (lease_ (grant c g n)) = true /\
  ControlLease.controller_id (lease_ (grant c g n)) = controller_id g /\
  command_deadline_ (grant c g n) = 0.
Proof. done. Qed.
Lemma revoke_fields c n n' :
  revoke c n = Some n' ->
  ControlLease.active (lease_ n) = true /\ ControlLease.active (lease_ n') = false /\
  ControlLease.lease_id (lease_ n') = ControlLease.lease_id (lease_ n) /\
  command_deadline_ n' = 0 /\ last_sequence_ n' = last_sequence_ n /\
  lease_counter_ n' = lease_counter_ n.
Proof. unfold revoke. destruct (ControlLease.active (lease_ n)); [|done]. by intros [= <-]. Qed.

Lemma command_accepted_spec t m n :
  command_accepted t m n = true <->
  ControlLease.active (lease_ n) = true /\ lease_expired_locked t n = false /\
  TeleopCommand.lease_id m = ControlLease.lease_id (lease_ n) /\
  TeleopCommand.controller_id m = ControlLease.controller_id (lease_ n) /\
  last_sequence_ n < TeleopCommand.sequence m.
Proof.
  unfold command_accepted. rewrite negb_true_iff, !orb_false_iff, !negb_false_iff,
    !str_eqb_spec, Z.leb_gt. tauto.
Qed.

(** ** Motion needs a fresh dead-man command *)
Definition armed (es : list Event) (n : Node) : Prop :=
  command_deadline_ n <> 0 ->
  exists c m, CommandReceived c m ∈ es /\
    command_deadline_ n = steady_set c + chrono_duration_cast (command_valid_for m) /\
    deadman_ n = TeleopCommand.deadman m /\
    linear_normalized_ n =
      dclamp (to_double (TeleopCommand.linear_normalized m)) (of_int (-1)) (of_int 1) /\
    angular_normalized_ n =
      dclamp (to_double (TeleopCommand.angular_normalized m)) (of_int (-1)) (of_int 1) /\
    TeleopCommand.lease_id m = ControlLease.lease_id (lease_ n) /\
    TeleopCommand.controller_id m = ControlLease.controller_id (lease_ n).

Lemma armed_change es e n n' : armed es n -> change e n n' -> armed (es ++ [e]) n'.
Proof.
  intros Ha Hc Hd. destruct Hc as [|g|g|c m ->|n' Hr].
  - destruct (Ha Hd) as (c & m & Hin & ?). exists c, m. set_solver.
  - destruct (Ha Hd) as (c & m & Hin & ?). exists c, m. set_solver.
  - by destruct (grant_fields (event_clock e) g n) as (_ & _ & ?).
  - unfold on_command in *. destruct (command_accepted (steady_check c) m n) eqn:Hm; simpl in *.
    + apply command_accepted_spec in Hm as (?&?&?&?&?). exists c, m. set_solver.
    + destruct (Ha Hd) as (c0 & m0 & Hin & ?). exists c0, m0. set_solver.
  - by apply revoke_fields in Hr as (_ & _ & _ & ? & _).
Qed.

Lemma runs_armed es s : runs any start es s -> armed es (node s).
Proof.
  induction 1 as [|es s1 e s2 o _ IH Hs _]; [intros Hd; by destruct Hd|].
  eauto using armed_change, step_change.
Qed.

Lemma command_valid_for_bound m :
  dle (lit 1 2) (command_timeout_seconds_ p) = true ->
  dlt (command_timeout_seconds_ p) (command_valid_for m) = false.
Proof.
  intros Hp. unfold command_valid_for, dclamp.
  destruct (dlt (duration_seconds _) (lit 1 2)); [by apply dle_not_dlt|].
  destruct (dlt (command_timeout_seconds_ p) (duration_seconds _)) eqn:E; [|done].
  apply dlt_irrefl.
Qed.

Lemma timer_step s c s' o :
  step s (TimerFired c) = Some (s', o) ->
  executor s = None /\ s' = MakeSystem (node s) (Some (on_timer c (node s))) (threads s) (steady_set c) /\ o = [].
Proof. unfold step. repeat split_match; intros; simplify_eq/=; done. Qed.

(** *** What the timer callback publishes after its unlock *)

(** a step of a callback or goal thread that has begun *)
Definition section (e : Event) : Prop :=
  match e with ExecutorStep _ _ | ThreadStep _ _ _ => True | _ => False end.

(** the velocity the executor's thread is about to publish *)
Definition task_command (t : Task) : option TwistStamped :=
  match t with
  | SendOverride _ command _ => command
  | SendCommand m _ => Some m
  | _ => None
  end.
Definition sending (s : System) : option TwistStamped := executor s ≫= task_command.

Definition threads_never_send (s : System) : Prop := Forall (fun t => task_command t = None) (threads s).

Lemma task_step_command c a t n n' u o :
  task_step c a t n = (n', u, o) ->
  (forall m, u ≫= task_command = Some m -> task_command t = Some m) /\
  (forall m, CommandPublished m ∈ o -> task_command t = Some m).
Proof.
  destruct t; simpl; unfold after_command, finish; intros E; repeat split_match; simplify_eq/=;
    (split; intros m'; [try done; by intros [=]|rewrite ?elem_of_cons, ?elem_of_nil; intuition congruence]).
Qed.

Lemma thread_never_sends s i u c a n' u' o : threads_never_send s -> threads s !! i = Some u ->
  task_step c a u (node s) = (n', u', o) ->
  Forall (fun t => task_command t = None)
    (match u' with Some v => <[i := v]> (threads s) | None => delete i (threads s) end) /\
  forall m, CommandPublished m ∉ o.
Proof.
  intros Ht Hi [E1 E2]%task_step_command. pose proof (Forall_lookup_1 _ _ _ _ Ht Hi) as Hu. cbv beta in Hu.
  split; [|intros m Hm; specialize (E2 m Hm); congruence].
  destruct u' as [v|]; [|by apply Forall_delete]. apply Forall_insert; [done|].
  destruct (task_command v) as [m|] eqn:Ev; [|done]. specialize (E1 m Ev). congruence.
Qed.

(** a step that leaves a velocity to publish is the timer's, or found it there *)
Lemma step_sending s e s' o : threads_never_send s -> step s e = Some (s', o) ->
  threads_never_send s' /\
  (forall m, sending s' = Some m ->
    (exists c, e = TimerFired c /\ m = timer_command c (node s)) \/ section e /\ sending s = Some m) /\
  (forall m, CommandPublished m ∈ o -> section e /\ sending s = Some m).
Proof.
  intros Ht. unfold step. destruct (clock_ok s (event_clock e)); [cbn [negb]|done].
  destruct e as [c g|c m|c r|c|c a|i c a]; destruct (executor s) as [t|] eqn:Hx; try done.
  - destruct (handle_goal (steady_check c) g (node s)) as [n' []]; intros [= <- <-]; (split; [|split]).
    all: try (intros m; done). 1: apply Forall_app; split; [done|by constructor].
    all: try done. all: intros m Hm; try (by apply list_elem_of_singleton in Hm).
  - intros [= <- <-]. split; [done|split]; intros m'; [done|intros Hm; by apply elem_of_nil in Hm].
  - intros [= <- <-]. split; [done|split]; intros m'; [|intros Hm; by apply elem_of_nil in Hm].
    unfold sending; simpl. by destruct (release_matches r (node s)).
  - intros [= <- <-]. split; [done|split]; intros m; [|intros Hm; by apply elem_of_nil in Hm].
    unfold sending; simpl. destruct (ControlLease.active _); [|done]. intros [= <-]. left. by exists c.
  - destruct (task_step c a t (node s)) as [[n' u] o'] eqn:E. intros [= <- <-].
    apply task_step_command in E as [E1 E2]. unfold sending. rewrite Hx. simpl.
    split; [done|split]; intros m Hm; [right|]; (split; [done|by auto]).
  - destruct (threads s !! i) as [u|] eqn:Hi; [|done].
    destruct (task_step c a u (node s)) as [[n' u'] o'] eqn:E. intros [= <- <-].
    destruct (thread_never_sends _ _ _ _ _ _ _ _ Ht Hi E) as [Ht' Ho]. split; [done|].
    split; intros m Hm; [right; unfold sending in *; by rewrite Hx|by apply Ho in Hm].
  - destruct (threads s !! i) as [u|] eqn:Hi; [|done].
    destruct (task_step c a u (node s)) as [[n' u'] o'] eqn:E. intros [= <- <-].
    destruct (thread_never_sends _ _ _ _ _ _ _ _ Ht Hi E) as [Ht' Ho]. split; [done|].
    split; intros m Hm; [done|by apply Ho in Hm].
Qed.

(** the velocity about to be published was decided when the timer fired, and no
    other callback has begun since *)
Lemma runs_sending es s : runs any start es s -> threads_never_send s /\
  forall m, sending s = Some m -> exists es1 c es2 s1, es = es1 ++ TimerFired c :: es2 /\
    runs any start es1 s1 /\ Forall section es2 /\ m = timer_command c (node s1).
Proof.
  induction 1 as [|es s1 e s2 o Hr [Ht IH] Hs _]; [split; [constructor|done]|].
  destruct (step_sending _ _ _ _ Ht Hs) as (Ht' & Hm & _). split; [done|]. intros m Hsend.
  destruct (Hm m Hsend) as [(c & -> & ->)|[He Hold]].
  - exists es, c, [], s1. split_and!; [done|done|constructor|done].
  - destruct (IH m Hold) as (es1 & c & es2 & s0 & -> & Hr1 & Hsec & ->). exists es1, c, (es2 ++ [e]), s0.
    split_and!; [by rewrite <- app_assoc|done| |done]. apply Forall_app. split; [done|by constructor].
Qed.

(** the velocities the gateway publishes *)
Lemma runs_publishes es s e s' o m : runs any start es s -> step s e = Some (s', o) -> CommandPublished m ∈ o ->
  exists es1 c es2 s1, es = es1 ++ TimerFired c :: es2 /\ runs any start es1 s1 /\ Forall section es2 /\
    m = timer_command c (node s1).
Proof.
  intros [Ht Hsend]%runs_sending Hs Hin. destruct (step_sending _ _ _ _ Ht Hs) as (_ & _ & Hm).
  by apply Hsend, Hm.
Qed.

(** why a velocity other than zero is published: a held command of the lease,
    received before, still valid *)
Lemma published_motion es s c : runs any start es s -> command_valid c (node s) = true ->
  ControlLease.active (lease_ (node s)) = true /\
  lease_expired_locked (steady_check c) (node s) = false /\
  exists c0 m, CommandReceived c0 m ∈ es /\ TeleopCommand.deadman m = true /\
    TeleopCommand.lease_id m = ControlLease.lease_id (lease_ (node s)) /\
    TeleopCommand.controller_id m = ControlLease.controller_id (lease_ (node s)) /\
    steady_set c <= steady_set c0 + chrono_duration_cast (command_valid_for m) /\
    timer_twist c (node s) = Twist.planar
      (dmul (dclamp (to_double (TeleopCommand.linear_normalized m)) (of_int (-1)) (of_int 1))
         (to_double (ControlLease.max_linear_velocity (lease_ (node s)))))
      (dmul (dclamp (to_double (TeleopCommand.angular_normalized m)) (of_int (-1)) (of_int 1))
         (to_double (ControlLease.max_angular_velocity (lease_ (node s))))).
Proof.
  intros Hr%runs_armed Hv. unfold timer_twist. rewrite Hv. unfold command_valid in Hv. rewrite !andb_true_iff, !negb_true_iff, andb_false_iff,
    Z.eqb_neq, Z.leb_le in Hv. destruct Hv as ((((Ha & He) & Hd) & Hn) & Ht).
  split; [done|]. split; [by destruct He as [He|He]; [congruence|]|].
  destruct (Hr Hn) as (c0 & m & Hm & Hdl & Hdm & Hlin & Hang & Hl & Hci).
  exists c0, m. rewrite Hlin, Hang. split_and!; [done|congruence|done|done|lia|done].
Qed.

(** C11: Whatever the interleaving of the executor's callbacks with the detached
    goal threads, a velocity other than zero is published only by a timer
    callback in whose locked section a lease was active and unexpired, and only
    because a command of that very lease had been received with the dead-man
    switch held and was then within its validity, which never exceeds
    [command_timeout_seconds].  Since the publication follows the unlock, goal
    threads may have taken sections in between, but no other callback has begun. *)
Theorem motion_needs_fresh_deadman_command es s e s' o out :
  dle (lit 1 2) (command_timeout_seconds_ p) = true ->
  runs any start es s -> step s e = Some (s', o) ->
  CommandPublished out ∈ o -> TwistStamped.twist out <> Twist.zero ->
  exists es1 c es2 s1, es = es1 ++ TimerFired c :: es2 /\ runs any start es1 s1 /\ Forall section es2 /\
    ControlLease.active (lease_ (node s1)) = true /\
    lease_expired_locked (steady_check c) (node s1) = false /\
    exists c0 m, CommandReceived c0 m ∈ es1 /\ TeleopCommand.deadman m = true /\
      TeleopCommand.lease_id m = ControlLease.lease_id (lease_ (node s1)) /\
      TeleopCommand.controller_id m = ControlLease.controller_id (lease_ (node s1)) /\
      steady_set c <= steady_set c0 + chrono_duration_cast (command_valid_for m) /\
      dlt (command_timeout_seconds_ p) (command_valid_for m) = false.
Proof.
  intros Hp Hr Hs Hin Hout. destruct (runs_publishes _ _ _ _ _ _ Hr Hs Hin) as (es1 & c & es2 & s1 & -> & Hr1 & Hsec & ->).
  exists es1, c, es2, s1. do 3 (split; [done|]).
  assert (command_valid c (node s1) = true) as Hv
    by (revert Hout; cbn [timer_command TwistStamped.twist]; unfold timer_twist; by destruct (command_valid c (node s1))).
  destruct (published_motion es1 s1 c Hr1 Hv) as (Ha & He & c0 & m & Hm & Hd & Hl & Hc & Ht & _).
  split; [done|]. split; [done|]. exists c0, m. split_and!; try done. by apply command_valid_for_bound.
Qed.

(** ** Lease identifiers and replay *)
Lemma make_lease_id_count r1 n1 r2 n2 :
  0 <= n1 -> 0 <= n2 -> make_lease_id r1 n1 = make_lease_id r2 n2 -> n1 = n2.
Proof.
  intros H1 H2 E. unfold make_lease_id in E. injection E as E.
  apply split_at_dash in E as [_ E]; [|by apply base_digits_no_dash..].
  by apply base_string_inj in E.
Qed.

(** the current lease was named by [make_lease_id] at the current count *)
Definition named (n : Node) : Prop :=
  0 <= lease_counter_ n < 2 ^ 64 /\
  (ControlLease.active (lease_ n) = true ->
   exists r, ControlLease.lease_id (lease_ n) = make_lease_id r (lease_counter_ n)).

Lemma grant_lease_id c g n :
  (renewal (steady_check c) g n = true /\
   ControlLease.active (lease_ n) = true /\
   ControlLease.lease_id (lease_ (grant c g n)) = ControlLease.lease_id (lease_ n) /\
   last_sequence_ (grant c g n) = last_sequence_ n /\
   lease_counter_ (grant c g n) = lease_counter_ n) \/
  (renewal (steady_check c) g n = false /\
   ControlLease.lease_id (lease_ (grant c g n)) =
     make_lease_id (ros_id c) (wrap64 (lease_counter_ n + 1)) /\
   lease_counter_ (grant c g n) = wrap64 (lease_counter_ n + 1)).
Proof.
  unfold grant. destruct (renewal (steady_check c) g n) eqn:E; simpl; [left|right; done].
  unfold renewal in E. by destruct (ControlLease.active (lease_ n)).
Qed.

Lemma named_change e n n' : named n -> change e n n' -> named n'.
Proof.
  intros [Hc Hn] [|g|g|c m ->|n'' Hr]; try done.
  - destruct (grant_lease_id (event_clock e) g n) as [(_&Ha&Hi&_&Hk)|(_&Hi&Hk)]; split.
    + by rewrite Hk.
    + intros _. rewrite Hi, Hk. by apply Hn.
    + rewrite Hk. by apply wrap_range.
    + intros _. rewrite Hi, Hk. by eexists.
  - unfold named. by rewrite on_command_lease, on_command_counter.
  - apply revoke_fields in Hr as (_ & Ha & _ & _ & _ & Hk). split; [by rewrite Hk|congruence].
Qed.

Lemma runs_named allowed es s : runs allowed start es s -> named (node s).
Proof.
  induction 1 as [|es s1 e s2 o _ IH Hs _]; [done|].
  eauto using named_change, step_change.
Qed.

(** [id] was issued before and its commands up to [q] are spent *)
Definition spent (id : string) (q : Z) (n : Node) : Prop :=
  (exists r k, id = make_lease_id r k /\ 0 <= k <= lease_counter_ n) /\
  (ControlLease.lease_id (lease_ n) = id -> q <= last_sequence_ n).

Lemma spent_change id q e n n' :
  0 <= lease_counter_ n < 2 ^ 64 - 1 -> spent id q n -> change e n n' ->
  spent id q n' /\ lease_counter_ n' <= lease_counter_ n + 1.
Proof.
  intros Hb [(r & k & Hid & Hk) Hq] [|g|g|c m ->|n'' Hr].
  - split; [split; eauto|lia].
  - split; [split; eauto|simpl; lia].
  - destruct (grant_lease_id (event_clock e) g n) as [(_&_&Hi&Hl&Hn)|(_&Hi&Hn)].
    + unfold spent. rewrite Hi, Hl, Hn. split; [split; eauto|lia].
    + rewrite wrap64_succ in Hi, Hn by lia. unfold spent. rewrite Hi, Hn.
      split; [|lia]. split; [exists r, k; split; [done|lia]|].
      intros E. rewrite Hid in E. apply make_lease_id_count in E; lia.
  - unfold spent. rewrite on_command_lease, on_command_counter. split; [|lia].
    split; [by eauto|]. intros E. specialize (Hq E). unfold on_command.
    destruct (command_accepted _ m n) eqn:Ha; simpl; [|done].
    apply command_accepted_spec in Ha. lia.
  - apply revoke_fields in Hr as (_ & _ & Hi & _ & Hl & Hn).
    unfold spent. rewrite Hi, Hl, Hn. split; [split; eauto|lia].
Qed.

Lemma runs_spent allowed id q s es s' :
  0 <= lease_counter_ (node s) -> lease_counter_ (node s) + Z.of_nat (List.length es) < 2 ^ 64 ->
  spent id q (node s) -> runs allowed s es s' ->
  spent id q (node s') /\
  0 <= lease_counter_ (node s') <= lease_counter_ (node s) + Z.of_nat (List.length es).
Proof.
  intros Hp Hb Hs Hr. induction Hr as [|es s1 e s2 o Hr IH Hst _].
  { split; [done|simpl; lia]. }
  rewrite length_app in Hb; simpl in Hb. destruct IH as [IH Hl]; [lia|].
  pose proof (step_change _ _ _ _ Hst) as Hch.
  destruct (spent_change id q e (node s1) (node s2)) as [? ?]; [lia|done..|].
  split; [done|]. rewrite length_app; simpl.
  assert (0 <= lease_counter_ (node s2)) by (destruct H0 as [(?&?&_&?) _]; lia). lia.
Qed.

(** C16: No command is replayed: once a command has been accepted, a later
    command of the same lease is accepted only with a greater sequence number,
    whatever grants, renewals, releases and expiries lie between, because
    lease identifiers are never issued twice (as long as the 64-bit lease
    counter does not wrap). *)
Theorem accepted_sequences_increase es s c1 m1 s1 o1 es2 s2 t2 m2 :
  runs any start es s ->
  command_accepted (steady_check c1) m1 (node s) = true ->
  step s (CommandReceived c1 m1) = Some (s1, o1) ->
  runs any s1 es2 s2 ->
  lease_counter_ (node s1) + Z.of_nat (List.length es2) < 2 ^ 64 ->
  command_accepted t2 m2 (node s2) = true ->
  TeleopCommand.lease_id m2 = TeleopCommand.lease_id m1 ->
  TeleopCommand.sequence m1 < TeleopCommand.sequence m2.
Proof.
  intros Hr Ha Hs Hr2 Hb Ha2 Hid. apply runs_named in Hr as [Hc Hn].
  assert (node s1 = on_command c1 m1 (node s)) as E.
  { unfold step in Hs. repeat split_match; simplify_eq/=; done. }
  pose proof Ha as (Hact & _ & Hl & _ & _)%command_accepted_spec.
  destruct (Hn Hact) as [r Hr].
  assert (spent (TeleopCommand.lease_id m1) (TeleopCommand.sequence m1) (node s1)) as Hsp.
  { unfold spent. rewrite E, on_command_lease, on_command_counter. split.
    - exists r, (lease_counter_ (node s)). split; [congruence|lia].
    - intros _. unfold on_command. rewrite Ha. simpl. lia. }
  assert (0 <= lease_counter_ (node s1)) as Hp by (rewrite E, on_command_counter; lia).
  destruct (runs_spent _ _ _ _ _ _ Hp Hb Hsp Hr2) as [[_ Hq] _].
  apply command_accepted_spec in Ha2 as (_ & _ & Hl2 & _ & Hlt).
  rewrite <- Hl2, Hid in Hq. specialize (Hq eq_refl). lia.
Qed.

(** ** Who may take the lease *)
Definition awaiting_grant (t : Task) : option Goal' :=
  match t with Grant g => Some g | _ => None end.

(** goals that were accepted and whose thread has not taken the lease yet *)
Definition outstanding (s : System) : list Goal' := omap awaiting_grant (threads s).

Definition serial (s : System) : Prop := (List.length (outstanding s) <= 1)%nat.

Definition free_for (t : Z) (n : Node) (g : Goal') : Prop :=
  ControlLease.active (lease_ n) = true -> lease_expired_locked t n = false ->
  ControlLease.controller_id (lease_ n) = controller_id g.

Definition exclusive (s : System) : Prop :=
  forall g, g ∈ outstanding s -> free_for (clock s) (node s) g.

Lemma lease_expired_mono t t' n :
  t <= t' -> lease_expired_locked t' n = false -> lease_expired_locked t n = false.
Proof.
  unfold lease_expired_locked. rewrite !orb_false_iff, !Z.leb_gt. intuition lia.
Qed.

Lemma free_for_mono t t' n g : t <= t' -> free_for t n g -> free_for t' n g.
Proof. unfold free_for. eauto using lease_expired_mono. Qed.

Lemma handle_goal_free t g n n' :
  handle_goal t g n = (n', true) -> free_for t n g /\ lease_ n' = lease_ n /\
  lease_deadline_ n' = lease_deadline_ n.
Proof.
  unfold handle_goal. repeat split_match; intros; simplify_eq. split; [|done].
  intros Ha He. rewrite Ha, He in Heqb0. simpl in Heqb0.
  apply orb_false_iff in Heqb0 as [Hb _]. apply negb_false_iff in Hb.
  by apply str_eqb_spec.
Qed.

Lemma awaiting_task_step c a t n n' u o :
  task_step c a t n = (n', Some u, o) -> awaiting_grant u = None.
Proof. destruct t; simpl; unfold after_command; intros; repeat split_match; simplify_eq; done. Qed.

Lemma outstanding_insert i t u l :
  l !! i = Some t -> awaiting_grant u = None ->
  exists l1 l2, omap awaiting_grant l = l1 ++ option_list (awaiting_grant t) ++ l2 /\
    omap awaiting_grant (<[i:=u]> l) = l1 ++ l2.
Proof.
  intros Hi Hu. exists (omap awaiting_grant (take i l)), (omap awaiting_grant (drop (S i) l)).
  rewrite <- (take_drop_middle l i t Hi) at 1.
  rewrite insert_take_drop by (by eapply lookup_lt_Some).
  rewrite !omap_app. simpl. rewrite Hu. by destruct (awaiting_grant t).
Qed.

Lemma outstanding_delete i t l :
  l !! i = Some t ->
  exists l1 l2, omap awaiting_grant l = l1 ++ option_list (awaiting_grant t) ++ l2 /\
    omap awaiting_grant (delete i l) = l1 ++ l2.
Proof.
  intros Hi. exists (omap awaiting_grant (take i l)), (omap awaiting_grant (drop (S i) l)).
  rewrite <- (take_drop_middle l i t Hi) at 1. rewrite delete_take_drop.
  rewrite !omap_app. simpl. by destruct (awaiting_grant t).
Qed.

(** the lease after a section that does not grant: the same one, or inactive *)
Definition lease_kept (n n' : Node) : Prop :=
  ControlLease.active (lease_ n') = true ->
  lease_ n' = lease_ n /\ lease_deadline_ n' = lease_deadline_ n.

Lemma revoke_kept c n n' : revoke c n = Some n' -> lease_kept n n'.
Proof. intros (_ & Ha & _)%revoke_fields. unfold lease_kept. congruence. Qed.

Lemma on_command_kept c m n : lease_kept n (on_command c m n).
Proof. unfold lease_kept, on_command. by split_match. Qed.

Lemma task_step_kept c a t n n' u o :
  task_step c a t n = (n', u, o) -> awaiting_grant t = None -> lease_kept n n'.
Proof.
  destruct t; simpl; intros; repeat split_match; simplify_eq; try done;
    eauto using revoke_kept.
Qed.

(** What a step does to the outstanding goals and to the lease. *)
Inductive lease_effect (e : Event) (s s' : System) : Prop :=
| Kept : outstanding s' = outstanding s -> lease_kept (node s) (node s') ->
    lease_effect e s s'
| Admits g : outstanding s' = outstanding s ++ [g] ->
    handle_goal (steady_check (event_clock e)) g (node s) = (node s', true) ->
    lease_effect e s s'
| Grants g l1 l2 : outstanding s = l1 ++ g :: l2 -> outstanding s' = l1 ++ l2 ->
    node s' = grant (event_clock e) g (node s) -> lease_effect e s s'.

Definition executor_never_grants (s : System) : Prop :=
  forall t, executor s = Some t -> awaiting_grant t = None.

Lemma thread_effect e a i t s n' u o :
  threads s !! i = Some t -> task_step (event_clock e) a t (node s) = (n', u, o) ->
  lease_effect e s (MakeSystem n' (executor s)
    (match u with Some v => <[i := v]> (threads s) | None => delete i (threads s) end)
    (steady_set (event_clock e))).
Proof.
  intros Hi Ht. unfold outstanding.
  assert (exists l1 l2,
    omap awaiting_grant (threads s) = l1 ++ option_list (awaiting_grant t) ++ l2 /\
    omap awaiting_grant (match u with Some v => <[i := v]> (threads s)
                         | None => delete i (threads s) end) = l1 ++ l2)
    as (l1 & l2 & E1 & E2).
  { destruct u as [v|]; [|by apply outstanding_delete].
    eapply outstanding_insert, awaiting_task_step; eauto. }
  destruct (awaiting_grant t) as [g|] eqn:Hg; simpl in E1.
  - destruct t; simplify_eq/=. by apply (Grants _ _ _ g l1 l2).
  - apply Kept; [unfold outstanding; simpl; congruence|eauto using task_step_kept].
Qed.

Lemma step_effect s e s' o :
  executor_never_grants s -> step s e = Some (s', o) ->
  lease_effect e s s' /\ executor_never_grants s'.
Proof.
  intros Hx. unfold step. destruct (clock_ok s (event_clock e)); [simpl|done]. intros E.
  assert (forall n, lease_kept n n) as Hk by done.
  destruct e as [c g|c m|c r|c|c a|i c a].
  - destruct (executor s); [done|].
    destruct (handle_goal (steady_check c) g (node s)) as [n' []] eqn:Hg; simplify_eq.
    + split; [|done]. apply (Admits _ _ _ g); [|done].
      unfold outstanding; simpl. by rewrite omap_app.
    + split; [|done]. apply Kept; [done|]. simpl. unfold handle_goal in Hg.
      repeat split_match; by simplify_eq.
  - destruct (executor s); simplify_eq. split; [|done].
    apply Kept; [done|apply on_command_kept].
  - destruct (executor s); [done|]. simplify_eq/=. split; [by apply Kept|].
    intros t [= <-]. by destruct (release_matches r (node s)).
  - destruct (executor s); [done|]. simplify_eq/=. split; [by apply Kept|]. by intros t [= <-].
  - destruct (executor s) as [t|] eqn:Ht; [|done].
    destruct (task_step c a t (node s)) as [[n' u] o'] eqn:Hs; simplify_eq.
    split; [apply Kept; [done|eauto using task_step_kept]|].
    intros v Hv; simpl in Hv; subst. eauto using awaiting_task_step.
  - destruct (threads s !! i) as [t|] eqn:Ht; [|by destruct (executor s)].
    destruct (task_step c a t (node s)) as [[n' u] o'] eqn:Hs.
    destruct (executor s) eqn:Hex; simplify_eq.
    all: split; [rewrite <- Hex; by eapply (thread_effect (ThreadStep i c a))|].
    all: intros v Hv; simpl in Hv; simplify_eq; eauto.
Qed.

Lemma exclusive_effect e s s' :
  clock s <= steady_check (event_clock e) <= steady_set (event_clock e) ->
  clock s' = steady_set (event_clock e) -> serial s -> serial s' ->
  exclusive s -> lease_effect e s s' -> exclusive s'.
Proof.
  intros Hc Hc' Hser Hser' Hx [Ho Hk|g Ho Hg|g l1 l2 Ho Ho' _] h Hh; unfold serial in *.
  - rewrite Ho in Hh. intros Ha He. destruct (Hk Ha) as [El Ed]. rewrite El in *.
    apply (Hx h Hh); [done|]. apply (lease_expired_mono _ (clock s')); [lia|].
    unfold lease_expired_locked in *. congruence.
  - rewrite Ho in Hh, Hser'. rewrite length_app in Hser'; simpl in Hser'.
    destruct (outstanding s); [|simpl in Hser'; lia]. apply list_elem_of_singleton in Hh as ->.
    apply handle_goal_free in Hg as (Hf & El & Ed). intros Ha He. rewrite El in *.
    apply Hf; [done|]. apply (lease_expired_mono _ (clock s')); [lia|].
    unfold lease_expired_locked in *. congruence.
  - rewrite Ho in Hser. rewrite length_app in Hser; simpl in Hser.
    rewrite Ho' in Hh. destruct l1, l2; simpl in Hser; try lia. by apply elem_of_nil in Hh.
Qed.

Lemma runs_exclusive es s :
  runs serial start es s -> serial s /\ exclusive s /\ executor_never_grants s.
Proof.
  induction 1 as [|es s1 e s2 o _ IH Hs Hser2].
  - split; [unfold serial; simpl; lia|]. split; [intros g Hg; by apply elem_of_nil in Hg|done].
  - destruct IH as (Hser & Hx & Hn). destruct (step_effect _ _ _ _ Hn Hs) as [He Hn2].
    destruct (step_clock _ _ _ _ Hs). eauto using exclusive_effect.
Qed.

(** C18: As long as the node never has two accepted goals whose threads have not
    yet taken the lease, an active lease that has not expired stays with its
    controller: no step hands it to another one. *)
Theorem lease_handover_is_exclusive es s e s' o :
  runs serial start es s -> step s e = Some (s', o) ->
  ControlLease.active (lease_ (node s)) = true ->
  lease_expired_locked (steady_check (event_clock e)) (node s) = false ->
  ControlLease.active (lease_ (node s')) = true ->
  ControlLease.controller_id (lease_ (node s')) =
    ControlLease.controller_id (lease_ (node s)).
Proof.
  intros (_ & Hx & Hn)%runs_exclusive Hs Ha He Ha'.
  destruct (step_clock _ _ _ _ Hs) as [Hc _].
  destruct (step_effect _ _ _ _ Hn Hs) as [[_ Hk|g _ Hg|g l1 l2 Ho _ ->] _].
  - by destruct (Hk Ha') as [-> _].
  - by apply handle_goal_free in Hg as (_ & -> & _).
  - simpl. symmetry. apply Hx; [rewrite Ho; set_solver|done|].
    apply (lease_expired_mono _ (steady_check (event_clock e))); [lia|done].
Qed.

(** ** Expiry *)
Definition stop_command (c : Clock) : TwistStamped :=
  TwistStamped.Make (Header.Make (to_msg (ros_stamp c)) (output_frame_ p)) Twist.zero.

Lemma expired_timer c n :
  ControlLease.active (lease_ n) = true -> lease_expired_locked (steady_check c) n = true ->
  on_timer c n = SendOverride false (Some (stop_command c)) true.
Proof.
  intros Ha He. unfold on_timer, timer_override, timer_expired, timer_command, timer_twist, command_valid, stop_command.
  by rewrite Ha, He.
Qed.

(** A callback under way: the executor's thread takes [n] sections and emits
    [out], while goal threads take any number of theirs; [up] says whether the
    supervisor's service is there for it. *)
Inductive sections (up : bool) (s : System) : nat -> list Output -> System -> Prop :=
| sections_start : sections up s 0 [] s
| sections_thread n out s1 i c a s2 o :
    sections up s n out s1 -> step s1 (ThreadStep i c a) = Some (s2, o) -> sections up s n out s2
| sections_executor n out s1 c a s2 o :
    sections up s n out s1 -> mode_request_sent a = up -> step s1 (ExecutorStep c a) = Some (s2, o) ->
    sections up s (S n) (out ++ o) s2.

(** the sections a task still has, this one included *)
Definition sections_left (t : Task) : nat :=
  match t with
  | Grant _ => 9 | CopyGranted _ => 8 | SendGranted _ _ => 7 | AskMode _ => 6
  | SendOverride _ _ _ => 7 | SendCommand _ _ => 6
  | Revoke _ _ => 5 | CopyRevoked _ _ => 4 | SendRevoked _ _ _ => 3 | AskManual _ _ => 2
  | CopyResult => 2 | Finish _ => 1
  end.
Definition callback_left (s : System) : nat := from_option sections_left 0%nat (executor s).

Lemma task_step_left c a t n n' u o :
  task_step c a t n = (n', u, o) -> (from_option sections_left 0 u < sections_left t)%nat.
Proof.
  destruct t; simpl; unfold after_command; intros; repeat split_match; simplify_eq/=; lia.
Qed.

Lemma executor_step s c a s' o : step s (ExecutorStep c a) = Some (s', o) ->
  exists t u, executor s = Some t /\ task_step c a t (node s) = (node s', u, o) /\ executor s' = u /\
    threads s' = threads s.
Proof.
  unfold step. destruct (clock_ok s _); [simpl|done]. destruct (executor s) as [t|]; [|done].
  destruct (task_step c a t (node s)) as [[n' u] o'] eqn:E. intros [= <- <-]. by exists t, u.
Qed.

Lemma executor_enabled s c a : executor s <> None -> clock_ok s c = true -> is_Some (step s (ExecutorStep c a)).
Proof.
  intros Hx Hc. unfold step. cbn [event_clock]. rewrite Hc. simpl. destruct (executor s) as [t|]; [|done].
  by destruct (task_step c a t (node s)) as [[n' u] o'].
Qed.

(** a goal thread leaves the executor's task; without goals waiting for their
    thread it can only revoke the lease *)
Lemma thread_step s i c a s' o : step s (ThreadStep i c a) = Some (s', o) ->
  executor s' = executor s /\ threads s <> [] /\
  (outstanding s = [] -> outstanding s' = [] /\ lease_kept (node s) (node s')).
Proof.
  unfold step. destruct (clock_ok s _); [simpl|done]. intros E.
  assert (exists t n' u, threads s !! i = Some t /\ task_step c a t (node s) = (n', u, o) /\
    s' = MakeSystem n' (executor s) (match u with Some v => <[i := v]> (threads s) | None => delete i (threads s) end)
      (steady_set c)) as (t & n' & u & Hi & Ht & ->).
  { destruct (threads s !! i) as [t|]; [|by destruct (executor s)].
    destruct (task_step c a t (node s)) as [[n' u] o'] eqn:Ht. destruct (executor s); simplify_eq; eauto 10. }
  split; [done|]. split; [by intros Hn; rewrite Hn in Hi|]. unfold outstanding; cbn [threads node]. intros Hq.
  assert (exists l1 l2, omap awaiting_grant (threads s) = l1 ++ option_list (awaiting_grant t) ++ l2 /\
    omap awaiting_grant (match u with Some v => <[i := v]> (threads s) | None => delete i (threads s) end) = l1 ++ l2)
    as (l1 & l2 & E1 & E2).
  { destruct u as [v|]; [|by apply outstanding_delete]. eapply outstanding_insert, awaiting_task_step; eauto. }
  rewrite Hq in E1. symmetry in E1. apply app_eq_nil in E1 as [-> [Hg ->]%app_eq_nil]. split; [done|].
  eapply task_step_kept; [exact Ht|]. by destruct (awaiting_grant t).
Qed.

Lemma kept_inactive n n' : lease_kept n n' ->
  ControlLease.active (lease_ n) = false -> ControlLease.active (lease_ n') = false.
Proof. intros Hk Ha. destruct (ControlLease.active (lease_ n')) eqn:E; [|done]. destruct (Hk E) as [El _]. congruence. Qed.

(** *** The stages of the timer callback that finds the lease expired *)
Section Expiring.
Variables (c0 : Clock) (up : bool) (s0 : System).

Definition stopped : list Output := [OverridePublished false; CommandPublished (stop_command c0)].
Definition inactive (l : ControlLease.ControlLeaseMsg) : Prop :=
  outstanding s0 = [] -> ControlLease.active l = false.
(** what follows the two publications: nothing when a goal thread has revoked the
    lease first *)
Definition revoked (rest : list Output) : Prop :=
  rest = [] /\ threads s0 <> [] \/
  exists l, inactive l /\
    rest = LeasePublished l :: (if up then [ModeRequested SystemState.MODE_MANUAL "Lease expired"] else []).

Definition stage (t : option Task) (n : Node) (out : list Output) : Prop :=
  match t with
  | Some (SendOverride data command expired) =>
      out = [] /\ data = false /\ command = Some (stop_command c0) /\ expired = true /\
      (threads s0 = [] -> ControlLease.active (lease_ n) = true)
  | Some (SendCommand command expired) =>
      out = [OverridePublished false] /\ command = stop_command c0 /\ expired = true /\
      (threads s0 = [] -> ControlLease.active (lease_ n) = true)
  | Some (Revoke why k) => out = stopped /\ why = "Lease expired"%string /\ k = NoReply /\
      (threads s0 = [] -> ControlLease.active (lease_ n) = true)
  | Some (CopyRevoked why k) => out = stopped /\ why = "Lease expired"%string /\ k = NoReply /\ inactive (lease_ n)
  | Some (SendRevoked why k l) =>
      out = stopped /\ why = "Lease expired"%string /\ k = NoReply /\ inactive (lease_ n) /\ inactive l
  | Some (AskManual why k) => exists l, out = stopped ++ [LeasePublished l] /\ why = "Lease expired"%string /\
      k = NoReply /\ inactive (lease_ n) /\ inactive l
  | Some (Finish k) => k = NoReply /\ inactive (lease_ n) /\ exists rest, out = stopped ++ rest /\ revoked rest
  | None => inactive (lease_ n) /\ exists rest, out = stopped ++ rest /\ revoked rest
  | _ => False
  end.

Lemma stage_executor c a t u n n' out o : mode_request_sent a = up ->
  task_step c a t n = (n', u, o) -> stage (Some t) n out -> stage u n' (out ++ o).
Proof.
  intros Hup. destruct t; simpl; try done.
  - destruct (revoke c n) as [m|] eqn:Er; intros [= <- <- <-] (-> & -> & -> & Ha); simpl.
    + apply revoke_fields in Er as (_ & Hi & _). split_and!; [done..|by intros _].
    + unfold revoke in Er. destruct (ControlLease.active (lease_ n)) eqn:Ei; [done|].
      split; [done|]. split; [by intros _|]. exists []. split; [done|]. left. split; [done|]. naive_solver.
  - intros [= <- <- <-] (-> & -> & -> & Hi); simpl; by split_and!.
  - intros [= <- <- <-] (-> & -> & -> & Hi & Hl); simpl. by exists m.
  - intros [= <- <- <-] (l & -> & -> & -> & Hi & Hl); rewrite Hup. split; [done|]. split; [done|].
    eexists (_ :: _). split; [done|]. right. by exists l.
  - intros [= <- <- <-] (-> & -> & -> & -> & Ha). done.
  - intros [= <- <- <-] (-> & -> & -> & Ha). done.
  - intros [= <- <- <-] (-> & Hi & rest & -> & Hr); simpl. split; [done|]. exists rest. by rewrite app_nil_r.
Qed.

Lemma stage_thread t n n' out : threads s0 <> [] ->
  (outstanding s0 = [] -> lease_kept n n') -> stage t n out -> stage t n' out.
Proof.
  intros Hne Hk. assert (inactive (lease_ n) -> inactive (lease_ n')) as Hi
    by (intros Hi Hq; eapply kept_inactive; [by apply Hk|by apply Hi]).
  destruct t as [[]|]; simpl; naive_solver.
Qed.

Lemma sections_stage n out s1 s2 : sections up s1 n out s2 ->
  threads s1 = threads s0 -> stage (executor s1) (node s1) [] ->
  (outstanding s0 = [] -> outstanding s2 = []) /\ (threads s0 = [] -> threads s2 = []) /\
  (n + callback_left s2 <= callback_left s1)%nat /\ stage (executor s2) (node s2) out.
Proof.
  intros Hr Hth H1. induction Hr as [|n out s2 i c a s3 o _ IH Hs|n out s2 c a s3 o _ IH Ha Hs].
  - split_and!; [|congruence|lia|done]. unfold outstanding. by rewrite Hth.
  - destruct IH as (Ho & Ht & Hn & IH). apply thread_step in Hs as (Hx & Hne & Hq).
    assert (threads s0 <> []) as Hne0 by (intros E; by apply Hne, Ht). split_and!.
    + intros E. by apply Hq, Ho.
    + done.
    + unfold callback_left in *. by rewrite Hx.
    + rewrite Hx. eapply stage_thread; [done| |exact IH]. intros E. by apply Hq, Ho.
  - destruct IH as (Ho & Ht & Hn & IH). apply executor_step in Hs as (t & u & Hx & Hstep & Hu & Htt). split_and!.
    + unfold outstanding. rewrite Htt. exact Ho.
    + by rewrite Htt.
    + apply task_step_left in Hstep. unfold callback_left in *. rewrite Hx in Hn. rewrite Hu. simpl in Hn. lia.
    + rewrite Hu. rewrite Hx in IH. by eapply stage_executor.
Qed.
End Expiring.

(** C20: A timer callback that finds the lease expired publishes no override and
    a zero velocity and then revokes the lease.  Whatever sections goal threads
    take meanwhile, it is never stuck and returns after at most seven sections;
    by then it has made the two publications and, unless a goal thread revoked
    the lease first, has published the lease once more and, if the supervisor's
    service is there, asked it for MANUAL.  When no accepted goal is waiting for its
    thread, the lease is inactive afterwards, and published as inactive. *)
Theorem expired_lease_is_revoked s c :
  executor s = None ->
  ControlLease.active (lease_ (node s)) = true ->
  lease_expired_locked (steady_check c) (node s) = true ->
  clock s <= steady_check c <= steady_set c ->
  exists s1, step s (TimerFired c) = Some (s1, []) /\
  forall up n out s2, sections up s1 n out s2 ->
    (n <= 7)%nat /\
    (executor s2 <> None -> forall c' a, clock_ok s2 c' = true -> is_Some (step s2 (ExecutorStep c' a))) /\
    (executor s2 = None -> exists rest,
      out = OverridePublished false :: CommandPublished (stop_command c) :: rest /\
      (rest = [] /\ threads s <> [] \/ exists l,
        rest = LeasePublished l :: (if up then [ModeRequested SystemState.MODE_MANUAL "Lease expired"] else []) /\
        (outstanding s = [] -> ControlLease.active l = false)) /\
      (outstanding s = [] -> ControlLease.active (lease_ (node s2)) = false)).
Proof.
  intros Hx Ha He [H1 H2]. eexists. split.
  { unfold step, clock_ok. cbn [event_clock]. apply Z.leb_le in H1, H2. by rewrite Hx, H1, H2. }
  intros up n out s2 Hr. apply (sections_stage c up s) in Hr as (_ & _ & Hn & Hstage); [|done|].
  2:{ cbn [executor node]. by rewrite (expired_timer c _ Ha He). }
  split; [|split].
  - unfold callback_left in Hn. simpl in Hn. lia.
  - intros Hbusy c' a Hc. by apply executor_enabled.
  - intros Hdone. rewrite Hdone in Hstage. destruct Hstage as (Hi & rest & -> & Hrest). exists rest.
    split; [done|]. split; [|exact Hi]. destruct Hrest as [?|(l & Hl & ->)]; [by left|right]. by exists l.
Qed.

(** ** Playing a list of events *)
Fixpoint play (ok : System -> bool) (s : System) (es : list Event) : option System :=
  match es with
  | [] => Some s
  | e :: r =>
      match step s e with
      | Some (s', _) => if ok s' then play ok s' r else None
      | None => None
      end
  end.

Lemma play_runs (ok : System -> bool) (allowed : System -> Prop) s es s' :
  (forall x, ok x = true -> allowed x) -> play ok s es = Some s' -> runs allowed s es s'.
Proof.
  intros Hok. assert (forall l s1, runs allowed s l s1 -> play ok s1 es = Some s' ->
    runs allowed s (l ++ es) s') as Hg.
  { induction es as [|e r IH]; intros l s1 Hl Hp; simpl in Hp.
    - injection Hp as <-. by rewrite app_nil_r.
    - destruct (step s1 e) as [[s2 o]|] eqn:Hs; [|done].
      destruct (ok s2) eqn:Ho; [|done]. rewrite cons_middle, app_assoc.
      eapply IH; [|done]. eapply runs_step; eauto. }
  intros Hp. apply (Hg [] s); [apply runs_start|done].
Qed.

Definition serialb (s : System) : bool := (List.length (outstanding s) <=? 1)%nat.

Lemma play_serial s es s' : play serialb s es = Some s' -> runs serial s es s'.
Proof. apply play_runs. intros x H1. by apply Nat.leb_le in H1. Qed.

(** the executor's thread alone takes [n] sections *)
Fixpoint callback (n : nat) (c : Clock) (a : ModeAnswer) (s : System) : option (System * list Output) :=
  match n with
  | O => Some (s, [])
  | S n =>
      match callback n c a s with
      | Some (s1, out) =>
          match step s1 (ExecutorStep c a) with Some (s2, o) => Some (s2, out ++ o) | None => None end
      | None => None
      end
  end.

Lemma callback_sections n c a s s' out :
  callback n c a s = Some (s', out) -> sections (mode_request_sent a) s n out s'.
Proof.
  revert s' out. induction n as [|n IH]; intros s' out E; simpl in E.
  - injection E as <- <-. constructor.
  - destruct (callback n c a s) as [[s1 out1]|] eqn:E1; [|done].
    destruct (step s1 (ExecutorStep c a)) as [[s2 o]|] eqn:E2; [|done]. injection E as <- <-.
    by eapply sections_executor; [by apply IH| |exact E2].
Qed.

Lemma play_any s es s' : play (fun _ => true) s es = Some s' -> runs any s es s'.
Proof. by apply play_runs. Qed.
End Gateway.

(** ** Concrete executions *)
Section Executions.
#[local] Existing Instance rclcpp_doc.

Definition at_ns (t : Z) : Clock := MakeClock t t t t t.
Definition second : Z := 1000000000.

Definition goal_of (who : string) : Goal' :=
  MakeGoal who "phone" (MakeTime 5 0) (litf 3 1) (litf 5 1) false.
Definition demo_id (t k : Z) : string := make_lease_id t k.
Definition drive (who : string) (id : string) (n : Z) : TeleopCommand.TeleopCommandMsg :=
  TeleopCommand.Make Header.zero id who n (MakeTime 0 200000000) true false
    (litf 5 1) fzero.
Definition yes : ModeAnswer := Answered true "ok".

(** A acquires a lease: goal, locked section, publication, mode request, result. *)
Definition acquire (t : Z) (who : string) : list Event :=
  [GoalReceived (at_ns t) (goal_of who); ThreadStep 0 (at_ns t) yes;
   ThreadStep 0 (at_ns t) yes; ThreadStep 0 (at_ns t) yes; ThreadStep 0 (at_ns t) yes;
   ThreadStep 0 (at_ns t) yes; ThreadStep 0 (at_ns t) yes].

Definition demo_driving : list Event :=
  acquire second "A" ++ [CommandReceived (at_ns (second + 5)) (drive "A" (demo_id second 1) 1)].

Definition after (ok : System -> bool) (es : list Event) : System :=
  match play default_parameters ok start es with Some s => s | None => start end.

(** [A] sends its goal twice; the thread of the second goal is slow.  The first
    lease expires, [B] acquires the lease, then the slow thread runs. *)
Definition late_thread : list Event :=
  [GoalReceived (at_ns second) (goal_of "A"); GoalReceived (at_ns second) (goal_of "A");
   ThreadStep 0 (at_ns second) yes;
   GoalReceived (at_ns (7 * second)) (goal_of "B");
   ThreadStep 2 (at_ns (7 * second)) yes].

(** Exclusivity does not hold without that proviso: a controller that sends
    its goal twice can be scheduled so that the thread of its second goal
    overwrites the active, unexpired lease another controller has acquired in
    the meantime, because [execute] does not repeat the check of
    [handle_goal]. *)
Theorem outstanding_goal_overwrites_lease :
  exists s s' o,
    runs default_parameters any start late_thread s /\
    step default_parameters s (ThreadStep 1 (at_ns (8 * second)) yes) = Some (s', o) /\
    ControlLease.active (lease_ (node s)) = true /\
    lease_expired_locked (8 * second) (node s) = false /\
    ControlLease.controller_id (lease_ (node s)) = "B" /\
    ControlLease.active (lease_ (node s')) = true /\
    ControlLease.controller_id (lease_ (node s')) = "A".
Proof.
  set (s := after (fun _ => true) late_thread).
  assert (play default_parameters (fun _ => true) start late_thread = Some s) as Hp
    by (vm_compute; reflexivity).
  destruct (step default_parameters s (ThreadStep 1 (at_ns (8 * second)) yes))
    as [[s' o]|] eqn:Hs; [|by vm_compute in Hs].
  exists s, s', o. split; [by apply play_any|]. split; [exact Hs|].
  vm_compute in Hs. injection Hs as <- <-. vm_compute. auto 10.
Qed.

(** [A] has been driving; its goal for a renewal is granted, but before the
    supervisor refuses the mode a command and a timer tick come. *)
Definition late_publication : list Event :=
  demo_driving ++
  [GoalReceived (at_ns (2 * second)) (goal_of "A"); ThreadStep 0 (at_ns (2 * second)) yes;
   ThreadStep 0 (at_ns (2 * second)) yes; ThreadStep 0 (at_ns (2 * second)) yes;
   CommandReceived (at_ns (2 * second + 5)) (drive "A" (demo_id second 1) 2);
   TimerFired (at_ns (2 * second + 6));
   ThreadStep 0 (at_ns (2 * second + 6)) (Answered false "refused"); ThreadStep 0 (at_ns (2 * second + 6)) yes;
   ThreadStep 0 (at_ns (2 * second + 6)) yes; ThreadStep 0 (at_ns (2 * second + 6)) yes;
   ExecutorStep (at_ns (2 * second + 6)) yes].

(** The velocity is published after the unlock: it can follow the publication of
    the revoked lease. *)
Theorem motion_can_follow_revocation :
  exists s s' m, runs default_parameters any start late_publication s /\
    step default_parameters s (ExecutorStep (at_ns (2 * second + 7)) yes) = Some (s', [CommandPublished m]) /\
    TwistStamped.twist m <> Twist.zero /\ ControlLease.active (lease_ (node s)) = false.
Proof.
  set (s := after (fun _ => true) late_publication).
  assert (play default_parameters (fun _ => true) start late_publication = Some s) as Hp by (vm_compute; reflexivity).
  assert (match step default_parameters s (ExecutorStep (at_ns (2 * second + 7)) yes) with
    | Some (_, [CommandPublished m]) => dlt dzero (Vector3.x (Twist.linear (TwistStamped.twist m))) = true
    | _ => False end) as Hs by (vm_compute; reflexivity).
  assert (ControlLease.active (lease_ (node s)) = false) as Ha by (vm_compute; reflexivity).
  clearbody s. destruct (step default_parameters s _) as [[s' o]|] eqn:E; [|destruct Hs].
  destruct o as [|[| m | | | | | |] [|]]; try exact (False_rect _ Hs).
  exists s, s', m. split; [apply play_any; exact Hp|]. split; [exact E|]. split; [|exact Ha].
  intros Hz. rewrite Hz in Hs. vm_compute in Hs. discriminate Hs.
Qed.

(** The lease of [A] has expired and the goal of [B] is accepted; the timer finds
    the expired lease, the goal's thread takes the lease for [B], and the timer's
    callback goes on. *)
Definition slow_expiry : list Event :=
  acquire second "A" ++
  [GoalReceived (at_ns (7 * second)) (goal_of "B"); TimerFired (at_ns (7 * second));
   ThreadStep 0 (at_ns (7 * second)) yes;
   ExecutorStep (at_ns (7 * second)) yes; ExecutorStep (at_ns (7 * second)) yes].

(** The expiry of a lease is not checked again where it is revoked: it can revoke the lease
    another controller has just been granted. *)
Theorem expiry_revokes_the_next_lease :
  exists s s', runs default_parameters any start slow_expiry s /\
    executor s = Some (Revoke "Lease expired" NoReply) /\
    ControlLease.active (lease_ (node s)) = true /\ ControlLease.controller_id (lease_ (node s)) = "B"%string /\
    lease_expired_locked (7 * second) (node s) = false /\
    step default_parameters s (ExecutorStep (at_ns (7 * second)) yes) = Some (s', []) /\
    ControlLease.active (lease_ (node s')) = false.
Proof.
  set (s := after (fun _ => true) slow_expiry).
  assert (play default_parameters (fun _ => true) start slow_expiry = Some s) as Hp by (vm_compute; reflexivity).
  destruct (step default_parameters s (ExecutorStep (at_ns (7 * second)) yes)) as [[s' o]|] eqn:Hs;
    [|by vm_compute in Hs].
  exists s, s'. split; [by apply play_any|]. vm_compute in Hs. injection Hs as <- <-. vm_compute. auto 10.
Qed.

Lemma motion_needs_fresh_deadman_command_witness :
  exists c0 m, CommandReceived c0 m ∈ demo_driving /\ TeleopCommand.deadman m = true.
Proof.
  set (c := at_ns (second + 1000)).
  set (es := demo_driving ++ [TimerFired c; ExecutorStep c yes]).
  set (s := after (fun _ => true) es).
  assert (play default_parameters (fun _ => true) start es = Some s) as Hp by (vm_compute; reflexivity).
  set (out := timer_command default_parameters c (node s)).
  destruct (motion_needs_fresh_deadman_command default_parameters es s (ExecutorStep c yes)
    (MakeSystem (node s) None (threads s) (steady_set c)) [CommandPublished out] out)
    as (es1 & c1 & es2 & s1 & Hes & _ & Hsec & _ & _ & c0 & m & Hin & Hd & _).
  - vm_compute; reflexivity.
  - by apply play_any.
  - vm_compute; reflexivity.
  - apply list_elem_of_here.
  - vm_compute. discriminate.
  - exists c0, m. split; [|exact Hd]. assert (CommandReceived c0 m ∈ es) as Hall
      by (rewrite Hes; apply elem_of_app; by left).
    unfold es in Hall. apply elem_of_app in Hall as [Hall|Hall]; [exact Hall|].
    exfalso. apply elem_of_cons in Hall as [Hall|Hall]; [discriminate Hall|].
    apply list_elem_of_singleton in Hall. discriminate Hall.
Defined.

Lemma accepted_sequences_increase_witness :
  let s := after (fun _ => true) (acquire second "A") in
  let m := drive "A" (demo_id second 1) in
  TeleopCommand.sequence (m 1) < TeleopCommand.sequence (m 7).
Proof.
  intros s m.
  assert (play default_parameters (fun _ => true) start (acquire second "A") = Some s) as Hp
    by (vm_compute; reflexivity).
  set (c := at_ns (second + 5)).
  set (s1 := MakeSystem (on_command default_parameters c (m 1) (node s)) None (threads s)
    (steady_set c)).
  refine (accepted_sequences_increase default_parameters (acquire second "A") s c (m 1) s1 []
    [] s1 (second + 9) (m 7) _ _ _ _ _ _ _).
  - by apply play_any.
  - vm_compute; reflexivity.
  - vm_compute; reflexivity.
  - apply runs_start.
  - vm_compute; reflexivity.
  - vm_compute; reflexivity.
  - reflexivity.
Defined.

Lemma lease_handover_is_exclusive_witness :
  let s := after serialb (acquire second "A") in
  let c := at_ns (second + 5) in
  let m := drive "A" (demo_id second 1) 1 in
  let s' := MakeSystem (on_command default_parameters c m (node s)) None (threads s)
    (steady_set c) in
  ControlLease.controller_id (lease_ (node s')) =
  ControlLease.controller_id (lease_ (node s)).
Proof.
  intros s c m s'.
  assert (play default_parameters serialb start (acquire second "A") = Some s) as Hp
    by (vm_compute; reflexivity).
  refine (lease_handover_is_exclusive default_parameters (acquire second "A") s
    (CommandReceived c m) s' [] _ _ _ _ _).
  - by apply play_serial.
  - vm_compute; reflexivity.
  - vm_compute; reflexivity.
  - vm_compute; reflexivity.
  - vm_compute; reflexivity.
Defined.

Lemma expired_lease_is_revoked_witness :
  let s := after (fun _ => true) demo_driving in
  let c := at_ns (7 * second) in
  exists s1 s2 out, step default_parameters s (TimerFired c) = Some (s1, []) /\
    callback default_parameters 7 c yes s1 = Some (s2, out) /\ ControlLease.active (lease_ (node s2)) = false.
Proof.
  intros s c.
  destruct (expired_lease_is_revoked default_parameters s c) as (s1 & H1 & Hall).
  - vm_compute; reflexivity.
  - vm_compute; reflexivity.
  - vm_compute; reflexivity.
  - vm_compute; split; discriminate.
  - assert (option_map (fun r => option_map (fun q => match executor (fst q) with None => true | _ => false end)
        (callback default_parameters 7 c yes (fst r)))
      (step default_parameters s (TimerFired c)) = Some (Some true)) as Hf by (vm_compute; reflexivity).
    rewrite H1 in Hf. cbn [option_map fst] in Hf.
    destruct (callback default_parameters 7 c yes s1) as [[s2 out]|] eqn:Hc; [|discriminate Hf].
    cbn [option_map fst] in Hf. destruct (executor s2) eqn:Hx; [discriminate Hf|].
    exists s1, s2, out. split; [exact H1|]. split; [exact Hc|].
    apply callback_sections in Hc. destruct (Hall _ _ _ _ Hc) as (_ & _ & Hdone).
    destruct (Hdone Hx) as (rest & _ & _ & Hi). apply Hi. vm_compute. reflexivity.
Defined.
End Executions.
