(* ===== verification/ActionRuntime.v ===== *)
(** * The action runtime

    Models [vehicle_runtime/src/vla_action_runtime_node.cpp]: policy actions are
    validated, queued and executed one per timer tick as raw velocity commands.
    The abstract class [MobilityAdapter] is a record of operations; its two
    implementations and the factory are definitions; the node is a machine over
    its two callbacks.  [plan] is what an accepted action chunk promises: its
    converted samples in order, one per tick, and zero afterwards. *)
From S2P Require Import Prelude Floats Messages.
Local Open Scope Z_scope.

Record ActionSample := MakeSample {
  observation_id : string;
  schema : string;
  schema_hash : string;
  feature_names : list string;
  feature_units : list string;
  values : list float32 }.

(** position of the first element that satisfies [f] ([std::find_if]) *)
Fixpoint index_where (f : string -> bool) (l : list string) : option nat :=
  match l with
  | [] => None
  | x :: r => if f x then Some 0%nat else S <$> index_where f r
  end.

Fixpoint find_feature (names accepted_names : list string) : Outcome nat :=
  match accepted_names with
  | [] => Throws "required action feature is missing"
  | a :: r =>
      match index_where (str_eqb a) names with
      | Some i => Returns i
      | None => find_feature names r
      end
  end.

Definition finite_value (sample : ActionSample) (index : nat) : Outcome float32 :=
  match values sample !! index with
  | None => Throws "action feature index exceeds vector dimension"
  | Some value =>
      if isfinite value then Returns value else Throws "action contains a non-finite value"
  end.

(** ** Mobility adapters *)
Record MobilityAdapter := MakeAdapter {
  id : string;
  accepts : ActionSample -> bool;
  convert : ActionSample -> Outcome Twist }.

Section Adapters.
(** [std::tan]: its rounding is implementation-defined *)
Variable tan : double -> double.
Local Open Scope outcome_scope.

Definition feature (sample : ActionSample) (accepted : list string) : Outcome float32 :=
  let! i := find_feature (feature_names sample) accepted in finite_value sample i.

Definition twist_convert (sample : ActionSample) : Outcome Twist :=
  let! x := feature sample ["linear_x"; "linear_x_mps"]%string in
  let! y :=
    match index_where (fun n => str_eqb n "linear_y" || str_eqb n "linear_y_mps")
            (feature_names sample) with
    | Some i => let! v := finite_value sample i in Returns (to_double v)
    | None => Returns dzero
    end in
  let! z := feature sample ["angular_z"; "angular_z_radps"]%string in
  Returns (Twist.Make (Vector3.Make (to_double x) y dzero)
                      (Vector3.Make dzero dzero (to_double z))).

Definition twist_accepts (sample : ActionSample) : bool :=
  str_eqb (schema sample) "vehicle.twist_chunk.v1" ||
  str_eqb (schema sample) "chitu.action.differential.v1" ||
  str_eqb (schema sample) "chitu.action.mecanum.v1".

Definition TwistMobilityAdapter : MobilityAdapter :=
  MakeAdapter "chitu.mobility.twist.v1" twist_accepts twist_convert.

Definition ackermann_convert (wheelbase : double) (command_semantics : string)
    (sample : ActionSample) : Outcome Twist :=
  let! s := feature sample ["speed_mps"]%string in
  let! a := feature sample ["steering_angle_rad"]%string in
  let speed := to_double s in
  let steering_angle := to_double a in
  let yaw :=
    if str_eqb command_semantics "steering_angle" then steering_angle
    else ddiv (dmul speed (tan steering_angle)) wheelbase in
  if isfinite yaw then Returns (Twist.planar speed yaw)
  else Throws "ackermann conversion produced a non-finite angular command".

Definition AckermannMobilityAdapter (wheelbase : double) (command_semantics : string)
  : Outcome MobilityAdapter :=
  if negb (isfinite wheelbase) || dle wheelbase dzero then
    Throws "ackermann wheelbase must be positive"
  else if negb (str_eqb command_semantics "yaw_rate") &&
          negb (str_eqb command_semantics "steering_angle") then
    Throws "ackermann command_semantics must be yaw_rate or steering_angle"
  else Returns (MakeAdapter "chitu.mobility.ackermann.v1"
    (fun sample => str_eqb (schema sample) "chitu.action.ackermann.v1")
    (ackermann_convert wheelbase command_semantics)).

Definition create_adapter (adapter : string) (wheelbase : double)
    (command_semantics : string) : Outcome MobilityAdapter :=
  if str_eqb adapter "twist" then Returns TwistMobilityAdapter
  else if str_eqb adapter "ackermann" then
    AckermannMobilityAdapter wheelbase command_semantics
  else Throws ("unsupported mobility adapter: " ++ adapter).
End Adapters.

(** ** The node *)
Record VlaActionRuntime := MakeRuntime {
  adapter_ : MobilityAdapter;
  actions_ : list ActionSample;
  valid_until_ : Z;
  last_generated_at_ : Z;
  request_id_ : string }.
#[export] Instance eta_runtime : Eta VlaActionRuntime := fun s =>
  MakeRuntime (adapter_ s) (actions_ s) (valid_until_ s) (last_generated_at_ s)
    (request_id_ s).

Inductive Output :=
| RawCommand (m : TwistStamped)
| PolicyTarget (m : TrainingAction.TrainingActionMsg).

Section Runtime.
Context `{Rclcpp}.

Definition initial (adapter : MobilityAdapter) : VlaActionRuntime :=
  MakeRuntime adapter [] 0 0 "".

Definition samples_from (m : PolicyAction.PolicyActionMsg) : list ActionSample :=
  match PolicyAction.action_vectors m with
  | (_ :: _) as vectors =>
      (fun v => MakeSample (PolicyAction.observation_id m) (PolicyAction.schema_version m)
         (PolicyAction.schema_hash m) (PolicyAction.feature_names m)
         (PolicyAction.feature_units m) v) <$> vectors
  | [] =>
      if negb (str_eqb (PolicyAction.schema_version m) "vehicle.twist_chunk.v1") then []
      else
        (fun a => MakeSample (PolicyAction.observation_id m) (PolicyAction.schema_version m)
           (PolicyAction.schema_hash m) ["linear_x"; "angular_z"]%string
           ["m/s"; "rad/s"]%string
           [to_float (Vector3.x (Twist.linear a)); to_float (Vector3.z (Twist.angular a))])
        <$> PolicyAction.actions m
  end.

(** the [try] block of [on_action] *)
Definition validate (adapter : MobilityAdapter) (samples : list ActionSample)
  : Outcome (list Twist) :=
  match samples with
  | [] => Throws "policy action contains no generic action vectors"
  | _ =>
      omap_list (fun sample =>
        if negb (accepts adapter sample) then
          Throws ("mobility adapter " ++ id adapter ++ " rejects schema " ++ schema sample)
        else convert adapter sample) samples
  end.

Definition on_action (m : PolicyAction.PolicyActionMsg) (s : VlaActionRuntime)
  : VlaActionRuntime :=
  let message_stamp := time_ns (PolicyAction.generated_at m) in
  let samples := samples_from m in
  match validate (adapter_ s) samples with
  | Throws _ => s
  | Returns _ =>
      if message_stamp <? last_generated_at_ s then s
      else
        s <| actions_ := samples |>
          <| valid_until_ := time_ns (PolicyAction.valid_until m) |>
          <| last_generated_at_ := message_stamp |>
          <| request_id_ := PolicyAction.request_id m |>
  end.

Definition publish_policy_target (sample : ActionSample) (stamp : Z)
  : TrainingAction.TrainingActionMsg :=
  TrainingAction.Make (Header.Make (to_msg stamp) "base_link") (observation_id sample)
    (schema sample) (schema_hash sample) (feature_names sample) (feature_units sample)
    (values sample) "policy.output" false [].

(** [execute]: [std::deque] operations under the lock, then the conversion *)
Definition execute (now : Z) (s : VlaActionRuntime) : VlaActionRuntime * list Output :=
  let header := Header.Make (to_msg now) "base_link" in
  let '(s', sample) :=
    match actions_ s with
    | front :: rest =>
        if now <=? valid_until_ s then (s <| actions_ := rest |>, Some front)
        else (s <| actions_ := [] |>, None)
    | [] => (s <| actions_ := [] |>, None)
    end in
  match sample with
  | None => (s', [RawCommand (TwistStamped.Make header Twist.zero)])
  | Some sample =>
      match convert (adapter_ s) sample with
      | Returns twist =>
          (s', [PolicyTarget (publish_policy_target sample now);
                RawCommand (TwistStamped.Make header twist)])
      | Throws _ => (s', [RawCommand (TwistStamped.Make header Twist.zero)])
      end
  end.

Inductive Event :=
| ActionReceived (m : PolicyAction.PolicyActionMsg)
| TimerFired (now : Z).

Definition next (s : VlaActionRuntime) (e : Event) : VlaActionRuntime * list Output :=
  match e with
  | ActionReceived m => (on_action m s, [])
  | TimerFired now => execute now s
  end.

(** ** Conversion is total on what is queued *)
Definition convertible (a : MobilityAdapter) (sample : ActionSample) : Prop :=
  exists t, convert a sample = Returns t.

Lemma validate_spec a samples ts :
  validate a samples = Returns ts <->
  samples <> [] /\
  Forall2 (fun sample t => accepts a sample = true /\ convert a sample = Returns t) samples ts.
Proof.
  unfold validate. destruct samples as [|x r]; [naive_solver|].
  rewrite omap_list_returns. split.
  - intros H1. split; [done|]. eapply Forall2_impl; [exact H1|]. intros sample t; simpl.
    by destruct (accepts a sample).
  - intros [_ H1]. eapply Forall2_impl; [exact H1|]. intros sample t [Ha Hc]; simpl.
    by rewrite Ha.
Qed.

Lemma validate_convertible a samples ts :
  validate a samples = Returns ts -> Forall (convertible a) samples.
Proof.
  intros [_ H1]%validate_spec. induction H1 as [|x t l ts' [_ Hc] _ IH]; constructor; [|done].
  by exists t.
Qed.

Definition queue_ok (s : VlaActionRuntime) : Prop := Forall (convertible (adapter_ s)) (actions_ s).

Lemma execute_adapter now s : adapter_ (fst (execute now s)) = adapter_ s.
Proof.
  unfold execute. destruct (actions_ s), (now <=? valid_until_ s); simpl; try done;
    by destruct (convert _ _).
Qed.
Lemma execute_actions now s :
  actions_ (fst (execute now s)) =
  if (now <=? valid_until_ s) then tail (actions_ s) else [].
Proof.
  unfold execute. destruct (actions_ s), (now <=? valid_until_ s); simpl; try done;
    by destruct (convert _ _).
Qed.
Lemma on_action_adapter m s : adapter_ (on_action m s) = adapter_ s.
Proof. unfold on_action. destruct (validate _ _); [|done]. by destruct (_ <? _). Qed.

Lemma next_queue_ok s e : queue_ok s -> queue_ok (fst (next s e)).
Proof.
  intros Hq. unfold queue_ok in *. destruct e as [m|now]; simpl.
  - rewrite on_action_adapter. unfold on_action.
    destruct (validate (adapter_ s) (samples_from m)) eqn:E; [|done].
    destruct (_ <? _); [done|]. simpl. by eapply validate_convertible.
  - rewrite execute_adapter, execute_actions.
    destruct (_ <=? _); [|by constructor]. destruct (actions_ s); [done|].
    by apply Forall_cons in Hq as [_ Hq].
Qed.

Lemma run_queue_ok a es : queue_ok (fst (run next (initial a) es)).
Proof. apply run_invariant; [apply next_queue_ok|]. constructor. Qed.

(** ** What an accepted chunk promises *)

(** the velocity commands among the outputs, in order *)
Definition commands (out : list Output) : list Twist :=
  omap (fun o => match o with RawCommand m => Some (TwistStamped.twist m) | _ => None end) out.

(** ticks at the given times against a queue of converted samples *)
Fixpoint plan (valid_until : Z) (queue : list Twist) (ticks : list Z) : list Twist :=
  match ticks with
  | [] => []
  | now :: r =>
      if now <=? valid_until then
        match queue with
        | t :: q => t :: plan valid_until q r
        | [] => Twist.zero :: plan valid_until [] r
        end
      else Twist.zero :: plan valid_until [] r
  end.

Lemma execute_commands now s ts :
  Forall2 (fun sample t => convert (adapter_ s) sample = Returns t) (actions_ s) ts ->
  commands (snd (execute now s)) = plan (valid_until_ s) ts [now] /\
  valid_until_ (fst (execute now s)) = valid_until_ s /\
  Forall2 (fun sample t => convert (adapter_ s) sample = Returns t)
    (actions_ (fst (execute now s))) (if now <=? valid_until_ s then tail ts else []).
Proof.
  intros Hq. rewrite execute_actions. unfold execute.
  destruct Hq as [|sample t q ts Hc Hq]; simpl.
  - destruct (now <=? valid_until_ s); done.
  - destruct (now <=? valid_until_ s) eqn:E; simpl; [|done]. by rewrite Hc.
Qed.

Lemma run_ticks_plan ticks s ts :
  Forall2 (fun sample t => convert (adapter_ s) sample = Returns t) (actions_ s) ts ->
  commands (snd (run next s (TimerFired <$> ticks))) = plan (valid_until_ s) ts ticks.
Proof.
  revert s ts. induction ticks as [|now r IH]; intros s ts Hq; [done|]. simpl.
  destruct (execute_commands now s ts Hq) as (Hc & Hv & Hq2).
  pose proof (execute_adapter now s) as Ha.
  destruct (execute now s) as [s1 o1]; simpl in *. rewrite <- Ha in Hq2.
  specialize (IH s1 _ Hq2). destruct (run next s1 _) as [s2 o2]; simpl in *.
  unfold commands in *. rewrite omap_app, Hc, IH, Hv. clear.
  destruct (now <=? valid_until_ s), ts; done.
Qed.

(** Whatever happened before, once an action chunk is accepted the node
    executes exactly that chunk: one raw command per timer tick, the converted
    samples in order while the chunk is valid, and zero from the first tick
    after the chunk is exhausted or has expired. *)
Theorem accepted_chunk_executes_in_order a es m ticks :
  let s := fst (run next (initial a) es) in
  let s' := on_action m s in
  forall twists,
  validate (adapter_ s) (samples_from m) = Returns twists ->
  last_generated_at_ s <= time_ns (PolicyAction.generated_at m) ->
  commands (snd (run next s' (TimerFired <$> ticks))) =
    plan (time_ns (PolicyAction.valid_until m)) twists ticks.
Proof.
  intros s s' ts Hv Hg.
  assert (s' = s <| actions_ := samples_from m |>
          <| valid_until_ := time_ns (PolicyAction.valid_until m) |>
          <| last_generated_at_ := time_ns (PolicyAction.generated_at m) |>
          <| request_id_ := PolicyAction.request_id m |>) as ->.
  { unfold s', on_action. rewrite Hv. by apply Z.ltb_ge in Hg as ->. }
  apply run_ticks_plan. simpl. apply validate_spec in Hv as [_ Hf].
  eapply Forall2_impl; [exact Hf|]. naive_solver.
Qed.

(** A policy action is taken as a whole or not at all: if one sample has an
    unsupported schema, a missing or non-finite feature or no sample exists, or
    if the action is older than the last one, the queue, its validity and the
    last stamp stay what they were. *)
Theorem rejected_action_changes_nothing m s :
  on_action m s <> s ->
  samples_from m <> [] /\
  last_generated_at_ s <= time_ns (PolicyAction.generated_at m) /\
  Forall (fun sample => accepts (adapter_ s) sample = true /\ convertible (adapter_ s) sample)
    (samples_from m) /\
  actions_ (on_action m s) = samples_from m.
Proof.
  unfold on_action. destruct (validate (adapter_ s) (samples_from m)) as [ts|] eqn:E; [|done].
  destruct (_ <? _) eqn:Hs; [done|]. intros _. apply validate_spec in E as [Hne Hf].
  split; [done|]. split; [by apply Z.ltb_ge|]. split; [|done].
  clear Hne. induction Hf as [|x t l ts' [Ha Hc] _ IH]; constructor; [|done]. split; [done|by exists t].
Qed.
End Runtime.

(** ** Every published command is finite *)
Section Finite.
Context `{Rclcpp}.
Variable tan : double -> double.

Definition finite_vector (v : Vector3) : bool :=
  isfinite (Vector3.x v) && isfinite (Vector3.y v) && isfinite (Vector3.z v).
Definition finite_twist (t : Twist) : bool :=
  finite_vector (Twist.linear t) && finite_vector (Twist.angular t).

(** a [float] whose conversion to [double] is finite when it is *)
Definition widens (v : float32) : Prop := isfinite v = true -> isfinite (to_double v) = true.
Definition widening (sample : ActionSample) : Prop := Forall widens (values sample).

Lemma finite_value_widens sample i v :
  widening sample -> finite_value sample i = Returns v -> isfinite (to_double v) = true.
Proof.
  unfold finite_value. intros Hw. destruct (values sample !! i) as [f|] eqn:E; [|done].
  destruct (isfinite f) eqn:Hf; [|done]. intros [= <-]. by apply (Forall_lookup_1 _ _ _ _ Hw E).
Qed.

Lemma feature_widens sample names v :
  widening sample -> feature sample names = Returns v -> isfinite (to_double v) = true.
Proof.
  unfold feature. intros Hw (i & _ & Hi)%obind_returns. by eapply finite_value_widens.
Qed.

Lemma twist_convert_finite sample t :
  widening sample -> twist_convert sample = Returns t -> finite_twist t = true.
Proof.
  intros Hw. unfold twist_convert.
  intros (x & Hx & (y & Hy & (z & Hz & [= <-])%obind_returns)%obind_returns)%obind_returns.
  unfold finite_twist, finite_vector; simpl.
  rewrite (feature_widens _ _ _ Hw Hx), (feature_widens _ _ _ Hw Hz).
  assert (isfinite y = true) as ->; [|done].
  destruct (index_where _ _); [|by injection Hy as <-].
  apply obind_returns in Hy as (v & Hv & [= <-]). by eapply finite_value_widens.
Qed.

Lemma ackermann_convert_finite w c sample t :
  widening sample -> ackermann_convert tan w c sample = Returns t -> finite_twist t = true.
Proof.
  intros Hw. unfold ackermann_convert.
  intros (s & Hs & (a & Ha & Hr)%obind_returns)%obind_returns.
  destruct (isfinite (if str_eqb _ _ then _ else _)) eqn:E; [|done]. injection Hr as <-.
  unfold finite_twist, finite_vector; simpl. by rewrite (feature_widens _ _ _ Hw Hs), E.
Qed.

Definition finite_adapter (a : MobilityAdapter) : Prop :=
  forall sample t, widening sample -> convert a sample = Returns t -> finite_twist t = true.

Lemma created_adapter_finite name w c a :
  create_adapter tan name w c = Returns a -> finite_adapter a.
Proof.
  unfold create_adapter, AckermannMobilityAdapter.
  repeat case_match; intros; simplify_eq; intros sample t;
    eauto using twist_convert_finite, ackermann_convert_finite.
Qed.

(** the [float32] fields of a message hold binary32 values *)
Definition event_ok (e : Event) : Prop :=
  match e with
  | ActionReceived m => Forall (Forall valid_float) (PolicyAction.action_vectors m)
  | TimerFired _ => True
  end.

Lemma samples_widening m :
  Forall (Forall valid_float) (PolicyAction.action_vectors m) ->
  Forall widening (samples_from m).
Proof.
  intros Hv. unfold samples_from. set (vs := PolicyAction.action_vectors m) in *.
  assert (Forall widening ((fun v => MakeSample (PolicyAction.observation_id m)
    (PolicyAction.schema_version m) (PolicyAction.schema_hash m) (PolicyAction.feature_names m)
    (PolicyAction.feature_units m) v) <$> vs)) as Hg.
  { apply Forall_fmap. eapply Forall_impl; [exact Hv|]. intros u Hu. simpl.
    unfold widening; simpl. eapply Forall_impl; [exact Hu|]. intros f. unfold widens.
    apply to_double_finite. }
  destruct vs as [|v r]; [|exact Hg].
  destruct (negb _); [constructor|]. apply Forall_fmap, Forall_forall. intros a _. simpl.
  unfold widening, widens; simpl. repeat constructor; apply narrow_widen_finite.
Qed.

Definition finite_output (o : Output) : Prop :=
  match o with RawCommand m => finite_twist (TwistStamped.twist m) = true | _ => True end.

Lemma next_finite s e :
  event_ok e -> finite_adapter (adapter_ s) /\ Forall widening (actions_ s) ->
  (finite_adapter (adapter_ (fst (next s e))) /\ Forall widening (actions_ (fst (next s e)))) /\
  Forall finite_output (snd (next s e)).
Proof.
  intros He [Ha Hw]. destruct e as [m|now]; simpl.
  - rewrite on_action_adapter. split; [split; [done|]|constructor].
    unfold on_action. destruct (validate _ _); [|done]. destruct (_ <? _); [done|].
    by apply samples_widening.
  - rewrite execute_adapter, execute_actions. split; [split; [done|]|].
    { destruct (_ <=? _); [|constructor]. by destruct Hw. }
    unfold execute. destruct Hw as [|sample q Hs Hq]; [by repeat constructor|].
    destruct (now <=? valid_until_ s); [|by repeat constructor].
    destruct (convert (adapter_ s) sample) eqn:E; repeat constructor. by apply (Ha sample).
Qed.

(** With any configured adapter and any sequence of policy actions and
    timer ticks, every component of every raw velocity command is a finite
    number: NaN, infinities and missing features never reach [/vla/cmd_vel_raw]. *)
Theorem raw_commands_are_finite name wheelbase semantics a es :
  create_adapter tan name wheelbase semantics = Returns a ->
  Forall event_ok es ->
  Forall (fun t => finite_twist t = true) (commands (snd (run next (initial a) es))).
Proof.
  intros Ha He. apply created_adapter_finite in Ha.
  destruct (run_outputs next (fun s => finite_adapter (adapter_ s) /\ Forall widening (actions_ s))
    event_ok finite_output next_finite es (initial a) He) as [_ Ho].
  { split; [done|constructor]. }
  unfold commands. induction Ho as [|o l Ho _ IH]; [constructor|].
  destruct o; simpl in *; [by constructor|done].
Qed.
End Finite.

(** ** Witnesses *)
Section Witnesses.
#[local] Existing Instance rclcpp_doc.

(** a stand-in for the tangent near zero *)
Definition small_tan (x : double) : double := x.

Definition demo_action : PolicyAction.PolicyActionMsg :=
  PolicyAction.zero <| PolicyAction.schema_version := "chitu.action.ackermann.v1" |>
    <| PolicyAction.feature_names := ["steering_angle_rad"; "speed_mps"]%string |>
    <| PolicyAction.action_vectors := [[litf 1 1; litf 3 1]; [litf 2 1; litf 4 1]] |>
    <| PolicyAction.generated_at := MakeTime 1 0 |>
    <| PolicyAction.valid_until := MakeTime 2 0 |>.

Definition demo_adapter : MobilityAdapter :=
  MakeAdapter "chitu.mobility.ackermann.v1"
    (fun sample => str_eqb (schema sample) "chitu.action.ackermann.v1")
    (ackermann_convert small_tan (lit 32 2) "yaw_rate").

Lemma accepted_chunk_executes_in_order_witness :
  let s := fst (run next (initial demo_adapter) [ActionReceived PolicyAction.zero]) in
  List.length (commands (snd (run next (on_action demo_action s)
    (TimerFired <$> [1100000000; 1200000000; 1300000000])))) = 3%nat.
Proof.
  intros s.
  destruct (validate (adapter_ s) (samples_from demo_action)) as [ts|e] eqn:E.
  2: exfalso; vm_compute in E; discriminate.
  unfold s. rewrite (accepted_chunk_executes_in_order demo_adapter
    [ActionReceived PolicyAction.zero] demo_action [1100000000; 1200000000; 1300000000] ts E);
    [|vm_compute; discriminate].
  vm_compute in E. injection E as <-. vm_compute. reflexivity.
Defined.

Lemma rejected_action_changes_nothing_witness :
  actions_ (on_action demo_action (initial demo_adapter)) = samples_from demo_action.
Proof.
  apply (rejected_action_changes_nothing demo_action (initial demo_adapter)).
  intros E. apply (f_equal (fun s => List.length (actions_ s))) in E. vm_compute in E. discriminate.
Defined.

Lemma raw_commands_are_finite_witness :
  Forall (fun t => finite_twist t = true)
    (commands (snd (run next (initial demo_adapter)
      [ActionReceived demo_action; TimerFired 1100000000]))).
Proof.
  apply (raw_commands_are_finite small_tan "ackermann" (lit 32 2) "yaw_rate").
  - unfold create_adapter, AckermannMobilityAdapter.
    replace (negb (isfinite (lit 32 2)) || dle (lit 32 2) dzero) with false
      by (vm_compute; reflexivity).
    reflexivity.
  - apply Forall_cons. split; [|apply Forall_cons; split; [exact I|apply Forall_nil; exact I]].
    unfold event_ok; simpl. unfold valid_float.
    repeat first [apply Forall_nil; exact I | apply Forall_cons; split];
      vm_compute; reflexivity.
Defined.
End Witnesses.
