(* ===== verification/ActionCapture.v ===== *)
(** * The action capture node

    Models [vehicle_runtime/src/vehicle_action_capture_node.cpp]: the selected
    and the executed velocity commands are encoded as training actions of the
    configured mobility adapter's schema.  [on_observation], [on_override] and
    [on_safety_event] are the lambdas of the constructor; the node runs on a
    single-threaded executor, so each callback is one atomic step.  [sample_of]
    reads a training action back as an action sample, and
    [captured_action_replays] is the round trip through the adapters of
    [ActionRuntime]. *)
From S2P Require Import Prelude Floats Messages ActionRuntime.
Local Open Scope Z_scope.

Record VehicleActionCapture := MakeCapture {
  adapter_ : string;
  wheelbase_m_ : double;
  command_semantics_ : string;
  comparison_tolerance_ : double;
  observation_id_ : string;
  latest_target_values_ : list float32;
  manual_obstacle_override_ : bool;
  active_safety_rule_ : string }.
#[export] Instance eta_capture : Eta VehicleActionCapture := fun s =>
  MakeCapture (adapter_ s) (wheelbase_m_ s) (command_semantics_ s)
    (comparison_tolerance_ s) (observation_id_ s) (latest_target_values_ s)
    (manual_obstacle_override_ s) (active_safety_rule_ s).

(** the constructor: parameters are checked before anything is created *)
Definition constructor (adapter : string) (wheelbase : double) (semantics : string)
    (tolerance : double) : Outcome VehicleActionCapture :=
  if negb (str_eqb adapter "twist") && negb (str_eqb adapter "ackermann") then
    Throws "capture mobility_adapter must be twist or ackermann"
  else if str_eqb adapter "ackermann" && (negb (isfinite wheelbase) || dle wheelbase dzero) then
    Throws "ackermann wheelbase must be positive"
  else if negb (str_eqb semantics "yaw_rate") && negb (str_eqb semantics "steering_angle") then
    Throws "ackermann command_semantics must be yaw_rate or steering_angle"
  else Returns (MakeCapture adapter wheelbase semantics tolerance "" [] false "").

Section Capture.
Context `{Rclcpp}.
(** [std::atan]: its rounding is implementation-defined *)
Variable atan : double -> double.

Definition on_observation (m : PolicyObservation.PolicyObservationMsg)
    (s : VehicleActionCapture) := s <| observation_id_ := PolicyObservation.observation_id m |>.

Definition on_override (data : bool) (s : VehicleActionCapture) :=
  s <| manual_obstacle_override_ := data |>.

Definition on_safety_event (m : SafetyEvent.SafetyEventMsg) (s : VehicleActionCapture) :=
  if SafetyEvent.active m then s <| active_safety_rule_ := SafetyEvent.rule_id m |>
  else if str_eqb (active_safety_rule_ s) (SafetyEvent.rule_id m) then
    s <| active_safety_rule_ := "" |>
  else s.

Definition inverse_ackermann (s : VehicleActionCapture) (speed yaw_rate : double) : double :=
  if dle (dabs speed) (lit 1 4) then dzero
  else atan (ddiv (dmul (wheelbase_m_ s) yaw_rate) speed).

Definition encode (command : Twist) (stamp : Z) (source : string) (s : VehicleActionCapture)
  : TrainingAction.TrainingActionMsg :=
  let action := TrainingAction.zero
    <| TrainingAction.header := Header.Make (to_msg stamp) "base_link" |>
    <| TrainingAction.observation_id := observation_id_ s |>
    <| TrainingAction.safety_reasons :=
         [if manual_obstacle_override_ s then "safety_mode:manual_obstacle_override"
          else "safety_mode:normal"]%string |>
    <| TrainingAction.source := source |> in
  let speed := Vector3.x (Twist.linear command) in
  let yaw := Vector3.z (Twist.angular command) in
  if str_eqb (adapter_ s) "twist" then
    action <| TrainingAction.action_schema := "vehicle.twist_chunk.v1" |>
      <| TrainingAction.feature_names := ["linear_x"; "angular_z"]%string |>
      <| TrainingAction.feature_units := ["m/s"; "rad/s"]%string |>
      <| TrainingAction.values := [to_float speed; to_float yaw] |>
  else
    let steering_angle :=
      if str_eqb (command_semantics_ s) "steering_angle" then yaw
      else inverse_ackermann s speed yaw in
    action <| TrainingAction.action_schema := "chitu.action.ackermann.v1" |>
      <| TrainingAction.feature_names := ["speed_mps"; "steering_angle_rad"]%string |>
      <| TrainingAction.feature_units := ["m/s"; "rad"]%string |>
      <| TrainingAction.values := [to_float speed; to_float steering_angle] |>.

Definition on_target (m : TwistStamped) (s : VehicleActionCapture)
  : VehicleActionCapture * TrainingAction.TrainingActionMsg :=
  let action := encode (TwistStamped.twist m)
    (time_ns (Header.stamp (TwistStamped.header m))) "control.selected" s in
  (s <| latest_target_values_ := TrainingAction.values action |>, action).

(** [std::equal] with the tolerance: [std::abs] of the [float] difference is
    promoted to compare with the [double] tolerance *)
Definition within_tolerance (tolerance : double) (left right : float32) : bool :=
  dle (to_double (dabs (fsub left right))) tolerance.

Fixpoint equal_within (tolerance : double) (xs ys : list float32) : bool :=
  match xs, ys with
  | [], _ => true
  | x :: xr, y :: yr => within_tolerance tolerance x y && equal_within tolerance xr yr
  | _ :: _, [] => false
  end.

Definition on_executed (now : Z) (m : Twist) (s : VehicleActionCapture)
  : TrainingAction.TrainingActionMsg :=
  let action := encode m now "control.executed" s in
  let intervened :=
    (List.length (latest_target_values_ s) =? List.length (TrainingAction.values action))%nat &&
    negb (equal_within (comparison_tolerance_ s) (latest_target_values_ s)
            (TrainingAction.values action)) in
  let reasons := TrainingAction.safety_reasons action
    ++ (if manual_obstacle_override_ s then ["obstacle_override"]%string else [])
    ++ (if intervened then
          [if str_empty (active_safety_rule_ s) then "safety_or_control_adjustment"%string
           else active_safety_rule_ s]
        else []) in
  action <| TrainingAction.safety_intervened := intervened |>
         <| TrainingAction.safety_reasons := reasons |>.

Inductive Event :=
| ObservationReceived (m : PolicyObservation.PolicyObservationMsg)
| OverrideReceived (data : bool)
| SafetyEventReceived (m : SafetyEvent.SafetyEventMsg)
| TargetReceived (m : TwistStamped)
| ExecutedReceived (now : Z) (m : Twist).

Definition next (s : VehicleActionCapture) (e : Event)
  : VehicleActionCapture * list TrainingAction.TrainingActionMsg :=
  match e with
  | ObservationReceived m => (on_observation m s, [])
  | OverrideReceived b => (on_override b s, [])
  | SafetyEventReceived m => (on_safety_event m s, [])
  | TargetReceived m => let '(s', a) := on_target m s in (s', [a])
  | ExecutedReceived now m => (s, [on_executed now m s])
  end.

(** ** Reading a captured action back *)
Definition sample_of (a : TrainingAction.TrainingActionMsg) : ActionSample :=
  MakeSample (TrainingAction.observation_id a) (TrainingAction.action_schema a)
    (TrainingAction.schema_hash a) (TrainingAction.feature_names a)
    (TrainingAction.feature_units a) (TrainingAction.values a).

(** the command after storing it as [float] *)
Definition rounded (command : Twist) : Twist :=
  Twist.planar (to_double (to_float (Vector3.x (Twist.linear command))))
    (to_double (to_float (Vector3.z (Twist.angular command)))).

(** A captured action can be executed again: under the same configuration
    the runtime's adapter accepts the schema of every action this node
    publishes, and for finite commands (twist, or Ackermann with steering-angle
    semantics) conversion gives back the forward speed and yaw rate that were
    captured, rounded to [float]; lateral speed is not part of the capture. *)
Theorem captured_action_replays tan name wheelbase semantics tolerance s0 s a command stamp source :
  constructor name wheelbase semantics tolerance = Returns s0 ->
  adapter_ s = adapter_ s0 -> command_semantics_ s = command_semantics_ s0 ->
  create_adapter tan name wheelbase semantics = Returns a ->
  isfinite (to_float (Vector3.x (Twist.linear command))) = true ->
  isfinite (to_float (Vector3.z (Twist.angular command))) = true ->
  let captured := encode command stamp source s in
  accepts a (sample_of captured) = true /\
  (name = "twist"%string \/ semantics = "steering_angle"%string ->
   convert a (sample_of captured) = Returns (rounded command)).
Proof.
  intros Hc En Es Ha Hx Hz.
  assert (adapter_ s = name /\ command_semantics_ s = semantics) as [En' Es'].
  { unfold constructor in Hc. rewrite En, Es.
    destruct (negb _ && negb _); [done|]. destruct (str_eqb name "ackermann" && _); [done|].
    destruct (negb _ && negb _); [done|]. by injection Hc as <-. }
  clear Hc En Es. unfold create_adapter in Ha.
  destruct (str_eqb name "twist") eqn:Et.
  - injection Ha as <-. unfold encode. rewrite En', Et. simpl. split; [done|]. intros _.
    unfold twist_convert, feature, finite_value; simpl. rewrite Hx; simpl. by rewrite Hz.
  - destruct (str_eqb name "ackermann"); [|done]. unfold AckermannMobilityAdapter in Ha.
    destruct (negb (isfinite _) || _); [done|]. destruct (negb _ && negb _); [done|].
    injection Ha as <-. unfold encode. rewrite En', Et. simpl. split; [done|].
    intros [->| ->]; [done|]. rewrite Es'. simpl.
    unfold ackermann_convert, feature, finite_value; simpl. rewrite Hx; simpl. rewrite Hz; simpl.
    by rewrite (narrow_widen_finite _ Hz).
Qed.

(** *** Interventions *)
Lemma equal_within_refl tolerance xs :
  Forall (fun x => within_tolerance tolerance x x = true) xs ->
  equal_within tolerance xs xs = true.
Proof. induction 1 as [|x r Hx _ IH]; simpl; [done|]. by rewrite Hx, IH. Qed.

Lemma fsub_diag_finite x : isfinite x = true -> dabs (fsub x x) = fzero.
Proof.
  destruct x as [[]|[]| |s m e]; simpl; try done. intros _.
  unfold fsub, SFsub. by rewrite Z.min_id, Z.sub_diag.
Qed.

(** When the executed command is the selected one, no intervention is
    recorded: with a non-negative tolerance and values that are finite the
    executed action carries the target's values, [safety_intervened] is false
    and the safety reasons name at most the manual obstacle override. *)
Theorem unchanged_command_is_no_intervention m now s :
  dle dzero (comparison_tolerance_ s) = true ->
  let '(s', target) := on_target m s in
  Forall (fun v => isfinite v = true) (TrainingAction.values target) ->
  let executed := on_executed now (TwistStamped.twist m) s' in
  TrainingAction.values executed = TrainingAction.values target /\
  TrainingAction.safety_intervened executed = false /\
  TrainingAction.safety_reasons executed =
    (if manual_obstacle_override_ s
     then ["safety_mode:manual_obstacle_override"; "obstacle_override"]
     else ["safety_mode:normal"])%string.
Proof.
  intros Ht. unfold on_target. set (target := encode _ _ _ s). intros Hf.
  set (s' := s <| latest_target_values_ := TrainingAction.values target |>).
  assert (TrainingAction.values (encode (TwistStamped.twist m) now "control.executed" s') =
    TrainingAction.values target) as Hv.
  { unfold target, encode, s'; simpl. by destruct (str_eqb (adapter_ s) "twist"). }
  assert (equal_within (comparison_tolerance_ s) (TrainingAction.values target)
    (TrainingAction.values target) = true) as Hq.
  { apply equal_within_refl. eapply Forall_impl; [exact Hf|]. intros x Hx; simpl in *.
    unfold within_tolerance. by rewrite fsub_diag_finite. }
  unfold on_executed. rewrite Hv. simpl. rewrite Nat.eqb_refl, Hq. simpl.
  split; [exact Hv|]. split; [done|].
  assert (TrainingAction.safety_reasons (encode (TwistStamped.twist m) now "control.executed" s') =
    [if manual_obstacle_override_ s then "safety_mode:manual_obstacle_override"
     else "safety_mode:normal"]%string) as ->.
  { unfold encode, s'; simpl. by destruct (str_eqb (adapter_ s) "twist"). }
  by destruct (manual_obstacle_override_ s).
Qed.

(** A guard that replaces the selected command by one outside the
    tolerance is recorded as an intervention, and the last safety reason is
    the rule whose activation was received last and not cleared. *)
Theorem replaced_command_names_the_rule now executed s :
  let action := on_executed now executed s in
  List.length (latest_target_values_ s) = List.length (TrainingAction.values action) ->
  equal_within (comparison_tolerance_ s) (latest_target_values_ s)
    (TrainingAction.values action) = false ->
  TrainingAction.safety_intervened action = true /\
  last (TrainingAction.safety_reasons action) =
    Some (if str_empty (active_safety_rule_ s) then "safety_or_control_adjustment"%string
          else active_safety_rule_ s).
Proof.
  intros action. unfold action, on_executed; simpl. intros Hl Hq.
  apply Nat.eqb_eq in Hl. rewrite Hl, Hq. simpl. split; [done|].
  by rewrite app_assoc, last_snoc.
Qed.
End Capture.

(** ** Witnesses *)
Section Witnesses.
#[local] Existing Instance rclcpp_doc.

Definition demo_started : VehicleActionCapture :=
  MakeCapture "ackermann" (lit 32 2) "steering_angle" (lit 1 4) "" [] false "".
Definition demo_capture : VehicleActionCapture :=
  demo_started <| observation_id_ := "obs" |> <| manual_obstacle_override_ := true |>
    <| active_safety_rule_ := "stop" |>.
Definition demo_selected : TwistStamped :=
  TwistStamped.Make Header.zero (Twist.planar (lit 5 1) (lit 25 2)).

Lemma captured_action_replays_witness :
  let captured := encode small_tan (TwistStamped.twist demo_selected) 5 "x" demo_capture in
  ackermann_convert small_tan (lit 32 2) "steering_angle" (sample_of captured) =
  Returns (rounded (TwistStamped.twist demo_selected)).
Proof.
  refine (proj2 (captured_action_replays small_tan small_tan "ackermann" (lit 32 2) "steering_angle"
    (lit 1 4) demo_started demo_capture (MakeAdapter "chitu.mobility.ackermann.v1"
    (fun sample => str_eqb (schema sample) "chitu.action.ackermann.v1")
    (ackermann_convert small_tan (lit 32 2) "steering_angle"))
    (TwistStamped.twist demo_selected) 5 "x" _ eq_refl eq_refl _ _ _) (or_intror eq_refl)).
  - vm_compute; reflexivity.
  - unfold create_adapter, AckermannMobilityAdapter.
    replace (negb (isfinite (lit 32 2)) || dle (lit 32 2) dzero) with false
      by (vm_compute; reflexivity).
    reflexivity.
  - vm_compute; reflexivity.
  - vm_compute; reflexivity.
Defined.

Lemma unchanged_command_is_no_intervention_witness :
  let '(s', target) := on_target small_tan demo_selected demo_capture in
  TrainingAction.safety_intervened
    (on_executed small_tan 9 (TwistStamped.twist demo_selected) s') = false.
Proof.
  apply (unchanged_command_is_no_intervention small_tan demo_selected 9 demo_capture).
  - vm_compute; reflexivity.
  - vm_compute. repeat constructor.
Defined.

Lemma replaced_command_names_the_rule_witness :
  let s := fst (on_target small_tan demo_selected demo_capture) in
  TrainingAction.safety_intervened (on_executed small_tan 9 Twist.zero s) = true.
Proof.
  apply (replaced_command_names_the_rule small_tan 9 Twist.zero
    (fst (on_target small_tan demo_selected demo_capture))); vm_compute; reflexivity.
Defined.
End Witnesses.
