(* ===== verification/PolicyTransport.v ===== *)
(** * Policy transports

    Models the package [vehicle_policy_transport]: the abstract class
    [PolicyTransport] (policy_transport.hpp) is a type class with the laws the
    policy gateway relies on, and the in-process mock and the Unix-socket
    transport are its two implementations.

    The kernel and the protobuf runtime are not part of the repository.  The
    results of the successive [send] and [recv] calls of one exchange are a
    script ([Kernel]); calls after its end time out, as [SO_SNDTIMEO] and
    [SO_RCVTIMEO] make them.  [SerializeToString] and [ParseFromString] are the
    operations of the class [Protobuf].  Messages follow [policy_protocol.proto]. *)
From S2P Require Import Prelude Floats Messages.
Local Open Scope Z_scope.

(** ** policy_transport.hpp *)
Record PolicyImage := MakeImage { key : string; format : string; data : list Z }.

Record PolicyObservationInput := MakeInput {
  observation_id : string;
  schema_version : string;
  task : string;
  generated_at_ns : Z;
  valid_until_ns : Z;
  images : list PolicyImage;
  state_keys : list string;
  state : list float32;
  state_valid : list bool }.

Record PolicyPrediction := MakePrediction {
  p_request_id : string;
  p_observation_id : string;
  p_model_id : string;
  p_action_schema : string;
  p_action_schema_hash : string;
  p_action_features : list string;
  p_action_units : list string;
  p_control_period : Z;                   (* milliseconds *)
  p_action_vectors : list (list float32);
  p_actions : list Twist }.

Record PolicyDebugResult := MakeDebugResult {
  d_run_id : string;
  d_provider_id : string;
  d_model_id : string;
  d_schema_version : string;
  d_result_json : string;
  d_processed_image_jpeg : list Z }.

(** The virtual methods.  [T] is the object's state; [W] is what the outside
    world contributes to one call. *)
Class PolicyTransport (T W : Type) := {
  refresh : W -> T -> T;
  ready : T -> bool;
  provider_id : T -> string;
  model_id : T -> string;
  action_schema : T -> string;
  status_message : T -> string;
  predict : W -> PolicyObservationInput -> T -> T * Outcome PolicyPrediction;
  debug : W -> PolicyObservationInput -> string -> string -> T ->
    T * Outcome PolicyDebugResult
}.

(** What every transport promises its client. *)
Class TransportLaws (T W : Type) `{PolicyTransport T W} := {
  well_formed : T -> Prop;
  refresh_well_formed : forall w t, well_formed t -> well_formed (refresh w t);
  predict_well_formed : forall w o t, well_formed t -> well_formed (fst (predict w o t));
  (** a prediction answers the observation it was asked for *)
  predict_answers : forall w o t p,
    snd (predict w o t) = Returns p -> p_observation_id p = observation_id o;
  (** and contains at least one action and a positive control period *)
  predict_executable : forall w o t p, well_formed t ->
    snd (predict w o t) = Returns p ->
    p_action_vectors p <> [] /\ 0 < p_control_period p
}.

(** ** MockPolicyTransport *)
Module Mock.
Record MockPolicyTransport := MakeMock {
  horizon_ : nat;
  control_period_ : Z;
  linear_velocity_ : double;
  angular_velocity_ : double;
  request_counter_ : Z }.
#[export] Instance eta_mock : Eta MockPolicyTransport := fun t =>
  MakeMock (horizon_ t) (control_period_ t) (linear_velocity_ t) (angular_velocity_ t)
    (request_counter_ t).

Definition mock_model_id : string := "mock-zero-policy-v1".
Definition mock_action_schema : string := "vehicle.twist_chunk.v1".

Definition mock_predict (observation : PolicyObservationInput) (t : MockPolicyTransport)
  : MockPolicyTransport * Outcome PolicyPrediction :=
  match images observation with
  | [] => (t, Throws "at least one image is required")
  | _ =>
      let t' := t <| request_counter_ := wrap64 (request_counter_ t + 1) |> in
      let '(vector, action) :=
        if negb (str_empty (task observation)) then
          ([to_float (linear_velocity_ t); to_float (angular_velocity_ t)],
           Twist.planar (linear_velocity_ t) (angular_velocity_ t))
        else ([fzero; fzero], Twist.zero) in
      (t', Returns (MakePrediction
        ("mock-" ++ to_string (request_counter_ t')) (observation_id observation)
        mock_model_id mock_action_schema "" ["linear_x"; "angular_z"]%string
        ["m/s"; "rad/s"]%string (control_period_ t)
        (replicate (horizon_ t) vector) (replicate (horizon_ t) action)))
  end.

Definition mock_debug (observation : PolicyObservationInput) (run_id stage : string)
    (t : MockPolicyTransport) : MockPolicyTransport * Outcome PolicyDebugResult :=
  if negb (str_eqb stage "preprocess") && negb (str_eqb stage "inference") then
    (t, Throws "unsupported debug stage")
  else
    (t, Returns (MakeDebugResult run_id "mock" mock_model_id "vehicle.vla.debug.v1"
      (quoted "{'schema_version':'vehicle.vla.debug.v1','debug_run_id':'" ++
       run_id ++ quoted "','stage':'" ++ stage ++
       quoted "','provider_id':'mock','model_id':'" ++ mock_model_id ++
       quoted "','observation':{'observation_id':'" ++ observation_id observation ++
       quoted "'},'safety':{'operation_mode':'shadow','publishes_control':false}}") [])).

#[export] Instance mock_transport : PolicyTransport MockPolicyTransport unit := {|
  refresh _ t := t;
  ready _ := true;
  provider_id _ := "mock"%string;
  model_id _ := mock_model_id;
  action_schema _ := mock_action_schema;
  status_message _ := "In-process mock policy ready"%string;
  predict _ := mock_predict;
  debug _ := mock_debug
|}.

(** the gateway constructs it with a positive horizon and period *)
Definition mock_ok (t : MockPolicyTransport) : Prop :=
  (0 < horizon_ t)%nat /\ 0 < control_period_ t.

Lemma mock_predict_spec o t p :
  snd (mock_predict o t) = Returns p ->
  p_observation_id p = observation_id o /\ p_control_period p = control_period_ t /\
  List.length (p_action_vectors p) = horizon_ t /\ List.length (p_actions p) = horizon_ t.
Proof.
  unfold mock_predict. destruct (images o); [done|]. destruct (negb _); simpl;
    intros [= <-]; simpl; by rewrite !length_replicate.
Qed.

#[export] Instance mock_laws : TransportLaws MockPolicyTransport unit.
Proof.
  refine {| well_formed := mock_ok |}.
  - done.
  - intros w o t Ht. simpl. unfold mock_predict. destruct (images o); [done|].
    by destruct (negb _).
  - intros w o t p Hp. by apply mock_predict_spec in Hp as (? & _).
  - intros w o t p [Hh Hc] Hp. apply mock_predict_spec in Hp as (_ & Hp & Hl & _).
    split; [|lia]. intros E. rewrite E in Hl. simpl in Hl. lia.
Defined.
End Mock.

(** ** policy_protocol.proto *)
Module Protocol.
Record HealthResponse := MakeHealth {
  h_ready : bool; h_provider_id : string; h_model_id : string;
  h_observation_schema : string; h_action_schema : string; h_message : string }.
Record StateValue := MakeState { s_key : string; s_value : float32; s_valid : bool }.
Record PredictRequest := MakePredict {
  q_observation_id : string; q_schema_version : string; q_task : string;
  q_generated_at_ns : Z; q_valid_until_ns : Z;
  q_images : list PolicyImage; q_state : list StateValue }.
Record PredictResponse := MakePredictResponse {
  r_request_id : string; r_observation_id : string; r_provider_id : string;
  r_model_id : string; r_action_schema : string; r_generated_at_ns : Z;
  r_valid_until_ns : Z; r_control_period_ns : Z;
  r_actions : list Twist;
  r_action_features : list string; r_action_units : list string;
  r_action_vectors : list (list double); r_action_schema_hash : string }.
Record DebugResponse := MakeDebugResponse {
  g_debug_run_id : string; g_provider_id : string; g_model_id : string;
  g_schema_version : string; g_result_json : string; g_processed_image_jpeg : list Z }.
Inductive Payload :=
| NotSet
| HealthRequestPayload
| HealthResponsePayload (h : HealthResponse)
| PredictRequestPayload (q : PredictRequest)
| PredictResponsePayload (r : PredictResponse)
| ErrorResponsePayload (code message : string)
| DebugRequestPayload (run_id stage : string) (q : PredictRequest)
| DebugResponsePayload (g : DebugResponse).
Record Envelope := MakeEnvelope {
  protocol_version : string; message_id : string; payload : Payload }.
End Protocol.
Import Protocol.

(** The generated code and its runtime. *)
Class Protobuf := {
  serialize : Envelope -> option (list Z);
  parse : list Z -> option Envelope
}.

Definition kProtocolVersion : string := "1".
Definition kMaxFrameSize : Z := 32 * 1024 * 1024.

(** ** send_all and receive_all *)

(** Results of the successive [send] and [recv] calls with the [strerror] text
    at that moment: the count [send] returns, and the bytes [recv] delivers
    (none when it returns zero or an error). *)
Record SendResult := MakeSent { count : Z; send_errno : string }.
Record ReceiveResult := MakeReceived { bytes : list Z; receive_errno : string }.

Definition timeout_text : string := "Resource temporarily unavailable".
Definition send_failure (text : string) : string := "socket send failed: " ++ text.
Definition receive_failure (text : string) : string := "socket receive failed: " ++ text.

(** What remains of the script, and the bytes handed to the kernel. *)
Fixpoint send_all (script : list SendResult) (buffer : list Z)
  : Outcome (list SendResult) * list Z :=
  match buffer, script with
  | [], _ => (Returns script, [])
  | _, [] => (Throws (send_failure timeout_text), [])
  | _, r :: rest =>
      if count r <=? 0 then (Throws (send_failure (send_errno r)), [])
      else
        let n := Z.to_nat (count r) in
        let '(o, wire) := send_all rest (drop n buffer) in
        (o, take n buffer ++ wire)
  end.

Fixpoint receive_all (script : list ReceiveResult) (size : nat)
  : Outcome (list Z * list ReceiveResult) :=
  match size, script with
  | O, _ => Returns ([], script)
  | _, [] => Throws (receive_failure timeout_text)
  | _, r :: rest =>
      match bytes r with
      | [] => Throws (receive_failure (receive_errno r))
      | received =>
          obind (receive_all rest (size - List.length received)) (fun '(more, s) =>
            Returns (received ++ more, s))
      end
  end.

(** ** The frame header: a 32-bit big-endian length *)
Definition htonl_bytes (n : Z) : list Z :=
  [n / 2 ^ 24 mod 256; n / 2 ^ 16 mod 256; n / 2 ^ 8 mod 256; n mod 256].
Definition ntohl_bytes (b : list Z) : Z :=
  match b with
  | [b3; b2; b1; b0] => b3 * 2 ^ 24 + b2 * 2 ^ 16 + b1 * 2 ^ 8 + b0
  | _ => 0
  end.

Lemma ntohl_htonl n : 0 <= n < 2 ^ 32 -> ntohl_bytes (htonl_bytes n) = n.
Proof.
  intros Hn. unfold htonl_bytes, ntohl_bytes.
  assert (n / 2 ^ 24 mod 256 = n / 2 ^ 24) as ->
    by (apply Z.mod_small; split; [apply Z.div_pos; lia|apply Z.div_lt_upper_bound; lia]).
  assert (n / 2 ^ 16 = 256 * (n / 2 ^ 24) + n / 2 ^ 16 mod 256) as E1.
  { replace (n / 2 ^ 24) with (n / 2 ^ 16 / 256) by (rewrite Z.div_div by lia; f_equal).
    apply Z.div_mod. lia. }
  assert (n / 2 ^ 8 = 256 * (n / 2 ^ 16) + n / 2 ^ 8 mod 256) as E2.
  { replace (n / 2 ^ 16) with (n / 2 ^ 8 / 256) by (rewrite Z.div_div by lia; f_equal).
    apply Z.div_mod. lia. }
  assert (n = 256 * (n / 2 ^ 8) + n mod 256) as E3 by (apply Z.div_mod; lia).
  lia.
Qed.

(** ** transact *)
Record Kernel := MakeKernel {
  socket_descriptor : Z;
  socket_error : string;
  connect_result : Z;
  connect_error : string;
  sends : list SendResult;
  receives : list ReceiveResult }.

Definition sun_path_size : nat := 108.

Section Transact.
Context `{Protobuf}.
Local Open Scope outcome_scope.

(** the reply half of [transact]: from the first [recv] on *)
Definition receive_response (script : list ReceiveResult) : Outcome Envelope :=
  let! (header, r1) := receive_all script 4 in
  let response_size := ntohl_bytes header in
  if (response_size =? 0) || (kMaxFrameSize <? response_size) then
    Throws "invalid policy response frame size"
  else
    let! (response_payload, _) := receive_all r1 (Z.to_nat response_size) in
    match parse response_payload with
    | None => Throws "failed to parse policy response"
    | Some response =>
        if negb (str_eqb (protocol_version response) kProtocolVersion) then
          Throws "policy protocol version mismatch"
        else match payload response with
             | ErrorResponsePayload code message => Throws (code ++ ": " ++ message)
             | _ => Returns response
             end
    end.

(** the bytes written to the socket, and the outcome *)
Definition transact (socket_path : string) (k : Kernel) (request : Envelope)
  : list Z * Outcome Envelope :=
  if (sun_path_size <=? String.length socket_path)%nat then
    ([], Throws "policy socket path is too long")
  else if socket_descriptor k <? 0 then
    ([], Throws ("socket creation failed: " ++ socket_error k))
  else if negb (connect_result k =? 0) then
    ([], Throws ("policy runtime connection failed: " ++ connect_error k))
  else match serialize request with
  | None => ([], Throws "failed to serialize policy request")
  | Some payload =>
      let size := Z.of_nat (List.length payload) in
      if (size =? 0) || (kMaxFrameSize <? size) then
        ([], Throws "failed to serialize policy request")
      else
        let '(o1, w1) := send_all (sends k) (htonl_bytes (wrap32 size)) in
        match o1 with
        | Throws e => (w1, Throws e)
        | Returns s1 =>
            let '(o2, w2) := send_all s1 payload in
            match o2 with
            | Throws e => (w1 ++ w2, Throws e)
            | Returns _ => (w1 ++ w2, receive_response (receives k))
            end
        end
  end.
End Transact.

(** ** UnixSocketPolicyTransport *)
Module UnixSocket.
Record UnixSocketPolicyTransport := MakeUnix {
  socket_path_ : string;
  timeout_ : Z;                           (* milliseconds *)
  ready_ : bool;
  provider_id_ : string;
  model_id_ : string;
  action_schema_ : string;
  status_message_ : string }.
#[export] Instance eta_unix : Eta UnixSocketPolicyTransport := fun t =>
  MakeUnix (socket_path_ t) (timeout_ t) (ready_ t) (provider_id_ t) (model_id_ t) (action_schema_ t)
    (status_message_ t).

Section Unix.
Context `{Protobuf}.
Local Open Scope outcome_scope.

(** index loop over the shortest of the three state vectors *)
Fixpoint state_values (keys : list string) (values : list float32) (valid : list bool)
  : list StateValue :=
  match keys, values, valid with
  | k :: kr, v :: vr, b :: br => MakeState k v b :: state_values kr vr br
  | _, _, _ => []
  end.

Definition populate_observation (o : PolicyObservationInput) : PredictRequest :=
  MakePredict (observation_id o) (schema_version o) (task o) (generated_at_ns o)
    (valid_until_ns o) (images o) (state_values (state_keys o) (state o) (state_valid o)).

Definition health_request : Envelope :=
  MakeEnvelope kProtocolVersion "health" HealthRequestPayload.

Definition refresh_unix (k : Kernel) (t : UnixSocketPolicyTransport)
  : UnixSocketPolicyTransport :=
  let outcome :=
    let! response := snd (transact (socket_path_ t) k health_request) in
    match payload response with
    | HealthResponsePayload h => Returns h
    | _ => Throws "missing health response"
    end in
  match outcome with
  | Returns h =>
      t <| ready_ := h_ready h |> <| provider_id_ := h_provider_id h |>
        <| model_id_ := h_model_id h |> <| action_schema_ := h_action_schema h |>
        <| status_message_ := h_message h |>
  | Throws error => t <| ready_ := false |> <| status_message_ := error |>
  end.

(** the constructor: initial members, then [refresh] *)
Definition connect (socket_path : string) (timeout : Z) (k : Kernel)
  : UnixSocketPolicyTransport :=
  refresh_unix k (MakeUnix socket_path timeout false "unix_socket" "" "vehicle.twist_chunk.v1"
    "Policy runtime not checked").

(** the checks and conversions of a predict response *)
Definition prediction_of (observation : PolicyObservationInput) (source : PredictResponse)
  : Outcome PolicyPrediction :=
  if negb (str_eqb (r_observation_id source) (observation_id observation)) then
    Throws "policy response observation ID mismatch"
  else
    let vectors := (fun v => to_float <$> v) <$> r_action_vectors source in
    let derive := (List.length vectors =? 0)%nat && negb (List.length (r_actions source) =? 0)%nat in
    let vectors' :=
      if derive then
        (fun a => [to_float (Vector3.x (Twist.linear a)); to_float (Vector3.z (Twist.angular a))])
          <$> r_actions source
      else vectors in
    let prediction := MakePrediction (r_request_id source) (r_observation_id source)
      (r_model_id source) (r_action_schema source) (r_action_schema_hash source)
      (if derive then ["linear_x"; "angular_z"]%string else r_action_features source)
      (if derive then ["m/s"; "rad/s"]%string else r_action_units source)
      (Z.quot (r_control_period_ns source) 1000000) vectors' (r_actions source) in
    if (List.length (p_action_vectors prediction) =? 0)%nat ||
       (p_control_period prediction <=? 0) then
      Throws "policy response contains no executable actions"
    else Returns prediction.

Definition predict_unix (k : Kernel) (observation : PolicyObservationInput)
    (t : UnixSocketPolicyTransport) : UnixSocketPolicyTransport * Outcome PolicyPrediction :=
  let request := MakeEnvelope kProtocolVersion (observation_id observation)
    (PredictRequestPayload (populate_observation observation)) in
  let outcome :=
    let! response := snd (transact (socket_path_ t) k request) in
    match payload response with
    | PredictResponsePayload source => prediction_of observation source
    | _ => Throws "missing predict response"
    end in
  match outcome with
  | Returns _ => (t, outcome)
  | Throws error => (t <| ready_ := false |> <| status_message_ := error |>, outcome)
  end.

Definition debug_unix (k : Kernel) (observation : PolicyObservationInput)
    (run_id stage : string) (t : UnixSocketPolicyTransport)
  : UnixSocketPolicyTransport * Outcome PolicyDebugResult :=
  let request := MakeEnvelope kProtocolVersion run_id
    (DebugRequestPayload run_id stage (populate_observation observation)) in
  let outcome :=
    let! response := snd (transact (socket_path_ t) k request) in
    match payload response with
    | DebugResponsePayload g =>
        if negb (str_eqb (g_debug_run_id g) run_id) then
          Throws "policy debug response run ID mismatch"
        else Returns (MakeDebugResult (g_debug_run_id g) (g_provider_id g) (g_model_id g)
          (g_schema_version g) (g_result_json g) (g_processed_image_jpeg g))
    | _ => Throws "missing debug response"
    end in
  match outcome with
  | Returns _ => (t, outcome)
  | Throws error => (t <| status_message_ := error |>, outcome)
  end.

#[export] Instance unix_transport : PolicyTransport UnixSocketPolicyTransport Kernel := {|
  refresh := refresh_unix;
  ready := ready_;
  provider_id := provider_id_;
  model_id := model_id_;
  action_schema := action_schema_;
  status_message := status_message_;
  predict := predict_unix;
  debug := debug_unix
|}.

Lemma prediction_of_spec o source p :
  prediction_of o source = Returns p ->
  p_observation_id p = observation_id o /\ p_action_vectors p <> [] /\ 0 < p_control_period p.
Proof.
  unfold prediction_of. destruct (str_eqb _ _) eqn:Ho; [simpl|done].
  match goal with |- context [if ?b then Throws _ else Returns ?q] => destruct b eqn:Hb; [done|] end.
  intros [= <-]. simpl in *. apply str_eqb_spec in Ho.
  apply orb_false_iff in Hb as [Hl Hp]. split; [done|]. split; [|by apply Z.leb_gt].
  intros E. by rewrite E in Hl.
Qed.

Lemma predict_unix_spec k o t p :
  snd (predict_unix k o t) = Returns p ->
  p_observation_id p = observation_id o /\ p_action_vectors p <> [] /\ 0 < p_control_period p.
Proof.
  unfold predict_unix. set (out := obind _ _). destruct out as [q|e] eqn:E; [|done].
  intros [= <-]. apply obind_returns in E as (r & _ & E).
  destruct (payload r); try done. by eapply prediction_of_spec.
Qed.

#[export] Instance unix_laws : TransportLaws UnixSocketPolicyTransport Kernel.
Proof.
  refine {| well_formed := fun _ => True |}; try done.
  - intros w o t p Hp. by apply predict_unix_spec in Hp as (? & _).
  - intros w o t p _ Hp. by apply predict_unix_spec in Hp as (_ & ? & ?).
Defined.
End Unix.
End UnixSocket.

Import Mock UnixSocket.

(** ** The object behind [std::unique_ptr<PolicyTransport>] *)
Inductive AnyTransport :=
| InMock (t : Mock.MockPolicyTransport)
| InUnix (t : UnixSocket.UnixSocketPolicyTransport).

Section Dispatch.
Context `{Protobuf}.

(** virtual calls *)
#[export] Instance any_transport : PolicyTransport AnyTransport Kernel := {|
  refresh k t := match t with
    | InMock m => InMock (refresh tt m) | InUnix u => InUnix (refresh k u) end;
  ready t := match t with InMock m => ready (W:=unit) m | InUnix u => ready (W:=Kernel) u end;
  provider_id t := match t with
    | InMock m => provider_id (W:=unit) m | InUnix u => provider_id (W:=Kernel) u end;
  model_id t := match t with
    | InMock m => model_id (W:=unit) m | InUnix u => model_id (W:=Kernel) u end;
  action_schema t := match t with
    | InMock m => action_schema (W:=unit) m | InUnix u => action_schema (W:=Kernel) u end;
  status_message t := match t with
    | InMock m => status_message (W:=unit) m | InUnix u => status_message (W:=Kernel) u end;
  predict k o t := match t with
    | InMock m => let '(m', r) := predict tt o m in (InMock m', r)
    | InUnix u => let '(u', r) := predict k o u in (InUnix u', r) end;
  debug k o run stage t := match t with
    | InMock m => let '(m', r) := debug tt o run stage m in (InMock m', r)
    | InUnix u => let '(u', r) := debug k o run stage u in (InUnix u', r) end
|}.

#[export] Instance any_laws : TransportLaws AnyTransport Kernel.
Proof.
  refine {| well_formed t := match t with
    | InMock m => well_formed (W:=unit) m
    | InUnix u => well_formed (W:=Kernel) u end |}.
  - intros w [m|u]; apply refresh_well_formed.
  - intros w o [m|u] Ht; simpl.
    + pose proof (predict_well_formed tt o m Ht) as Hp. simpl in Hp.
      by destruct (mock_predict o m).
    + pose proof (predict_well_formed w o u Ht) as Hp. simpl in Hp.
      by destruct (predict_unix w o u).
  - intros w o [m|u] p Hp; simpl in Hp.
    + apply (predict_answers tt o m). simpl. by destruct (mock_predict o m).
    + apply (predict_answers w o u). simpl. by destruct (predict_unix w o u).
  - intros w o [m|u] p Ht Hp; simpl in Hp.
    + apply (predict_executable tt o m p Ht). simpl. by destruct (mock_predict o m).
    + apply (predict_executable w o u p Ht). simpl. by destruct (predict_unix w o u).
Defined.
End Dispatch.

(** ** The framing is reliable on a byte stream *)
Section Framing.
Context `{Protobuf}.

Lemma send_all_wire script buffer :
  let '(o, wire) := send_all script buffer in
  wire `prefix_of` buffer /\ (returns o = true <-> wire = buffer).
Proof.
  revert buffer; induction script as [|r rest IH]; intros [|b bs].
  - simpl. split; done.
  - simpl. split; [apply prefix_nil|done].
  - simpl. split; done.
  - cbn [send_all]. destruct (Z.leb_spec (count r) 0); [split; [apply prefix_nil|done]|].
    set (n := Z.to_nat (count r)). specialize (IH (drop n (b :: bs))).
    destruct (send_all rest (drop n (b :: bs))) as [o wire]. destruct IH as [Hp Hr].
    rewrite <- (take_drop n (b :: bs)) at 2 4. split; [by apply prefix_app|].
    rewrite Hr. split; [by intros ->|]. intros E. by apply app_inv_head in E.
Qed.

(** enough successful calls send the buffer and leave the rest of the script *)
Lemma send_all_succeeds s b :
  Forall (fun x => 0 < count x) s -> (List.length b <= List.length s)%nat ->
  exists s', send_all s b = (Returns s', b) /\ Forall (fun x => 0 < count x) s' /\
    (List.length s - List.length b <= List.length s')%nat.
Proof.
  intros Hs. revert b. induction Hs as [|x s Hx Hs IH]; intros [|c cs] Hl; simpl in *.
  - by eexists.
  - lia.
  - eexists; split_and!; [done|by constructor|simpl; lia].
  - destruct (Z.leb_spec (count x) 0); [lia|].
    destruct (IH (drop (Z.to_nat (count x)) (c :: cs))) as (s' & E & Hf & Hl').
    { rewrite length_drop. simpl. lia. }
    rewrite E. exists s'. split_and!; [by rewrite take_drop|done|].
    rewrite length_drop in Hl'. simpl in Hl'. lia.
Qed.

(** [send_all] always returns; what it hands to the kernel is a prefix of
    the buffer, and it returns normally exactly when the whole buffer was
    handed over, however the kernel splits the calls.  If no call fails,
    as many calls as there are bytes are enough. *)
Theorem send_all_transmits_buffer script buffer :
  (snd (send_all script buffer) `prefix_of` buffer) /\
  (returns (fst (send_all script buffer)) = true <-> snd (send_all script buffer) = buffer) /\
  (Forall (fun r => 0 < count r) script -> (List.length buffer <= List.length script)%nat ->
   returns (fst (send_all script buffer)) = true).
Proof.
  pose proof (send_all_wire script buffer) as Hw.
  destruct (send_all script buffer) as [o wire] eqn:E. destruct Hw as [Hp Hr]. simpl.
  split; [done|]. split; [done|]. intros Hs Hl.
  destruct (send_all_succeeds script buffer Hs Hl) as (s' & E' & _). rewrite E in E'. by injection E' as -> _.
Qed.

Lemma receive_all_exact s1 s2 :
  Forall (fun r => bytes r <> []) s1 ->
  receive_all (s1 ++ s2) (List.length (List.concat (bytes <$> s1))) =
    Returns (List.concat (bytes <$> s1), s2).
Proof.
  induction 1 as [|r rest Hr _ IH]; [by destruct s2|].
  rewrite fmap_cons. cbn [List.concat app]. rewrite length_app.
  cbn [receive_all]. destruct (bytes r) as [|b bs] eqn:E; [by destruct Hr|].
  cbn [List.length Nat.add]. cbn [Nat.sub].
  replace (_ + _ - _)%nat with (List.length (List.concat (bytes <$> rest))) by lia.
  by rewrite IH.
Qed.

(** C38: One exchange over the socket is a faithful remote call: when the peer
    answers with the frame of an envelope [e] of the right protocol version
    that is not an error, then, however the kernel cuts the stream into
    [recv] results, [transact] returns [e], and what went out is the frame of
    the request, its length in four big-endian bytes and its serialisation. *)
Theorem transact_is_a_remote_call path k request q e r h1 p1 rest :
  (String.length path < sun_path_size)%nat ->
  0 <= socket_descriptor k -> connect_result k = 0 ->
  serialize request = Some q -> 0 < Z.of_nat (List.length q) <= kMaxFrameSize ->
  Forall (fun s => 0 < count s) (sends k) ->
  (4 + List.length q <= List.length (sends k))%nat ->
  (forall p, serialize e = Some p -> parse p = Some e) ->
  serialize e = Some r -> 0 < Z.of_nat (List.length r) <= kMaxFrameSize ->
  protocol_version e = kProtocolVersion ->
  (forall c m, payload e <> ErrorResponsePayload c m) ->
  receives k = h1 ++ p1 ++ rest ->
  Forall (fun x => bytes x <> []) (h1 ++ p1) ->
  List.concat (bytes <$> h1) = htonl_bytes (Z.of_nat (List.length r)) ->
  List.concat (bytes <$> p1) = r ->
  transact path k request =
    (htonl_bytes (Z.of_nat (List.length q)) ++ q, Returns e).
Proof.
  intros Hpath Hd Hc Hq Hql Hs Hsl Hlaw Hr Hrl Hv He Hrec Hne Hh Hp.
  assert (kMaxFrameSize < 2 ^ 32) as Hk by (vm_compute; done).
  unfold transact. rewrite (proj2 (Nat.leb_gt _ _) Hpath), (proj2 (Z.ltb_ge _ _) Hd), Hc, Hq.
  cbn [negb Z.eqb]. rewrite (proj2 (Z.eqb_neq _ _)), (proj2 (Z.ltb_ge _ _)) by lia.
  cbn [orb]. unfold wrap32. rewrite wrap_small by lia.
  destruct (send_all_succeeds (sends k) (htonl_bytes (Z.of_nat (List.length q)))) as (s1 & -> & Hs1 & Hl1);
    [done|simpl; lia|].
  destruct (send_all_succeeds s1 q) as (s2 & -> & _ & _); [done|simpl in Hl1; lia|].
  f_equal. unfold receive_response. rewrite Hrec. apply Forall_app in Hne as [Hne1 Hne2].
  pose proof (receive_all_exact h1 (p1 ++ rest) Hne1) as E1. rewrite Hh in E1.
  change (List.length (htonl_bytes _)) with 4%nat in E1. rewrite E1. cbn [obind].
  rewrite ntohl_htonl by lia.
  rewrite (proj2 (Z.eqb_neq _ _)), (proj2 (Z.ltb_ge _ _)) by lia. cbn [orb].
  pose proof (receive_all_exact p1 rest Hne2) as E2. rewrite Hp in E2.
  rewrite Nat2Z.id, E2. cbn [obind]. rewrite (Hlaw _ Hr), Hv. cbn.
  destruct (payload e); try done. by destruct (He code message).
Qed.
End Framing.

(** ** What a failed call leaves behind *)
Section Failures.
Context `{Protobuf}.

(** A prediction either succeeds without touching the transport, answers the
    requested observation and contains at least one action with a positive
    period, or it fails and takes the transport out of service with the error
    as its status; a failed debug run only records its error. *)
Theorem failed_prediction_takes_transport_down k o run stage t :
  match predict_unix k o t with
  | (t', Returns p) =>
      t' = t /\ p_observation_id p = observation_id o /\ p_action_vectors p <> [] /\
      0 < p_control_period p
  | (t', Throws error) => t' = t <| ready_ := false |> <| status_message_ := error |>
  end /\
  match debug_unix k o run stage t with
  | (t', Returns d) => t' = t /\ d_run_id d = run
  | (t', Throws error) => t' = t <| status_message_ := error |>
  end.
Proof.
  split.
  - pose proof (predict_unix_spec k o t) as Hp. destruct (predict_unix k o t) as [t' [p|e]] eqn:E.
    + destruct (Hp p eq_refl) as (? & ? & ?). split; [|done].
      unfold predict_unix in E. set (out := obind _ _) in E. destruct out; by simplify_eq.
    + unfold predict_unix in E. set (out := obind _ _) in E. destruct out; by simplify_eq.
  - unfold debug_unix. set (out := obind _ _). destruct out as [d|e] eqn:E; [|done].
    split; [done|]. apply obind_returns in E as (r & _ & E). destruct (payload r); try done.
    destruct (str_eqb (g_debug_run_id g) run) eqn:Hr; [|done]. injection E as <-.
    by apply str_eqb_spec.
Qed.

(** After [refresh] the transport is ready exactly when the runtime answered
    the health request and reported itself ready; every failure of the
    exchange makes it not ready. *)
Theorem ready_only_after_health_response k t :
  ready_ (refresh_unix k t) = true <->
  exists response h,
    snd (transact (socket_path_ t) k health_request) = Returns response /\
    payload response = HealthResponsePayload h /\ h_ready h = true.
Proof.
  unfold refresh_unix. set (out := obind _ _). destruct out as [h|e] eqn:E; simpl.
  - apply obind_returns in E as (r & Hr & E). split.
    + intros Hh. exists r, h. split; [done|]. destruct (payload r); by simplify_eq.
    + intros (r' & h' & Hr' & Hp & Hh). rewrite Hr' in Hr. injection Hr as <-.
      rewrite Hp in E. by simplify_eq.
  - split; [done|]. intros (r & h & Hr & Hp & _). unfold out in E. by rewrite Hr in E; simpl in E; rewrite Hp in E.
Qed.
End Failures.

(** ** Witnesses *)
Section Witnesses.
Definition demo_health : Envelope :=
  MakeEnvelope "1" "health"
    (HealthResponsePayload (MakeHealth true "p" "m" "o" "vehicle.twist_chunk.v1" "ready")).

(** a serializer for two envelopes *)
#[local] Instance demo_protobuf : Protobuf := {|
  serialize e := match payload e with HealthRequestPayload => Some [90; 0] | _ => Some [91; 1; 2] end;
  parse b := match b with [91; 1; 2] => Some demo_health | _ => None end
|}.

(** the reply arrives in three pieces *)
Definition demo_kernel : Kernel :=
  MakeKernel 3 "" 0 "" (replicate 6 (MakeSent 1 ""))
    [MakeReceived [0; 0; 0] ""; MakeReceived [3] ""; MakeReceived [91] "";
     MakeReceived [1; 2] ""].

Lemma transact_is_a_remote_call_witness :
  transact "/run/vla-policy/policy.sock" demo_kernel UnixSocket.health_request =
    ([0; 0; 0; 2; 90; 0], Returns demo_health).
Proof.
  refine (transact_is_a_remote_call "/run/vla-policy/policy.sock" demo_kernel
    UnixSocket.health_request [90; 0] demo_health [91; 1; 2]
    [MakeReceived [0; 0; 0] ""; MakeReceived [3] ""]
    [MakeReceived [91] ""; MakeReceived [1; 2] ""] [] _ _ _ _ _ _ _ _ _ _ _ _ _ _ _ _).
  - vm_compute; lia.
  - vm_compute; discriminate.
  - reflexivity.
  - reflexivity.
  - vm_compute; split; [reflexivity|discriminate].
  - repeat constructor.
  - vm_compute; lia.
  - intros p Hp. vm_compute in Hp. injection Hp as <-. reflexivity.
  - reflexivity.
  - vm_compute; split; [reflexivity|discriminate].
  - reflexivity.
  - intros c m. discriminate.
  - reflexivity.
  - repeat constructor; discriminate.
  - reflexivity.
  - reflexivity.
Defined.
End Witnesses.
