(* ===== verification/PolicyGateway.v ===== *)
(** * The policy gateway

    Models [vehicle_runtime/src/vla_policy_gateway_node.cpp], generically in the
    transport: the client of the [PolicyTransport] interface.  The node runs on
    a multi-threaded executor with three callback groups, so a prediction is
    two steps, [predict_begin] up to the call of [transport_->predict] and
    [predict_finish] after it, between which observations may arrive and the
    status may be published.  (The reads of [ready()] and of the observation at
    the start of [predict] commute with the other callbacks' writes, and are
    one step.) *)
From S2P Require Import Prelude Floats Messages PolicyTransport.
Import Mock UnixSocket.
Local Open Scope Z_scope.

Record VlaPolicyGateway (T : Type) := MakeGateway {
  observation_timeout_ : double;
  last_latency_ms_ : float32;
  prediction_in_progress_ : bool;
  last_observation_id_ : string;
  transport_ : T;
  observation_ : option PolicyObservation.PolicyObservationMsg;
  observation_received_at_ : Z;
  (** the local variable [observation] of the prediction that is running *)
  in_flight : option PolicyObservation.PolicyObservationMsg }.
Arguments MakeGateway {T}.
Arguments observation_timeout_ {T}.
Arguments last_latency_ms_ {T}.
Arguments prediction_in_progress_ {T}.
Arguments last_observation_id_ {T}.
Arguments transport_ {T}.
Arguments observation_ {T}.
Arguments observation_received_at_ {T}.
Arguments in_flight {T}.
#[export] Instance eta_gateway {T} : Eta (VlaPolicyGateway T) := fun s =>
  MakeGateway (observation_timeout_ s) (last_latency_ms_ s) (prediction_in_progress_ s)
    (last_observation_id_ s) (transport_ s) (observation_ s) (observation_received_at_ s)
    (in_flight s).

(** ** The constructor's choice of transport *)
Definition create_transport `{Protobuf} (transport socket_path : string)
    (transport_timeout : double) (horizon control_period_ms : Z)
    (linear_velocity angular_velocity : double) (k : Kernel) : Outcome AnyTransport :=
  if str_eqb transport "mock" then
    Returns (InMock (MakeMock (Z.to_nat (Z.max horizon 1)) (Z.max control_period_ms 1)
      linear_velocity angular_velocity 0))
  else if str_eqb transport "unix_socket" then
    Returns (InUnix (connect socket_path
      (trunc_int (dmul (dmax transport_timeout (lit 1 2)) (of_int 1000))) k))
  else Throws ("Unknown policy transport: " ++ transport).

Inductive Output :=
| StatusPublished (m : PolicyStatus.PolicyStatusMsg)
| ActionPublished (m : PolicyAction.PolicyActionMsg).

Section Gateway.
Context `{Rclcpp} {T W : Type} `{PolicyTransport T W}.

Definition initial (observation_timeout : double) (transport : T) : VlaPolicyGateway T :=
  MakeGateway observation_timeout fzero false "" transport None 0 None.

Definition on_observation (now : Z) (m : PolicyObservation.PolicyObservationMsg)
    (s : VlaPolicyGateway T) :=
  s <| observation_ := Some m |> <| observation_received_at_ := now |>.

Definition publish_status (w : W) (now : Z) (s : VlaPolicyGateway T)
  : VlaPolicyGateway T * PolicyStatus.PolicyStatusMsg :=
  let t := refresh w (transport_ s) in
  (s <| transport_ := t |>,
   PolicyStatus.Make (Header.Make (to_msg now) "")
     (if ready t then PolicyStatus.STATE_READY else PolicyStatus.STATE_ERROR)
     (provider_id t) (model_id t) "1" "vehicle.observation.v1" (action_schema t)
     (last_latency_ms_ s) (status_message t)).

(** the image loop: a missing key becomes "observation.images.unknown" *)
Fixpoint input_images (keys : list string) (images : list CompressedImage.CompressedImageMsg)
  : list PolicyImage :=
  match images with
  | [] => []
  | image :: r =>
      MakeImage (match keys with k :: _ => k | [] => "observation.images.unknown" end)
        (CompressedImage.format image) (CompressedImage.data image) ::
      input_images (tail keys) r
  end.

Definition input_of (o : PolicyObservation.PolicyObservationMsg) : PolicyObservationInput :=
  MakeInput (PolicyObservation.observation_id o) (PolicyObservation.schema_version o)
    (PolicyObservation.task o) (time_ns (PolicyObservation.generated_at o))
    (time_ns (PolicyObservation.valid_until o))
    (input_images (PolicyObservation.image_keys o) (PolicyObservation.images o))
    (PolicyObservation.state_keys o) (PolicyObservation.state o)
    (PolicyObservation.state_valid o).

(** the guards on the observation *)
Definition usable (now : Z) (o : PolicyObservation.PolicyObservationMsg)
    (s : VlaPolicyGateway T) : bool :=
  negb (dlt (observation_timeout_ s) (seconds (now - observation_received_at_ s)) ||
        (time_ns (PolicyObservation.valid_until o) <? now) ||
        str_eqb (PolicyObservation.observation_id o) (last_observation_id_ s)).

Definition predict_begin (now : Z) (s : VlaPolicyGateway T) : VlaPolicyGateway T :=
  if prediction_in_progress_ s then s
  else if negb (ready (transport_ s)) then s
  else match observation_ s with
       | None => s
       | Some o =>
           if usable now o s then
             s <| prediction_in_progress_ := true |> <| in_flight := Some o |>
           else s
       end.

(** [prediction.control_period * n] in [int64_t] milliseconds, plus 500 ms,
    converted to nanoseconds *)
Definition validity_ns (p : PolicyPrediction) : Z :=
  let n := Z.max (Z.of_nat (List.length (p_action_vectors p))) 1 in
  swrap64 ((swrap64 (p_control_period p * n) + 500) * 1000000).

Definition action_of (stamp : Z) (p : PolicyPrediction) : PolicyAction.PolicyActionMsg :=
  PolicyAction.Make (Header.Make (to_msg stamp) "base_link") (p_request_id p)
    (p_observation_id p) (p_model_id p) (p_action_schema p) (p_action_schema_hash p)
    (p_action_features p) (p_action_units p) (to_msg stamp)
    (to_msg (stamp + validity_ns p))
    (to_msg (swrap64 (p_control_period p * 1000000)))
    (p_action_vectors p) (p_actions p).

Definition predict_finish (w : W) (stamp elapsed : Z) (s : VlaPolicyGateway T)
  : VlaPolicyGateway T * list Output :=
  match in_flight s with
  | None => (s, [])
  | Some o =>
      let '(t, outcome) := predict w (input_of o) (transport_ s) in
      let s1 := s <| transport_ := t |> <| in_flight := None |>
                  <| prediction_in_progress_ := false |> in
      match outcome with
      | Throws _ => (s1, [])
      | Returns p =>
          (s1 <| last_observation_id_ := PolicyObservation.observation_id o |>
              <| last_latency_ms_ := chrono_millis_float elapsed |>,
           [ActionPublished (action_of stamp p)])
      end
  end.

Inductive Event :=
| ObservationReceived (now : Z) (m : PolicyObservation.PolicyObservationMsg)
| StatusTimer (w : W) (now : Z)
| PredictionTimer (now : Z)
| PredictionReturned (w : W) (stamp elapsed : Z).

Definition next (s : VlaPolicyGateway T) (e : Event) : VlaPolicyGateway T * list Output :=
  match e with
  | ObservationReceived now m => (on_observation now m s, [])
  | StatusTimer w now => let '(s', m) := publish_status w now s in (s', [StatusPublished m])
  | PredictionTimer now => (predict_begin now s, [])
  | PredictionReturned w stamp elapsed => predict_finish w stamp elapsed s
  end.

Definition actions (out : list Output) : list PolicyAction.PolicyActionMsg :=
  omap (fun o => match o with ActionPublished m => Some m | _ => None end) out.

(** ** Theorems, from the laws of the interface alone *)
Context `{!TransportLaws T W}.

(** a prediction runs exactly while the flag is set, and never for the
    observation that was answered last *)
Record ok (s : VlaPolicyGateway T) : Prop := {
  ok_transport : well_formed (transport_ s);
  ok_flag : prediction_in_progress_ s = true <-> in_flight s <> None;
  ok_new : forall o, in_flight s = Some o ->
    PolicyObservation.observation_id o <> last_observation_id_ s }.

Lemma gateway_initial_ok timeout t : well_formed t -> ok (initial timeout t).
Proof. split; simpl; done. Qed.

Lemma gateway_next_ok s e : ok s -> ok (fst (next s e)).
Proof.
  intros Hok. pose proof Hok as [Ht Hf Hn].
  destruct e as [now m|w now|now|w stamp elapsed]; simpl.
  - by split.
  - split; simpl; [by apply refresh_well_formed|done|done].
  - unfold predict_begin. destruct (prediction_in_progress_ s); [exact Hok|].
    destruct (negb _); [exact Hok|].
    destruct (observation_ s) as [o|]; [|exact Hok].
    destruct (usable now o s) eqn:Hu; [|exact Hok]. split; simpl; [done|done|].
    intros o' [= <-]. unfold usable in Hu. apply negb_true_iff, orb_false_iff in Hu as [_ Hu].
    by apply str_eqb_neq.
  - unfold predict_finish. destruct (in_flight s) as [o|] eqn:Hi; [|exact Hok].
    pose proof (predict_well_formed w (input_of o) (transport_ s) Ht) as Hw.
    destruct (predict w (input_of o) (transport_ s)) as [t [p|e]]; simpl in *; by split.
Qed.

Definition action_ids (out : list Output) : list string :=
  PolicyAction.observation_id <$> actions out.

(** the ids published so far, given the last one *)
Fixpoint alternating (last : string) (ids : list string) : Prop :=
  match ids with
  | [] => True
  | i :: r => i <> last /\ alternating i r
  end.

Lemma next_ids s e :
  ok s ->
  alternating (last_observation_id_ s) (action_ids (snd (next s e))) /\
  last_observation_id_ (fst (next s e)) =
    List.last (action_ids (snd (next s e))) (last_observation_id_ s).
Proof.
  intros Hs. destruct e as [now m|w now|now|w stamp elapsed]; simpl; try done.
  - unfold predict_begin. repeat case_match; done.
  - unfold predict_finish. destruct (in_flight s) as [o|] eqn:Hi; [|done].
    pose proof (ok_new _ Hs o Hi) as Hn.
    pose proof (predict_answers w (input_of o) (transport_ s)) as Ha.
    destruct (predict w (input_of o) (transport_ s)) as [t [p|e]]; simpl in *; [|done].
    rewrite (Ha p eq_refl). done.
Qed.

Lemma alternating_app last xs ys :
  alternating last xs -> alternating (List.last xs last) ys -> alternating last (xs ++ ys).
Proof.
  revert last; induction xs as [|x r IH]; intros last; simpl; [done|].
  intros [Hx Hr] Hy. split; [done|]. apply IH; [done|]. destruct r as [|z r]; [done|].
  revert Hy. clear. change (List.last (z :: r) last) with (List.last (z :: r) last).
  enough (forall d, List.last (z :: r) d = List.last (z :: r) x) as ->; [done|].
  intros d. revert z. induction r as [|u r IH]; intros z; [done|]. apply (IH u).
Qed.

(** Whatever arrives and however status updates and observations interleave
    with running predictions, two actions published one after the other never
    answer the same observation: an observation leads to at most one action
    until another one has been answered. *)
Theorem consecutive_actions_answer_new_observations timeout t es :
  well_formed t ->
  alternating "" (action_ids (snd (run next (initial timeout t) es))).
Proof.
  intros Ht. set (s := initial timeout t).
  assert (ok s) as Hs by (by apply gateway_initial_ok).
  change ""%string with (last_observation_id_ s). revert Hs. generalize s. clear.
  induction es as [|e r IH]; intros s Hs; simpl; [done|].
  pose proof (next_ids s e Hs) as [Ha Hl]. pose proof (gateway_next_ok s e Hs) as Hs1.
  destruct (next s e) as [s1 o1]; simpl in *. specialize (IH s1 Hs1).
  destruct (run next s1 r) as [s2 o2]; simpl in *.
  unfold action_ids, actions in *. rewrite omap_app, fmap_app.
  apply alternating_app; [done|]. by rewrite <- Hl.
Qed.

Lemma validity_exact p :
  0 < p_control_period p -> p_action_vectors p <> [] ->
  p_control_period p * Z.of_nat (List.length (p_action_vectors p)) <= 2 ^ 63 / 1000000 - 501 ->
  validity_ns p =
    (p_control_period p * Z.of_nat (List.length (p_action_vectors p)) + 500) * 1000000.
Proof.
  intros Hp Hv Hb. unfold validity_ns.
  assert (1 <= Z.of_nat (List.length (p_action_vectors p))) as Hl
    by (destruct (p_action_vectors p); [done|simpl; lia]).
  rewrite Z.max_l by lia. unfold swrap64.
  assert (0 < p_control_period p * Z.of_nat (List.length (p_action_vectors p))) by nia.
  assert (2 ^ 63 / 1000000 = 9223372036854) as E63 by (vm_compute; done).
  rewrite E63 in Hb.
  assert (forall z, -9223372036854775808 <= z < 9223372036854775808 -> swrap 64 z = z) as Hw
    by (intros z Hz; apply swrap_small; [lia|exact Hz]).
  rewrite (Hw (p_control_period p * _)) by lia. apply Hw. lia.
Qed.

(** An action is published only for an observation that was fresh, unexpired
    and new when its prediction started and while the transport was ready; it
    names that observation, carries at least one action vector, and is valid
    for exactly one control period per vector plus 500 ms after its own
    stamp (while these 64-bit durations do not overflow). *)
Theorem published_action_matches_observation s now es w stamp elapsed m :
  ok s -> prediction_in_progress_ s = false ->
  Forall (fun e => match e with ObservationReceived _ _ | StatusTimer _ _ => True | _ => False end) es ->
  let s1 := fst (run next (predict_begin now s) es) in
  let s2 := fst (predict_finish w stamp elapsed s1) in
  ActionPublished m ∈ snd (predict_finish w stamp elapsed s1) ->
  exists o p,
    observation_ s = Some o /\ usable now o s = true /\ ready (transport_ s) = true /\
    PolicyAction.observation_id m = PolicyObservation.observation_id o /\
    last_observation_id_ s2 = PolicyObservation.observation_id o /\
    prediction_in_progress_ s2 = false /\
    PolicyAction.action_vectors m = p_action_vectors p /\ p_action_vectors p <> [] /\
    PolicyAction.generated_at m = to_msg stamp /\
    (p_control_period p * Z.of_nat (List.length (p_action_vectors p)) <= 2 ^ 63 / 1000000 - 501 ->
     PolicyAction.valid_until m = to_msg (stamp +
       (p_control_period p * Z.of_nat (List.length (p_action_vectors p)) + 500) * 1000000)).
Proof.
  intros Hs Hf Hes s1 s2. unfold s2. clear s2.
  assert (in_flight s1 = in_flight (predict_begin now s) /\ ok s1) as [Hi Hs1].
  { unfold s1. assert (ok (predict_begin now s)) as Hb by apply (gateway_next_ok s (PredictionTimer now) Hs).
    revert Hb. generalize (predict_begin now s). clear -Hes TransportLaws0.
    induction Hes as [|e r He _ IH]; intros s Hb; simpl; [done|].
    pose proof (gateway_next_ok s e Hb) as Hn.
    assert (in_flight (fst (next s e)) = in_flight s) as Hi by (by destruct e).
    destruct (next s e) as [s1 o1]; simpl in *. destruct (IH s1 Hn) as [H1 H2].
    destruct (run next s1 r) as [s2 o2]; simpl in *. split; [congruence|done]. }
  unfold predict_finish. destruct (in_flight s1) as [o|] eqn:Ho; [|intros Hm; by apply elem_of_nil in Hm].
  pose proof (predict_answers w (input_of o) (transport_ s1)) as Ha.
  pose proof (predict_executable w (input_of o) (transport_ s1)) as He.
  destruct (predict w (input_of o) (transport_ s1)) as [t [p|e]]; simpl;
    [|intros Hm; by apply elem_of_nil in Hm].
  intros Hm. apply list_elem_of_singleton in Hm as [= ->].
  destruct (He p (ok_transport _ Hs1) eq_refl) as [Hv Hp].
  assert (in_flight s = None) as Hnone.
  { destruct (in_flight s) eqn:E; [|done]. assert (prediction_in_progress_ s = true); [|congruence].
    apply (ok_flag _ Hs). by rewrite E. }
  unfold predict_begin in Hi. rewrite Hf in Hi.
  destruct (ready (transport_ s)) eqn:Hr; simpl in Hi; [|congruence].
  destruct (observation_ s) as [o'|] eqn:Hobs; [|congruence].
  destruct (usable now o' s) eqn:Hu; [|congruence]. simpl in Hi. injection Hi as ->.
  exists o', p. split_and!; try done; [exact (Ha p eq_refl)|].
  intros Hb. simpl. by rewrite validity_exact.
Qed.

(** The published policy status is READY or ERROR and nothing else, READY
    exactly when the refreshed transport is ready: the gateway never reports
    DISCONNECTED or LOADING. *)
Theorem status_is_ready_or_error s e m :
  StatusPublished m ∈ snd (next s e) ->
  (PolicyStatus.state m = PolicyStatus.STATE_READY /\ ready (transport_ (fst (next s e))) = true) \/
  (PolicyStatus.state m = PolicyStatus.STATE_ERROR /\ ready (transport_ (fst (next s e))) = false).
Proof.
  intros Hm. destruct e as [now o|w now|now|w stamp elapsed]; simpl in *.
  - by apply elem_of_nil in Hm.
  - apply list_elem_of_singleton in Hm as [= ->]. simpl. destruct (ready _); [by left|by right].
  - by apply elem_of_nil in Hm.
  - unfold predict_finish in Hm. repeat case_match; simpl in *;
      first [by apply elem_of_nil in Hm | by apply list_elem_of_singleton in Hm].
Qed.
End Gateway.

(** ** Witnesses *)
Section Witnesses.
#[local] Existing Instance rclcpp_doc.

Definition demo_observation : PolicyObservation.PolicyObservationMsg :=
  PolicyObservation.zero <| PolicyObservation.observation_id := "obs-1" |>
    <| PolicyObservation.images := [CompressedImage.zero] |>
    <| PolicyObservation.valid_until := MakeTime 9 0 |>.

Definition demo_mock : MockPolicyTransport := MakeMock 2 50 (lit 2 1) dzero 0.

Definition demo_state : VlaPolicyGateway MockPolicyTransport :=
  on_observation 1000000000 demo_observation (initial (lit 75 2) demo_mock).

Lemma consecutive_actions_answer_new_observations_witness :
  alternating "" (action_ids (snd (run next (initial (lit 75 2) demo_mock)
    [ObservationReceived 1000000000 demo_observation; PredictionTimer 1100000000;
     PredictionReturned tt 1200000000 5000000; PredictionTimer 1300000000;
     PredictionReturned tt 1400000000 5000000]))).
Proof.
  apply (consecutive_actions_answer_new_observations (lit 75 2) demo_mock).
  split; simpl; lia.
Defined.

Lemma demo_state_ok : ok demo_state.
Proof. apply (gateway_next_ok _ (ObservationReceived _ _)), gateway_initial_ok. split; simpl; lia. Qed.

Definition demo_prediction : PolicyPrediction :=
  MakePrediction "mock-1" "obs-1" mock_model_id mock_action_schema ""
    ["linear_x"; "angular_z"]%string ["m/s"; "rad/s"]%string 50
    (replicate 2 [fzero; fzero]) (replicate 2 Twist.zero).

Lemma published_action_matches_observation_witness :
  exists o p, observation_ demo_state = Some o /\
    p_action_vectors p = replicate 2 [fzero; fzero] /\
    usable 1100000000 o demo_state = true.
Proof.
  destruct (published_action_matches_observation demo_state 1100000000 [] tt 1200000000 5000000
    (action_of 1200000000 demo_prediction) demo_state_ok eq_refl (List.Forall_nil _))
    as (o & p & Ho & Hu & _ & _ & _ & _ & Hv & _).
  - apply list_elem_of_singleton. vm_compute. reflexivity.
  - exists o, p. split; [exact Ho|]. split; [symmetry; exact Hv|exact Hu].
Defined.

Lemma status_is_ready_or_error_witness :
  PolicyStatus.state (snd (publish_status tt 5 demo_state)) = PolicyStatus.STATE_READY.
Proof.
  destruct (status_is_ready_or_error demo_state (StatusTimer tt 5)
    (snd (publish_status tt 5 demo_state))) as [[E _]|[_ E]].
  - apply list_elem_of_singleton. reflexivity.
  - exact E.
  - discriminate.
Defined.
End Witnesses.
