(* ===== verification/Observation.v ===== *)
(** * Observation inputs: monitor and adapter

    Module [Monitor] models [vehicle_data/src/observation_monitor_node.cpp],
    which tells whether the configured inputs are fresh; module [Adapter]
    models [vehicle_adapters/src/observation_adapter_node.cpp], which packs the
    latest inputs into a policy observation.  Both run on a single-threaded
    executor: every lambda of the constructors is one atomic step.  Of the
    third-party sensor messages only the fields the code reads are modelled. *)
From S2P Require Import Prelude Floats Messages.
Local Open Scope Z_scope.

Module Monitor.
Record Parameters := MakeParameters {
  camera_timeout_ : double;
  odometry_timeout_ : double;
  imu_timeout_ : double;
  require_camera_ : bool;
  require_calibration_ : bool;
  require_odometry_ : bool;
  require_imu_ : bool }.
Definition default_parameters : Parameters :=
  MakeParameters (lit 5 1) (lit 5 1) (lit 5 1) true false false false.

Record ObservationMonitor := MakeMonitor {
  camera_calibrated_ : bool;
  image_width_ : Z;
  image_height_ : Z;
  camera_stamp_ : Z;
  odometry_stamp_ : Z;
  imu_stamp_ : Z }.
#[export] Instance eta_monitor : Eta ObservationMonitor := fun s =>
  MakeMonitor (camera_calibrated_ s) (image_width_ s) (image_height_ s) (camera_stamp_ s)
    (odometry_stamp_ s) (imu_stamp_ s).
Definition initial : ObservationMonitor := MakeMonitor false 0 0 0 0 0.

(** the clock readings of one publication *)
Record Clock := MakeClock { camera_now : Z; odometry_now : Z; imu_now : Z; stamp_now : Z }.

Section Monitor.
Context `{Rclcpp}.
Variable p : Parameters.

Definition on_image (now width height : Z) (s : ObservationMonitor) :=
  s <| camera_stamp_ := now |> <| image_width_ := width |> <| image_height_ := height |>.
(** [k] is the 3 x 3 intrinsic matrix in row-major order *)
Definition on_camera_info (k : list double) (s : ObservationMonitor) :=
  s <| camera_calibrated_ := dlt dzero (nth 0 k dzero) && dlt dzero (nth 4 k dzero) |>.
Definition on_odometry (now : Z) (s : ObservationMonitor) := s <| odometry_stamp_ := now |>.
Definition on_imu (now : Z) (s : ObservationMonitor) := s <| imu_stamp_ := now |>.

Definition age_seconds (now stamp : Z) : double :=
  if stamp =? 0 then dinf else dmax dzero (seconds (now - stamp)).

Definition finite_age (age : double) : float32 :=
  if isfinite age then to_float age else to_float (of_int (-1)).

Definition camera_ready (c : Clock) (s : ObservationMonitor) : bool :=
  dle (age_seconds (camera_now c) (camera_stamp_ s)) (camera_timeout_ p).
Definition odometry_ready (c : Clock) (s : ObservationMonitor) : bool :=
  dle (age_seconds (odometry_now c) (odometry_stamp_ s)) (odometry_timeout_ p).
Definition imu_ready (c : Clock) (s : ObservationMonitor) : bool :=
  dle (age_seconds (imu_now c) (imu_stamp_ s)) (imu_timeout_ p).

Definition missing (c : Clock) (s : ObservationMonitor) : list string :=
  (if require_camera_ p && negb (camera_ready c s) then ["camera"] else []) ++
  (if require_calibration_ p && negb (camera_calibrated_ s) then ["camera_calibration"] else []) ++
  (if require_odometry_ p && negb (odometry_ready c s) then ["odometry"] else []) ++
  (if require_imu_ p && negb (imu_ready c s) then ["imu"] else []).

Fixpoint waiting_text (items : list string) : string :=
  match items with
  | [] => ""
  | item :: r => " " ++ item ++ waiting_text r
  end.

Definition publish_status (c : Clock) (s : ObservationMonitor)
  : ObservationStatus.ObservationStatusMsg :=
  let items := missing c s in
  ObservationStatus.Make (Header.Make (to_msg (stamp_now c)) "base_link")
    (match items with [] => true | _ => false end)
    (camera_ready c s) (camera_calibrated_ s) (odometry_ready c s) (imu_ready c s)
    (finite_age (age_seconds (camera_now c) (camera_stamp_ s)))
    (finite_age (age_seconds (odometry_now c) (odometry_stamp_ s)))
    (finite_age (age_seconds (imu_now c) (imu_stamp_ s)))
    (image_width_ s) (image_height_ s)
    (match items with [] => "Observation inputs ready" | _ => "Waiting for" ++ waiting_text items end).

Inductive Event :=
| ImageReceived (now width height : Z)
| CameraInfoReceived (k : list double)
| OdometryReceived (now : Z)
| ImuReceived (now : Z)
| TimerFired (c : Clock).

Definition next (s : ObservationMonitor) (e : Event)
  : ObservationMonitor * list ObservationStatus.ObservationStatusMsg :=
  match e with
  | ImageReceived now w h => (on_image now w h s, [])
  | CameraInfoReceived k => (on_camera_info k s, [])
  | OdometryReceived now => (on_odometry now s, [])
  | ImuReceived now => (on_imu now s, [])
  | TimerFired c => (s, [publish_status c s])
  end.

(** ** What "ready" means

    [fresh_within t now stamp]: a message came, and not longer than [t] ago. *)
Definition fresh_within (timeout : double) (now stamp : Z) : Prop :=
  stamp <> 0 /\ (dle (seconds (now - stamp)) timeout = true \/
                 dlt dzero (seconds (now - stamp)) = false).

Lemma age_within timeout now stamp :
  isfinite timeout = true -> dle dzero timeout = true ->
  (dle (age_seconds now stamp) timeout = true <-> fresh_within timeout now stamp).
Proof.
  intros Hf Hp. unfold age_seconds, fresh_within. destruct (Z.eqb_spec stamp 0) as [E|E].
  - split; [|tauto]. intros Hd. exfalso. by destruct timeout.
  - unfold dmax. destruct (dlt dzero _) eqn:Hd; [|tauto].
    split; [tauto|]. intros [_ [?|?]]; [done|congruence].
Qed.

(** The monitor reports ready exactly when every input the configuration
    requires is there: each required stream delivered a message no longer ago
    than its timeout, and a calibrated camera if calibration is required; the
    status message is the empty wait list exactly then. *)
Theorem ready_iff_required_inputs_fresh c s :
  isfinite (camera_timeout_ p) = true -> dle dzero (camera_timeout_ p) = true ->
  isfinite (odometry_timeout_ p) = true -> dle dzero (odometry_timeout_ p) = true ->
  isfinite (imu_timeout_ p) = true -> dle dzero (imu_timeout_ p) = true ->
  let m := publish_status c s in
  (ObservationStatus.ready m = true <->
   (require_camera_ p = true -> fresh_within (camera_timeout_ p) (camera_now c) (camera_stamp_ s)) /\
   (require_calibration_ p = true -> camera_calibrated_ s = true) /\
   (require_odometry_ p = true ->
      fresh_within (odometry_timeout_ p) (odometry_now c) (odometry_stamp_ s)) /\
   (require_imu_ p = true -> fresh_within (imu_timeout_ p) (imu_now c) (imu_stamp_ s))) /\
  (ObservationStatus.ready m = true <->
   ObservationStatus.message m = "Observation inputs ready"%string).
Proof.
  intros Hc1 Hc2 Ho1 Ho2 Hi1 Hi2 m. split.
  - rewrite <- !age_within by done. unfold m, publish_status; simpl.
    fold (camera_ready c s) (odometry_ready c s) (imu_ready c s). unfold missing.
    destruct (require_camera_ p), (require_calibration_ p), (require_odometry_ p), (require_imu_ p),
      (camera_ready c s), (camera_calibrated_ s), (odometry_ready c s), (imu_ready c s);
      simpl; split; intuition congruence.
  - unfold m, publish_status; simpl. by destruct (missing c s).
Qed.

End Monitor.
End Monitor.

Module Adapter.
Record Parameters := MakeParameters {
  image_timeout_ : double;
  observation_validity_ : double;
  require_status_ready_ : bool;
  base_frame_ : string }.
Definition default_parameters : Parameters :=
  MakeParameters (lit 5 1) (lit 5 1) true "base_link".

Record ObservationAdapter := MakeAdapter {
  observation_ready_ : bool;
  odometry_valid_ : bool;
  imu_valid_ : bool;
  command_valid_ : bool;
  voltage_valid_ : bool;
  voltage_ : float32;
  sequence_ : Z;
  task_ : string;
  command_ : Twist;
  odometry_ : Twist;                    (* [odometry_.twist.twist] *)
  imu_acceleration : Vector3;           (* [imu_.linear_acceleration] *)
  imu_velocity : Vector3;               (* [imu_.angular_velocity] *)
  image_ : option CompressedImage.CompressedImageMsg;
  image_received_at_ : Z }.
#[export] Instance eta_adapter : Eta ObservationAdapter := fun s =>
  MakeAdapter (observation_ready_ s) (odometry_valid_ s) (imu_valid_ s) (command_valid_ s)
    (voltage_valid_ s) (voltage_ s) (sequence_ s) (task_ s) (command_ s) (odometry_ s)
    (imu_acceleration s) (imu_velocity s) (image_ s) (image_received_at_ s).
Definition initial : ObservationAdapter :=
  MakeAdapter false false false false false fzero 0 "" Twist.zero Twist.zero Vector3.zero
    Vector3.zero None 0.

Section Adapter.
Context `{Rclcpp}.
Variable p : Parameters.

Definition on_image (now : Z) (m : CompressedImage.CompressedImageMsg) (s : ObservationAdapter) :=
  s <| image_ := Some m |> <| image_received_at_ := now |>.
Definition on_status (m : ObservationStatus.ObservationStatusMsg) (s : ObservationAdapter) :=
  s <| observation_ready_ := ObservationStatus.ready m |>.
Definition on_odometry (m : Twist) (s : ObservationAdapter) :=
  s <| odometry_ := m |> <| odometry_valid_ := true |>.
Definition on_imu (acceleration velocity : Vector3) (s : ObservationAdapter) :=
  s <| imu_acceleration := acceleration |> <| imu_velocity := velocity |>
    <| imu_valid_ := true |>.
Definition on_command (m : Twist) (s : ObservationAdapter) :=
  s <| command_ := m |> <| command_valid_ := true |>.
Definition on_voltage (data : float32) (s : ObservationAdapter) :=
  s <| voltage_ := data |> <| voltage_valid_ := true |>.
Definition on_task (data : string) (s : ObservationAdapter) := s <| task_ := data |>.

Definition append_state (key : string) (value : double) (valid : bool)
    (m : PolicyObservation.PolicyObservationMsg) : PolicyObservation.PolicyObservationMsg :=
  m <| PolicyObservation.state_keys := PolicyObservation.state_keys m ++ [key] |>
    <| PolicyObservation.state :=
         PolicyObservation.state m ++ [if valid then to_float value else fzero] |>
    <| PolicyObservation.state_valid := PolicyObservation.state_valid m ++ [valid] |>.

(** [age_now] is read for the image test, [stamp] for the message *)
Definition publish_observation (age_now stamp : Z) (s : ObservationAdapter)
  : ObservationAdapter * list PolicyObservation.PolicyObservationMsg :=
  match image_ s with
  | None => (s, [])
  | Some image =>
      if dlt (image_timeout_ p) (seconds (age_now - image_received_at_ s)) then (s, [])
      else if require_status_ready_ p && negb (observation_ready_ s) then (s, [])
      else
        let n := wrap64 (sequence_ s + 1) in
        let m0 := PolicyObservation.zero
          <| PolicyObservation.header := Header.Make (to_msg stamp) (base_frame_ p) |>
          <| PolicyObservation.observation_id := ("obs-" ++ to_string n)%string |>
          <| PolicyObservation.schema_version := "vehicle.observation.v1" |>
          <| PolicyObservation.task := task_ s |>
          <| PolicyObservation.image_keys := ["observation.images.front"%string] |>
          <| PolicyObservation.images := [image] |> in
        let m1 := append_state "observation.state.linear_velocity"
          (Vector3.x (Twist.linear (odometry_ s))) (odometry_valid_ s) m0 in
        let m2 := append_state "observation.state.angular_velocity"
          (Vector3.z (Twist.angular (odometry_ s))) (odometry_valid_ s) m1 in
        let m3 := append_state "observation.state.acceleration_x"
          (Vector3.x (imu_acceleration s)) (imu_valid_ s) m2 in
        let m4 := append_state "observation.state.acceleration_y"
          (Vector3.y (imu_acceleration s)) (imu_valid_ s) m3 in
        let m5 := append_state "observation.state.yaw_rate"
          (Vector3.z (imu_velocity s)) (imu_valid_ s) m4 in
        let m6 := append_state "observation.state.executed_linear_command"
          (Vector3.x (Twist.linear (command_ s))) (command_valid_ s) m5 in
        let m7 := append_state "observation.state.executed_angular_command"
          (Vector3.z (Twist.angular (command_ s))) (command_valid_ s) m6 in
        let m8 := append_state "observation.state.battery_voltage"
          (to_double (voltage_ s)) (voltage_valid_ s) m7 in
        let m := m8 <| PolicyObservation.generated_at := to_msg stamp |>
          <| PolicyObservation.valid_until :=
               to_msg (stamp + from_seconds (observation_validity_ p)) |> in
        (s <| sequence_ := n |>, [m])
  end.

Inductive Event :=
| ImageReceived (now : Z) (m : CompressedImage.CompressedImageMsg)
| StatusReceived (m : ObservationStatus.ObservationStatusMsg)
| OdometryReceived (m : Twist)
| ImuReceived (acceleration velocity : Vector3)
| CommandReceived (m : Twist)
| VoltageReceived (data : float32)
| TaskReceived (data : string)
| TimerFired (age_now stamp : Z).

Definition next (s : ObservationAdapter) (e : Event)
  : ObservationAdapter * list PolicyObservation.PolicyObservationMsg :=
  match e with
  | ImageReceived now m => (on_image now m s, [])
  | StatusReceived m => (on_status m s, [])
  | OdometryReceived m => (on_odometry m s, [])
  | ImuReceived a v => (on_imu a v s, [])
  | CommandReceived m => (on_command m s, [])
  | VoltageReceived d => (on_voltage d s, [])
  | TaskReceived d => (on_task d s, [])
  | TimerFired age_now stamp => publish_observation age_now stamp s
  end.

(** ** Guards and contents *)
Lemma publish_spec age_now stamp s s' out :
  publish_observation age_now stamp s = (s', out) ->
  (out = [] /\ s' = s /\
   (image_ s = None \/ dlt (image_timeout_ p) (seconds (age_now - image_received_at_ s)) = true \/
    (require_status_ready_ p = true /\ observation_ready_ s = false))) \/
  (exists m image, out = [m] /\ s' = s <| sequence_ := wrap64 (sequence_ s + 1) |> /\
   image_ s = Some image /\ PolicyObservation.images m = [image] /\
   dlt (image_timeout_ p) (seconds (age_now - image_received_at_ s)) = false /\
   (require_status_ready_ p = true -> observation_ready_ s = true) /\
   PolicyObservation.observation_id m = ("obs-" ++ to_string (wrap64 (sequence_ s + 1)))%string /\
   PolicyObservation.valid_until m = to_msg (stamp + from_seconds (observation_validity_ p)) /\
   PolicyObservation.state_valid m =
     [odometry_valid_ s; odometry_valid_ s; imu_valid_ s; imu_valid_ s; imu_valid_ s;
      command_valid_ s; command_valid_ s; voltage_valid_ s] /\
   List.length (PolicyObservation.state_keys m) = 8%nat /\
   List.length (PolicyObservation.state m) = 8%nat /\
   Forall2 (fun v valid => valid = false -> v = fzero) (PolicyObservation.state m)
     (PolicyObservation.state_valid m)).
Proof.
  unfold publish_observation. destruct (image_ s) as [image|] eqn:Hi; [|intros [= <- <-]; by left; auto].
  destruct (dlt (image_timeout_ p) _) eqn:Ht; [intros [= <- <-]; by left; auto|].
  destruct (require_status_ready_ p && negb (observation_ready_ s)) eqn:Hr.
  { intros [= <- <-]. left. apply andb_true_iff in Hr as [H1 H2%negb_true_iff].
    split; [done|]. split; [done|]. right. right. done. }
  intros [= <- <-]. right. eexists _, image. split; [reflexivity|]. split; [done|].
  split; [done|]. split; [done|]. split; [done|].
  split. { intros E. rewrite E in Hr. by apply negb_false_iff in Hr. }
  split; [done|]. split; [done|]. split; [done|]. split; [done|]. split; [done|].
  simpl. repeat constructor; by intros ->.
Qed.

(** The adapter publishes an observation exactly when a recent image and, if
    required, a ready status are there; the observation carries that image,
    eight aligned state entries in which an input that never arrived is a zero
    marked invalid, and expires [observation_validity] after its stamp. *)
Theorem published_observation_contract es age_now stamp :
  let s := fst (run next initial es) in
  let '(s', out) := publish_observation age_now stamp s in
  (out <> [] <->
   (exists image, image_ s = Some image) /\
   dlt (image_timeout_ p) (seconds (age_now - image_received_at_ s)) = false /\
   (require_status_ready_ p = true -> observation_ready_ s = true)) /\
  forall m, m ∈ out ->
    (forall image, image_ s = Some image -> PolicyObservation.images m = [image]) /\
    List.length (PolicyObservation.state_keys m) = 8%nat /\
    List.length (PolicyObservation.state_valid m) = 8%nat /\
    Forall2 (fun v valid => valid = false -> v = fzero) (PolicyObservation.state m)
      (PolicyObservation.state_valid m) /\
    PolicyObservation.valid_until m = to_msg (stamp + from_seconds (observation_validity_ p)).
Proof.
  intros s. destruct (publish_observation age_now stamp s) as [s' out] eqn:E.
  apply publish_spec in E as [(-> & _ & Hc)|(m & image & -> & _ & Hi & Him & Ht & Hr & _ & Hv & Hsv & Hk & _ & Hf)].
  - split; [|intros m Hm; by apply elem_of_nil in Hm]. split; [done|].
    intros ([image Hi] & Ht & Hr). exfalso.
    destruct Hc as [Hc|[Hc|[H1 H2]]]; [congruence|congruence|].
    specialize (Hr H1). congruence.
  - split; [split; [eauto 10|done]|]. intros m' ->%list_elem_of_singleton. rewrite Hi, Hsv in *.
    split_and!; try done. intros image' [= <-]. done.
Qed.

(** *** Observation identifiers *)
(** ids of the observations published from state [s] on are numbered from its
    counter *)
Lemma run_ids es s :
  0 <= sequence_ s -> sequence_ s + Z.of_nat (List.length es) < 2 ^ 64 ->
  exists n, PolicyObservation.observation_id <$> snd (run next s es) =
    (fun k => "obs-" ++ to_string (sequence_ s + 1 + Z.of_nat k))%string <$> seq 0 n /\
    (n <= List.length es)%nat.
Proof.
  revert s; induction es as [|e r IH]; intros s Hs Hb; [by exists 0%nat|].
  rewrite length_cons in Hb. assert (sequence_ s < 2 ^ 64 - 1) as Hlt by lia. cbn [run].
  destruct (next s e) as [s1 o1] eqn:E.
  assert (sequence_ s1 = sequence_ s /\ o1 = [] \/
    sequence_ s1 = sequence_ s + 1 /\ exists m, o1 = [m] /\
      PolicyObservation.observation_id m = ("obs-" ++ to_string (sequence_ s + 1))%string) as Hc.
  { destruct e as [now m|m|m|a v|m|d|d|age_now stamp]; simpl in E; try (simplify_eq; by left).
    apply publish_spec in E as [(-> & -> & _)|(m & image & -> & -> & _ & _ & _ & _ & Hid & _)].
    - by left.
    - right. rewrite wrap64_succ in Hid by lia. simpl. rewrite wrap64_succ by lia. eauto. }
  destruct (run next s1 r) as [s2 o2] eqn:E2; simpl.
  destruct Hc as [[Hs1 ->]|[Hs1 (m & -> & Hid)]].
  - destruct (IH s1) as (n & Hn & Hl); [lia|lia|]. rewrite E2, Hs1 in Hn. exists n.
    split; [done|simpl; lia].
  - destruct (IH s1) as (n & Hn & Hl); [lia|lia|]. rewrite E2 in Hn. exists (S n).
    split; [|simpl; lia]. cbn [app seq]. rewrite !fmap_cons. f_equal.
    + rewrite Hid. change (Z.of_nat 0) with 0. by rewrite Z.add_0_r.
    + simpl in Hn. rewrite Hn. rewrite <- fmap_S_seq, <- list_fmap_compose.
      apply list_fmap_ext. intros i k _.
      unfold compose. replace (sequence_ s + 1 + Z.of_nat (S k)) with (sequence_ s1 + 1 + Z.of_nat k) by lia.
      done.
Qed.

(** Observation identifiers are unique: all observations an adapter
    publishes carry different identifiers, numbered in order (fewer than
    2^64 callbacks). *)
Theorem observation_ids_are_unique es :
  Z.of_nat (List.length es) < 2 ^ 64 ->
  NoDup (PolicyObservation.observation_id <$> snd (run next initial es)).
Proof.
  intros Hb. destruct (run_ids es initial) as (n & -> & _); [simpl; lia|simpl; lia|].
  apply NoDup_fmap_2_strong; [|apply NoDup_seq]. intros i j _ _ Hij.
  simpl in Hij. injection Hij as Hij. apply to_string_inj in Hij; lia.
Qed.

(** Scalar inputs do not age: once an odometry message has arrived, every
    later observation marks its velocities valid, however long ago it arrived
    and even if no further message ever comes (and likewise for the IMU, the
    executed command and the battery). *)
Theorem scalar_inputs_never_expire es m es2 age_now stamp :
  let s := fst (run next initial (es ++ OdometryReceived m :: es2)) in
  forall o, o ∈ snd (publish_observation age_now stamp s) ->
  take 2 (PolicyObservation.state_valid o) = [true; true].
Proof.
  intros s o Ho.
  assert (odometry_valid_ s = true) as Hv.
  { unfold s. rewrite run_app. destruct (run next initial es) as [s1 o1]. cbn [run].
    assert (odometry_valid_ (fst (run next (on_odometry m s1) es2)) = true) as Hr.
    { apply (run_invariant next (fun s => odometry_valid_ s = true)); [|done].
      intros x e Hx. destruct e as [now i|q|q|a v|q|d|d|an st]; simpl; try done.
      destruct (publish_observation an st x) as [x' out] eqn:E.
      by apply publish_spec in E as [(_ & -> & _)|(? & ? & _ & -> & _)]. }
    simpl. by destruct (run next (on_odometry m s1) es2). }
  destruct (publish_observation age_now stamp s) as [s' out] eqn:E.
  apply publish_spec in E as [(-> & _)|(q & image & -> & _ & _ & _ & _ & _ & _ & _ & Hsv & _)];
    simpl in Ho; [by apply elem_of_nil in Ho|].
  apply list_elem_of_singleton in Ho as ->. rewrite Hsv, Hv. done.
Qed.
End Adapter.
End Adapter.

(** ** Witnesses *)
Section Witnesses.
#[local] Existing Instance rclcpp_doc.

Definition demo_clock : Monitor.Clock :=
  Monitor.MakeClock 1200000000 1200000000 1200000000 1200000000.
Definition demo_monitor : Monitor.ObservationMonitor :=
  fst (run (Monitor.next Monitor.default_parameters) Monitor.initial
    [Monitor.ImageReceived 1000000000 640 480]).

Lemma ready_iff_required_inputs_fresh_witness :
  ObservationStatus.ready
    (Monitor.publish_status Monitor.default_parameters demo_clock demo_monitor) = true <->
  ObservationStatus.message
    (Monitor.publish_status Monitor.default_parameters demo_clock demo_monitor) =
    "Observation inputs ready"%string.
Proof.
  apply (Monitor.ready_iff_required_inputs_fresh Monitor.default_parameters demo_clock demo_monitor);
    vm_compute; reflexivity.
Defined.

Definition demo_events : list Adapter.Event :=
  [Adapter.StatusReceived (ObservationStatus.zero <| ObservationStatus.ready := true |>);
   Adapter.ImageReceived 1000000000 CompressedImage.zero;
   Adapter.TimerFired 1100000000 1100000000; Adapter.TimerFired 1300000000 1300000000].

Lemma observation_ids_are_unique_witness :
  NoDup (PolicyObservation.observation_id <$>
    snd (run (Adapter.next Adapter.default_parameters) Adapter.initial demo_events)).
Proof.
  apply (Adapter.observation_ids_are_unique Adapter.default_parameters demo_events).
  vm_compute. reflexivity.
Defined.

Definition demo_odometry : Twist := Twist.planar (lit 3 1) dzero.

(** one odometry message, then an observation an hour later *)
Lemma scalar_inputs_never_expire_witness :
  exists o, take 2 (PolicyObservation.state_valid o) = [true; true] /\
    PolicyObservation.generated_at o = MakeTime 3600 0.
Proof.
  destruct (snd (Adapter.publish_observation Adapter.default_parameters 3600000000000 3600000000000
    (fst (run (Adapter.next Adapter.default_parameters) Adapter.initial
      ([] ++ Adapter.OdometryReceived demo_odometry ::
        [Adapter.StatusReceived (ObservationStatus.zero <| ObservationStatus.ready := true |>);
         Adapter.ImageReceived 3599900000000 CompressedImage.zero]))))) as [|o r] eqn:E.
  { exfalso. vm_compute in E. discriminate. }
  exists o. split.
  - apply (Adapter.scalar_inputs_never_expire Adapter.default_parameters [] demo_odometry
      [Adapter.StatusReceived (ObservationStatus.zero <| ObservationStatus.ready := true |>);
       Adapter.ImageReceived 3599900000000 CompressedImage.zero] 3600000000000 3600000000000).
    rewrite E. apply elem_of_cons. left. reflexivity.
  - vm_compute in E. injection E as <- _. reflexivity.
Defined.
End Witnesses.
