(* ===== verification/ShadowEvaluator.v ===== *)
(** * The shadow evaluator

    Models [vehicle_data/src/shadow_evaluator_node.cpp]: in VLA_SHADOW mode each
    policy action is paired with the first raw command after it and compared
    with the first executed command after that.  [next] dispatches the four
    subscriptions; [announced] and [predicted] describe, over the sequence of
    events received, which messages a pending comparison is about. *)
From S2P Require Import Prelude Floats Messages.
Local Open Scope Z_scope.

Record Parameters := MakeParameters {
  prediction_timeout_ : double;
  linear_error_threshold_ : double;
  angular_error_threshold_ : double }.
Definition default_parameters : Parameters := MakeParameters (lit 75 2) (lit 10 2) (lit 20 2).

Record ShadowEvaluator := MakeEvaluator {
  shadow_mode_ : bool;
  metadata_pending_ : bool;
  prediction_pending_ : bool;
  sample_count_ : Z;
  linear_error_sum_ : double;
  angular_error_sum_ : double;
  latest_linear_error_ : double;
  latest_angular_error_ : double;
  pending_request_id_ : string;
  pending_observation_id_ : string;
  pending_model_id_ : string;
  pending_generated_at_ : Z;
  pending_action_ : Twist }.
#[export] Instance eta_evaluator : Eta ShadowEvaluator := fun s =>
  MakeEvaluator (shadow_mode_ s) (metadata_pending_ s) (prediction_pending_ s) (sample_count_ s)
    (linear_error_sum_ s) (angular_error_sum_ s) (latest_linear_error_ s)
    (latest_angular_error_ s) (pending_request_id_ s) (pending_observation_id_ s)
    (pending_model_id_ s) (pending_generated_at_ s) (pending_action_ s).
Definition initial : ShadowEvaluator :=
  MakeEvaluator false false false 0 dzero dzero dzero dzero "" "" "" 0 Twist.zero.

Inductive Output :=
| Comparison (m : ShadowComparison.ShadowComparisonMsg)
| Metrics (m : ShadowMetrics.ShadowMetricsMsg).

Section Evaluator.
Context `{Rclcpp}.
Variable p : Parameters.

Definition on_state (m : SystemState.SystemStateMsg) (s : ShadowEvaluator) : ShadowEvaluator :=
  let shadow := SystemState.mode m =? SystemState.MODE_VLA_SHADOW in
  let s1 := s <| shadow_mode_ := shadow |> in
  if negb shadow then s1 <| metadata_pending_ := false |> <| prediction_pending_ := false |>
  else s1.

Definition has_actions (m : PolicyAction.PolicyActionMsg) : bool :=
  negb ((List.length (PolicyAction.action_vectors m) =? 0)%nat &&
        (List.length (PolicyAction.actions m) =? 0)%nat).

Definition on_policy_action (m : PolicyAction.PolicyActionMsg) (s : ShadowEvaluator)
  : ShadowEvaluator :=
  if negb (shadow_mode_ s) || negb (has_actions m) then s
  else
    s <| pending_request_id_ := PolicyAction.request_id m |>
      <| pending_observation_id_ := PolicyAction.observation_id m |>
      <| pending_model_id_ := PolicyAction.model_id m |>
      <| pending_generated_at_ := time_ns (PolicyAction.generated_at m) |>
      <| metadata_pending_ := true |>
      <| prediction_pending_ := false |>.

Definition on_raw_command (m : TwistStamped) (s : ShadowEvaluator) : ShadowEvaluator :=
  if negb (shadow_mode_ s) || negb (metadata_pending_ s) then s
  else
    s <| pending_action_ := TwistStamped.twist m |>
      <| metadata_pending_ := false |>
      <| prediction_pending_ := true |>.

Definition mean (sum : double) (count : Z) : float32 :=
  if 0 <? count then to_float (ddiv sum (of_int count)) else fzero.

Definition publish_metrics (now : Z) (status : string) (fresh : bool) (age : double)
    (s : ShadowEvaluator) : ShadowMetrics.ShadowMetricsMsg :=
  ShadowMetrics.Make (Header.Make (to_msg now) "base_link") (pending_model_id_ s)
    (sample_count_ s) (mean (linear_error_sum_ s) (sample_count_ s))
    (mean (angular_error_sum_ s) (sample_count_ s))
    (to_float (latest_linear_error_ s)) (to_float (latest_angular_error_ s))
    (to_float age) fresh status.

Definition prediction_age (now : Z) (s : ShadowEvaluator) : double :=
  if 0 <? pending_generated_at_ s then seconds (now - pending_generated_at_ s)
  else dadd (prediction_timeout_ p) (of_int 1).

Definition compare (now : Z) (executed : Twist) (s : ShadowEvaluator)
  : ShadowComparison.ShadowComparisonMsg :=
  let linear_error :=
    dabs (dsub (Vector3.x (Twist.linear (pending_action_ s))) (Vector3.x (Twist.linear executed))) in
  let angular_error :=
    dabs (dsub (Vector3.z (Twist.angular (pending_action_ s))) (Vector3.z (Twist.angular executed))) in
  let within := dle linear_error (linear_error_threshold_ p) &&
                dle angular_error (angular_error_threshold_ p) in
  ShadowComparison.Make (Header.Make (to_msg now) "base_link") (pending_request_id_ s)
    (pending_observation_id_ s) (pending_model_id_ s) (to_msg (pending_generated_at_ s))
    (to_msg now) (pending_action_ s) executed (to_float linear_error) (to_float angular_error)
    within (if within then "Prediction is within shadow thresholds"
            else "Prediction exceeds shadow thresholds").

(** [now] is read for the evaluation, [metrics_now] by [publish_metrics] *)
Definition on_executed_command (now metrics_now : Z) (executed : Twist) (s : ShadowEvaluator)
  : ShadowEvaluator * list Output :=
  if negb (shadow_mode_ s) || negb (prediction_pending_ s) then (s, [])
  else
    let s1 := s <| prediction_pending_ := false |> in
    let age := prediction_age now s in
    if dlt age dzero || dlt (prediction_timeout_ p) age then
      (s1, [Metrics (publish_metrics metrics_now "Prediction expired before evaluation" false age s1)])
    else
      let linear_error := dabs (dsub (Vector3.x (Twist.linear (pending_action_ s)))
        (Vector3.x (Twist.linear executed))) in
      let angular_error := dabs (dsub (Vector3.z (Twist.angular (pending_action_ s)))
        (Vector3.z (Twist.angular executed))) in
      let s2 := s1 <| sample_count_ := wrap64 (sample_count_ s + 1) |>
        <| linear_error_sum_ := dadd (linear_error_sum_ s) linear_error |>
        <| angular_error_sum_ := dadd (angular_error_sum_ s) angular_error |>
        <| latest_linear_error_ := linear_error |>
        <| latest_angular_error_ := angular_error |> in
      (s2, [Comparison (compare now executed s);
            Metrics (publish_metrics metrics_now "Shadow sample evaluated" true age s2)]).

Inductive Event :=
| StateReceived (m : SystemState.SystemStateMsg)
| ActionReceived (m : PolicyAction.PolicyActionMsg)
| RawReceived (m : TwistStamped)
| ExecutedReceived (now metrics_now : Z) (m : Twist).

Definition next (s : ShadowEvaluator) (e : Event) : ShadowEvaluator * list Output :=
  match e with
  | StateReceived m => (on_state m s, [])
  | ActionReceived m => (on_policy_action m s, [])
  | RawReceived m => (on_raw_command m s, [])
  | ExecutedReceived now metrics_now m => on_executed_command now metrics_now m s
  end.

(** ** What a pending comparison is about *)
Definition leaves_shadow (e : Event) : bool :=
  match e with
  | StateReceived m => negb (SystemState.mode m =? SystemState.MODE_VLA_SHADOW)
  | _ => false
  end.
Definition new_action (e : Event) : bool :=
  match e with ActionReceived m => has_actions m | _ => false end.
Definition is_raw (e : Event) : bool := match e with RawReceived _ => true | _ => false end.

(** no event after the pairing that would end it *)
Definition undisturbed (es : list Event) : Prop :=
  Forall (fun e => leaves_shadow e = false /\ new_action e = false) es.

Definition about (a : PolicyAction.PolicyActionMsg) (s : ShadowEvaluator) : Prop :=
  pending_request_id_ s = PolicyAction.request_id a /\
  pending_observation_id_ s = PolicyAction.observation_id a /\
  pending_model_id_ s = PolicyAction.model_id a /\
  pending_generated_at_ s = time_ns (PolicyAction.generated_at a).

(** [a] was announced last, and no raw command has come since *)
Definition announced (es : list Event) (s : ShadowEvaluator) : Prop :=
  exists es1 a es2, es = es1 ++ ActionReceived a :: es2 /\ has_actions a = true /\
    undisturbed es2 /\ Forall (fun e => is_raw e = false) es2 /\ about a s.

(** [c] was the first raw command after action [a], the last one announced *)
Definition predicted (es : list Event) (a : PolicyAction.PolicyActionMsg) (c : TwistStamped) : Prop :=
  exists es1 es2 es3, es = es1 ++ ActionReceived a :: es2 ++ RawReceived c :: es3 /\
    has_actions a = true /\ undisturbed es2 /\ undisturbed es3 /\
    Forall (fun e => is_raw e = false) es2.

Record paired (es : list Event) (s : ShadowEvaluator) : Prop := {
  pair_mode : metadata_pending_ s = true \/ prediction_pending_ s = true -> shadow_mode_ s = true;
  pair_meta : metadata_pending_ s = true -> prediction_pending_ s = false /\ announced es s;
  pair_pred : prediction_pending_ s = true ->
    exists a c, predicted es a c /\ about a s /\ pending_action_ s = TwistStamped.twist c }.

Lemma undisturbed_snoc es e :
  undisturbed es -> leaves_shadow e = false -> new_action e = false -> undisturbed (es ++ [e]).
Proof. intros. apply Forall_app; split; [done|]. by repeat constructor. Qed.

Lemma announced_snoc es e s s' :
  announced es s -> leaves_shadow e = false -> new_action e = false -> is_raw e = false ->
  (forall a, about a s -> about a s') -> announced (es ++ [e]) s'.
Proof.
  intros (es1 & a & es2 & -> & Ha & Hu & Hr & Hb) Hl Hn Hw Hab.
  exists es1, a, (es2 ++ [e]). split_and!; [by rewrite <- app_assoc|done|by apply undisturbed_snoc| |auto].
  apply Forall_app; split; [done|]. by repeat constructor.
Qed.

Lemma predicted_snoc es e a c :
  predicted es a c -> leaves_shadow e = false -> new_action e = false -> predicted (es ++ [e]) a c.
Proof.
  intros (es1 & es2 & es3 & -> & Ha & H2 & H3 & Hr) Hl Hn.
  exists es1, es2, (es3 ++ [e]). split_and!; try done; [|by apply undisturbed_snoc].
  rewrite <- !app_assoc. simpl. by rewrite <- app_assoc.
Qed.

Lemma paired_step es s e : paired es s -> paired (es ++ [e]) (fst (next s e)).
Proof.
  intros [Hm Hd Hp]. destruct e as [m|m|m|now mn m]; simpl.
  - unfold on_state. destruct (SystemState.mode m =? SystemState.MODE_VLA_SHADOW) eqn:E; simpl;
      [|by split; simpl; [intros [?|?]|..]].
    assert (leaves_shadow (StateReceived m) = false) as Hl by (simpl; by rewrite E).
    split; simpl; [done| |].
    + intros Hx. destruct (Hd Hx) as [? Ha]. split; [done|]. by eapply announced_snoc.
    + intros Hx. destruct (Hp Hx) as (a & c & Ha & ? & ?). exists a, c.
      split; [by apply predicted_snoc|done].
  - unfold on_policy_action. destruct (shadow_mode_ s) eqn:Hs; simpl.
    + destruct (has_actions m) eqn:Ha; simpl.
      * split; simpl; [done| |done]. intros _. split; [done|].
        exists es, m, []. split_and!; try done; constructor.
      * split; [done| |].
        -- intros Hx. destruct (Hd Hx) as [? Hb]. split; [done|]. by eapply announced_snoc.
        -- intros Hx. destruct (Hp Hx) as (a & c & Hb & ? & ?). exists a, c.
           split; [by apply predicted_snoc|done].
    + split; [auto| |]; intros Hx; pose proof (Hm ltac:(tauto)); congruence.
  - unfold on_raw_command. destruct (shadow_mode_ s) eqn:Hs; simpl.
    + destruct (metadata_pending_ s) eqn:Hx; simpl.
      * split; simpl; [done|done|]. intros _.
        destruct (Hd eq_refl) as [_ (es1 & a & es2 & -> & Ha & Hu & Hr & Hb)].
        exists a, m. split; [|done]. exists es1, es2, []. split_and!; try done; [|constructor].
        by rewrite <- app_assoc.
      * split; [done|congruence|]. intros Hy. destruct (Hp Hy) as (a & c & Hb & ? & ?).
        exists a, c. split; [by apply predicted_snoc|done].
    + split; [auto| |]; intros Hx; pose proof (Hm ltac:(tauto)); congruence.
  - unfold on_executed_command. destruct (shadow_mode_ s) eqn:Hs; simpl.
    + destruct (prediction_pending_ s) eqn:Hx; simpl.
      * assert (metadata_pending_ s = false) as Hmp.
        { destruct (metadata_pending_ s) eqn:E; [|done]. by destruct (Hd eq_refl). }
        destruct (_ || _); split; simpl; rewrite ?Hmp; try done; by intros [?|?].
      * split; [done| |congruence]. intros Hy. destruct (Hd Hy) as [? Hb]. split; [done|].
        by eapply announced_snoc.
    + split; [auto| |]; intros Hx; pose proof (Hm ltac:(tauto)); congruence.
Qed.

Lemma run_paired es : paired es (fst (run next initial es)).
Proof.
  induction es as [|e es IH] using rev_ind.
  - split; simpl; [by intros [?|?]|done|done].
  - rewrite run_app. apply (paired_step _ _ e) in IH.
    destruct (run next initial es) as [s o]; simpl in *. by destruct (next s e).
Qed.

(** Every comparison the evaluator publishes is about the right messages:
    it is made in shadow mode, its identifiers and generation time are those of
    the latest policy action, its prediction is the first raw command received
    after that action, nothing ended the pairing in between, and the
    prediction is neither from the future nor older than the timeout. *)
Theorem comparison_pairs_action_and_command es now mn executed cmp :
  let s := fst (run next initial es) in
  Comparison cmp ∈ snd (next s (ExecutedReceived now mn executed)) ->
  exists a c, predicted es a c /\
    ShadowComparison.request_id cmp = PolicyAction.request_id a /\
    ShadowComparison.observation_id cmp = PolicyAction.observation_id a /\
    ShadowComparison.model_id cmp = PolicyAction.model_id a /\
    ShadowComparison.predicted cmp = TwistStamped.twist c /\
    ShadowComparison.executed cmp = executed /\ shadow_mode_ s = true /\
    dlt (prediction_age now s) dzero = false /\
    dlt (prediction_timeout_ p) (prediction_age now s) = false.
Proof.
  intros s. pose proof (run_paired es) as [_ _ Hp]. fold s in Hp. simpl.
  unfold on_executed_command. destruct (shadow_mode_ s); simpl; [|by intros ?%elem_of_nil].
  destruct (prediction_pending_ s) eqn:Hpp; simpl; [|by intros ?%elem_of_nil].
  destruct (dlt (prediction_age now s) dzero || _) eqn:Hg.
  { intros Hin. by apply list_elem_of_singleton in Hin. }
  apply orb_false_iff in Hg as [Hg1 Hg2]. simpl. intros Hin.
  apply elem_of_cons in Hin as [[= ->]|Hin]; [|by apply list_elem_of_singleton in Hin].
  destruct (Hp eq_refl) as (a & c & Hpr & (Hr & Ho & Hmo & _) & Hac).
  exists a, c. by split_and!.
Qed.

(** *** Counting *)
Definition comparisons (out : list Output) : nat :=
  List.length (List.filter (fun o => match o with Comparison _ => true | _ => false end) out).

Lemma comparisons_app o1 o2 : comparisons (o1 ++ o2) = (comparisons o1 + comparisons o2)%nat.
Proof. unfold comparisons. by rewrite List.filter_app, length_app. Qed.

Lemma next_count s e :
  sample_count_ (fst (next s e)) = wrap64 (sample_count_ s + Z.of_nat (comparisons (snd (next s e)))) \/
  (sample_count_ (fst (next s e)) = sample_count_ s /\ comparisons (snd (next s e)) = 0%nat).
Proof.
  destruct e as [m|m|m|now mn m]; simpl.
  - right. unfold on_state. by destruct (negb _).
  - right. unfold on_policy_action. by destruct (_ || _).
  - right. unfold on_raw_command. by destruct (_ || _).
  - unfold on_executed_command. destruct (negb _ || negb _); [by right|].
    destruct (_ || _); [by right|]. by left.
Qed.

(** The sample count of the metrics is the number of comparisons published
    since the start (modulo 2^64), and the mean errors are only defined over
    at least one sample. *)
Theorem sample_count_counts_comparisons es :
  let '(s, out) := run next initial es in
  sample_count_ s = wrap64 (Z.of_nat (comparisons out)) /\
  forall now status fresh age,
    ShadowMetrics.sample_count (publish_metrics now status fresh age s) =
      wrap64 (Z.of_nat (comparisons out)) /\
    (wrap64 (Z.of_nat (comparisons out)) = 0 ->
     ShadowMetrics.linear_mean_absolute_error (publish_metrics now status fresh age s) = fzero).
Proof.
  assert (sample_count_ (fst (run next initial es)) =
    wrap64 (Z.of_nat (comparisons (snd (run next initial es))))) as Hc.
  { induction es as [|e es IH] using rev_ind; [done|]. rewrite run_app.
    destruct (run next initial es) as [s o]; cbn [fst snd run] in *.
    pose proof (next_count s e) as Hn. destruct (next s e) as [s1 o1]; cbn [fst snd] in *.
    rewrite app_nil_r, comparisons_app, Nat2Z.inj_add. destruct Hn as [->|[-> ->]].
    - rewrite IH. unfold wrap64, wrap. by rewrite Zplus_mod_idemp_l.
    - by rewrite IH, Z.add_0_r. }
  destruct (run next initial es) as [s out]; cbn [fst snd] in Hc. split; [done|].
  intros now status fresh age. simpl. split; [done|]. intros E. unfold mean. by rewrite Hc, E.
Qed.
End Evaluator.

(** ** Witnesses *)
Section Witnesses.
#[local] Existing Instance rclcpp_doc.

Definition demo_action : PolicyAction.PolicyActionMsg :=
  PolicyAction.zero <| PolicyAction.request_id := "r1" |>
    <| PolicyAction.generated_at := MakeTime 10 0 |>
    <| PolicyAction.action_vectors := [[fzero; fzero]] |>.
Definition demo_raw : TwistStamped := TwistStamped.Make Header.zero (Twist.planar (lit 2 1) dzero).
Definition demo_events : list Event :=
  [StateReceived (SystemState.zero <| SystemState.mode := SystemState.MODE_VLA_SHADOW |>);
   ActionReceived demo_action; RawReceived demo_raw].

Lemma comparison_pairs_action_and_command_witness :
  exists a c, predicted demo_events a c /\ PolicyAction.request_id a = "r1"%string.
Proof.
  destruct (comparison_pairs_action_and_command default_parameters demo_events 10200000000
    10200000000 Twist.zero
    (compare default_parameters 10200000000 Twist.zero
      (fst (run (next default_parameters) initial demo_events))))
    as (a & c & Hp & Hr & _).
  - vm_compute. apply elem_of_cons. left. reflexivity.
  - exists a, c. split; [exact Hp|]. rewrite <- Hr. reflexivity.
Defined.
End Witnesses.
