(* ===== verification/TraceAggregator.v ===== *)
(** * The pipeline trace aggregator

    Models [vehicle_pipeline_trace/src/pipeline_trace_aggregator_node.cpp]: a
    passive observer that keeps the last message of twelve topics with the time
    it came, and periodically publishes one [PipelineTrace] of eleven stages.
    A subscription is [on_message] for its topic; [publish] is the timer, split
    into one definition per stage.  The JSON values of the details are those of
    [JsonData].  The publishing of a message is the output of [next]. *)
From Stdlib Require Import Eqdep_dec.
From S2P Require Import Prelude Floats Messages JsonData.
Local Open Scope Z_scope.
Local Open Scope string_scope.
Local Open Scope outcome_scope.

(** ** State *)
Record Timed (T : Type) := MakeTimed { message : option T; received : Z }.
Arguments MakeTimed {T} _ _.
Arguments message {T} _.
Arguments received {T} _.
Definition never {T} : Timed T := MakeTimed None 0.

(** the twelve subscriptions and the type of their messages *)
Inductive Topic :=
| Camera | ObservationHealth | Observation | PolicyState | Action | RawCommand
| SelectedCommand | FinalCommand | Safety | Shadow | Episode | System.
#[export] Instance topic_eq_dec : EqDecision Topic.
Proof. solve_decision. Defined.

Definition message_of (t : Topic) : Type :=
  match t with
  | Camera => CompressedImage.CompressedImageMsg
  | ObservationHealth => ObservationStatus.ObservationStatusMsg
  | Observation => PolicyObservation.PolicyObservationMsg
  | PolicyState => PolicyStatus.PolicyStatusMsg
  | Action => PolicyAction.PolicyActionMsg
  | RawCommand | SelectedCommand => TwistStamped
  | FinalCommand => Twist
  | Safety => SafetyEvent.SafetyEventMsg
  | Shadow => ShadowComparison.ShadowComparisonMsg
  | Episode => EpisodeState.EpisodeStateMsg
  | System => SystemState.SystemStateMsg
  end.

Record Parameters := MakeParameters {
  stale_seconds_ : double;
  camera_stale_seconds_ : double;
  command_stale_seconds_ : double;
  policy_action_stale_seconds_ : double;
  shadow_stale_seconds_ : double }.
Definition default_parameters : Parameters :=
  MakeParameters (of_int 3) (of_int 1) (lit 75 2) (of_int 5) (of_int 5).

Record PipelineTraceAggregator := MakeAggregator {
  camera_ : Timed CompressedImage.CompressedImageMsg;
  observation_status_ : Timed ObservationStatus.ObservationStatusMsg;
  observation_ : Timed PolicyObservation.PolicyObservationMsg;
  policy_status_ : Timed PolicyStatus.PolicyStatusMsg;
  policy_action_ : Timed PolicyAction.PolicyActionMsg;
  raw_command_ : Timed TwistStamped;
  selected_command_ : Timed TwistStamped;
  final_command_ : Timed Twist;
  safety_ : Timed SafetyEvent.SafetyEventMsg;
  shadow_ : Timed ShadowComparison.ShadowComparisonMsg;
  episode_ : Timed EpisodeState.EpisodeStateMsg;
  system_ : Timed SystemState.SystemStateMsg }.
#[export] Instance eta_aggregator : Eta PipelineTraceAggregator := fun s =>
  MakeAggregator (camera_ s) (observation_status_ s) (observation_ s) (policy_status_ s)
    (policy_action_ s) (raw_command_ s) (selected_command_ s) (final_command_ s) (safety_ s)
    (shadow_ s) (episode_ s) (system_ s).
Definition initial : PipelineTraceAggregator :=
  MakeAggregator never never never never never never never never never never never never.

(** [update]: the target is overwritten, the time is read under the lock *)
Definition update {T} (m : T) (now : Z) : Timed T := MakeTimed (Some m) now.

(** the callbacks of the twelve subscriptions *)
Definition on_message (t : Topic) : message_of t -> Z -> PipelineTraceAggregator -> PipelineTraceAggregator :=
  match t with
  | Camera => fun m now s => s <| camera_ := update m now |>
  | ObservationHealth => fun m now s => s <| observation_status_ := update m now |>
  | Observation => fun m now s => s <| observation_ := update m now |>
  | PolicyState => fun m now s => s <| policy_status_ := update m now |>
  | Action => fun m now s => s <| policy_action_ := update m now |>
  | RawCommand => fun m now s => s <| raw_command_ := update m now |>
  | SelectedCommand => fun m now s => s <| selected_command_ := update m now |>
  | FinalCommand => fun m now s => s <| final_command_ := update m now |>
  | Safety => fun m now s => s <| safety_ := update m now |>
  | Shadow => fun m now s => s <| shadow_ := update m now |>
  | Episode => fun m now s => s <| episode_ := update m now |>
  | System => fun m now s => s <| system_ := update m now |>
  end.

(** ** Helpers of [publish] *)
Definition age_seconds {T} (value : Timed T) (current : Z) : double :=
  match message value with
  | None => of_int (-1)
  | Some _ => chrono_seconds (current - received value)
  end.

Definition freshness_status (age threshold : double) (fresh_status : Z) : Z :=
  if dlt age dzero then PipelineStage.STATUS_WAITING
  else if dle age threshold then fresh_status else PipelineStage.STATUS_STALE.

(** the conditional that reads an optional message, with [d] when there is none *)
Definition from {T A} (v : Timed T) (f : T -> A) (d : A) : A :=
  match message v with Some m => f m | None => d end.

Section Publish.
Context `{Rclcpp} `{Nlohmann}.
Variable p : Parameters.

Definition twist_json (value : Twist) : Outcome string :=
  dump (J_object [("linear_x", J_number (Vector3.x (Twist.linear value)));
                  ("angular_z", J_number (Vector3.z (Twist.angular value)))]).

(** [Json::parse(twist_json(value))] *)
Definition twist_value (value : Twist) : Outcome JsonValue :=
  let! text := twist_json value in parse text.

(** [now] is the reading of the node's clock by this call *)
Definition stage (now : Z) (id label component : string) (status : Z) (age latency : double)
    (input output message : string) (detail : JsonValue) (control_boundary publishes_control : bool)
  : Outcome PipelineStage.PipelineStageMsg :=
  let! detail_json := dump detail in
  Returns (PipelineStage.Make id label component status (to_msg now) (to_float age)
    (to_float latency) input output message detail_json control_boundary publishes_control).

Definition no_latency : double := of_int (-1).
Definition empty_object : JsonValue := J_object [].
Definition size {A} (l : list A) : Z := Z.of_nat (List.length l).

(** ** The stages *)
Definition sensor_capture (s : PipelineTraceAggregator) (current now : Z) :=
  let camera_age := age_seconds (camera_ s) current in
  stage now "sensor_capture" "Sensor Capture" "front_camera + image_transport"
    (freshness_status camera_age (camera_stale_seconds_ p) PipelineStage.STATUS_LIVE) camera_age no_latency
    "/dev/video0"
    (from (camera_ s) (fun m => to_string (size (CompressedImage.data m)) ++ " encoded bytes") "No frame")
    (if dlt camera_age dzero then "Waiting for compressed camera frame" else "Passive live camera observation")
    (from (camera_ s) (fun m => J_object
       [("format", J_string (CompressedImage.format m));
        ("frame_id", J_string (Header.frame_id (CompressedImage.header m)));
        ("encoded_bytes", J_integer (size (CompressedImage.data m)))]) empty_object)
    false false.

Definition health_status (s : PipelineTraceAggregator) (current : Z) : Z :=
  let health_age := age_seconds (observation_status_ s) current in
  if from (observation_status_ s)
       (fun m => dle health_age (stale_seconds_ p) && negb (ObservationStatus.ready m)) false
  then PipelineStage.STATUS_FAILED
  else freshness_status health_age (stale_seconds_ p) PipelineStage.STATUS_READY.

Definition observation_health (s : PipelineTraceAggregator) (current now : Z) :=
  stage now "observation_health" "Observation Health" "observation_monitor"
    (health_status s current) (age_seconds (observation_status_ s) current) no_latency
    "camera / odom / imu"
    (from (observation_status_ s) (fun m => if ObservationStatus.ready m then "READY" else "NOT READY") "No status")
    (from (observation_status_ s) ObservationStatus.message "Waiting for health status")
    (from (observation_status_ s) (fun m => J_object
       [("camera_ready", J_bool (ObservationStatus.camera_ready m));
        ("camera_calibrated", J_bool (ObservationStatus.camera_calibrated m));
        ("odometry_ready", J_bool (ObservationStatus.odometry_ready m));
        ("imu_ready", J_bool (ObservationStatus.imu_ready m));
        ("image_width", J_integer (ObservationStatus.image_width m));
        ("image_height", J_integer (ObservationStatus.image_height m))]) empty_object)
    false false.

(** [trace.observation_id] *)
Definition trace_observation_id (s : PipelineTraceAggregator) : string :=
  from (observation_ s) PolicyObservation.observation_id "".

Definition observation_assembly (s : PipelineTraceAggregator) (current now : Z) :=
  let observation_age := age_seconds (observation_ s) current in
  stage now "observation_assembly" "Observation Assembly" "observation_adapter"
    (freshness_status observation_age (stale_seconds_ p) PipelineStage.STATUS_READY) observation_age no_latency
    "compressed image + vehicle state + task"
    (if str_empty (trace_observation_id s) then "No Observation" else trace_observation_id s)
    (from (observation_ s) (fun _ => "Model-independent Observation assembled") "Waiting for /vla/observation")
    (from (observation_ s) (fun m => J_object
       [("schema_version", J_string (PolicyObservation.schema_version m));
        ("task", J_string (PolicyObservation.task m));
        ("image_count", J_integer (size (PolicyObservation.images m)));
        ("state_count", J_integer (size (PolicyObservation.state m)))]) empty_object)
    false false.

(** the local variables of the contract check of one observation *)
Record Contract := MakeContract { schema_valid : bool; image_valid : bool; task_valid : bool }.

Definition check_contract (m : PolicyObservation.PolicyObservationMsg) : Contract :=
  MakeContract (PolicyObservation.schema_version m =? "vehicle.observation.v1")
    match PolicyObservation.images m with
    | [] => false
    | image :: _ => negb (List.length (CompressedImage.data image) =? 0)%nat
    end
    (negb (str_empty (PolicyObservation.task m))).

Definition blocking_issues (c : Contract) : list string :=
  (if schema_valid c then [] else ["schema_version"]) ++
  (if image_valid c then [] else ["front_image"]) ++
  (if task_valid c then [] else ["task_text"]).

Definition state_valid_count (m : PolicyObservation.PolicyObservationMsg) : Z :=
  size (List.filter (fun b : bool => b) (PolicyObservation.state_valid m)).

Definition contract_detail (m : PolicyObservation.PolicyObservationMsg) : JsonValue :=
  let c := check_contract m in
  J_object
    [("schema_valid", J_bool (schema_valid c)); ("image_valid", J_bool (image_valid c));
     ("task_valid", J_bool (task_valid c)); ("state_valid_count", J_integer (state_valid_count m));
     ("state_total_count", J_integer (size (PolicyObservation.state_valid m)));
     ("blocking_issues", J_array (map J_string (blocking_issues c)));
     ("diagnostic_issues", J_array
        (if (state_valid_count m =? 0)%Z then [J_string "vehicle_state_unavailable"] else []))].

Definition contract_message (c : Contract) : string :=
  match blocking_issues c with
  | [] => "Observation contract accepted"
  | _ =>
      if negb (task_valid c) && schema_valid c && image_valid c then "Task text is missing"
      else if negb (image_valid c) && schema_valid c && task_valid c then "Front image is missing"
      else if negb (schema_valid c) && image_valid c && task_valid c then
        "Observation schema version is invalid"
      else "Observation contract has multiple blocking issues"
  end.

(** [contract_status], [contract_message] and [contract_detail] after the check *)
Definition contract_result (s : PipelineTraceAggregator) (current : Z) : Z * string * JsonValue :=
  let observation_age := age_seconds (observation_ s) current in
  let unchecked := (freshness_status observation_age (stale_seconds_ p) PipelineStage.STATUS_READY,
                    "Waiting for Observation contract", empty_object) in
  from (observation_ s) (fun m =>
    if dle observation_age (stale_seconds_ p) then
      let c := check_contract m in
      (match blocking_issues c with
       | [] => PipelineStage.STATUS_READY
       | _ => PipelineStage.STATUS_REJECTED
       end, contract_message c, contract_detail m)
    else unchecked) unchecked.

Definition contract_validation (s : PipelineTraceAggregator) (current now : Z) :=
  let '(contract_status, message, detail) := contract_result s current in
  stage now "contract_validation" "Contract Validation" "vehicle.observation.v1"
    contract_status (age_seconds (observation_ s) current) no_latency "PolicyObservation"
    (if (contract_status =? PipelineStage.STATUS_READY)%Z then "ACCEPTED" else "BLOCKED")
    message detail false false.

Definition runtime_status (s : PipelineTraceAggregator) (current : Z) : Z :=
  let policy_age := age_seconds (policy_status_ s) current in
  let aged := freshness_status policy_age (stale_seconds_ p) PipelineStage.STATUS_READY in
  from (policy_status_ s) (fun m =>
    if dle policy_age (stale_seconds_ p) then
      if (PolicyStatus.state m =? PolicyStatus.STATE_READY)%Z then PipelineStage.STATUS_READY
      else if (PolicyStatus.state m =? PolicyStatus.STATE_LOADING)%Z then PipelineStage.STATUS_RUNNING
      else PipelineStage.STATUS_FAILED
    else aged) aged.

(** the latency shown by the two policy stages *)
Definition policy_latency (s : PipelineTraceAggregator) : double :=
  from (policy_status_ s) (fun m => to_double (PolicyStatus.inference_latency_ms m)) no_latency.

Definition model_runtime (s : PipelineTraceAggregator) (current now : Z) :=
  let provider_id := from (policy_status_ s) PolicyStatus.provider_id "" in
  stage now "model_runtime" "Model Runtime"
    (if str_empty provider_id then "policy provider" else provider_id)
    (runtime_status s current) (age_seconds (policy_status_ s) current) (policy_latency s)
    (from (policy_status_ s) PolicyStatus.observation_schema "--")
    (from (policy_status_ s) PolicyStatus.action_schema "--")
    (from (policy_status_ s) PolicyStatus.message "Waiting for Provider status")
    (from (policy_status_ s) (fun m => J_object
       [("provider_id", J_string (PolicyStatus.provider_id m));
        ("model_id", J_string (PolicyStatus.model_id m));
        ("protocol_version", J_string (PolicyStatus.protocol_version m));
        ("inference_latency_ms", J_number (to_double (PolicyStatus.inference_latency_ms m)))]) empty_object)
    false false.

Definition action_matches (s : PipelineTraceAggregator) (a : PolicyAction.PolicyActionMsg) : bool :=
  from (observation_ s)
    (fun o => PolicyAction.observation_id a =? PolicyObservation.observation_id o) false.

Definition policy_action_count (a : PolicyAction.PolicyActionMsg) : Z :=
  match PolicyAction.action_vectors a with
  | [] => size (PolicyAction.actions a)
  | vectors => size vectors
  end.

(** [twist_json] is a string here, which becomes a JSON string *)
Definition first_policy_action (a : PolicyAction.PolicyActionMsg) : Outcome JsonValue :=
  match PolicyAction.action_vectors a, PolicyAction.actions a with
  | values :: _, _ => Returns (J_object
      [("schema", J_string (PolicyAction.schema_version a));
       ("schema_hash", J_string (PolicyAction.schema_hash a));
       ("feature_names", J_array (map J_string (PolicyAction.feature_names a)));
       ("values", J_array (map (fun x => J_number (to_double x)) values))])
  | [], twist :: _ => let! text := twist_json twist in Returns (J_string text)
  | [], [] => Returns empty_object
  end.

Definition policy_output (s : PipelineTraceAggregator) (current now : Z) :=
  let action_age := age_seconds (policy_action_ s) current in
  let! first := from (policy_action_ s) first_policy_action (Returns empty_object) in
  stage now "policy_output" "Policy Output" "vla_policy_gateway"
    (freshness_status action_age (policy_action_stale_seconds_ p) PipelineStage.STATUS_READY)
    action_age (policy_latency s)
    (from (policy_action_ s) PolicyAction.observation_id "No request")
    (from (policy_action_ s) (fun a => to_string (policy_action_count a) ++ " action vectors") "No action")
    (from (policy_action_ s) (fun a =>
       if dlt (policy_action_stale_seconds_ p) action_age then
         "Latest PolicyAction exceeded the freshness threshold"
       else if action_matches s a then "Policy output matches live Observation head"
       else "Policy output is fresh; Observation advanced during inference") "Waiting for PolicyAction")
    (from (policy_action_ s) (fun a => J_object
       [("request_id", J_string (PolicyAction.request_id a));
        ("observation_id", J_string (PolicyAction.observation_id a));
        ("action_schema", J_string (PolicyAction.schema_version a));
        ("action_count", J_integer (policy_action_count a));
        ("first_action", first)]) empty_object)
    false false.

Definition action_runtime (s : PipelineTraceAggregator) (current now : Z) :=
  let raw_age := age_seconds (raw_command_ s) current in
  let! output := from (raw_command_ s) (fun m => twist_json (TwistStamped.twist m)) (Returns "No candidate") in
  let! detail := from (raw_command_ s) (fun m => twist_value (TwistStamped.twist m)) (Returns empty_object) in
  stage now "action_runtime" "Action Runtime" "vla_action_runtime"
    (freshness_status raw_age (command_stale_seconds_ p) PipelineStage.STATUS_READY) raw_age no_latency
    "PolicyAction chunk" output
    (from (raw_command_ s) (fun _ => "First valid action converted to candidate Twist")
       "Waiting for action candidate") detail false false.

(** [trace.shadow_only] *)
Definition shadow_only (s : PipelineTraceAggregator) : bool :=
  from (system_ s) (fun m => (SystemState.mode m =? SystemState.MODE_VLA_SHADOW)%Z) false.

Definition control_mux (s : PipelineTraceAggregator) (current now : Z) :=
  let selected_age := age_seconds (selected_command_ s) current in
  let! output := from (selected_command_ s) (fun m => twist_json (TwistStamped.twist m))
                   (Returns "No selected command") in
  let! detail := from (selected_command_ s) (fun m =>
      let! selected := twist_value (TwistStamped.twist m) in
      Returns (J_object
        [("selected", selected);
         ("control_source", J_string (from (system_ s) SystemState.control_source ""));
         ("mode", J_integer (from (system_ s) SystemState.mode 0%Z))])) (Returns empty_object) in
  stage now "control_mux" "Control Arbitration" "vla_control_mux"
    (freshness_status selected_age (command_stale_seconds_ p) PipelineStage.STATUS_READY)
    selected_age no_latency
    (from (system_ s) SystemState.control_source "unknown source") output
    (if shadow_only s then "Shadow mode keeps VLA outside the final control source"
     else "Candidate selected by control mode") detail true false.

(** [safety_status] and [safety_message] *)
Definition safety_result (s : PipelineTraceAggregator) (current : Z) : Z * string :=
  let aged := freshness_status (age_seconds (final_command_ s) current) (command_stale_seconds_ p)
                PipelineStage.STATUS_READY in
  let quiet := (aged, from (final_command_ s) (fun _ => "Safety output is fresh") "Waiting for safety output") in
  from (safety_ s) (fun e =>
    if SafetyEvent.active e then
      (if (SafetyEvent.SEVERITY_FAULT <=? SafetyEvent.severity e)%Z then PipelineStage.STATUS_FAILED
       else PipelineStage.STATUS_REJECTED, SafetyEvent.reason e)
    else quiet) quiet.

Definition safety_guard (s : PipelineTraceAggregator) (current now : Z) :=
  let '(safety_status, safety_message) := safety_result s current in
  let! input := from (selected_command_ s) (fun m => twist_json (TwistStamped.twist m))
                  (Returns "No selected command") in
  let! output := from (final_command_ s) (fun m => twist_json m) (Returns "No final command") in
  let! command := from (final_command_ s) (fun m => twist_value m) (Returns empty_object) in
  stage now "safety_guard" "Safety Guard" "vla_safety_guard"
    safety_status (age_seconds (final_command_ s) current) no_latency input output safety_message
    (J_object
       [("active_rule", J_string (from (safety_ s) SafetyEvent.rule_id ""));
        ("active", J_bool (from (safety_ s) SafetyEvent.active false));
        ("severity", J_integer (from (safety_ s) SafetyEvent.severity 0%Z));
        ("final_command", command)]) true true.

(** the refinement of [shadow_status] compares the age with [stale_seconds_] *)
Definition shadow_status (s : PipelineTraceAggregator) (current : Z) : Z :=
  let shadow_age := age_seconds (shadow_ s) current in
  if from (shadow_ s) (fun m =>
       dle shadow_age (stale_seconds_ p) && negb (ShadowComparison.within_threshold m)) false
  then PipelineStage.STATUS_REJECTED
  else freshness_status shadow_age (shadow_stale_seconds_ p) PipelineStage.STATUS_READY.

Definition shadow_evaluation (s : PipelineTraceAggregator) (current now : Z) :=
  stage now "shadow_evaluation" "Shadow Evaluation" "shadow_evaluator"
    (shadow_status s current) (age_seconds (shadow_ s) current) no_latency
    "predicted vs executed Twist"
    (from (shadow_ s) (fun m =>
       if ShadowComparison.within_threshold m then "WITHIN THRESHOLD" else "OUTSIDE THRESHOLD") "No comparison")
    (from (shadow_ s) ShadowComparison.message "Waiting for Shadow comparison")
    (from (shadow_ s) (fun m => J_object
       [("linear_error", J_number (to_double (ShadowComparison.linear_absolute_error m)));
        ("angular_error", J_number (to_double (ShadowComparison.angular_absolute_error m)));
        ("within_threshold", J_bool (ShadowComparison.within_threshold m))]) empty_object)
    false false.

Definition episode_status (s : PipelineTraceAggregator) (current : Z) : Z :=
  let episode_age := age_seconds (episode_ s) current in
  let aged := freshness_status episode_age (stale_seconds_ p) PipelineStage.STATUS_READY in
  from (episode_ s) (fun m =>
    if dle episode_age (stale_seconds_ p) then
      if (EpisodeState.state m =? EpisodeState.STATE_RECORDING)%Z then PipelineStage.STATUS_LIVE
      else if (EpisodeState.state m =? EpisodeState.STATE_ERROR)%Z then PipelineStage.STATUS_FAILED
      else PipelineStage.STATUS_READY
    else aged) aged.

Definition trace_recording (s : PipelineTraceAggregator) (current now : Z) :=
  stage now "trace_recording" "Episode / Trace" "episode_recorder"
    (episode_status s current) (age_seconds (episode_ s) current) no_latency
    (trace_observation_id s) (from (episode_ s) EpisodeState.episode_id "No Episode")
    (from (episode_ s) EpisodeState.message "Waiting for Episode state")
    (from (episode_ s) (fun m => J_object
       [("state", J_integer (EpisodeState.state m));
        ("episode_id", J_string (EpisodeState.episode_id m));
        ("message_count", J_integer (EpisodeState.message_count m));
        ("image_count", J_integer (EpisodeState.image_count m))]) empty_object)
    false false.

(** [publish]: [current] is the reading of the steady clock, [now n] the one of
    the node's clock by the [n]-th call of [now()]. *)
Definition stages (s : PipelineTraceAggregator) (current : Z) (now : nat -> Z)
  : Outcome (list PipelineStage.PipelineStageMsg) :=
  omap_list (fun x => x)
    [sensor_capture s current (now 1%nat); observation_health s current (now 2%nat);
     observation_assembly s current (now 3%nat); contract_validation s current (now 4%nat);
     model_runtime s current (now 5%nat); policy_output s current (now 6%nat);
     action_runtime s current (now 7%nat); control_mux s current (now 8%nat);
     safety_guard s current (now 9%nat); shadow_evaluation s current (now 10%nat);
     trace_recording s current (now 11%nat)].

Definition publish (s : PipelineTraceAggregator) (current : Z) (now : nat -> Z)
  : Outcome PipelineTrace.PipelineTraceMsg :=
  let! all := stages s current now in
  Returns (PipelineTrace.Make (Header.Make (to_msg (now 0%nat)) "")
    (if str_empty (trace_observation_id s) then "live-waiting" else "live-" ++ trace_observation_id s)
    (trace_observation_id s) "live"
    (from (policy_status_ s) PolicyStatus.provider_id "")
    (from (policy_status_ s) PolicyStatus.model_id "")
    all (shadow_only s) false).

(** An exception leaves the timer callback and ends the node. *)
Inductive Event :=
| Received (t : Topic) (m : message_of t) (now : Z)
| Timer (current : Z) (now : nat -> Z).

Definition next (s : PipelineTraceAggregator) (e : Event)
  : PipelineTraceAggregator * list (Outcome PipelineTrace.PipelineTraceMsg) :=
  match e with
  | Received t m now => (on_message t m now s, [])
  | Timer current now => (s, [publish s current now])
  end.
End Publish.

#[local] Close Scope string_scope.

(** ** The last message of a topic *)
Definition timed (s : PipelineTraceAggregator) (t : Topic) : Timed (message_of t) :=
  match t with
  | Camera => camera_ s | ObservationHealth => observation_status_ s
  | Observation => observation_ s | PolicyState => policy_status_ s
  | Action => policy_action_ s | RawCommand => raw_command_ s
  | SelectedCommand => selected_command_ s | FinalCommand => final_command_ s
  | Safety => safety_ s | Shadow => shadow_ s | Episode => episode_ s | System => system_ s
  end.

Definition silent_on (t : Topic) (e : Event) : Prop :=
  match e with Received t' _ _ => t' <> t | Timer _ _ => True end.

Definition never_received (es : list Event) (t : Topic) : Prop := Forall (silent_on t) es.

(** [m], received at [r], is the last message of [t] *)
Definition latest (es : list Event) (t : Topic) (m : message_of t) (r : Z) : Prop :=
  exists es1 es2, es = es1 ++ Received t m r :: es2 /\ never_received es2 t.

(** no clock reading of [es] is after [current]: the steady clock *)
Definition before (current : Z) (es : list Event) : Prop :=
  Forall (fun e => match e with Received _ _ r => r <= current | Timer _ _ => True end) es.

Definition tracked (es : list Event) (t : Topic) (v : Timed (message_of t)) : Prop :=
  match message v with
  | None => never_received es t
  | Some m => latest es t m (received v)
  end.

Lemma timed_on_message t m now s : timed (on_message t m now s) t = update m now.
Proof. by destruct t. Qed.

Lemma timed_on_other t t' m now s : t' <> t -> timed (on_message t' m now s) t = timed s t.
Proof. by destruct t, t'. Qed.

Lemma tracked_silent es t v e : tracked es t v -> silent_on t e -> tracked (es ++ [e]) t v.
Proof.
  unfold tracked. destruct (message v) as [m|]; intros Ht He.
  - destruct Ht as (es1 & es2 & -> & Hs). exists es1, (es2 ++ [e]). rewrite <- app_assoc.
    split; [done|]. apply Forall_app; split; [done|by constructor].
  - apply Forall_app; split; [done|by constructor].
Qed.

(** when [t] was last received: [latest] is about one message *)
Definition last_time (t : Topic) (es : list Event) : option Z :=
  fold_left (fun acc e => match e with
    | Received t' _ r => if decide (t' = t) then Some r else acc
    | Timer _ _ => acc
    end) es None.

Lemma last_time_silent t es : never_received es t -> last_time t es = None.
Proof.
  unfold last_time. generalize (@None Z). induction es as [|e es IH]; intros o He; [done|].
  apply Forall_cons in He as [He Hs]. simpl. destruct e; simpl in He; [|by apply IH].
  rewrite decide_False by done. by apply IH.
Qed.

Lemma last_time_latest t es m r : latest es t m r -> last_time t es = Some r.
Proof.
  intros (es1 & es2 & -> & Hs). unfold last_time. rewrite fold_left_app. simpl.
  rewrite decide_True by done. generalize (Some r). revert Hs.
  induction es2 as [|e es2 IH]; intros He o; [done|].
  apply Forall_cons in He as [He Hs]. simpl. destruct e; simpl in He; [|by apply IH].
  rewrite decide_False by done. by apply IH.
Qed.

(** two last messages are the same one *)
Lemma silent_tail es1 es2 t m r es1' es2' m' r' :
  es1 ++ Received t m r :: es2 = es1' ++ Received t m' r' :: es2' ->
  never_received es2 t -> never_received es2' t ->
  Received t m r = Received t m' r'.
Proof.
  intros E Hs Hs'. apply (f_equal (@rev Event)) in E. rewrite !rev_app_distr in E. simpl in E.
  rewrite <- !app_assoc in E. apply Forall_rev in Hs, Hs'. revert E Hs Hs'.
  generalize (rev es2), (rev es2'), (rev es1), (rev es1'). clear.
  induction l as [|e l IH]; intros [|e' l'] k k' E Hs Hs'; apply (inj2 cons) in E as [E1 E2].
  - done.
  - subst e'. by apply Forall_cons in Hs' as [[] _].
  - subst e. by apply Forall_cons in Hs as [[] _].
  - apply Forall_cons in Hs as [_ Hs], Hs' as [_ Hs']. by eapply IH.
Qed.

Lemma latest_unique es t m r m' r' :
  latest es t m r -> latest es t m' r' -> m = m' /\ r = r'.
Proof.
  intros (es1 & es2 & -> & Hs) (es1' & es2' & E & Hs').
  pose proof (silent_tail _ _ _ _ _ _ _ _ _ E Hs Hs') as Eq.
  injection Eq as Em Er. by apply (inj_pair2_eq_dec _ topic_eq_dec) in Em.
Qed.

Lemma latest_before current es t m r : latest es t m r -> before current es -> r <= current.
Proof.
  intros (es1 & es2 & -> & _) Hb. apply Forall_app in Hb as [_ Hb]. by apply Forall_cons in Hb as [? _].
Qed.

Section Facts.
Context `{Rclcpp} `{Nlohmann}.
Variable p : Parameters.

Lemma run_tracked es t : tracked es t (timed (fst (run (next p) initial es)) t).
Proof.
  induction es as [|e es IH] using rev_ind; [by destruct t; constructor|].
  rewrite run_app_fst, run_one. destruct e as [t' m now|current now]; cbn [next fst].
  - destruct (decide (t' = t)) as [->|Hne].
    + rewrite timed_on_message. exists es, []. split; [done|constructor].
    + rewrite timed_on_other by done. by apply tracked_silent.
  - by apply tracked_silent.
Qed.

(** ** Ages and statuses *)
Lemma age_never {T} (v : Timed T) current :
  message v = None -> age_seconds v current = of_int (-1).
Proof. unfold age_seconds. by intros ->. Qed.

Lemma freshness_never {T} (v : Timed T) current threshold fresh_status :
  message v = None ->
  freshness_status (age_seconds v current) threshold fresh_status = PipelineStage.STATUS_WAITING.
Proof. intros E. unfold freshness_status. by rewrite age_never. Qed.

Lemma freshness_received {T} (v : Timed T) m current threshold fresh_status :
  message v = Some m -> received v <= current ->
  freshness_status (age_seconds v current) threshold fresh_status =
  if dle (chrono_seconds (current - received v)) threshold then fresh_status
  else PipelineStage.STATUS_STALE.
Proof.
  intros E Hr. unfold freshness_status, age_seconds. rewrite E.
  by rewrite chrono_seconds_nonneg by lia.
Qed.

(** what the status of a stage says about the last message of its topic *)
Definition alive (status : Z) : Prop :=
  status <> PipelineStage.STATUS_WAITING /\ status <> PipelineStage.STATUS_STALE.

Definition honest {T} (v : Timed T) (current : Z) (threshold : double) (status : Z) : Prop :=
  match message v with
  | None => status = PipelineStage.STATUS_WAITING
  | Some _ =>
      status <> PipelineStage.STATUS_WAITING /\
      (alive status <-> dle (chrono_seconds (current - received v)) threshold = true)
  end.

Lemma freshness_honest {T} (v : Timed T) current threshold fresh_status :
  (is_Some (message v) -> received v <= current) -> alive fresh_status ->
  honest v current threshold (freshness_status (age_seconds v current) threshold fresh_status).
Proof.
  intros Hr [Ha1 Ha2]. unfold honest. destruct (message v) as [m|] eqn:E.
  - rewrite (freshness_received v m) by eauto. destruct (dle _ _); [done|].
    split; [done|]. split; [by intros [_ []]|done].
  - by apply freshness_never.
Qed.

(** a refinement of the status of a fresh message *)
Lemma refined_honest {T} (v : Timed T) current threshold fresh_status (f : T -> Z) status :
  (is_Some (message v) -> received v <= current) ->
  alive fresh_status -> (forall m, alive (f m)) ->
  status = from v (fun m => if dle (age_seconds v current) threshold then f m
                            else freshness_status (age_seconds v current) threshold fresh_status)
             (freshness_status (age_seconds v current) threshold fresh_status) ->
  honest v current threshold status.
Proof.
  intros Hr Ha Hf ->. unfold from. destruct (message v) as [m|] eqn:E.
  - unfold honest. rewrite (freshness_received v m) by eauto. rewrite E.
    unfold age_seconds. rewrite E. destruct (dle _ _) eqn:Hd; [by destruct (Hf m)|].
    split; [done|]. split; [by intros [_ []]|done].
  - unfold honest. rewrite E. by apply freshness_never.
Qed.

(** ** The eleven stages *)
Record Row := MakeRow {
  row_id : string; row_topic : Topic; row_status : Z; row_boundary : bool; row_control : bool }.

(** what the trace shows of a state: stage, topic its age is taken from, status
    and the two control flags *)
Definition rows (s : PipelineTraceAggregator) (current : Z) : list Row :=
  let aged {T} (v : Timed T) := freshness_status (age_seconds v current) in
  [MakeRow "sensor_capture" Camera
     (aged (camera_ s) (camera_stale_seconds_ p) PipelineStage.STATUS_LIVE) false false;
   MakeRow "observation_health" ObservationHealth (health_status p s current) false false;
   MakeRow "observation_assembly" Observation
     (aged (observation_ s) (stale_seconds_ p) PipelineStage.STATUS_READY) false false;
   MakeRow "contract_validation" Observation (fst (fst (contract_result p s current))) false false;
   MakeRow "model_runtime" PolicyState (runtime_status p s current) false false;
   MakeRow "policy_output" Action
     (aged (policy_action_ s) (policy_action_stale_seconds_ p) PipelineStage.STATUS_READY) false false;
   MakeRow "action_runtime" RawCommand
     (aged (raw_command_ s) (command_stale_seconds_ p) PipelineStage.STATUS_READY) false false;
   MakeRow "control_mux" SelectedCommand
     (aged (selected_command_ s) (command_stale_seconds_ p) PipelineStage.STATUS_READY) true false;
   MakeRow "safety_guard" FinalCommand (fst (safety_result p s current)) true true;
   MakeRow "shadow_evaluation" Shadow (shadow_status p s current) false false;
   MakeRow "trace_recording" Episode (episode_status p s current) false false].

Definition shows (r : Row) (st : PipelineStage.PipelineStageMsg) : Prop :=
  PipelineStage.stage_id st = row_id r /\ PipelineStage.status st = row_status r /\
  PipelineStage.control_boundary st = row_boundary r /\
  PipelineStage.publishes_control st = row_control r.

Lemma stage_returns now id label component status age latency input output text detail cb pc st :
  stage now id label component status age latency input output text detail cb pc = Returns st ->
  exists json, st = PipelineStage.Make id label component status (to_msg now) (to_float age)
    (to_float latency) input output text json cb pc.
Proof. intros (json & _ & [= <-])%obind_returns. by exists json. Qed.

(** a returning stage is the last [stage] call of its definition *)
Ltac stage_shown :=
  intros;
  repeat match goal with
  | E : obind _ _ = Returns _ |- _ => apply obind_returns in E as (? & _ & E)
  | E : stage _ _ _ _ _ _ _ _ _ _ _ _ _ = Returns _ |- _ =>
      apply stage_returns in E as (? & ->)
  end; done.

Lemma contract_validation_shows s current now st :
  contract_validation p s current now = Returns st ->
  shows (MakeRow "contract_validation" Observation (fst (fst (contract_result p s current))) false false) st /\
  PipelineStage.output_summary st =
    (if (PipelineStage.status st =? PipelineStage.STATUS_READY)%Z then "ACCEPTED" else "BLOCKED")%string.
Proof.
  unfold contract_validation. destruct (contract_result p s current) as [[status text] detail].
  stage_shown.
Qed.

Lemma safety_guard_shows s current now st :
  safety_guard p s current now = Returns st ->
  shows (MakeRow "safety_guard" FinalCommand (fst (safety_result p s current)) true true) st.
Proof.
  unfold safety_guard. destruct (safety_result p s current) as [status text]. stage_shown.
Qed.

Lemma stages_show s current now all :
  stages p s current now = Returns all -> Forall2 shows (rows s current) all.
Proof.
  unfold stages. rewrite omap_list_returns.
  unfold rows, sensor_capture, observation_health, observation_assembly, model_runtime,
    policy_output, action_runtime, control_mux, shadow_evaluation, trace_recording. intros HF.
  repeat match goal with
  | HF : Forall2 _ (_ :: _) _ |- _ => inversion HF as [|? ? ? ? ? ?]; subst; clear HF
  | HF : Forall2 _ [] _ |- _ => inversion HF; subst; clear HF
  end.
  repeat apply Forall2_cons_2; [..|apply Forall2_nil_2].
  all: first [by eapply safety_guard_shows | by eapply contract_validation_shows | stage_shown].
Qed.

Lemma publish_stages s current now trace :
  publish p s current now = Returns trace ->
  Forall2 shows (rows s current) (PipelineTrace.stages trace).
Proof. intros (all & Hall & [= <-])%obind_returns. by apply (stages_show _ _ now). Qed.

(** ** Every status is honest *)
Definition threshold (t : Topic) : double :=
  match t with
  | Camera => camera_stale_seconds_ p
  | Action => policy_action_stale_seconds_ p
  | RawCommand | SelectedCommand | FinalCommand => command_stale_seconds_ p
  | Shadow => shadow_stale_seconds_ p
  | _ => stale_seconds_ p
  end.

(** an active safety event is shown whatever the age of the final command *)
Definition overridden (s : PipelineTraceAggregator) (t : Topic) : Prop :=
  t = FinalCommand /\ from (safety_ s) SafetyEvent.active false = true.

Lemma override_honest {T} (v : Timed T) current inner outer fresh_status bad_status (bad : T -> bool) :
  (is_Some (message v) -> received v <= current) ->
  alive fresh_status -> alive bad_status -> dle inner outer = true ->
  honest v current outer
    (if from v (fun m => dle (age_seconds v current) inner && bad m) false then bad_status
     else freshness_status (age_seconds v current) outer fresh_status).
Proof.
  intros Hr Ha Hb Hle. unfold from. destruct (message v) as [m|] eqn:E;
    [|by rewrite freshness_never; unfold honest; try rewrite E].
  destruct (dle _ _ && _) eqn:Hd; [|by apply freshness_honest; rewrite ?E].
  apply andb_true_iff in Hd as [Hd _]. unfold honest. unfold age_seconds in Hd. rewrite E in Hd |- *.
  split; [by destruct Hb|]. split; [|done]. intros _. by eapply dle_trans.
Qed.

Lemma rows_honest s current :
  (forall t, is_Some (message (timed s t)) -> received (timed s t) <= current) ->
  dle (stale_seconds_ p) (shadow_stale_seconds_ p) = true ->
  Forall (fun r => overridden s (row_topic r) \/
    honest (timed s (row_topic r)) current (threshold (row_topic r)) (row_status r)) (rows s current).
Proof.
  intros Hr Hle. unfold rows. repeat apply Forall_cons_2; [..|apply Forall_nil_2];
    cbn [row_topic row_status];
    match goal with |- overridden _ ?t \/ _ => specialize (Hr t) end.
  all: try (right; apply freshness_honest; [exact Hr|done]).
  - right. apply override_honest; [exact Hr|done..|]. by apply dle_refl, (dle_is_nan _ _ Hle).
  - right. eapply (refined_honest (observation_ s) _ _ PipelineStage.STATUS_READY (fun m =>
      match blocking_issues (check_contract m) with
      | [] => PipelineStage.STATUS_READY | _ => PipelineStage.STATUS_REJECTED end));
      [exact Hr|done|intros; by case_match|].
    unfold contract_result. destruct (observation_ s) as [[m|] r]; [|done].
    cbn [from message threshold]. by case_match.
  - right. eapply (refined_honest _ _ _ PipelineStage.STATUS_READY); [exact Hr|done| |reflexivity].
    intros m. simpl. by repeat case_match.
  - unfold safety_result, overridden. destruct (safety_ s) as [[e|] r]; cbn [from message];
      [destruct (SafetyEvent.active e); [by left|]|]; right; by apply freshness_honest.
  - right. apply override_honest; [exact Hr|done..].
  - right. eapply (refined_honest _ _ _ PipelineStage.STATUS_READY); [exact Hr|done| |reflexivity].
    intros m. simpl. by repeat case_match.
Qed.

Lemma Forall2_with_l {A B} (P : A -> Prop) (R S : A -> B -> Prop) l k :
  Forall P l -> Forall2 R l k -> (forall x y, P x -> R x y -> S x y) -> Forall2 S l k.
Proof. intros HP HR HS. induction HR; constructor; apply Forall_cons in HP as [? ?]; auto. Qed.

(** ** What the whole trace says *)
Definition stage_topics : list (string * Topic) :=
  [("sensor_capture", Camera); ("observation_health", ObservationHealth);
   ("observation_assembly", Observation); ("contract_validation", Observation);
   ("model_runtime", PolicyState); ("policy_output", Action); ("action_runtime", RawCommand);
   ("control_mux", SelectedCommand); ("safety_guard", FinalCommand);
   ("shadow_evaluation", Shadow); ("trace_recording", Episode)]%string.

(** the last safety event says that a rule is active *)
Definition alarmed (es : list Event) (t : Topic) : Prop :=
  t = FinalCommand /\ exists e r, latest es Safety e r /\ SafetyEvent.active e = true.

Definition fresh_message (es : list Event) (current : Z) (t : Topic) : Prop :=
  exists m r, latest es t m r /\ dle (chrono_seconds (current - r)) (threshold t) = true.

Definition truthful (es : list Event) (current : Z) (it : string * Topic)
    (st : PipelineStage.PipelineStageMsg) : Prop :=
  PipelineStage.stage_id st = fst it /\
  (alarmed es (snd it) \/
   (PipelineStage.status st = PipelineStage.STATUS_WAITING <-> never_received es (snd it)) /\
   (alive (PipelineStage.status st) <-> fresh_message es current (snd it))).

Lemma honest_truthful es t v current status :
  tracked es t v -> honest v current (threshold t) status ->
  (status = PipelineStage.STATUS_WAITING <-> never_received es t) /\
  (alive status <-> fresh_message es current t).
Proof.
  unfold tracked, honest. destruct (message v) as [m|] eqn:E; intros Ht.
  - pose proof (last_time_latest _ _ _ _ Ht) as Hl. intros [Hw Ha]. split; [split; [done|]|].
    + intros Hn. apply last_time_silent in Hn. congruence.
    + rewrite Ha. split; [by exists m, (received v)|]. intros (m' & r & Hr & Hd).
      apply last_time_latest in Hr. by replace (received v) with r by congruence.
  - intros ->. split; [done|]. split; [by intros [[] _]|]. intros (m & r & Hr & _).
    apply last_time_latest in Hr. apply last_time_silent in Ht. congruence.
Qed.

Lemma received_before es current t :
  before current es ->
  is_Some (message (timed (fst (run (next p) initial es)) t)) ->
  received (timed (fst (run (next p) initial es)) t) <= current.
Proof.
  intros Hb [m E]. pose proof (run_tracked es t) as Ht. unfold tracked in Ht. rewrite E in Ht.
  by eapply latest_before.
Qed.

Lemma overridden_alarmed es t : overridden (fst (run (next p) initial es)) t -> alarmed es t.
Proof.
  intros [-> Ha]. split; [done|]. pose proof (run_tracked es Safety) as Ht.
  revert Ha Ht. unfold from, tracked, timed.
  destruct (safety_ (fst (run (next p) initial es))) as [[e|] r]; [|done]. by exists e, r.
Qed.

Lemma rows_topics s current : map (fun r => (row_id r, row_topic r)) (rows s current) = stage_topics.
Proof. done. Qed.

(** ** Single stages *)
Lemma publish_stage s current now trace (n : nat) m :
  publish p s current now = Returns trace ->
  [sensor_capture p s current (now 1%nat); observation_health p s current (now 2%nat);
   observation_assembly p s current (now 3%nat); contract_validation p s current (now 4%nat);
   model_runtime p s current (now 5%nat); policy_output p s current (now 6%nat);
   action_runtime p s current (now 7%nat); control_mux p s current (now 8%nat);
   safety_guard p s current (now 9%nat); shadow_evaluation p s current (now 10%nat);
   trace_recording p s current (now 11%nat)] !! n = Some m ->
  exists st, PipelineTrace.stages trace !! n = Some st /\ m = Returns st.
Proof.
  intros (all & Hall & [= <-])%obind_returns Hn. unfold stages in Hall.
  apply omap_list_returns in Hall. destruct (Forall2_lookup_l _ _ _ _ _ Hall Hn) as (st & Hst & ->).
  by exists st.
Qed.

Lemma last_message es t m r :
  latest es t m r -> exists m', timed (fst (run (next p) initial es)) t = MakeTimed (Some m') r.
Proof.
  intros Hl%last_time_latest. pose proof (run_tracked es t) as Ht. unfold tracked in Ht.
  destruct (timed _ t) as [[m'|] r']; cbn [message received] in Ht.
  - apply last_time_latest in Ht. exists m'. by replace r' with r by congruence.
  - apply last_time_silent in Ht. congruence.
Qed.

Definition contract_holds (m : PolicyObservation.PolicyObservationMsg) : Prop :=
  PolicyObservation.schema_version m = "vehicle.observation.v1"%string /\
  PolicyObservation.task m <> ""%string /\
  exists image rest, PolicyObservation.images m = image :: rest /\ CompressedImage.data image <> [].

Lemma contract_holds_issues m : contract_holds m <-> blocking_issues (check_contract m) = [].
Proof.
  unfold contract_holds, blocking_issues, check_contract. cbn [schema_valid image_valid task_valid].
  rewrite !app_nil. split.
  - intros (-> & Ht & image & rest & -> & Hd). destruct (PolicyObservation.task m); [done|].
    by destruct (CompressedImage.data image).
  - intros (Hs & Hi & Ht).
    destruct (String.eqb_spec (PolicyObservation.schema_version m) "vehicle.observation.v1"); [|done].
    destruct (PolicyObservation.images m) as [|image rest]; [done|]. split; [done|].
    split; [by destruct (PolicyObservation.task m)|]. exists image, rest. split; [done|].
    by destruct (CompressedImage.data image).
Qed.
End Facts.

(** ** Publishing does not fail *)
Section Texts.
Context `{Rclcpp} `{Nlohmann}.
Variable p : Parameters.

(** [utf8]: the strings [dump] accepts *)
Variable utf8 : string -> bool.

Fixpoint texts_ok (v : JsonValue) : bool :=
  match v with
  | J_string s => utf8 s
  | J_array l => forallb texts_ok l
  | J_object members => forallb (fun m => utf8 (fst m) && texts_ok (snd m)) members
  | _ => true
  end.

(** the documented behaviour of the library on well-formed texts *)
Class NlohmannLaws := {
  ascii_utf8 s : forallb (fun c => (N_of_ascii c <? 128)%N) (list_ascii_of_string s) = true -> utf8 s = true;
  dump_ok v : texts_ok v = true -> exists text, dump v = Returns text /\ utf8 text = true;
  parse_dump v text : dump v = Returns text -> exists w, parse text = Returns w /\ texts_ok w = true
}.

(** all texts of the messages that end in [detail_json] *)
Definition readable (s : PipelineTraceAggregator) : Prop :=
  from (camera_ s) (fun m => utf8 (CompressedImage.format m) && utf8 (Header.frame_id (CompressedImage.header m))) true = true /\
  from (observation_ s) (fun m => utf8 (PolicyObservation.schema_version m) && utf8 (PolicyObservation.task m)) true = true /\
  from (policy_status_ s) (fun m => utf8 (PolicyStatus.provider_id m) && utf8 (PolicyStatus.model_id m) &&
    utf8 (PolicyStatus.protocol_version m)) true = true /\
  from (policy_action_ s) (fun m => utf8 (PolicyAction.request_id m) && utf8 (PolicyAction.observation_id m) &&
    utf8 (PolicyAction.schema_version m) && utf8 (PolicyAction.schema_hash m) &&
    forallb utf8 (PolicyAction.feature_names m)) true = true /\
  from (safety_ s) (fun m => utf8 (SafetyEvent.rule_id m)) true = true /\
  from (episode_ s) (fun m => utf8 (EpisodeState.episode_id m)) true = true /\
  from (system_ s) (fun m => utf8 (SystemState.control_source m)) true = true.

Context `{NlohmannLaws}.

Definition succeeds {A} (m : Outcome A) : Prop := exists a, m = Returns a.

Lemma stage_succeeds now id label component status age latency input output text detail cb pc :
  texts_ok detail = true ->
  succeeds (stage now id label component status age latency input output text detail cb pc).
Proof. intros (j & E & _)%dump_ok. unfold stage. rewrite E. by eexists. Qed.

Lemma twist_json_ok t : exists text, twist_json t = Returns text /\ utf8 text = true.
Proof. apply dump_ok. simpl. by rewrite !ascii_utf8. Qed.

Lemma twist_value_ok t : exists w, twist_value t = Returns w /\ texts_ok w = true.
Proof.
  destruct (twist_json_ok t) as (text & E & _). unfold twist_value. rewrite E.
  by apply (parse_dump _ _ E).
Qed.

Lemma from_twist_json {T} (v : Timed T) f d : exists text, from v (fun m => twist_json (f m)) (Returns d) = Returns text.
Proof.
  unfold from. destruct (message v); [|by eexists].
  destruct (twist_json_ok (f t)) as (text & -> & _). by eexists.
Qed.

Lemma from_twist_value {T} (v : Timed T) f :
  exists w, from v (fun m => twist_value (f m)) (Returns empty_object) = Returns w /\ texts_ok w = true.
Proof.
  unfold from. destruct (message v); [|by eexists]. apply twist_value_ok.
Qed.

Lemma texts_ok_numbers l : forallb texts_ok (map (fun x => J_number (to_double x)) l) = true.
Proof. by induction l. Qed.

Lemma texts_ok_strings l : forallb texts_ok (map J_string l) = forallb utf8 l.
Proof. induction l; simpl; by f_equal. Qed.

(** reduce the texts of a detail to those of the message *)
Ltac texts :=
  cbn [texts_ok forallb fst snd empty_object from message]; rewrite ?andb_true_iff;
  split_and?; try done; try (by apply ascii_utf8).
Lemma plain_stages_succeed s current now :
  readable s ->
  succeeds (sensor_capture p s current now) /\ succeeds (observation_health p s current now) /\
  succeeds (observation_assembly p s current now) /\ succeeds (model_runtime p s current now) /\
  succeeds (shadow_evaluation p s current now) /\ succeeds (trace_recording p s current now).
Proof.
  unfold readable. intros (Hc & Ho & Hs & _ & _ & He & _).
  split_and!; apply stage_succeeds.
  - destruct (camera_ s) as [[m|] r]; [|done]. cbn [from message] in Hc. apply andb_true_iff in Hc as [? ?]. texts.
  - destruct (observation_status_ s) as [[m|] r]; texts.
  - destruct (observation_ s) as [[m|] r]; [|done]. cbn [from message] in Ho. apply andb_true_iff in Ho as [? ?]. texts.
  - destruct (policy_status_ s) as [[m|] r]; [|done]. cbn [from message] in Hs.
    rewrite !andb_true_iff in Hs. destruct Hs as [[? ?] ?]. texts.
  - destruct (shadow_ s) as [[m|] r]; texts.
  - destruct (episode_ s) as [[m|] r]; [|done]. cbn [from message] in He. texts.
Qed.

Lemma contract_validation_succeeds s current now :
  succeeds (contract_validation p s current now).
Proof.
  unfold contract_validation. destruct (contract_result p s current) as [[status text] detail] eqn:E.
  apply stage_succeeds. unfold contract_result in E.
  destruct (observation_ s) as [[m|] r]; cbn [from message] in E; [|by injection E as _ _ <-].
  case_match; injection E as _ _ <-; [|done]. unfold contract_detail. texts.
  - unfold blocking_issues. destruct (check_contract m) as [[] [] []];
      cbn [schema_valid image_valid task_valid app map]; texts.
  - case_match; texts.
Qed.

Lemma policy_output_succeeds s current now :
  readable s -> succeeds (policy_output p s current now).
Proof.
  unfold readable, policy_output. intros (_ & _ & _ & Ha & _).
  destruct (policy_action_ s) as [[a|] r]; cbn [from message] in *; [|by apply stage_succeeds].
  rewrite !andb_true_iff in Ha. destruct Ha as [[[[? ?] ?] ?] Hf].
  assert (exists w, first_policy_action a = Returns w /\ texts_ok w = true) as (w & -> & Hw).
  { unfold first_policy_action. destruct (PolicyAction.action_vectors a) as [|values ?].
    - destruct (PolicyAction.actions a) as [|t ?]; [by eexists|].
      destruct (twist_json_ok t) as (text & -> & Ht). by eexists.
    - eexists. split; [done|]. texts; [by rewrite texts_ok_strings|apply texts_ok_numbers]. }
  apply stage_succeeds. texts.
Qed.

Lemma control_stages_succeed s current now :
  readable s ->
  succeeds (action_runtime p s current now) /\ succeeds (control_mux p s current now) /\
  succeeds (safety_guard p s current now).
Proof.
  unfold readable. intros (_ & _ & _ & _ & Hg & _ & Hy). split_and!.
  - unfold action_runtime. destruct (from_twist_json (raw_command_ s) TwistStamped.twist "No candidate") as [o ->].
    destruct (from_twist_value (raw_command_ s) TwistStamped.twist) as (w & -> & Hw).
    by apply stage_succeeds.
  - unfold control_mux.
    destruct (from_twist_json (selected_command_ s) TwistStamped.twist "No selected command") as [o ->].
    cbn [obind]. destruct (selected_command_ s) as [[m|] r]; cbn [from message]; [|by apply stage_succeeds].
    destruct (twist_value_ok (TwistStamped.twist m)) as (w & -> & Hw). apply stage_succeeds. texts.
    destruct (system_ s) as [[y|] ?]; [done|]. by apply ascii_utf8.
  - unfold safety_guard. destruct (safety_result p s current).
    destruct (from_twist_json (selected_command_ s) TwistStamped.twist "No selected command") as [o ->].
    destruct (from_twist_json (final_command_ s) (fun m => m) "No final command") as [o' ->].
    destruct (from_twist_value (final_command_ s) (fun m => m)) as (w & -> & Hw).
    apply stage_succeeds. texts. destruct (safety_ s) as [[y|] ?]; [done|]. by apply ascii_utf8.
Qed.

Lemma publish_succeeds s current now : readable s -> succeeds (publish p s current now).
Proof.
  intros Hr. unfold publish, stages.
  destruct (plain_stages_succeed s current (now 1%nat) Hr) as ([? ->] & _).
  destruct (plain_stages_succeed s current (now 2%nat) Hr) as (_ & [? ->] & _).
  destruct (plain_stages_succeed s current (now 3%nat) Hr) as (_ & _ & [? ->] & _).
  destruct (contract_validation_succeeds s current (now 4%nat)) as [? ->].
  destruct (plain_stages_succeed s current (now 5%nat) Hr) as (_ & _ & _ & [? ->] & _).
  destruct (policy_output_succeeds s current (now 6%nat) Hr) as [? ->].
  destruct (control_stages_succeed s current (now 7%nat) Hr) as ([? ->] & _).
  destruct (control_stages_succeed s current (now 8%nat) Hr) as (_ & [? ->] & _).
  destruct (control_stages_succeed s current (now 9%nat) Hr) as (_ & _ & [? ->]).
  destruct (plain_stages_succeed s current (now 10%nat) Hr) as (_ & _ & _ & _ & [? ->] & _).
  destruct (plain_stages_succeed s current (now 11%nat) Hr) as (_ & _ & _ & _ & _ & [? ->]).
  by eexists.
Qed.
End Texts.

(** for every sequence of messages and every published trace: a stage says
    WAITING exactly when nothing has been received on its topic, and shows
    something other than WAITING or STALE exactly when the last message of its
    topic is no older than the threshold.  The stage of the guard is the
    exception, while the last safety event is an active rule. *)
Theorem statuses_are_truthful `{Rclcpp} `{Nlohmann} p es current now trace :
  before current es -> dle (stale_seconds_ p) (shadow_stale_seconds_ p) = true ->
  publish p (fst (run (next p) initial es)) current now = Returns trace ->
  Forall2 (truthful p es current) stage_topics (PipelineTrace.stages trace).
Proof.
  intros Hb Hle Hp. set (s := fst (run (next p) initial es)) in *.
  rewrite <- (rows_topics p s current). apply Forall2_fmap_l.
  eapply Forall2_with_l; [|by eapply publish_stages|].
  - apply rows_honest; [|done]. intros t. by apply received_before.
  - intros r st Hr (Hid & Hst & _). split; [done|]. cbn [snd]. rewrite Hst.
    destruct Hr as [Ho|Hr]; [left; by eapply overridden_alarmed|right].
    eapply honest_truthful; [|done]. apply run_tracked.
Qed.

(** the contract stage says ACCEPTED exactly when the last observation is
    fresh, names the schema the platform uses, has a task and a first image
    that is not empty. *)
Theorem accepted_iff_contract_holds `{Rclcpp} `{Nlohmann} p es current now trace :
  before current es ->
  publish p (fst (run (next p) initial es)) current now = Returns trace ->
  exists st, PipelineTrace.stages trace !! 3%nat = Some st /\
    (PipelineStage.output_summary st = "ACCEPTED"%string <->
     exists m r, latest es Observation m r /\ contract_holds m /\
       dle (chrono_seconds (current - r)) (stale_seconds_ p) = true).
Proof.
  intros Hb Hp. destruct (publish_stage _ _ _ _ _ 3 _ Hp eq_refl) as (st & Hst & E).
  exists st. split; [done|]. apply contract_validation_shows in E as [(_ & Hs & _) ->].
  cbn [row_status] in Hs. pose proof (run_tracked p es Observation) as Ht.
  pose proof (received_before p es current Observation Hb) as Hr.
  rewrite Hs. clear Hs. unfold contract_result. revert Ht Hr. unfold tracked. cbn [timed].
  destruct (observation_ (fst (run (next p) initial es))) as [[m|] r]; cbn [from message received];
    intros Ht Hr; last first.
  { split; [done|]. intros (m & r' & Hl & _). apply last_time_latest in Hl.
    apply last_time_silent in Ht. congruence. }
  assert (Hage : age_seconds (MakeTimed (Some m) r) current = chrono_seconds (current - r)) by done.
  rewrite Hage. destruct (dle (chrono_seconds (current - r)) (stale_seconds_ p)) eqn:Hd.
  - cbn [fst]. split.
    + intros Ha. exists m, r. split_and!; [done| |done]. apply contract_holds_issues.
      by destruct (blocking_issues (check_contract m)).
    + intros (m' & r' & Hl & Hc & _). apply contract_holds_issues in Hc.
      destruct (latest_unique _ _ _ _ _ _ Hl Ht) as [-> _]. by rewrite Hc.
  - cbn [fst]. unfold freshness_status. rewrite Hd, chrono_seconds_nonneg by (assert (r <= current) by (apply Hr; by exists m); lia).
    split; [done|]. intros (m' & r' & Hl%last_time_latest & _ & Hd'). apply last_time_latest in Ht.
    replace r' with r in Hd' by congruence. congruence.
Qed.

(** as long as the texts it received are UTF-8, the aggregator publishes at
    every timer, whatever it received and whatever is missing or stale, and
    marks the guard, and only the guard, as what publishes control. *)
Theorem publishes_at_every_timer `{Rclcpp} `{Nlohmann} p (utf8 : string -> bool)
    `{!NlohmannLaws utf8} es current now :
  readable utf8 (fst (run (next p) initial es)) ->
  exists trace, snd (next p (fst (run (next p) initial es)) (Timer current now)) = [Returns trace] /\
    map PipelineStage.stage_id (PipelineTrace.stages trace) = map fst stage_topics /\
    map PipelineStage.stage_id (List.filter PipelineStage.publishes_control (PipelineTrace.stages trace)) =
      ["safety_guard"%string] /\
    PipelineTrace.publishes_control trace = false.
Proof.
  intros Hr. destruct (publish_succeeds p utf8 _ current now Hr) as [trace E].
  exists trace. cbn [next snd]. rewrite E. split; [done|].
  pose proof (publish_stages _ _ _ _ _ E) as Hs. apply obind_returns in E as (all & _ & [= <-]).
  cbn [PipelineTrace.stages PipelineTrace.publishes_control] in *. unfold rows in Hs.
  repeat match goal with
  | HF : Forall2 shows _ _ |- _ => inversion HF as [|? ? ? ? (? & _ & _ & ?) ?]; subst; clear HF
  end.
  simpl. repeat match goal with
  | E : PipelineStage.publishes_control _ = _ |- _ => rewrite E; clear E
  end. simpl. by repeat match goal with
  | E : PipelineStage.stage_id _ = _ |- _ => rewrite E; clear E
  end.
Qed.

(** A disagreement between policy and driver that is older than
    [stale_seconds_] but within [shadow_stale_seconds_] is shown as READY: the
    test for REJECTED uses the threshold of the other stages. *)
Theorem shadow_disagreement_hidden `{Rclcpp} `{Nlohmann} p es current now trace m r :
  before current es -> latest es Shadow m r -> ShadowComparison.within_threshold m = false ->
  dle (chrono_seconds (current - r)) (stale_seconds_ p) = false ->
  dle (chrono_seconds (current - r)) (shadow_stale_seconds_ p) = true ->
  publish p (fst (run (next p) initial es)) current now = Returns trace ->
  exists st, PipelineTrace.stages trace !! 9%nat = Some st /\
    PipelineStage.status st = PipelineStage.STATUS_READY /\
    PipelineStage.output_summary st = "OUTSIDE THRESHOLD"%string.
Proof.
  intros Hb Hl Hw Hd Hd' Hp. destruct (publish_stage _ _ _ _ _ 9 _ Hp eq_refl) as (st & Hst & E).
  exists st. split; [done|]. unfold shadow_evaluation in E.
  apply stage_returns in E as (json & ->). cbn [PipelineStage.status PipelineStage.output_summary].
  pose proof (run_tracked p es Shadow) as Ht. revert Ht. unfold shadow_status, tracked. cbn [timed].
  pose proof (latest_before _ _ _ _ _ Hl Hb).
  destruct (shadow_ (fst (run (next p) initial es))) as [[m'|] r']; cbn [from message received]; intros Ht.
  - destruct (latest_unique _ _ _ _ _ _ Hl Ht) as [-> ->].
    assert (Hage : age_seconds (MakeTimed (Some m') r') current = chrono_seconds (current - r')) by done.
    rewrite Hage. unfold freshness_status. rewrite Hd, Hd', Hw, chrono_seconds_nonneg by lia. done.
  - apply last_time_latest in Hl. apply last_time_silent in Ht. congruence.
Qed.

(** ** Witnesses *)
Definition nlohmann_demo : Nlohmann := {|
  dump _ := Returns "{}"%string;
  dump_indent _ _ := Returns "{}"%string;
  parse _ := Returns (J_object []);
  get_int _ := type_error; get_uint32 _ := type_error; get_uint64 _ := type_error;
  get_float _ := type_error; get_double _ := type_error
|}.
#[local] Existing Instance rclcpp_doc.
#[local] Existing Instance nlohmann_demo.

Lemma nlohmann_demo_laws : NlohmannLaws (fun _ => true).
Proof. split; [done|intros; by exists "{}"%string|intros; by exists (J_object [])]. Qed.

Definition demo_observation : PolicyObservation.PolicyObservationMsg :=
  PolicyObservation.zero <| PolicyObservation.schema_version := "vehicle.observation.v1"%string |>
    <| PolicyObservation.task := "drive to the dock"%string |>
    <| PolicyObservation.images := [CompressedImage.zero <| CompressedImage.data := [255; 216]%Z |>] |>.
Definition demo_events : list Event :=
  [Received Observation demo_observation 1000000000; Received Shadow ShadowComparison.zero 1500000000;
   Timer 2000000000 (fun _ => 0%Z); Received Camera CompressedImage.zero 2500000000].

Definition demo_trace (current : Z) : PipelineTrace.PipelineTraceMsg :=
  match publish default_parameters (fst (run (next default_parameters) initial demo_events))
    current (fun _ => 7%Z) with
  | Returns trace => trace
  | Throws _ => PipelineTrace.zero
  end.

Lemma statuses_are_truthful_witness :
  exists trace, publish default_parameters (fst (run (next default_parameters) initial demo_events))
    5500000000 (fun _ => 7%Z) = Returns trace /\
  Forall2 (truthful default_parameters demo_events 5500000000) stage_topics (PipelineTrace.stages trace).
Proof.
  eexists. split; [vm_compute; reflexivity|].
  apply (statuses_are_truthful default_parameters demo_events 5500000000 (fun _ => 7%Z));
    [by repeat constructor|vm_compute; reflexivity|vm_compute; reflexivity].
Defined.

Lemma accepted_iff_contract_holds_witness :
  exists trace st, publish default_parameters (fst (run (next default_parameters) initial demo_events))
    3000000000 (fun _ => 7%Z) = Returns trace /\
  PipelineTrace.stages trace !! 3%nat = Some st /\ PipelineStage.output_summary st = "ACCEPTED"%string.
Proof.
  destruct (accepted_iff_contract_holds default_parameters demo_events 3000000000 (fun _ => 7%Z)
    (demo_trace 3000000000)) as (st & Hst & Ha).
  - by repeat constructor.
  - vm_compute. reflexivity.
  - eexists _, st. split_and!; [|exact Hst|].
    + vm_compute. reflexivity.
    + apply Ha. exists demo_observation, 1000000000. split_and!; [| |vm_compute; reflexivity].
      * exists [], (tail demo_events). split; [done|]. by repeat constructor.
      * split_and!; [done|done|]. by eexists _, [].
Defined.

Lemma publishes_at_every_timer_witness :
  exists trace, snd (next default_parameters (fst (run (next default_parameters) initial demo_events))
    (Timer 3000000000 (fun _ => 7%Z))) = [Returns trace].
Proof.
  destruct (publishes_at_every_timer default_parameters (fun _ => true)
    (NlohmannLaws0 := nlohmann_demo_laws) demo_events 3000000000 (fun _ => 7%Z))
    as (trace & E & _); [by vm_compute; repeat split|].
  by exists trace.
Defined.

Lemma shadow_disagreement_hidden_witness :
  exists trace st, publish default_parameters (fst (run (next default_parameters) initial demo_events))
    5500000000 (fun _ => 7%Z) = Returns trace /\
  PipelineTrace.stages trace !! 9%nat = Some st /\
  PipelineStage.status st = PipelineStage.STATUS_READY.
Proof.
  destruct (shadow_disagreement_hidden default_parameters demo_events 5500000000 (fun _ => 7%Z)
    (demo_trace 5500000000) ShadowComparison.zero 1500000000) as (st & Hst & Hr & _).
  - by repeat constructor.
  - exists [Received Observation demo_observation 1000000000], [Timer 2000000000 (fun _ => 0%Z);
      Received Camera CompressedImage.zero 2500000000]. split; [done|]. by repeat constructor.
  - reflexivity.
  - vm_compute. reflexivity.
  - vm_compute. reflexivity.
  - vm_compute. reflexivity.
  - eexists _, st. split_and!; [|exact Hst|exact Hr]. vm_compute. reflexivity.
Defined.
