(* ===== verification/Json.v ===== *)
(** * JSON string escaping

    Two of the data tools write JSON by hand, each with a [json_escape] of its
    own: [vehicle_data/src/episode_recorder_node.cpp] and
    [vehicle_data/src/dataset_exporter.cpp].  [scan_string] reads the rest of a
    JSON string literal up to its closing quote, by RFC 8259: a raw control
    character is an error.  A text inserted through [json_escape] reads
    back as the same text and ends where it should; through the recorder's
    [json_escape], which the operations service shares, only when it has no
    control character that this function copies.  Bytes from 128 on are passed
    through: whether they are UTF-8 is not looked at. *)
From S2P Require Import Prelude.
Local Open Scope Z_scope.

Definition code (c : ascii) : Z := Z.of_N (N_of_ascii c).
Definition char (n : Z) : ascii := ascii_of_N (Z.to_N n).
Definition backslash : ascii := char 92.

(** a backslash and a letter *)
Definition escape_with (c : ascii) : string := String backslash (String c "").

Module Recorder.
(** one iteration of the loop *)
Definition escape_char (c : ascii) : string :=
  if code c =? 92 then escape_with backslash
  else if code c =? 34 then escape_with dquote
  else if code c =? 10 then escape_with "n"
  else if code c =? 13 then escape_with "r"
  else if code c =? 9 then escape_with "t"
  else String c "".

Fixpoint json_escape (value : string) : string :=
  match value with
  | EmptyString => ""
  | String c r => escape_char c ++ json_escape r
  end.
End Recorder.

Module Exporter.
(** [std::hex << setw(4) << setfill('0')] *)
Definition hex4 (n : Z) : string :=
  String (digit_char (n / 4096 mod 16)) (String (digit_char (n / 256 mod 16))
    (String (digit_char (n / 16 mod 16)) (String (digit_char (n mod 16)) ""))).

Definition escape_char (c : ascii) : string :=
  if code c =? 92 then escape_with backslash
  else if code c =? 34 then escape_with dquote
  else if code c =? 8 then escape_with "b"
  else if code c =? 12 then escape_with "f"
  else if code c =? 10 then escape_with "n"
  else if code c =? 13 then escape_with "r"
  else if code c =? 9 then escape_with "t"
  else if code c <? 32 then String backslash (String "u" (hex4 (code c)))
  else String c "".

Fixpoint json_escape (value : string) : string :=
  match value with
  | EmptyString => ""
  | String c r => escape_char c ++ json_escape r
  end.
End Exporter.

(** ** Reading a string literal *)
Definition hex_digit_value (c : ascii) : option Z :=
  let n := code c in
  if (48 <=? n) && (n <=? 57) then Some (n - 48)
  else if (97 <=? n) && (n <=? 102) then Some (n - 87)
  else if (65 <=? n) && (n <=? 70) then Some (n - 55)
  else None.

(** the escapes of RFC 8259; code points from 128 on are outside the model *)
Definition simple_escape (c : ascii) : option ascii :=
  match code c with
  | 34 => Some dquote | 92 => Some backslash | 47 => Some c
  | 98 => Some (char 8) | 102 => Some (char 12) | 110 => Some (char 10)
  | 114 => Some (char 13) | 116 => Some (char 9)
  | _ => None
  end.

Definition unicode_escape (a b c d : ascii) : option ascii :=
  match hex_digit_value a, hex_digit_value b, hex_digit_value c, hex_digit_value d with
  | Some x, Some y, Some z, Some w =>
      let n := ((x * 16 + y) * 16 + z) * 16 + w in if n <? 128 then Some (char n) else None
  | _, _, _, _ => None
  end.

Fixpoint scan_string (s : string) : option (string * string) :=
  match s with
  | EmptyString => None
  | String c r =>
      if code c =? 34 then Some (EmptyString, r)
      else if code c =? 92 then
        match r with
        | String e r1 =>
            if code e =? 117 then
              match r1 with
              | String h1 (String h2 (String h3 (String h4 r2))) =>
                  match unicode_escape h1 h2 h3 h4, scan_string r2 with
                  | Some x, Some (text, rest) => Some (String x text, rest)
                  | _, _ => None
                  end
              | _ => None
              end
            else
              match simple_escape e, scan_string r1 with
              | Some x, Some (text, rest) => Some (String x text, rest)
              | _, _ => None
              end
        | EmptyString => None
        end
      else if code c <? 32 then None
      else
        match scan_string r with
        | Some (text, rest) => Some (String c text, rest)
        | None => None
        end
  end.

(** no raw control character *)
Fixpoint strict (s : string) : bool :=
  match s with
  | EmptyString => true
  | String c r => (32 <=? code c) && strict r
  end.

Fixpoint all_chars (f : ascii -> bool) (s : string) : bool :=
  match s with EmptyString => true | String c r => f c && all_chars f r end.
Lemma all_chars_app f s t : all_chars f (s ++ t) = all_chars f s && all_chars f t.
Proof. induction s as [|c r IH]; [done|]. simpl. by rewrite IH, andb_assoc. Qed.
Lemma strict_all_chars s : strict s = all_chars (fun c => 32 <=? code c) s.
Proof. induction s as [|c r IH]; [done|]. simpl. by rewrite IH. Qed.

Lemma strict_app s1 s2 : strict (s1 ++ s2) = strict s1 && strict s2.
Proof. induction s1 as [|c r IH]; [done|]. simpl. by rewrite IH, andb_assoc. Qed.

(** What one escaped character contributes to the scan, by evaluation over the
    256 characters. *)
Definition scans_as (escaped : string) (c : ascii) : bool :=
  match escaped with
  | String a EmptyString => Ascii.eqb a c && negb (code a =? 34) && negb (code a =? 92) && negb (code a <? 32)
  | String a (String e EmptyString) =>
      (code a =? 92) && negb (code e =? 117) &&
      match simple_escape e with Some x => Ascii.eqb x c | None => false end
  | String a (String u (String h1 (String h2 (String h3 (String h4 EmptyString))))) =>
      (code a =? 92) && (code u =? 117) &&
      match unicode_escape h1 h2 h3 h4 with Some x => Ascii.eqb x c | None => false end
  | _ => false
  end.

Definition all_ascii : list ascii := map ascii_of_nat (seq 0 256).

Lemma all_ascii_complete c : In c all_ascii.
Proof.
  apply in_map_iff. exists (nat_of_ascii c). split; [apply ascii_nat_embedding|].
  apply in_seq. pose proof (nat_ascii_bounded c). lia.
Qed.

Lemma by_evaluation (f : ascii -> bool) : forallb f all_ascii = true -> forall c, f c = true.
Proof. intros Hf c. apply (proj1 (forallb_forall f all_ascii) Hf), all_ascii_complete. Qed.

(** the characters the recorder's escaping makes valid: all but the control
    characters other than tab, newline and carriage return *)
Definition escapable_char (c : ascii) : bool :=
  (32 <=? code c) || (code c =? 9) || (code c =? 10) || (code c =? 13).
Definition escapable (s : string) : bool := all_chars escapable_char s.

Lemma recorder_scans c : escapable_char c = true -> scans_as (Recorder.escape_char c) c = true.
Proof.
  intros Hc. pose proof (by_evaluation (fun c => implb (escapable_char c) (scans_as (Recorder.escape_char c) c))
    ltac:(vm_compute; reflexivity) c) as H. cbv beta in H. by rewrite Hc in H.
Qed.
(** any other is copied *)
Lemma recorder_copies c : escapable_char c = false -> Recorder.escape_char c = String c "" /\ (code c <? 32) = true /\
  (code c =? 34) = false /\ (code c =? 92) = false.
Proof.
  intros Hc. pose proof (by_evaluation (fun c => escapable_char c || (str_eqb (Recorder.escape_char c) (String c "") &&
    (code c <? 32) && negb (code c =? 34) && negb (code c =? 92))) ltac:(vm_compute; reflexivity) c) as H.
  cbv beta in H. rewrite Hc in H. cbn [orb] in H. rewrite !andb_true_iff, !negb_true_iff in H.
  destruct H as [[[He%str_eqb_spec ?] ?] ?]. done.
Qed.

Lemma exporter_scans c : scans_as (Exporter.escape_char c) c = true.
Proof.
  revert c. apply (by_evaluation (fun c => scans_as (Exporter.escape_char c) c)).
  vm_compute. reflexivity.
Qed.

Lemma scan_escaped_char e c r :
  scans_as e c = true ->
  scan_string (e ++ r) = match scan_string r with
                         | Some (text, rest) => Some (String c text, rest) | None => None end.
Proof.
  destruct e as [|a [|u [|h1 [|h2 [|h3 [|h4 [|x y]]]]]]]; try done.
  - unfold scans_as. rewrite !andb_true_iff, !negb_true_iff. intros [[[->%Ascii.eqb_eq H1] H2] H3].
    rewrite ?append_cons; cbn [scan_string]. rewrite H1, H2, H3.
    done.
  - unfold scans_as. rewrite !andb_true_iff, negb_true_iff. intros [[H1 H2] H3].
    rewrite ?append_cons; cbn [scan_string]. apply Z.eqb_eq in H1. rewrite H1, H2. simpl.
    destruct (simple_escape u) as [x|]; [|done]. by apply Ascii.eqb_eq in H3 as ->.
  - unfold scans_as. rewrite !andb_true_iff. intros [[H1 H2] H3].
    rewrite ?append_cons; cbn [scan_string]. apply Z.eqb_eq in H1. rewrite H1, H2. simpl.
    destruct (unicode_escape h1 h2 h3 h4) as [x|]; [|done]. by apply Ascii.eqb_eq in H3 as ->.
Qed.

Lemma scan_escaped (esc : ascii -> string) (f : string -> string) s rest :
  (f "" = "")%string -> (forall c r, f (String c r) = esc c ++ f r)%string ->
  (forall c, scans_as (esc c) c = true) ->
  scan_string (f s ++ String dquote rest) = Some (s, rest).
Proof.
  intros H0 Hf Hs. induction s as [|c r IH]; [by rewrite H0|].
  rewrite Hf, string_app_assoc, (scan_escaped_char _ c); [|apply Hs]. by rewrite IH.
Qed.

Lemma scan_recorder_escaped s rest :
  scan_string (Recorder.json_escape s ++ String dquote rest) = if escapable s then Some (s, rest) else None.
Proof.
  induction s as [|c s IH]; [done|]. unfold escapable in *. cbn [Recorder.json_escape all_chars].
  rewrite string_app_assoc. destruct (escapable_char c) eqn:Hc; cbn [andb].
  - rewrite (scan_escaped_char _ c) by by apply recorder_scans. rewrite IH. by destruct (all_chars _ s).
  - destruct (recorder_copies c Hc) as (-> & H1 & H2 & H3). rewrite append_cons. cbn [scan_string].
    by rewrite H1, H2, H3.
Qed.

(** A text inserted between quotes through the exporter's [json_escape] is read back,
    whatever bytes it has, and the literal stops at the closing quote the program
    wrote, so no value of a task, id or reason can add or end a JSON field.
    Through the recorder's this holds exactly for texts without control
    characters other than tab, newline and carriage return; any other makes the
    literal invalid. *)
Theorem escaped_text_reads_back s rest :
  scan_string (Exporter.json_escape s ++ String dquote rest) = Some (s, rest) /\
  scan_string (Recorder.json_escape s ++ String dquote rest) = (if escapable s then Some (s, rest) else None).
Proof.
  split; [eapply scan_escaped; try done; apply exporter_scans|apply scan_recorder_escaped].
Qed.

(** The exporter's escaping yields valid JSON for every text: no raw control
    character is left.  The recorder's does not: it copies control characters
    other than newline, carriage return and tab, so that a task with a
    backspace makes the episode manifest invalid JSON. *)
Theorem only_exporter_escapes_all_controls :
  (forall s, strict (Exporter.json_escape s) = true) /\
  (exists s, strict (Recorder.json_escape s) = false).
Proof.
  split; [|exists (String (char 8) ""); reflexivity].
  assert (forall c, strict (Exporter.escape_char c) = true) as Hc.
  { apply (by_evaluation (fun c => strict (Exporter.escape_char c))). vm_compute. reflexivity. }
  induction s as [|c r IH]; [done|]. cbn [Exporter.json_escape].
  by rewrite strict_app, Hc, IH.
Qed.
