(* ===== verification/Text.v ===== *)
(** * Texts

    The functions of the C++ standard library on texts that several components
    use, in the C locale: character classes, [std::tolower], the conversions to
    integers, [find], [substr] and [getline]. *)
From S2P Require Import Prelude Json.
Local Open Scope Z_scope.

(** ** Characters *)
Definition is_space (c : ascii) : bool := (code c =? 32) || ((9 <=? code c) && (code c <=? 13)).
Definition is_digit (c : ascii) : bool := (48 <=? code c) && (code c <=? 57).
(** [std::tolower] in the C locale *)
Definition to_lower (c : ascii) : ascii :=
  if (65 <=? code c) && (code c <=? 90) then char (code c + 32) else c.

Fixpoint map_chars (f : ascii -> ascii) (s : string) : string :=
  match s with EmptyString => "" | String c r => String (f c) (map_chars f r) end.


(** ** Trimming *)
Definition is_trimmed (c : ascii) : bool :=
  (code c =? 32) || (code c =? 9) || (code c =? 13) || (code c =? 10).
Fixpoint trim_front (s : string) : string :=
  match s with String c r => if is_trimmed c then trim_front r else s | EmptyString => s end.
Fixpoint trim_back (s : string) : string :=
  match s with
  | EmptyString => ""
  | String c r => match trim_back r with
                  | EmptyString => if is_trimmed c then "" else String c ""
                  | String _ _ as r' => String c r'
                  end
  end.
Definition trim (s : string) : string := trim_back (trim_front s).

(** ** Numbers *)
Fixpoint skip_spaces (s : string) : string :=
  match s with String c r => if is_space c then skip_spaces r else s | EmptyString => s end.
Fixpoint leading_digits (s : string) (acc : option Z) : option Z :=
  match s with
  | String c r =>
      if is_digit c then leading_digits r (Some (default 0 acc * 10 + (code c - 48))) else acc
  | EmptyString => acc
  end.

(** the sign of [strtol] and [strtoul] *)
Definition leading_sign (s : string) : Z * string :=
  match s with
  | String c r => if Ascii.eqb c "-" then (-1, r) else if Ascii.eqb c "+" then (1, r) else (1, s)
  | EmptyString => (1, s)
  end.

(** [std::stoul(text)] ([unsigned long] of 64 bits): white space, a sign, which
    is accepted and wraps around, at least one digit; [None] when there is none,
    [Some None] when the number does not fit *)
Definition stoul (s : string) : option (option Z) :=
  let '(sign, r) := leading_sign (skip_spaces s) in
  match leading_digits r None with
  | None => None
  | Some n => if n <? 2 ^ 64 then Some (Some (wrap64 (sign * n))) else Some None
  end.

(** [std::stoi(text, nullptr, 16)] of a text of two characters: white space, a
    sign, [0x], hexadecimal digits; it cannot overflow *)
Fixpoint leading_hex (s : string) (acc : option Z) : option Z :=
  match s with
  | String c r => match hex_digit_value c with
                  | Some v => leading_hex r (Some (default 0 acc * 16 + v))
                  | None => acc
                  end
  | EmptyString => acc
  end.
Definition stoi_hex (s : string) : option Z :=
  let '(sign, r) := leading_sign (skip_spaces s) in
  option_map (Z.mul sign) (leading_hex r None).

(** ** Finding and cutting *)
Fixpoint str_find (needle s : string) : option nat :=
  if str_prefix needle s then Some 0%nat
  else match s with EmptyString => None | String _ r => option_map S (str_find needle r) end.

Fixpoint str_drop (n : nat) (s : string) : string :=
  match n, s with
  | S m, String _ r => str_drop m r
  | _, _ => s
  end.
Fixpoint str_take (n : nat) (s : string) : string :=
  match n, s with
  | S m, String c r => String c (str_take m r)
  | _, _ => ""
  end.

(** the texts [std::getline] extracts until it fails *)
Fixpoint getlines_from (delimiter : ascii) (s current : string) : list string :=
  match s with
  | EmptyString => if str_empty current then [] else [current]
  | String c r => if Ascii.eqb c delimiter then current :: getlines_from delimiter r ""
                  else getlines_from delimiter r (current ++ String c "")
  end.
Definition getlines (delimiter : ascii) (s : string) : list string := getlines_from delimiter s "".

(** the words [operator>>] extracts *)
Fixpoint words_from (s current : string) : list string :=
  match s with
  | EmptyString => if str_empty current then [] else [current]
  | String c r => if is_space c then (if str_empty current then [] else [current]) ++ words_from r ""
                  else words_from r (current ++ String c "")
  end.
Definition str_words (s : string) : list string := words_from s "".

(** ** UTF-8 (RFC 3629), as the JSON library checks it when it prints *)
Definition byte_in (lo hi : Z) (c : ascii) : bool := (lo <=? code c) && (code c <=? hi).
Definition tail_byte : ascii -> bool := byte_in 128 191.
(** the second byte allowed after a first one, and how many more follow *)
Definition utf8_lead (c : ascii) : option ((ascii -> bool) * nat) :=
  if byte_in 194 223 c then Some (tail_byte, 0%nat)
  else if code c =? 224 then Some (byte_in 160 191, 1%nat)
  else if code c =? 237 then Some (byte_in 128 159, 1%nat)
  else if byte_in 225 239 c then Some (tail_byte, 1%nat)
  else if code c =? 240 then Some (byte_in 144 191, 2%nat)
  else if byte_in 241 243 c then Some (tail_byte, 2%nat)
  else if code c =? 244 then Some (byte_in 128 143, 2%nat)
  else None.
(** [pending]: the test of the next byte and how many follow it, inside a character *)
Fixpoint utf8_from (pending : option ((ascii -> bool) * nat)) (s : string) : bool :=
  match s, pending with
  | EmptyString, None => true
  | EmptyString, Some _ => false
  | String c r, Some (test, O) => test c && utf8_from None r
  | String c r, Some (test, S n) => test c && utf8_from (Some (tail_byte, n)) r
  | String c r, None =>
      if code c <? 128 then utf8_from None r
      else match utf8_lead c with
           | Some next => utf8_from (Some next) r
           | None => false
           end
  end.
Definition utf8 (s : string) : bool := utf8_from None s.

Lemma length_append s t : String.length (s ++ t) = (String.length s + String.length t)%nat.
Proof. induction s; simpl; [done|by f_equal]. Qed.

Lemma str_prefix_length n s : str_prefix n s = true -> (String.length n <= String.length s)%nat.
Proof.
  revert s; induction n as [|a n IH]; intros [|b s]; simpl; try done; try lia.
  intros [_ Hp]%andb_true_iff. apply IH in Hp. lia.
Qed.

Lemma str_prefix_app n s t :
  (String.length n <= String.length s)%nat -> str_prefix n (s ++ t) = str_prefix n s.
Proof.
  revert s; induction n as [|a n IH]; intros [|b s]; simpl; try done; [lia|].
  intros Hl. f_equal. apply IH. lia.
Qed.

Lemma find_length n s i : str_find n s = Some i -> (i + String.length n <= String.length s)%nat.
Proof.
  revert i; induction s as [|c s IH]; intros i; cbn [str_find].
  - destruct (str_prefix n "") eqn:E; [|done]. intros [= <-]. by apply str_prefix_length in E.
  - destruct (str_prefix n (String c s)) eqn:E; [intros [= <-]; by apply str_prefix_length in E|].
    destruct (str_find n s) as [k|]; [|done]. intros [= <-]. specialize (IH k eq_refl). simpl. lia.
Qed.

(** the first occurrence stays the first when the text grows *)
Lemma find_app n s t i : str_find n s = Some i -> str_find n (s ++ t) = Some i.
Proof.
  revert i; induction s as [|c s IH]; intros i Hf.
  - pose proof (find_length _ _ _ Hf) as Hl. simpl in Hl. destruct n; [|simpl in Hl; lia].
    cbn in Hf. injection Hf as <-. by destruct t.
  - pose proof (find_length _ _ _ Hf) as Hl. cbn [str_find] in Hf. rewrite append_cons. cbn [str_find].
    rewrite <- append_cons, str_prefix_app by lia.
    destruct (str_prefix n (String c s)); [done|].
    destruct (str_find n s) as [k|]; [|done]. by rewrite (IH k).
Qed.

(** an occurrence that ends beyond a prefix is not in it, and nothing else is *)
Lemma find_before n s t i :
  str_find n (s ++ t) = Some i -> (String.length s < i + String.length n)%nat -> str_find n s = None.
Proof.
  intros Hf Hl. destruct (str_find n s) as [k|] eqn:E; [|done].
  pose proof (find_length _ _ _ E). apply (find_app _ _ t) in E. rewrite Hf in E. injection E as <-. lia.
Qed.

Lemma find_app_none n s t : str_find n (s ++ t) = None -> str_find n s = None.
Proof. intros Hf. destruct (str_find n s) as [k|] eqn:E; [|done]. apply (find_app _ _ t) in E. congruence. Qed.

Lemma str_take_app n s t : (n <= String.length s)%nat -> str_take n (s ++ t) = str_take n s.
Proof.
  revert s; induction n as [|n IH]; intros [|c s]; simpl; try done; [lia|].
  intros Hl. f_equal. apply IH. lia.
Qed.

Lemma str_drop_app n s t : (n <= String.length s)%nat -> str_drop n (s ++ t) = (str_drop n s ++ t)%string.
Proof.
  revert s; induction n as [|n IH]; intros [|c s]; simpl; try done; [lia|].
  intros Hl. apply IH. lia.
Qed.

Lemma length_drop_text n s : String.length (str_drop n s) = (String.length s - n)%nat.
Proof. revert s; induction n as [|n IH]; intros [|c s]; simpl; auto. Qed.

Lemma str_take_beyond n s t :
  (String.length s <= n)%nat -> str_take n (s ++ t) = (s ++ str_take (n - String.length s) t)%string.
Proof.
  revert n; induction s as [|c s IH]; intros n Hl; simpl; [by rewrite Nat.sub_0_r|].
  destruct n as [|n]; simpl in *; [lia|]. by rewrite IH by lia.
Qed.

(** an occurrence that ends within a prefix is the first one of the prefix *)
Lemma find_within n s t i :
  str_find n (s ++ t) = Some i -> (i + String.length n <= String.length s)%nat -> str_find n s = Some i.
Proof.
  revert i; induction s as [|c s IH]; intros i Hf Hl.
  - simpl in Hl. destruct n; [|simpl in Hl; lia]. replace i with 0%nat by lia. done.
  - rewrite append_cons in Hf. cbn [str_find] in *. rewrite <- append_cons in Hf.
    destruct (le_lt_dec (String.length n) (String.length (String c s))) as [Hle|Hlt].
    + rewrite str_prefix_app in Hf by done. destruct (str_prefix n (String c s)); [done|].
      destruct (str_find n (s ++ t)) as [k|] eqn:E; [|done]. injection Hf as <-.
      rewrite (IH k eq_refl); [done|]. simpl in Hl. lia.
    + simpl in *. lia.
Qed.

Lemma find_first_char c s t :
  str_find (String c "") s = None -> str_find (String c "") (s ++ String c t) = Some (String.length s).
Proof.
  induction s as [|x s IH]; intros Hf.
  - change (str_find (String c "") (String c t) = Some 0%nat). cbn [str_find str_prefix].
    by rewrite Ascii.eqb_refl.
  - rewrite append_cons. cbn [str_find str_prefix] in *. rewrite !andb_true_r in *.
    destruct (Ascii.eqb c x); [done|]. destruct (str_find (String c "") s); [done|].
    rewrite (IH eq_refl). done.
Qed.

Lemma str_take_app_length s t : str_take (String.length s) (s ++ t) = s.
Proof. induction s as [|c s IH]; [done|]. rewrite append_cons. cbn [String.length str_take]. by rewrite IH. Qed.

(** ** Texts without a character *)
Definition without (c : ascii) : string -> bool := all_chars (fun x => negb (Ascii.eqb c x)).

(** a text that does not begin in a prefix is found after it *)
Lemma find_skip c n p s : without c p = true ->
  str_find (String c n) (p ++ s) = option_map (Nat.add (String.length p)) (str_find (String c n) s).
Proof.
  induction p as [|x p IH]; intros Hp; [by destruct (str_find _ _)|].
  rewrite append_cons. cbn [without all_chars] in Hp. apply andb_true_iff in Hp as [Hx Hp].
  cbn [str_find str_prefix]. apply negb_true_iff in Hx. rewrite Hx. cbn [andb].
  rewrite (IH Hp). by destruct (str_find _ s).
Qed.

Lemma str_drop_beyond p n s : str_drop (String.length p + n) (p ++ s) = str_drop n s.
Proof. induction p as [|c p IH]; [done|]. rewrite append_cons. exact IH. Qed.

Lemma getlines_from_skip c t s current : without c t = true ->
  getlines_from c (t ++ s) current = getlines_from c s (current ++ t).
Proof.
  revert current; induction t as [|x t IH]; intros current Ht.
  - f_equal. induction current as [|y r IHc]; [done|]. by rewrite append_cons, <- IHc.
  - cbn [without all_chars] in Ht. apply andb_true_iff in Ht as [Hx Ht].
    rewrite append_cons. cbn [getlines_from]. rewrite Ascii.eqb_sym. apply negb_true_iff in Hx. rewrite Hx.
    rewrite IH by done. by rewrite string_app_assoc.
Qed.

Lemma getlines_token c t s : without c t = true -> getlines c (t ++ String c s) = t :: getlines c s.
Proof.
  intros Ht. unfold getlines. rewrite getlines_from_skip by done. cbn [getlines_from].
  by rewrite Ascii.eqb_refl.
Qed.
Lemma getlines_last c t : without c t = true -> str_empty t = false -> getlines c t = [t].
Proof.
  intros Ht He. assert (t ++ "" = t)%string as E.
  { clear. induction t as [|x t IH]; [done|]. by rewrite append_cons, IH. }
  unfold getlines. rewrite <- E at 1. rewrite getlines_from_skip by done. cbn [getlines_from].
  change ("" ++ t)%string with t. by rewrite He.
Qed.
