(* ===== verification/Numbers.v ===== *)
(** * Decimal text of floating-point numbers

    [number p x] is what inserting [x] into a stream with precision [p] writes:
    the [%g] conversion of the C standard, exactly rounded (half to even) as
    glibc does it.  A [float] is inserted as the [double] of the same value.
    The sign of a NaN is not represented in [spec_float]; the text is [nan]. *)
From S2P Require Import Prelude Floats Json.
Local Open Scope Z_scope.

(** [n / d] to the nearest integer, ties to even *)
Definition round_half_even (n d : Z) : Z :=
  let q := n / d in let r := n mod d in
  if 2 * r <? d then q
  else if d <? 2 * r then q + 1
  else if Z.even q then q else q + 1.

(** how often [n] has to be multiplied by 10 to reach [d]; the fuel is the
    number of binary digits of [d] *)
Fixpoint tens_to_reach (fuel : nat) (n d : Z) : Z :=
  match fuel with
  | O => 0
  | S f => if d <=? n then 0 else 1 + tens_to_reach f (10 * n) d
  end.

(** the number of decimal digits of [z > 0], minus one *)
Fixpoint digits_minus_one (fuel : nat) (z : Z) : Z :=
  match fuel with
  | O => 0
  | S f => if z <? 10 then 0 else 1 + digits_minus_one f (z / 10)
  end.

(** the decimal exponent of [n / d > 0] *)
Definition decimal_exponent (n d : Z) : Z :=
  if d <=? n then digits_minus_one (S (Z.to_nat (Z.log2 (n / d)))) (n / d)
  else - tens_to_reach (S (Z.to_nat (Z.log2 d))) n d.

(** [p] significant digits and the exponent of the first of them *)
Definition significant (p n d : Z) : Z * Z :=
  let x := decimal_exponent n d in
  let k := p - 1 - x in
  let digits := if 0 <=? k then round_half_even (n * 10 ^ k) d
                else round_half_even n (d * 10 ^ (- k)) in
  if digits =? 10 ^ p then (10 ^ (p - 1), x + 1) else (digits, x).

Fixpoint zeros (n : nat) : string :=
  match n with O => "" | S m => String "0" (zeros m) end.

(** trailing zeros removed *)
Fixpoint strip_zeros (s : string) : string :=
  match s with
  | EmptyString => ""
  | String c r =>
      match strip_zeros r with
      | EmptyString => if Ascii.eqb c "0" then "" else String c ""
      | String _ _ as r' => String c r'
      end
  end.

Definition with_fraction (int frac : string) : string :=
  match strip_zeros frac with
  | EmptyString => int
  | String _ _ as f => (int ++ String "." f)%string
  end.

Definition exponent_text (x : Z) : string :=
  let a := to_string (Z.abs x) in
  ("e" ++ (if (x <? 0)%Z then "-" else "+") ++ (if (Z.abs x <? 10)%Z then "0" else "") ++ a)%string.

Definition magnitude (p : Z) (m : positive) (e : Z) : string :=
  let '(n, d) := if 0 <=? e then (Zpos m * 2 ^ e, 1) else (Zpos m, 2 ^ (- e)) in
  let '(digits, x) := significant p n d in
  let text := to_string digits in
  if (-4 <=? x) && (x <? p) then
    if 0 <=? x then
      with_fraction (substring 0 (Z.to_nat (x + 1)) text)
        (substring (Z.to_nat (x + 1)) (Z.to_nat (p - x)) text)
    else with_fraction "0" (zeros (Z.to_nat (- x - 1)) ++ text)
  else
    (with_fraction (substring 0 1 text) (substring 1 (Z.to_nat p) text) ++ exponent_text x)%string.

Definition number (p : Z) (x : spec_float) : string :=
  match x with
  | S754_nan => "nan"
  | S754_infinity s => if s then "-inf" else "inf"
  | S754_zero s => if s then "-0" else "0"
  | S754_finite s m e => ((if s then "-" else "") ++ magnitude p m e)%string
  end.

Example number_half : number 10 (lit 5 1) = "0.5"%string.
Proof. vm_compute. reflexivity. Qed.
Example number_third : number 10 (ddiv (of_int 1) (of_int 3)) = "0.3333333333"%string.
Proof. vm_compute. reflexivity. Qed.
Example number_float_tenth : number 10 (litf 1 1) = "0.1000000015"%string.
Proof. vm_compute. reflexivity. Qed.
Example number_large : number 10 (of_int 123456789012) = "1.23456789e+11"%string.
Proof. vm_compute. reflexivity. Qed.
Example number_small : number 10 (dneg (lit 125 7)) = "-1.25e-05"%string.
Proof. vm_compute. reflexivity. Qed.
Example number_hundred : number 10 (of_int 100) = "100"%string.
Proof. vm_compute. reflexivity. Qed.
Example number_carry : number 10 (lit 99999999999 0) = "1e+11"%string.
Proof. vm_compute. reflexivity. Qed.

(** ** The characters of a rendered number *)
Definition number_char (c : ascii) : bool :=
  (48 <=? code c) && (code c <=? 57) || existsb (Ascii.eqb c) ["-"; "+"; "."; "e"; "i"; "n"; "f"; "a"]%char.

Lemma digit_char_number d : 0 <= d < 10 -> number_char (digit_char d) = true.
Proof.
  intros Hd.
  assert (forallb (fun d => number_char (digit_char (Z.of_nat d))) (seq 0 10) = true) as H
    by (vm_compute; reflexivity).
  rewrite <- (Z2Nat.id d) by lia. apply (proj1 (forallb_forall _ _) H). apply in_seq. lia.
Qed.

Lemma base_digits_chars fuel z acc :
  all_chars number_char acc = true -> all_chars number_char (base_digits 10 fuel z acc) = true.
Proof.
  revert z acc; induction fuel as [|f IH]; intros z acc Ha; [done|].
  cbn [base_digits]. assert (0 <= z mod 10 < 10) by (apply Z.mod_pos_bound; lia).
  assert (all_chars number_char (String (digit_char (z mod 10)) acc) = true) as Hs.
  { cbn [all_chars]. rewrite digit_char_number, Ha by lia. done. }
  destruct (z <? 10); [done|]. by apply IH.
Qed.

Lemma to_string_chars z : all_chars number_char (to_string z) = true.
Proof.
  unfold to_string, base_string. destruct (z <? 0); cbn [all_chars];
    by rewrite base_digits_chars.
Qed.

Lemma substring_chars f n m s : all_chars f s = true -> all_chars f (substring n m s) = true.
Proof.
  revert n m; induction s as [|c r IH]; intros [|n] [|m] Hs; try done; cbn [substring all_chars] in *;
    apply andb_true_iff in Hs as [Hc Hr]; rewrite ?Hc; by apply IH.
Qed.

Lemma zeros_chars n : all_chars number_char (zeros n) = true.
Proof. by induction n. Qed.

Lemma strip_zeros_chars f s : all_chars f s = true -> all_chars f (strip_zeros s) = true.
Proof.
  induction s as [|c r IH]; [done|]. cbn [all_chars strip_zeros].
  intros [Hc Hr]%andb_true_iff. specialize (IH Hr).
  destruct (strip_zeros r); [destruct (Ascii.eqb c "0")|]; cbn [all_chars] in *; by rewrite ?Hc.
Qed.

Lemma with_fraction_chars int frac :
  all_chars number_char int = true -> all_chars number_char frac = true ->
  all_chars number_char (with_fraction int frac) = true.
Proof.
  intros Hi Hf%strip_zeros_chars. unfold with_fraction.
  destruct (strip_zeros frac); [done|]. rewrite all_chars_app, Hi. cbn [all_chars] in *. by rewrite Hf.
Qed.

#[export] Hint Resolve to_string_chars substring_chars zeros_chars with_fraction_chars : vehicle.

Lemma magnitude_chars p m e : all_chars number_char (magnitude p m e) = true.
Proof.
  unfold magnitude. destruct (if 0 <=? e then _ else _) as [n d].
  destruct (significant p n d) as [digits x].
  assert (all_chars number_char (exponent_text x) = true) as Hx.
  { unfold exponent_text. rewrite !all_chars_app, to_string_chars.
    by destruct (x <? 0), (Z.abs x <? 10). }
  cbv zeta. destruct (_ && _); [destruct (0 <=? x)|]; rewrite ?all_chars_app, ?Hx, ?andb_true_r;
    apply with_fraction_chars; rewrite ?all_chars_app, ?zeros_chars, ?to_string_chars;
    auto with vehicle.
Qed.

Lemma number_chars p x : all_chars number_char (number p x) = true.
Proof.
  destruct x as [[]|[]| |s m e]; try done. unfold number.
  rewrite all_chars_app, magnitude_chars. by destruct s.
Qed.

(** ** No control character in a rendered number *)
Lemma all_chars_weaken (f g : ascii -> bool) s :
  (forall c, f c = true -> g c = true) -> all_chars f s = true -> all_chars g s = true.
Proof.
  intros Hfg. induction s as [|c r IH]; [done|]. cbn [all_chars].
  intros [Hc Hr]%andb_true_iff. by rewrite Hfg, IH.
Qed.

(** none of the characters that separate numbers *)
Lemma without_number_char c s : number_char c = false -> all_chars number_char s = true ->
  all_chars (fun x => negb (Ascii.eqb c x)) s = true.
Proof.
  intros Hc. apply all_chars_weaken. intros x Hx. apply negb_true_iff, Ascii.eqb_neq. intros ->. congruence.
Qed.

Lemma number_char_strict c : number_char c = true -> (32 <=? code c) = true.
Proof.
  unfold number_char. intros Hc. apply Z.leb_le. cbn [existsb] in Hc.
  rewrite !orb_true_iff, !andb_true_iff, !Z.leb_le, !Ascii.eqb_eq in Hc.
  destruct Hc as [Hc|Hc]; [lia|]. repeat destruct Hc as [->|Hc]; try done; by vm_compute.
Qed.

Lemma strict_to_string z : strict (to_string z) = true.
Proof. rewrite strict_all_chars. eapply all_chars_weaken; [apply number_char_strict|apply to_string_chars]. Qed.
Lemma strict_number p x : strict (number p x) = true.
Proof. rewrite strict_all_chars. eapply all_chars_weaken; [apply number_char_strict|apply number_chars]. Qed.
#[export] Hint Resolve strict_to_string : vehicle.
