(* ===== verification/EpisodeRecorder.v ===== *)
(** * The episode recorder

    Models [vehicle_data/src/episode_recorder_node.cpp]: the recorder's state
    machine (idle, recording, finalizing, error), the naming of episodes, the
    bag writes of its sixteen topics and the manifest.  The bag writer
    ([rosbag2]) and the file system answer through the [World] of one callback:
    the successive clock readings, the outcome of opening, writing and closing
    the bag, the free space, and which names exist under the storage root.  All
    callbacks run on one executor thread. *)
From S2P Require Import Prelude Calendar Floats Messages Json.
Import EpisodeState.
Local Open Scope Z_scope.

Record Parameters := MakeParameters {
  storage_root_ : string;
  minimum_free_space_gb_ : double;
  max_episode_duration_ : double;
  image_record_frequency_ : double;
  require_observation_ready_ : bool }.
Definition default_parameters (root : string) : Parameters :=
  MakeParameters root (of_int 10) (of_int 900) (of_int 5) true.

Record EpisodeRecorder := MakeRecorder {
  observation_ready_ : bool;
  recording_ : bool;
  state_ : Z;
  message_count_ : Z;
  image_count_ : Z;
  episode_id_ : string;
  task_ : string;
  operator_id_ : string;
  directory_ : string;
  last_message_ : string;
  start_time_ : Z;
  last_image_recorded_ : Z;
  writer_ : bool }.                     (* whether [writer_] holds an open bag *)
#[export] Instance eta_recorder : Eta EpisodeRecorder := fun s =>
  MakeRecorder (observation_ready_ s) (recording_ s) (state_ s) (message_count_ s)
    (image_count_ s) (episode_id_ s) (task_ s) (operator_id_ s) (directory_ s)
    (last_message_ s) (start_time_ s) (last_image_recorded_ s) (writer_ s).

(** ** Requests and responses *)
Record StartRequest := MakeStart { episode_id : string; task : string; operator_id : string }.
Record StartResponse := MakeStarted {
  accepted : bool; resolved_episode_id : string; directory : string; message : string }.
Record StopRequest := MakeStop { success : bool; reason : string }.
Record StopResponse := MakeStopped {
  stop_accepted : bool; stop_directory : string; stop_message_count : Z; stop_message : string }.

(** ** What a callback meets outside the node *)
Record World := MakeWorld {
  now : nat -> Z;                       (* successive readings of [now()] *)
  available : Outcome Z;                (* [create_directories] and [space].available *)
  taken : gset string;                  (* names under the storage root *)
  clock : Z;                            (* [system_clock::now()] in seconds *)
  utc_offset : Z -> Z;                  (* of the local time zone *)
  open_result : Outcome unit;           (* [writer_->open] *)
  write_result : Outcome unit;          (* [writer_->write] *)
  close_result : Outcome unit;          (* [writer_->close] *)
  directory_exists : bool }.            (* [exists(directory_)] for the manifest *)

Inductive Output :=
| StatePublished (m : EpisodeStateMsg)
| BagOpened (directory : string)
| BagWritten (topic : string) (stamp : Z)
| BagClosed
| ManifestWritten (directory text : string).

(** ** Episode names *)
Definition is_alnum (c : ascii) : bool :=
  let n := code c in
  ((48 <=? n) && (n <=? 57)) || ((65 <=? n) && (n <=? 90)) || ((97 <=? n) && (n <=? 122)).
Definition is_name_char (c : ascii) : bool :=
  is_alnum c || Ascii.eqb c "-" || Ascii.eqb c "_".

Fixpoint sanitize (value : string) : string :=
  match value with
  | EmptyString => EmptyString
  | String c r => String (if is_name_char c then c else "_"%char) (sanitize r)
  end.
Definition sanitize_id (value : string) : string := String.substring 0 96 (sanitize value).

(** the [while] loop: the first free one of base, base-1, base-2, ... *)
Fixpoint free_name (fuel : nat) (taken : gset string) (base : string) (candidate : string)
    (suffix : Z) : option string :=
  match fuel with
  | O => None
  | S f =>
      if bool_decide (candidate ∈ taken) then
        free_name f taken base (base ++ "-" ++ to_string suffix) (suffix + 1)
      else Some candidate
  end.

Definition unique_episode_id (w : World) (requested : string) : option string :=
  let base := sanitize_id (if str_empty requested then timestamp_id (utc_offset w) (clock w) else requested) in
  let base := if str_empty base then timestamp_id (utc_offset w) (clock w) else base in
  free_name (S (size (taken w))) (taken w) base base 1.

(** ** The manifest *)
Definition newline : string := String (char 10) "".
Definition manifest_bool (b : bool) : string := if b then "true" else "false".

Definition manifest_text (finished success : bool) (reason : string) (s : EpisodeRecorder) : string :=
  "{" ++ newline ++
  quoted "  'schema_version': 'vehicle.episode.v1'," ++ newline ++
  quoted "  'episode_id': '" ++ Recorder.json_escape (episode_id_ s) ++ quoted "'," ++ newline ++
  quoted "  'task': '" ++ Recorder.json_escape (task_ s) ++ quoted "'," ++ newline ++
  quoted "  'operator_id': '" ++ Recorder.json_escape (operator_id_ s) ++ quoted "'," ++ newline ++
  quoted "  'finished': " ++ manifest_bool finished ++ "," ++ newline ++
  quoted "  'success': " ++ manifest_bool success ++ "," ++ newline ++
  quoted "  'message_count': " ++ to_string (message_count_ s) ++ "," ++ newline ++
  quoted "  'image_count': " ++ to_string (image_count_ s) ++ "," ++ newline ++
  quoted "  'reason': '" ++ Recorder.json_escape reason ++ quoted "'" ++ newline ++
  "}" ++ newline.

Section Recorder.
Context `{Rclcpp}.
Variable p : Parameters.
(** [std::fixed << std::setprecision(1)] *)
Variable fixed1 : double -> string.

Definition write_manifest (w : World) (finished success : bool) (reason : string)
    (s : EpisodeRecorder) : list Output :=
  if str_empty (directory_ s) || negb (directory_exists w) then []
  else [ManifestWritten (directory_ s) (manifest_text finished success reason s)].

(** [publish_state]; its readings of the clock are numbers [i] and [i + 1] *)
Definition publish_state (w : World) (i : nat) (text : string) (s : EpisodeRecorder) : Output :=
  StatePublished (EpisodeState.Make (Header.Make (to_msg (now w i)) "") (state_ s)
    (episode_id_ s) (task_ s) (directory_ s) (message_count_ s) (image_count_ s)
    (if recording_ s then to_float (seconds (now w (S i) - start_time_ s)) else fzero) text).

Definition initial : EpisodeRecorder :=
  MakeRecorder false false STATE_IDLE 0 0 "" "" "" "" "Idle" 0 0 false.

Definition constructor (w : World) : Outcome (EpisodeRecorder * list Output) :=
  if str_empty (storage_root_ p) then Throws "storage_root must be configured"
  else Returns (initial, [publish_state w 0 "Episode recorder ready" initial]).

Definition stop_recording (w : World) (i : nat) (success : bool) (reason : string)
    (s : EpisodeRecorder) : EpisodeRecorder * list Output :=
  if negb (recording_ s) then (s, [])
  else
    let s1 := s <| state_ := STATE_FINALIZING |>
      <| last_message_ := if str_empty reason then "Finalizing" else reason |> in
    let o1 := publish_state w i (last_message_ s1) s1 in
    let s2 := s1 <| writer_ := false |> <| recording_ := false |> in
    let '(s3, o2) :=
      match close_result w with
      | Returns _ =>
          (s2 <| state_ := STATE_IDLE |>
              <| last_message_ := if success then "Episode completed" else "Episode stopped" |>,
           BagClosed :: write_manifest w true success reason s2)
      | Throws error =>
          (s2 <| state_ := STATE_ERROR |> <| last_message_ := error |>, [])
      end in
    (s3, o1 :: o2 ++ [publish_state w (i + 2) (last_message_ s3) s3]).

Definition fail_recording (w : World) (i : nat) (reason : string) (s : EpisodeRecorder) :=
  stop_recording w i false reason s.

Definition record_message (w : World) (i : nat) (topic : string) (stamp : Z)
    (s : EpisodeRecorder) : EpisodeRecorder * list Output :=
  if negb (recording_ s) || negb (writer_ s) then (s, [])
  else match write_result w with
  | Returns _ =>
      (s <| message_count_ := wrap64 (message_count_ s + 1) |>, [BagWritten topic stamp])
  | Throws error => fail_recording w i ("Failed to write " ++ topic ++ ": " ++ error) s
  end.

Definition record_header_message (w : World) (topic : string) (header_stamp : Time)
    (s : EpisodeRecorder) : EpisodeRecorder * list Output :=
  let stamp := time_ns header_stamp in
  record_message w 1 topic (if 0 <? stamp then stamp else now w 0) s.

Definition on_image (w : World) (header_stamp : Time) (s : EpisodeRecorder)
  : EpisodeRecorder * list Output :=
  if negb (recording_ s) then (s, [])
  else
    let minimum_period := ddiv (of_int 1) (dmax (image_record_frequency_ p) (lit 1 1)) in
    let current_time := now w 0 in
    if (0 <? last_image_recorded_ s) &&
       dlt (seconds (current_time - last_image_recorded_ s)) minimum_period
    then (s, [])
    else
      let stamp := time_ns header_stamp in
      let '(s1, out) := record_message w 1 "/episode/camera/image_compressed"
        (if 0 <? stamp then stamp else current_time) s in
      (s1 <| last_image_recorded_ := current_time |>
          <| image_count_ := wrap64 (image_count_ s1 + 1) |>, out).

(** the [catch] block of [on_start] *)
Definition start_failed (w : World) (i : nat) (error : string) (s : EpisodeRecorder)
  : EpisodeRecorder * list Output * StartResponse :=
  let s1 := s <| writer_ := false |> <| recording_ := false |> <| state_ := STATE_ERROR |>
              <| last_message_ := error |> in
  (s1, [publish_state w i error s1],
   MakeStarted false "" "" ("Failed to start episode: " ++ error)).

Definition on_start (w : World) (request : StartRequest) (s : EpisodeRecorder)
  : EpisodeRecorder * list Output * StartResponse :=
  let refuse m := (s, [], MakeStarted false "" "" m) in
  if recording_ s then refuse "An episode is already recording"%string
  else if require_observation_ready_ p && negb (observation_ready_ s) then
    refuse "Observation inputs are not ready"%string
  else match available w with
  | Throws error => start_failed w 0 error s
  | Returns bytes =>
      let free_gb := ddiv (of_int bytes) (of_int 1000000000) in
      if dlt free_gb (minimum_free_space_gb_ p) then
        refuse ("Insufficient free space: " ++ fixed1 free_gb ++ " GB available")%string
      else match unique_episode_id w (episode_id request) with
      | None => refuse ""%string      (* not reached: [unique_name_is_free] *)
      | Some id =>
          let s1 := s <| episode_id_ := id |> <| task_ := task request |>
            <| operator_id_ := operator_id request |>
            <| directory_ := path_join (storage_root_ p) id |> in
          match open_result w with
          | Throws error => start_failed w 0 error s1
          | Returns _ =>
              let s2 := s1 <| writer_ := true |> <| recording_ := true |>
                <| state_ := STATE_RECORDING |> <| message_count_ := 0 |>
                <| image_count_ := 0 |> <| start_time_ := now w 0 |>
                <| last_image_recorded_ := 0 |> <| last_message_ := "Recording" |> in
              let '(s3, o1) := record_message w 1 "/vla/task" (start_time_ s2) s2 in
              (s3, BagOpened (directory_ s1) :: o1 ++ write_manifest w false false "Recording" s3
                     ++ [publish_state w 5 (last_message_ s3) s3],
               MakeStarted true (episode_id_ s3) (directory_ s3) "Episode recording started")
          end
      end
  end.

Definition on_stop (w : World) (request : StopRequest) (s : EpisodeRecorder)
  : EpisodeRecorder * list Output * StopResponse :=
  if negb (recording_ s) then (s, [], MakeStopped false "" 0 "No episode is recording")
  else
    let '(s1, out) := stop_recording w 0 (success request) (reason request) s in
    (s1, out, MakeStopped true (directory_ s) (message_count_ s) "Episode recording stopped").

Definition on_timer (w : World) (s : EpisodeRecorder) : EpisodeRecorder * list Output :=
  if recording_ s && dlt dzero (max_episode_duration_ p) &&
     dle (max_episode_duration_ p) (seconds (now w 0 - start_time_ s))
  then stop_recording w 1 false "Maximum episode duration reached" s
  else (s, [publish_state w 1 (last_message_ s) s]).

(** the destructor *)
Definition destroy (w : World) (s : EpisodeRecorder) : EpisodeRecorder * list Output :=
  if recording_ s then stop_recording w 0 false "Recorder shutdown" s else (s, []).

Definition on_observation_status (ready : bool) (s : EpisodeRecorder) :=
  s <| observation_ready_ := ready |>.

(** The topics recorded with their header stamp, and those stamped on arrival. *)
Definition header_topics : list string :=
  ["/camera/camera_info"; "/odom"; "/imu/data_raw"; "/vehicle/system_state";
   "/vehicle/observation_status"; "/vla/policy_action"; "/vla/observation";
   "/vla/shadow_comparison"; "/vla/shadow_metrics"; "/vla/safety_event"; "/vla/cmd_vel_raw";
   "/mobile_teleop/cmd_vel"; "/control/cmd_vel_selected"; "/chitu/action/target";
   "/chitu/action/executed"]%string.
Definition stamped_topics : list string := ["/cmd_vel"; "/vla/task"]%string.

Inductive Event :=
| StartRequested (w : World) (request : StartRequest)
| StopRequested (w : World) (request : StopRequest)
| ObservationStatusReceived (ready : bool)
| ImageReceived (w : World) (stamp : Time)
| HeaderMessageReceived (w : World) (topic : string) (stamp : Time)
| MessageReceived (w : World) (topic : string)
| TimerFired (w : World).

Definition next (s : EpisodeRecorder) (e : Event) : EpisodeRecorder * list Output :=
  match e with
  | StartRequested w r => let '(s', o, _) := on_start w r s in (s', o)
  | StopRequested w r => let '(s', o, _) := on_stop w r s in (s', o)
  | ObservationStatusReceived ready => (on_observation_status ready s, [])
  | ImageReceived w stamp => on_image w stamp s
  | HeaderMessageReceived w topic stamp => record_header_message w topic stamp s
  | MessageReceived w topic => record_message w 1 topic (now w 0) s
  | TimerFired w => on_timer w s
  end.

(** ** Episode names are free *)
Definition numbered (base : string) (k : Z) : string :=
  if k =? 0 then base else (base ++ "-" ++ to_string k)%string.

Lemma string_app_inj_l (a b c : string) : (a ++ b = a ++ c)%string -> b = c.
Proof. induction a as [|x r IH]; [done|]. rewrite !append_cons. intros [= E]. auto. Qed.

Lemma string_app_nil_r (a : string) : (a ++ "" = a)%string.
Proof. induction a as [|x r IH]; [done|]. by rewrite append_cons, IH. Qed.

Lemma numbered_inj base i j : 0 <= i -> 0 <= j -> numbered base i = numbered base j -> i = j.
Proof.
  intros Hi Hj. unfold numbered.
  destruct (Z.eqb_spec i 0) as [->|], (Z.eqb_spec j 0) as [->|]; try done; intros E.
  - rewrite <- (string_app_nil_r base) in E at 1. by apply string_app_inj_l in E.
  - rewrite <- (string_app_nil_r base) in E at 2. by apply string_app_inj_l in E.
  - apply string_app_inj_l in E. injection E as E. by apply to_string_inj in E.
Qed.

(** the loop stops at the first free name; if it runs out of fuel, all names it
    tried are taken *)
Lemma free_name_spec fuel names base k :
  0 <= k ->
  match free_name fuel names base (numbered base k) (k + 1) with
  | Some id => (id ∉ names) /\ exists j, k <= j /\ id = numbered base j
  | None => forall j, k <= j < k + Z.of_nat fuel -> numbered base j ∈ names
  end.
Proof.
  revert k; induction fuel as [|f IH]; intros k Hk; cbn [free_name]; [intros j Hj; lia|].
  case_bool_decide as Hin.
  - assert ((base ++ "-" ++ to_string (k + 1))%string = numbered base (k + 1)) as E.
    { unfold numbered. by destruct (Z.eqb_spec (k + 1) 0); [lia|]. }
    rewrite E. specialize (IH (k + 1) ltac:(lia)).
    destruct (free_name f names base _ _) as [id|].
    + destruct IH as (Hn & j & Hj & ->). split; [done|]. exists j. split; [lia|done].
    + intros j Hj. destruct (Z.eq_dec j k) as [->|]; [done|]. apply IH. lia.
  - split; [done|]. exists k. split; [lia|done].
Qed.

Lemma unique_name_is_found w requested : exists id, unique_episode_id w requested = Some id.
Proof.
  unfold unique_episode_id. set (base := if str_empty _ then _ else _).
  pose proof (free_name_spec (S (size (taken w))) (taken w) base 0 ltac:(lia)) as Hf.
  change (numbered base 0) with base in Hf. change (0 + 1) with 1 in Hf.
  destruct (free_name _ _ base base 1) as [id|]; [by exists id|]. exfalso.
  set (tried := numbered base <$> (Z.of_nat <$> seq 0 (S (size (taken w))))).
  assert (NoDup tried) as Hnd.
  { unfold tried. apply NoDup_fmap_2_strong.
    - intros i j Hi Hj. apply list_elem_of_fmap in Hi as (x & -> & _), Hj as (y & -> & _).
      apply numbered_inj; lia.
    - apply NoDup_fmap_2; [intros x y E; lia|apply NoDup_seq]. }
  assert (list_to_set tried ⊆ taken w) as Hsub.
  { intros x Hx. apply elem_of_list_to_set in Hx. unfold tried in Hx.
    apply list_elem_of_fmap in Hx as (j & -> & Hj). apply list_elem_of_fmap in Hj as (i & -> & Hi).
    apply elem_of_seq in Hi. apply Hf. lia. }
  apply subseteq_size in Hsub. rewrite size_list_to_set in Hsub by done.
  unfold tried in Hsub. rewrite !length_fmap, length_seq in Hsub. lia.
Qed.

Lemma sanitize_chars s : forall c, str_has c (sanitize s) = true -> is_name_char c = true.
Proof.
  induction s as [|x r IH]; intros c; cbn [sanitize str_has]; [done|].
  rewrite orb_true_iff. intros [Hc|Hc]; [|by apply IH]. apply Ascii.eqb_eq in Hc as ->.
  destruct (is_name_char x) eqn:E; [done|reflexivity].
Qed.

Lemma record_succeeds w i topic stamp s u :
  recording_ s = true -> writer_ s = true -> write_result w = Returns u ->
  record_message w i topic stamp s =
    (s <| message_count_ := wrap64 (message_count_ s + 1) |>, [BagWritten topic stamp]).
Proof. intros Hr Hw He. unfold record_message. by rewrite Hr, Hw, He. Qed.

Lemma record_keeps_names w i topic stamp s :
  episode_id_ (fst (record_message w i topic stamp s)) = episode_id_ s /\
  directory_ (fst (record_message w i topic stamp s)) = directory_ s.
Proof.
  unfold record_message. destruct (_ || _); [done|]. destruct (write_result w); [done|].
  unfold fail_recording, stop_recording. destruct (negb (recording_ s)); [done|].
  destruct (close_result w); split; reflexivity.
Qed.

(** Starting an episode always finds a name: the search for a free name
    terminates, and the episode directory it chooses does not exist yet, so no
    recording is ever opened over an existing one; a started episode is
    recording with an open bag under exactly that name. *)
Theorem started_episode_has_fresh_name w r s s' out response :
  on_start w r s = (s', out, response) -> accepted response = true ->
  exists id, unique_episode_id w (episode_id r) = Some id /\ (id ∉ taken w) /\
    resolved_episode_id response = id /\ directory response = path_join (storage_root_ p) id /\
    BagOpened (path_join (storage_root_ p) id) ∈ out /\
    recording_ s = false /\
    (forall u, write_result w = Returns u ->
       recording_ s' = true /\ episode_id_ s' = id /\ state_ s' = STATE_RECORDING).
Proof.
  intros E Ha. unfold on_start in E. destruct (recording_ s) eqn:Hr; [by simplify_eq|].
  destruct (require_observation_ready_ p && _); [by simplify_eq|].
  destruct (available w) as [bytes|]; [|by unfold start_failed in E; simplify_eq].
  destruct (dlt _ _); [by simplify_eq|].
  destruct (unique_name_is_found w (episode_id r)) as [id Hid]. rewrite Hid in E.
  destruct (open_result w) as [u|]; [|by unfold start_failed in E; simplify_eq].
  exists id. split; [done|].
  assert (id ∉ taken w) as Hfree.
  { unfold unique_episode_id in Hid. set (base := if str_empty _ then _ else _) in Hid.
    pose proof (free_name_spec (S (size (taken w))) (taken w) base 0 ltac:(lia)) as Hf.
    change (numbered base 0) with base in Hf. change (0 + 1) with 1 in Hf.
    rewrite Hid in Hf. by destruct Hf. }
  split; [done|]. destruct (record_message w 1 _ _ _) as [s3 o1] eqn:E3. injection E as <- <- <-.
  assert (episode_id_ s3 = id /\ directory_ s3 = path_join (storage_root_ p) id) as [Hi Hd].
  { rewrite <- (f_equal fst E3 : _ = s3). apply record_keeps_names. }
  split; [exact Hi|]. split; [exact Hd|]. split; [apply elem_of_cons; by left|]. split; [done|].
  intros v Hv. rewrite (record_succeeds _ _ _ _ _ v) in E3 by done. by injection E3 as <- _.
Qed.

(** ** What is published and counted *)
Definition published (last : option EpisodeStateMsg) (o : Output) : option EpisodeStateMsg :=
  match o with StatePublished m => Some m | _ => last end.
(** messages in the bag opened last *)
Definition in_bag (n : Z) (o : Output) : Z :=
  match o with BagOpened _ => 0 | BagWritten _ _ => n + 1 | _ => n end.

Definition last_published (out : list Output) : option EpisodeStateMsg :=
  fold_left published out None.
Definition bag_messages (out : list Output) : Z := fold_left in_bag out 0.

Record ok (s : EpisodeRecorder) (last : option EpisodeStateMsg) (n : Z) : Prop := {
  ok_writer : writer_ s = recording_ s;
  ok_recording : recording_ s = true <-> state_ s = STATE_RECORDING;
  ok_state : state_ s = STATE_IDLE \/ state_ s = STATE_RECORDING \/ state_ s = STATE_ERROR;
  ok_last : exists m, last = Some m /\ EpisodeState.state m = state_ s /\
    EpisodeState.episode_id m = episode_id_ s;
  ok_count : message_count_ s = wrap64 n }.

Definition preserves (s s' : EpisodeRecorder) (out : list Output) : Prop :=
  forall last n, ok s last n -> ok s' (fold_left published out last) (fold_left in_bag out n).

Lemma preserves_refl s : preserves s s [].
Proof. by intros last n. Qed.

Lemma manifest_last w f b why s last :
  fold_left published (write_manifest w f b why s) last = last.
Proof. unfold write_manifest. by destruct (_ || _). Qed.
Lemma manifest_count w f b why s n : fold_left in_bag (write_manifest w f b why s) n = n.
Proof. unfold write_manifest. by destruct (_ || _). Qed.

Lemma stop_preserves w i b why s s' out :
  stop_recording w i b why s = (s', out) -> preserves s s' out.
Proof.
  unfold stop_recording. intros E last n Hok. pose proof Hok as [Hw Hr Hs Hl Hc].
  destruct (recording_ s); simpl in E; [|by simplify_eq].
  destruct (close_result w); simplify_eq/=.
  - rewrite !fold_left_app, manifest_count.
    split; simpl; [done|by split|by left|by eexists|done].
  - split; simpl; [done|by split|by right; right|by eexists|done].
Qed.

Lemma stop_stops w i b why s : recording_ (fst (stop_recording w i b why s)) = false.
Proof.
  unfold stop_recording. destruct (recording_ s) eqn:E; [cbn [negb]|exact E].
  by destruct (close_result w).
Qed.

Lemma record_fails w i topic stamp s error :
  recording_ s = true -> writer_ s = true -> write_result w = Throws error ->
  recording_ (fst (record_message w i topic stamp s)) = false.
Proof.
  intros Hr Hw He. unfold record_message. rewrite Hr, Hw, He. apply stop_stops.
Qed.

Lemma record_preserves w i topic stamp s s' out :
  record_message w i topic stamp s = (s', out) -> preserves s s' out.
Proof.
  unfold record_message. destruct (negb _ || negb _).
  - intros [= <- <-]. apply preserves_refl.
  - destruct (write_result w) as [u|e]; [|apply stop_preserves].
    intros [= <- <-] last n [Hw Hr Hs Hl Hc]. split; simpl; try done.
    rewrite Hc. unfold wrap64, wrap. by rewrite Zplus_mod_idemp_l.
Qed.

Lemma image_preserves w stamp s s' out : on_image w stamp s = (s', out) -> preserves s s' out.
Proof.
  unfold on_image. destruct (negb (recording_ s)); [intros [= <- <-]; apply preserves_refl|].
  destruct (_ && _); [intros [= <- <-]; apply preserves_refl|].
  destruct (record_message w 1 _ _ s) as [s1 o1] eqn:E. intros [= <- <-] last n Hok.
  destruct (record_preserves _ _ _ _ _ _ _ E last n Hok) as [Hw Hr Hs Hl Hc].
  by split.
Qed.

Lemma start_failed_preserves w i e s s' out r :
  start_failed w i e s = (s', out, r) ->
  forall last n, message_count_ s = wrap64 n ->
  ok s' (fold_left published out last) (fold_left in_bag out n).
Proof.
  intros E last n Hc. unfold start_failed in E. simplify_eq/=.
  split; simpl; [done|by split|by right; right|by eexists|done].
Qed.

Lemma start_preserves w r s s' out resp : on_start w r s = (s', out, resp) -> preserves s s' out.
Proof.
  intros E last n Hok. pose proof (ok_count _ _ _ Hok) as Hc. unfold on_start in E.
  destruct (recording_ s); [by simplify_eq|].
  destruct (require_observation_ready_ p && _); [by simplify_eq|].
  destruct (available w) as [bytes|]; [|by eapply start_failed_preserves].
  destruct (dlt _ _); [by simplify_eq|].
  destruct (unique_episode_id w (episode_id r)) as [id|]; [|by simplify_eq].
  destruct (open_result w) as [u|]; [|by eapply start_failed_preserves].
  destruct (record_message w 1 _ _ _) as [s3 o1] eqn:E3. injection E as <- <- _.
  set (s2 := _ <| last_message_ := "Recording" |>) in E3.
  set (m := EpisodeState.zero <| EpisodeState.state := STATE_RECORDING |>
              <| EpisodeState.episode_id := id |>).
  assert (ok s2 (Some m) 0) as H2.
  { split; simpl; [done|by split|by right; left|by eexists|done]. }
  destruct (record_preserves _ _ _ _ _ _ _ E3 _ _ H2) as [Hw Hr Hs Hl Hc3].
  cbn [fold_left published in_bag]. rewrite !fold_left_app, manifest_count. simpl.
  split; [done|done|done|by eexists|]. rewrite Hc3. f_equal.
Qed.

Lemma next_preserves s e : preserves s (fst (next s e)) (snd (next s e)).
Proof.
  destruct e as [w r|w r|b|w t|w topic t|w topic|w]; simpl.
  - destruct (on_start w r s) as [[s' out] resp] eqn:E. by eapply start_preserves.
  - unfold on_stop. destruct (negb _); [apply preserves_refl|].
    destruct (stop_recording w 0 _ _ s) as [s' out] eqn:E. by eapply stop_preserves.
  - intros last n [Hw Hr Hs Hl Hc]. by split.
  - destruct (on_image w t s) as [s' out] eqn:E. by eapply image_preserves.
  - unfold record_header_message. destruct (record_message w 1 _ _ s) as [s' out] eqn:E.
    by eapply record_preserves.
  - destruct (record_message w 1 _ _ s) as [s' out] eqn:E. by eapply record_preserves.
  - unfold on_timer. destruct (_ && _).
    + destruct (stop_recording w 1 _ _ s) as [s' out] eqn:E. by eapply stop_preserves.
    + intros last n [Hw Hr Hs Hl Hc]. split; simpl; try done. by eexists.
Qed.

Lemma run_ok es s last n :
  ok s last n ->
  let '(s', out) := run next s es in
  ok s' (fold_left published out last) (fold_left in_bag out n).
Proof.
  revert s last n. induction es as [|e r IH]; intros s last n Hok; simpl; [done|].
  pose proof (next_preserves s e last n Hok) as H1. destruct (next s e) as [s1 o1]; simpl in *.
  specialize (IH _ _ _ H1). destruct (run next s1 r) as [s2 o2].
  by rewrite !fold_left_app.
Qed.

(** What the node publishes tells the truth: after any sequence of requests,
    messages, failures and timer ticks the last published episode state names
    the current episode and is RECORDING exactly while a bag is open and being
    recorded, otherwise IDLE or ERROR (FINALIZING never lasts beyond a
    callback); and the message count is the number of messages written to the
    bag opened last (modulo 2^64). *)
Theorem published_state_is_accurate w s0 o0 es :
  constructor w = Returns (s0, o0) ->
  let '(s, out) := run next s0 es in
  exists m, last_published (o0 ++ out) = Some m /\
    EpisodeState.episode_id m = episode_id_ s /\
    (EpisodeState.state m = STATE_RECORDING <-> recording_ s = true) /\
    (EpisodeState.state m <> STATE_RECORDING ->
       EpisodeState.state m = STATE_IDLE \/ EpisodeState.state m = STATE_ERROR) /\
    writer_ s = recording_ s /\
    message_count_ s = wrap64 (bag_messages out).
Proof.
  unfold constructor. destruct (str_empty _); [done|]. intros [= <- <-].
  assert (ok initial (last_published [publish_state w 0 "Episode recorder ready" initial]) 0) as H0.
  { split; simpl; [done|by split|by left|by eexists|done]. }
  pose proof (run_ok es _ _ _ H0) as Hr. destruct (run next initial es) as [s out].
  destruct Hr as [Hw Hr Hs (m & Hm & Hst & Hid) Hc]. unfold last_published, bag_messages.
  rewrite fold_left_app. exists m. rewrite Hst.
  split; [done|]. split; [done|]. split; [tauto|]. split; [tauto|]. done.
Qed.

(** A start whose very first bag write fails is still answered as accepted:
    the recorder has already stopped with the failure and is no longer
    recording, the response says the episode was started, and the last manifest
    written claims that the episode is unfinished and recording. *)
Theorem failed_first_write_is_reported_as_started w r s s' out response error :
  on_start w r s = (s', out, response) -> accepted response = true ->
  write_result w = Throws error -> directory_exists w = true ->
  str_empty (directory_ s') = false ->
  recording_ s' = false /\ message response = "Episode recording started"%string /\
  exists pre, out = pre ++ [ManifestWritten (directory_ s')
    (manifest_text false false "Recording" s'); publish_state w 5 (last_message_ s') s'].
Proof.
  intros E Ha Hw Hd Hne. unfold on_start in E. destruct (recording_ s) eqn:Hr; [by simplify_eq|].
  destruct (require_observation_ready_ p && _); [by simplify_eq|].
  destruct (available w) as [bytes|]; [|by unfold start_failed in E; simplify_eq].
  destruct (dlt _ _); [by simplify_eq|].
  destruct (unique_episode_id w (episode_id r)) as [id|]; [|by simplify_eq].
  destruct (open_result w) as [u|]; [|by unfold start_failed in E; simplify_eq].
  destruct (record_message w 1 _ _ _) as [s3 o1] eqn:E3. injection E as <- <- <-.
  split; [|split; [reflexivity|]].
  { rewrite <- (f_equal fst E3 : _ = s3). by apply (record_fails _ _ _ _ _ error). }
  exists (BagOpened (path_join (storage_root_ p) id) :: o1).
  assert (write_manifest w false false "Recording" s3 =
    [ManifestWritten (directory_ s3) (manifest_text false false "Recording" s3)]) as ->.
  { unfold write_manifest. by rewrite Hne, Hd. }
  generalize (manifest_text false false "Recording" s3). intros text. reflexivity.
Qed.
End Recorder.

(** ** Witnesses *)
Section Witnesses.
#[local] Existing Instance rclcpp_doc.

Definition demo_world (write : Outcome unit) : World :=
  MakeWorld (fun i => 1000000000 + Z.of_nat i) (Returns 50000000000) {["run"; "run-1"]}
    1735689600 (fun _ => 0) (Returns tt) write (Returns tt) true.
Definition demo_start : StartRequest := MakeStart "run" "fetch" "op".
Definition demo_ready : EpisodeRecorder := on_observation_status true initial.
Definition demo_fixed1 (x : double) : string := "50.0".

Lemma started_episode_has_fresh_name_witness :
  exists id, unique_episode_id (demo_world (Returns tt)) "run" = Some id /\ id = "run-2"%string.
Proof.
  destruct (on_start (default_parameters "/data") demo_fixed1 (demo_world (Returns tt))
    demo_start demo_ready) as [[s' out] response] eqn:E.
  assert (accepted response = true /\ resolved_episode_id response = "run-2"%string) as [Ha Hi]
    by (vm_compute in E; injection E as _ _ <-; split; reflexivity).
  destruct (started_episode_has_fresh_name (default_parameters "/data") demo_fixed1
    (demo_world (Returns tt)) demo_start demo_ready s' out response E Ha) as (id & Hid & _ & Hr & _).
  exists id. split; [exact Hid|]. rewrite <- Hr. exact Hi.
Defined.

Lemma published_state_is_accurate_witness :
  let '(s, out) := run (next (default_parameters "/data") demo_fixed1) initial
    [ObservationStatusReceived true; StartRequested (demo_world (Returns tt)) demo_start;
     MessageReceived (demo_world (Returns tt)) "/cmd_vel"] in
  message_count_ s = wrap64 (bag_messages out) /\ message_count_ s = 2.
Proof.
  assert (constructor (default_parameters "/data") (demo_world (Returns tt)) = Returns (initial,
    [publish_state (demo_world (Returns tt)) 0 "Episode recorder ready" initial])) as H0
    by (unfold constructor; reflexivity).
  pose proof (published_state_is_accurate (default_parameters "/data") demo_fixed1
    (demo_world (Returns tt)) initial
    [publish_state (demo_world (Returns tt)) 0 "Episode recorder ready" initial]
    [ObservationStatusReceived true; StartRequested (demo_world (Returns tt)) demo_start;
     MessageReceived (demo_world (Returns tt)) "/cmd_vel"] H0) as Ht.
  destruct (run (next (default_parameters "/data") demo_fixed1) initial _) as [s out] eqn:E.
  destruct Ht as (m & _ & _ & _ & _ & _ & Hc). split; [exact Hc|].
  vm_compute in E. injection E as <- _. reflexivity.
Defined.

Lemma failed_first_write_is_reported_as_started_witness :
  exists s' out response,
    on_start (default_parameters "/data") demo_fixed1 (demo_world (Throws "disk full")) demo_start
      demo_ready = (s', out, response) /\
    accepted response = true /\ recording_ s' = false.
Proof.
  destruct (on_start (default_parameters "/data") demo_fixed1 (demo_world (Throws "disk full"))
    demo_start demo_ready) as [[s' out] response] eqn:E.
  exists s', out, response. split; [reflexivity|].
  assert (accepted response = true) as Ha by (vm_compute in E; injection E as _ _ <-; reflexivity).
  split; [exact Ha|].
  assert (str_empty (directory_ s') = false) as Hne
    by (vm_compute in E; injection E as <- _ _; reflexivity).
  exact (proj1 (failed_first_write_is_reported_as_started (default_parameters "/data") demo_fixed1
    (demo_world (Throws "disk full")) demo_start demo_ready s' out response "disk full" E Ha
    eq_refl eq_refl Hne)).
Defined.
End Witnesses.
