(* ===== verification/FileSystem.v ===== *)
(** * A model of the file system

    The operations of [std::filesystem] the sources use, on a finite map from
    absolute paths (lists of names) to nodes.  Symbolic links are nodes the
    operations do not follow, as the sources ask for with [symlink_status].
    Removal may fail: which entries survive is decided by the operating system,
    an argument of [remove_all]. *)
From S2P Require Import Prelude.
Local Open Scope Z_scope.

Definition path := list string.
(** [path::string()] of an absolute path *)
Definition path_text (p : path) : string := String.concat "" (map (fun c => "/" ++ c)%string p).

Inductive node :=
| File (size : Z) (content : string)
| Directory
| Symlink.

#[export] Instance node_eq_dec : EqDecision node.
Proof. solve_decision. Defined.

Definition filesystem := gmap path node.

Definition is_symlink (n : option node) : bool :=
  match n with Some Symlink => true | _ => false end.
Definition is_regular_file (n : option node) : bool :=
  match n with Some (File _ _) => true | _ => false end.
Definition is_directory (n : option node) : bool :=
  match n with Some Directory => true | _ => false end.
Definition exists_ (n : option node) : bool :=
  match n with Some _ => true | None => false end.

Definition under (p q : path) : bool := bool_decide (p `prefix_of` q).

Definition node_bytes (n : node) : Z := match n with File size _ => size | _ => 0 end.

(** sum of the sizes of the regular files below a directory *)
Definition bytes_below (fs : filesystem) (p : path) : Z :=
  map_fold (fun q n acc => if under p q then acc + node_bytes n else acc) 0 fs.

(** [remove_all]: every entry at or below [p] goes, except those the operating
    system refuses to remove; the flag is the [std::error_code]. *)
Definition remove_all (survives : path -> bool) (p : path) (fs : filesystem)
  : filesystem * bool :=
  (filter (fun e => under p (fst e) = false \/ survives (fst e) = true) fs,
   bool_decide (map_Exists (fun q _ => under p q = true /\ survives q = true) fs)).

(** [resize_file(p, 0)] *)
Definition truncate (fails : path -> bool) (p : path) (fs : filesystem) : filesystem * bool :=
  if fails p then (fs, true) else (<[p := File 0 ""]> fs, false).

(** everything below [a], by the rest of its path *)
Definition subtree (a : path) (fs : filesystem) : filesystem :=
  map_fold (fun q n acc => if under a q then <[drop (List.length a) q := n]> acc else acc) ∅ fs.

(** the effect of a successful [rename(a, b)]: [b] is free or an empty
    directory, which is replaced *)
Definition move_tree (a b : path) (fs : filesystem) : filesystem :=
  kmap (M2 := gmap path) (app b) (subtree a fs) ∪ filter (fun e => under a (fst e) = false) fs.

(** names of the entries directly inside a directory *)
Definition children (fs : filesystem) (p : path) : list string :=
  omap (fun e => match drop (List.length p) (fst e) with
                 | [name] => if under p (fst e) then Some name else None
                 | _ => None end) (map_to_list fs).

Lemma under_spec p q : under p q = true <-> p `prefix_of` q.
Proof. apply bool_decide_eq_true. Qed.

Lemma under_sibling p a b q :
  a <> b -> under (p ++ [a]) q = true -> under (p ++ [b]) q = true -> False.
Proof.
  rewrite !under_spec. intros Hab [k1 E1] [k2 E2]. rewrite E1, <- !app_assoc in E2.
  apply app_inv_head in E2. simpl in E2. congruence.
Qed.

Lemma remove_all_outside survives p fs q :
  under p q = false -> fst (remove_all survives p fs) !! q = fs !! q.
Proof.
  intros Hq. simpl. destruct (fs !! q) as [n|] eqn:E.
  - apply map_lookup_filter_Some. split; [done|]. by left.
  - apply map_lookup_filter_None. by left.
Qed.

Lemma remove_all_inside survives p fs q :
  snd (remove_all survives p fs) = false -> under p q = true ->
  fst (remove_all survives p fs) !! q = None.
Proof.
  simpl. intros Hr Hq. apply bool_decide_eq_false in Hr. apply map_lookup_filter_None.
  right. intros n Hn [Hu|Hs]; simpl in *; [congruence|]. apply Hr. exists q, n. done.
Qed.

Lemma truncate_outside fails p fs q :
  under p q = false -> fst (truncate fails p fs) !! q = fs !! q.
Proof.
  intros Hq. unfold truncate. destruct (fails p); [done|]. simpl. apply lookup_insert_ne.
  intros <-. assert (under p p = true) by by apply under_spec. congruence.
Qed.

Lemma remove_all_none survives p fs q :
  fs !! q = None -> fst (remove_all survives p fs) !! q = None.
Proof. intros E. simpl. apply map_lookup_filter_None. by left. Qed.

Lemma children_spec fs p name : In name (children fs p) <-> is_Some (fs !! (p ++ [name])).
Proof.
  unfold children. rewrite <- list_elem_of_In, list_elem_of_omap. split.
  - intros ([q n] & Hin & Hq). simpl in Hq. apply elem_of_map_to_list in Hin.
    destruct (drop (List.length p) q) as [|x [|]] eqn:E; try done.
    destruct (under p q) eqn:Hu; [|done]. injection Hq as ->.
    apply under_spec in Hu as [k ->]. rewrite drop_app_length in E. subst k. by exists n.
  - intros [n Hn]. exists (p ++ [name], n). split; [by apply elem_of_map_to_list|]. simpl.
    rewrite drop_app_length.
    assert (under p (p ++ [name]) = true) as ->; [|done]. apply under_spec. by eexists.
Qed.

Lemma subtree_lookup a fs r : subtree a fs !! r = fs !! (a ++ r).
Proof.
  unfold subtree. apply (map_fold_weak_ind (fun acc fs => acc !! r = fs !! (a ++ r))).
  - by rewrite !lookup_empty.
  - intros q n m acc Hq IH. destruct (under a q) eqn:Hu.
    + apply under_spec in Hu as [k ->]. rewrite drop_app_length. destruct (decide (k = r)) as [->|Hne].
      * by rewrite (lookup_insert_eq m), (lookup_insert_eq acc).
      * rewrite (lookup_insert_ne m), (lookup_insert_ne acc); [done|done|]. by intros ?%app_inv_head.
    + rewrite lookup_insert_ne; [done|]. intros ->.
      assert (under a (a ++ r) = true) by (apply under_spec; by eexists). congruence.
Qed.

Lemma move_tree_inside a b fs r :
  is_Some (fs !! (a ++ r)) -> move_tree a b fs !! (b ++ r) = fs !! (a ++ r).
Proof.
  intros [n Hn]. unfold move_tree. rewrite Hn. apply lookup_union_Some_l.
  rewrite lookup_kmap by apply _. by rewrite subtree_lookup.
Qed.

Lemma move_tree_is_Some a b fs r :
  is_Some (fs !! (a ++ r)) -> is_Some (move_tree a b fs !! (b ++ r)).
Proof. intros H. pose proof (move_tree_inside a b fs r H) as E. destruct H as [n Hn]. exists n. by rewrite E. Qed.

Lemma move_tree_source a b fs q :
  under a q = true -> under b q = false -> move_tree a b fs !! q = None.
Proof.
  intros Ha Hb. unfold move_tree. apply lookup_union_None. split.
  - apply lookup_kmap_None; [apply _|]. intros r ->. exfalso.
    assert (under b (b ++ r) = true) by (apply under_spec; by eexists). congruence.
  - apply map_lookup_filter_None. right. intros n _. simpl. congruence.
Qed.

Lemma move_tree_outside a b fs q :
  under a q = false -> under b q = false -> move_tree a b fs !! q = fs !! q.
Proof.
  intros Ha Hb. unfold move_tree. etransitivity; [apply lookup_union_r|].
  2:{ destruct (fs !! q) as [n|] eqn:E.
    - by apply map_lookup_filter_Some.
    - apply map_lookup_filter_None. by left. }
  apply lookup_kmap_None; [apply _|]. intros r ->. exfalso.
  assert (under b (b ++ r) = true) by (apply under_spec; by eexists). congruence.
Qed.
