(* ===== verification/Jobs.v ===== *)
(** * The job manager of the operations service

    Models [vehicle_ops/src/job_manager.hpp] and [job_manager.cpp].  HTTP
    workers call [create], [get], [log], [list] and [cancel] while one worker
    thread runs the active job; everything happens in critical sections of
    [mutex_], which are the events of the model, together with the system calls
    of the worker between them ([fork], [waitpid]) and the steps of the child
    process they depend on.  [next] is partial: an event that is not enabled (a
    blocked [join], a thread that is elsewhere) has no successor.  Jobs are
    shared: [jobs_] and [active_job_] hold references into [heap].

    Command construction ([command_for]) reads no shared state; what it asks the
    file system for is the [Paths] of the call. *)
From S2P Require Import Prelude Calendar Floats JsonData Regex FileSystem.
Local Open Scope Z_scope.
Local Open Scope result_scope.

(** ** Parameters of a request *)
Definition required (key : string) : Exn :=
  InvalidArgument ("Parameter '" ++ key ++ "' is required")%string.

Definition required_string (object : JsonValue) (key : string) : Result string :=
  match member key object with
  | Some (J_string value) => if str_empty value then Raised (required key) else Done value
  | _ => Raised (required key)
  end.

Definition checked_value (object : JsonValue) (key : string) (pattern : regex) : Result string :=
  let? value := required_string object key in
  if regex_match value pattern then Done value
  else Raised (InvalidArgument ("Parameter '" ++ key ++ "' has an invalid format")%string).

(** the character classes of the patterns *)
Definition between_code (lo hi : Z) (x : ascii) : bool :=
  (lo <=? Z.of_N (N_of_ascii x)) && (Z.of_N (N_of_ascii x) <=? hi).
Definition lower : ascii -> bool := between_code 97 122.
Definition alphanumeric (x : ascii) : bool := between_code 48 57 x || between_code 65 90 x || lower x.
Definition one_of (s : string) (x : ascii) : bool := str_has x s.
Definition either (a b : ascii -> bool) (x : ascii) : bool := a x || b x.

(** [[A-Za-z0-9._-]] and the like *)
Definition lower_word := either lower (either (between_code 48 57) (one_of "_-")).
Definition name_char := either alphanumeric (one_of "._-").
Definition path_char := either alphanumeric (one_of "._/-").

Definition provider_pattern : regex := Seq (Class lower) (between 1 31 (Class lower_word)).
Definition version_pattern : regex := Seq (Class alphanumeric) (between 0 79 (Class name_char)).
Definition model_pattern : regex :=
  Seq (plus (Class name_char)) (Seq (Class (Ascii.eqb "/")) (plus (Class name_char))).
Definition revision_pattern : regex := between 1 120 (Class path_char).
Definition dataset_pattern : regex := between 0 160 (Class path_char).
Definition path_pattern : regex := between 1 240 (Class path_char).
Definition precision_pattern : regex :=
  Or (word "mixed") (Or (word "float32") (Or (word "float16") (Or (word "bfloat16") (word "int8")))).

(** ** Paths *)

(** [project_root_] and what the file system says during one call *)
Record Paths := MakePaths {
  project_root_ : path;
  weakly_canonical : string -> Result path;   (* may throw [filesystem_error] *)
  path_exists : path -> bool }.

Definition is_within (child parent : path) : bool := bool_decide (parent `prefix_of` child).

Section Commands.
Variable w : Paths.

Definition in_project (relative : string) : string := path_join (path_text (project_root_ w)) relative.

Definition root_names : list string := ["datasets"; "run/test"; "run/ops/exports"]%string.

Definition roots : Result (list path) := rmap (fun name => weakly_canonical w (in_project name)) root_names.

Definition requested_path (value : string) (message : string) : Result unit :=
  check (negb (str_empty value || starts_with_slash value)) (InvalidArgument message).

Definition resolve_input (value : string) : Result path :=
  let? _ := requested_path value "Input path must be project-relative" in
  let? resolved := weakly_canonical w (in_project value) in
  let? allowed := roots in
  if negb (path_exists w resolved) || negb (existsb (is_within resolved) allowed)
  then Raised (InvalidArgument "Input path must exist under datasets/ or run/test/")
  else Done resolved.

Definition resolve_output (value : string) : Result path :=
  let? _ := requested_path value "Output path must be project-relative" in
  let? resolved := weakly_canonical w (in_project value) in
  let? allowed := roots in
  if negb (existsb (is_within resolved) allowed)
  then Raised (InvalidArgument "Output path must stay under datasets/, run/test/ or run/ops/exports/")
  else Done resolved.

Definition script (name : string) : string := path_text (project_root_ w ++ ["scripts"%string; name]).

Definition input_of (parameters : JsonValue) (key : string) : Result string :=
  let? value := required_string parameters key in
  let? resolved := resolve_input value in Done (path_text resolved).
Definition output_of (parameters : JsonValue) (key : string) : Result string :=
  let? value := required_string parameters key in
  let? resolved := resolve_output value in Done (path_text resolved).

(** the loop over ['datasets'] *)
Definition dataset_argument (dataset : JsonValue) : Result string :=
  match dataset with
  | J_string value => let? resolved := resolve_input value in Done (path_text resolved)
  | _ => Raised (InvalidArgument "Each dataset path must be a string")
  end.

(** the elements of [parameters.value("datasets", Json::array())], when it is an array *)
Definition dataset_list (parameters : JsonValue) : Result (option (list JsonValue)) :=
  let? datasets := json (value_json "datasets" (J_array []) parameters) in
  Done (match datasets with J_array l => Some l | _ => None end).

Definition registered_provider (parameters : JsonValue) : Result string :=
  let? provider := checked_value parameters "provider" provider_pattern in
  let? _ := check (str_eqb provider "smolvla") (InvalidArgument "Model provider is not registered") in
  Done provider.

Definition optional_dataset (parameters : JsonValue) : Result string :=
  let? dataset_id := json (value_string "dataset_id" ""%string parameters) in
  let? _ := check (regex_match dataset_id dataset_pattern)
    (InvalidArgument "Parameter 'dataset_id' has an invalid format") in
  Done dataset_id.

Definition size_between (lo hi : Z) (parameters : JsonValue) (message : string) : Result unit :=
  check ((lo <=? json_size parameters) && (json_size parameters <=? hi)) (InvalidArgument message).

Definition export_command (parameters : JsonValue) : Result (list string) :=
  let? episode := input_of parameters "episode" in
  let? output := output_of parameters "output" in
  Done [script "export_episode.sh"; episode; output].

Definition inspect_command (parameters : JsonValue) : Result (list string) :=
  let? dataset := input_of parameters "dataset" in
  let? output := output_of parameters "output" in
  Done [script "inspect_dataset.sh"; dataset; output].

Definition split_command (parameters : JsonValue) : Result (list string) :=
  let? output := output_of parameters "output" in
  let? dataset := input_of parameters "dataset" in
  Done [script "split_vehicle_dataset.sh"; output; dataset].

Definition archive_command (parameters : JsonValue) : Result (list string) :=
  let? datasets := dataset_list parameters in
  match datasets with
  | None | Some [] => Raised (InvalidArgument "Parameter 'datasets' must contain at least one dataset")
  | Some l =>
      let? output := output_of parameters "output" in
      let? arguments := rmap dataset_argument l in
      Done (script "archive_dataset.sh" :: output :: arguments)
  end.

Definition convert_command (parameters : JsonValue) : Result (list string) :=
  let? datasets := dataset_list parameters in
  match datasets with
  | None | Some [] =>
      let? output := output_of parameters "output" in
      let? dataset := input_of parameters "dataset" in
      Done [script "convert_lerobot_dataset.sh"; output; dataset]
  | Some l =>
      let? output := output_of parameters "output" in
      let? arguments := rmap dataset_argument l in
      Done (script "convert_lerobot_dataset.sh" :: output :: arguments)
  end.

Definition no_parameters (type name : string) (parameters : JsonValue) : Result (list string) :=
  let? _ := check (json_size parameters =? 0) (InvalidArgument (type ++ " accepts no parameters")%string) in
  Done [script name].

Definition switch_command (parameters : JsonValue) : Result (list string) :=
  let? provider := required_string parameters "provider" in
  let? _ := check (str_eqb provider "mock" || str_eqb provider "smolvla")
    (InvalidArgument "Parameter 'provider' must be mock or smolvla") in
  let? _ := size_between 1 1 parameters "policy.runtime_switch only accepts the provider parameter" in
  Done [script "switch_policy_runtime.sh"; provider].

Definition install_command (parameters : JsonValue) : Result (list string) :=
  let? provider := registered_provider parameters in
  let? version := checked_value parameters "version" version_pattern in
  let? model_id := checked_value parameters "model_id" model_pattern in
  let? revision := checked_value parameters "revision" revision_pattern in
  let? dataset_id := optional_dataset parameters in
  let? _ := size_between 4 5 parameters
    "policy.model_install accepts provider, version, model_id, revision and optional dataset_id" in
  Done [script "install_policy_model.sh"; provider; version; model_id; revision; dataset_id].

Definition import_command (parameters : JsonValue) : Result (list string) :=
  let? _ := size_between 3 4 parameters
    "policy.model_import accepts provider, version, source_path and optional dataset_id" in
  let? provider := registered_provider parameters in
  let? dataset_id := optional_dataset parameters in
  let? version := checked_value parameters "version" version_pattern in
  let? source_path := checked_value parameters "source_path" path_pattern in
  Done [script "import_policy_model.sh"; provider; version; source_path; dataset_id].

Definition activate_command (parameters : JsonValue) : Result (list string) :=
  let? _ := size_between 2 2 parameters "policy.model_activate only accepts provider and version" in
  let? provider := registered_provider parameters in
  let? version := checked_value parameters "version" version_pattern in
  Done [script "activate_policy_model.sh"; provider; version].

Definition variant_command (parameters : JsonValue) : Result (list string) :=
  let? _ := size_between 4 4 parameters
    "policy.model_variant accepts provider, source_version, target_version and precision" in
  let? provider := registered_provider parameters in
  let? source_version := checked_value parameters "source_version" version_pattern in
  let? target_version := checked_value parameters "target_version" version_pattern in
  let? precision := checked_value parameters "precision" precision_pattern in
  Done [script "prepare_policy_model_variant.sh"; provider; source_version; target_version; precision].

(** the chain of [if]s on the job type *)
Definition command_for (type : string) (parameters : JsonValue) : Result (list string) :=
  if str_eqb type "dataset.export_episode" then export_command parameters
  else if str_eqb type "dataset.inspect" then inspect_command parameters
  else if str_eqb type "dataset.split" then split_command parameters
  else if str_eqb type "dataset.archive_lerobot" then archive_command parameters
  else if str_eqb type "dataset.convert_lerobot" then convert_command parameters
  else if str_eqb type "policy.health_check" then
    no_parameters type "verify_smolvla_model_offline.sh" parameters
  else if str_eqb type "policy.runtime_test" then no_parameters type "test_smolvla_runtime.sh" parameters
  else if str_eqb type "policy.runtime_switch" then switch_command parameters
  else if str_eqb type "policy.model_install" then install_command parameters
  else if str_eqb type "policy.model_import" then import_command parameters
  else if str_eqb type "policy.model_activate" then activate_command parameters
  else if str_eqb type "policy.model_variant" then variant_command parameters
  else Raised (InvalidArgument "Unsupported job_type").
End Commands.

(** ** Jobs and the state of the manager *)
Record Job := MakeJob {
  id : string;
  type : string;
  state : string;
  parameters : JsonValue;
  command : list string;
  directory : path;
  requested_at : string;
  started_at : string;
  ended_at : string;
  cancellation_reason : string;
  pid : Z;
  exit_code : Z;
  cancel_requested : bool }.
#[export] Instance eta_job : Eta Job := fun j =>
  MakeJob (id j) (type j) (state j) (parameters j) (command j) (directory j) (requested_at j)
    (started_at j) (ended_at j) (cancellation_reason j) (pid j) (exit_code j) (cancel_requested j).
(** [log_path], [directory / "job.log"] throughout *)
Definition log_path (j : Job) : path := directory j ++ ["job.log"%string].
Definition status_path (j : Job) : path := directory j ++ ["status.json"%string].
Definition request_path (j : Job) : path := directory j ++ ["request.json"%string].

(** what [waitpid] reports of a child *)
Inductive WaitStatus := Exited (code : Z) | Signaled (signal : Z).

(** The child of the active job: forked, not yet in a process group of its own;
    in its group, and whether SIGTERM was sent to the group; ended. *)
Inductive Child :=
| NoChild
| Forked (child_pid : Z)
| Grouped (child_pid : Z) (signalled : bool)
| Ended (child_pid : Z) (status : WaitStatus).

(** where the worker thread is; [p] is the job it runs *)
Inductive Worker :=
| NotJoinable                                  (* no thread, or joined *)
| Forking (p : nat)                            (* before [fork] *)
| AfterFork (p : nat) (pid_ : Z)               (* before the second critical section *)
| Waiting (p : nat) (pid_ : Z)                 (* in [waitpid] *)
| Waited (p : nat) (pid_ : Z) (status : option WaitStatus)   (* [None]: [waitpid] failed *)
| ForkFailed (p : nat)
| Returned                                     (* joinable *)
| Terminated.                                  (* an exception left the thread: [std::terminate] *)

Record JobManager := MakeManager {
  heap : gmap nat Job;
  next_ref : nat;
  jobs_ : list nat;
  active_job_ : option nat;
  worker_ : Worker;
  child : Child;
  sequence : Z;                   (* the counter of [make_job_id] *)
  files : gmap path string;       (* the contents of the files below [jobs_root_] *)
  closing : bool }.               (* the destructor has taken the lock *)
#[export] Instance eta_manager : Eta JobManager := fun s =>
  MakeManager (heap s) (next_ref s) (jobs_ s) (active_job_ s) (worker_ s) (child s) (sequence s)
    (files s) (closing s).

Definition set_job (p : nat) (f : Job -> Job) (s : JobManager) : JobManager :=
  s <| heap := alter f p (heap s) |>.
Definition job_at (s : JobManager) (p : nat) : option Job := heap s !! p.

(** ** Files *)

(** What the disk does to a write: the content the file has after it, [None]
    when it could not be opened (the stream is not checked). *)
Definition Disk := path -> string -> option string.

Definition write_file (d : Disk) (p : path) (content : string) (fs : gmap path string) : gmap path string :=
  match d p content with Some text => <[p := text]> fs | None => fs end.

(** the last [limit] bytes of a file, nothing when it cannot be opened *)
Definition tail (limit : nat) (text : string) : string :=
  substring (String.length text - limit) (String.length text) text.
Definition read_tail (fs : gmap path string) (p : path) (limit : nat) : string :=
  match fs !! p with Some text => tail limit text | None => "" end.

Definition status_limit : nat := Z.to_nat (256 * 1024).
Definition log_limit : nat := Z.to_nat (128 * 1024).

(** the world of one critical section: the time, the disk and
    [std::filesystem::relative] *)
Record World := MakeWorld {
  clock : Z;
  disk : Disk;
  relative : path -> Result string }.

(** ** Operations *)
Section Manager.
Context `{Nlohmann}.

Definition status_document (w : World) (j : Job) (log_relative : string) : JsonValue :=
  J_object
    [("schema_version", J_string "vehicle.ops.job.v1"); ("id", J_string (id j));
     ("job_type", J_string (type j)); ("state", J_string (state j)); ("parameters", parameters j);
     ("requested_at", J_string (requested_at j)); ("started_at", J_string (started_at j));
     ("ended_at", J_string (ended_at j)); ("pid", J_integer (pid j));
     ("exit_code", J_integer (exit_code j));
     ("cancellation_reason", J_string (cancellation_reason j));
     ("log_path", J_string log_relative)]%string.

Definition request_document (j : Job) : JsonValue :=
  J_object [("job_type", J_string (type j)); ("parameters", parameters j)]%string.

(** [persist]: the first document is on disk when the second one throws *)
Definition persist (w : World) (j : Job) (fs : gmap path string) : Result unit * gmap path string :=
  match relative w (log_path j) with
  | Raised e => (Raised e, fs)
  | Done log_relative =>
      match dump_indent 2 (status_document w j log_relative) with
      | Throws e => (Raised (JsonError e), fs)
      | Returns status =>
          let fs1 := write_file (disk w) (status_path j) (status ++ newline)%string fs in
          match dump_indent 2 (request_document j) with
          | Throws e => (Raised (JsonError e), fs1)
          | Returns request =>
              (Done tt, write_file (disk w) (request_path j) (request ++ newline)%string fs1)
          end
      end
  end.

Definition find_locked (s : JobManager) (job_id : string) : option nat :=
  List.find (fun p => match job_at s p with Some j => str_eqb (id j) job_id | None => false end) (jobs_ s).

(** what a call of the interface returns *)
Inductive Response :=
| Created (r : Result string)                  (* the identifier of the job *)
| Text (r : option string)
| Listed (r : Result string)
| Cancelled (r : Result (option string)).
Inductive Output :=
| Answer (r : Response)
| Kill (group : Z)                             (* [::kill(-group, SIGTERM)] *)
| Spawn (arguments : list string).             (* [execv] of /usr/bin/bash in the child *)

(** [create] *)
Record CreateCall := MakeCreate {
  paths : Paths;
  milliseconds : Z;
  world : World;
  create_directories : Result unit;
  start_thread : Result unit }.

Definition make_job_id (ms seq : Z) : string := "job-" ++ to_string ms ++ "-" ++ to_string seq.

Definition new_job (c : CreateCall) (jobs_root : path) (seq : Z) (t : string) (ps : JsonValue)
    (cmd : list string) : Job :=
  MakeJob (make_job_id (milliseconds c) seq) t "queued" ps cmd
    (jobs_root ++ [make_job_id (milliseconds c) seq]) (utc_timestamp (clock (world c))) "" "" "" (-1) (-1) false.

(** [jobs_.insert(begin, job)], [resize(50)] *)
Definition history_limit : nat := 50.
Definition push_job (p : nat) (l : list nat) : list nat := take history_limit (p :: l).

(** [::kill(-pid, SIGTERM)] reaches a group the child has made *)
Definition signal_group (pid_ : Z) (c : Child) : Child :=
  match c with
  | Grouped q _ => if q =? pid_ then Grouped q true else c
  | _ => c
  end.

(** [worker_.joinable()] and [join()]: [None] blocks *)
Definition join (w : Worker) : option Worker :=
  match w with
  | NotJoinable | Returned => Some NotJoinable
  | _ => None
  end.

(** the critical section of [create] *)
Definition create_locked (c : CreateCall) (job : Job) (s : JobManager)
  : option (JobManager * Result string) :=
  match active_job_ s with
  | Some _ => Some (s, Raised (RuntimeError "Another job is already running"))
  | None =>
      match join (worker_ s) with
      | None => None
      | Some joined =>
          let s1 := s <| worker_ := joined |> in
          match create_directories c with
          | Raised e => Some (s1, Raised e)
          | Done _ =>
              let p := next_ref s in
              let s2 := s1 <| heap := <[p := job]> (heap s) |> <| next_ref := S p |>
                           <| jobs_ := push_job p (jobs_ s) |> <| active_job_ := Some p |> in
              match persist (world c) job (files s2) with
              | (Raised e, fs) => Some (s2 <| files := fs |>, Raised e)
              | (Done _, fs) =>
                  match start_thread c with
                  | Raised e => Some (s2 <| files := fs |>, Raised e)
                  | Done _ => Some (s2 <| files := fs |> <| worker_ := Forking p |>, Done (id job))
                  end
              end
          end
      end
  end.

(** Whether [make_job_id] was called: the request has a type and an object of
    parameters. *)
Definition request_head (request_body : string) : Result (string * JsonValue) :=
  let? request := match parse request_body with
                  | Returns v => Done v
                  | Throws _ => Raised (InvalidArgument "Request body must be valid JSON")
                  end in
  let? t := required_string request "job_type" in
  let? ps := json (value_json "parameters" (J_object []) request) in
  let? _ := check (is_object ps) (InvalidArgument "parameters must be an object") in
  Done (t, ps).

Definition create (jobs_root : path) (c : CreateCall) (request_body : string) (s : JobManager)
  : option (JobManager * Result string) :=
  match request_head request_body with
  | Raised e => Some (s, Raised e)
  | Done (t, ps) =>
      let s1 := s <| sequence := wrap64 (sequence s + 1) |> in
      match command_for (paths c) t ps with
      | Raised e => Some (s1, Raised e)
      | Done cmd => create_locked c (new_job c jobs_root (sequence s) t ps cmd) s1
      end
  end.

(** [get], [log] *)
Definition read_job (file : Job -> path) (limit : nat) (job_id : string) (s : JobManager) : option string :=
  match find_locked s job_id with
  | None => None
  | Some p => match job_at s p with
              | Some j => Some (read_tail (files s) (file j) limit)
              | None => None
              end
  end.

(** [list] *)
Definition list_documents (s : JobManager) : Outcome (list JsonValue) :=
  omap_list (fun p => match job_at s p with
                      | Some j => parse (read_tail (files s) (status_path j) status_limit)
                      | None => Returns J_null   (* no reference of [jobs_] is dangling *)
                      end) (jobs_ s).

Definition list_jobs (s : JobManager) : Result string :=
  let? documents := json (list_documents s) in
  let? text := json (dump (J_object [("schema_version"%string, J_string "vehicle.ops.jobs.v1");
                                     ("jobs"%string, J_array documents)])) in
  Done (text ++ newline)%string.

(** [cancel] *)
Definition is_pending (j : Job) : bool := str_eqb (state j) "running" || str_eqb (state j) "queued".
Definition uncancellable (j : Job) : bool :=
  str_eqb (type j) "policy.runtime_switch" || str_eqb (type j) "policy.model_activate".

Definition cancel (w : World) (job_id : string) (s : JobManager)
  : JobManager * Result (option string) * list Output :=
  match find_locked s job_id with
  | None => (s, Done None, [])
  | Some p =>
      match job_at s p with
      | None => (s, Done None, [])
      | Some j =>
          if negb (is_pending j) then (s, Raised (RuntimeError "Job is no longer running"), [])
          else if uncancellable j then
            (s, Raised (RuntimeError "Policy Runtime switch and model activation jobs cannot be cancelled"), [])
          else
            let j' := j <| cancel_requested := true |>
                        <| cancellation_reason := "Cancelled by Vehicle Ops operator" |> in
            let kills := if 0 <? pid j then [Kill (pid j)] else [] in
            let s1 := s <| heap := <[p := j']> (heap s) |>
                        <| child := if 0 <? pid j then signal_group (pid j) (child s) else child s |> in
            match persist w j' (files s) with
            | (Raised e, fs) => (s1 <| files := fs |>, Raised e, kills)
            | (Done _, fs) =>
                (s1 <| files := fs |>, Done (Some (read_tail fs (status_path j') status_limit)), kills)
            end
      end
  end.

(** *** The worker thread ([run]) *)

(** [persist] at the end of a critical section of the thread: an exception there
    ends the process *)
Definition persist_in_thread (w : World) (p : nat) (after : Worker) (s : JobManager) : JobManager :=
  match job_at s p with
  | None => s
  | Some j =>
      match persist w j (files s) with
      | (Done _, fs) => s <| files := fs |> <| worker_ := after |>
      | (Raised _, fs) => s <| files := fs |> <| worker_ := Terminated |>
      end
  end.

(** [fork] in the parent *)
Definition worker_fork (result : option Z) (s : JobManager) : option (JobManager * list Output) :=
  match worker_ s, result with
  | Forking p, Some pid_ =>
      match job_at s p with
      | Some j =>
          if 0 <? pid_ then
            Some (s <| worker_ := AfterFork p pid_ |> <| child := Forked pid_ |>, [Spawn (command j)])
          else None
      | None => None
      end
  | Forking p, None => Some (s <| worker_ := ForkFailed p |>, [])
  | _, _ => None
  end.

(** the critical section for [pid < 0] *)
Definition worker_fork_failed (w : World) (s : JobManager) : option JobManager :=
  match worker_ s with
  | ForkFailed p =>
      Some (persist_in_thread w p Returned
        (set_job p (fun j => j <| state := "failed"%string |> <| ended_at := utc_timestamp (clock w) |>
                               <| exit_code := 127 |>)
           (s <| active_job_ := None |>)))
  | _ => None
  end.

(** the critical section after a successful [fork] *)
Definition worker_started (w : World) (s : JobManager) : option (JobManager * list Output) :=
  match worker_ s with
  | AfterFork p pid_ =>
      match job_at s p with
      | Some j =>
          let s1 := set_job p (fun j => j <| pid := pid_ |> <| state := "running"%string |>
                                          <| started_at := utc_timestamp (clock w) |>) s in
          let s2 := if cancel_requested j then s1 <| child := signal_group pid_ (child s) |> else s1 in
          Some (persist_in_thread w p (Waiting p pid_) s2,
                if cancel_requested j then [Kill pid_] else [])
      | None => None
      end
  | _ => None
  end.

(** [waitpid] returns: with the child's status once it has ended, or with an error *)
Definition worker_waited (fails : bool) (s : JobManager) : option JobManager :=
  match worker_ s with
  | Waiting p pid_ =>
      if fails then Some (s <| worker_ := Waited p pid_ None |>)
      else match child s with
           | Ended _ status => Some (s <| worker_ := Waited p pid_ (Some status) |> <| child := NoChild |>)
           | _ => None
           end
  | _ => None
  end.

Definition final_state (cancelled : bool) (status : option WaitStatus) : string :=
  if cancelled then "cancelled"
  else match status with
       | Some (Exited 0) => "succeeded"
       | _ => "failed"
       end.
Definition final_exit_code (status : option WaitStatus) : Z :=
  match status with
  | None => 127
  | Some (Exited code) => code
  | Some (Signaled signal) => 128 + signal
  end.

(** the last critical section of [run] *)
Definition worker_finish (w : World) (s : JobManager) : option JobManager :=
  match worker_ s with
  | Waited p pid_ status =>
      Some (persist_in_thread w p Returned
        (set_job p (fun j => j <| ended_at := utc_timestamp (clock w) |>
                               <| state := final_state (cancel_requested j) status |>
                               <| exit_code := final_exit_code status |> <| pid := -1 |>)
           (s <| active_job_ := None |>)))
  | _ => None
  end.

(** the child process: [setpgid(0, 0)], and its end *)
Definition child_setpgid (s : JobManager) : option JobManager :=
  match child s with
  | Forked q => Some (s <| child := Grouped q false |>)
  | _ => None
  end.
Definition child_ends (status : WaitStatus) (s : JobManager) : option JobManager :=
  match child s with
  | Forked q | Grouped q _ => Some (s <| child := Ended q status |>)
  | _ => None
  end.

(** the critical section of the destructor *)
Definition destroy (s : JobManager) : JobManager * list Output :=
  let s1 := s <| closing := true |> in
  match active_job_ s with
  | Some p =>
      match job_at s p with
      | Some j =>
          if 0 <? pid j then
            (set_job p (fun j => j <| cancel_requested := true |>
                                   <| cancellation_reason := "Vehicle Ops shutdown"%string |>)
               (s1 <| child := signal_group (pid j) (child s) |>), [Kill (pid j)])
          else (s1, [])
      | None => (s1, [])
      end
  | None => (s1, [])
  end.

Inductive Event :=
| Create (c : CreateCall) (request_body : string)
| Get (job_id : string)
| Log (job_id : string)
| ListJobs
| Cancel (w : World) (job_id : string)
| Fork (result : option Z)
| ForkFailedSection (w : World)
| StartedSection (w : World)
| WaitReturns (fails : bool)
| FinishSection (w : World)
| ChildSetpgid
| ChildEnds (status : WaitStatus)
| Destroy.

(** the calls of the interface end with the destructor, everything with the
    process *)
Definition is_call (e : Event) : bool :=
  match e with Create _ _ | Get _ | Log _ | ListJobs | Cancel _ _ | Destroy => true | _ => false end.

Definition terminated (s : JobManager) : bool :=
  match worker_ s with Terminated => true | _ => false end.

Definition next (jobs_root : path) (s : JobManager) (e : Event) : option (JobManager * list Output) :=
  if is_call e && closing s || terminated s then None
  else
    match e with
    | Create c body =>
        match create jobs_root c body s with
        | Some (s', r) => Some (s', [Answer (Created r)])
        | None => None
        end
    | Get job_id => Some (s, [Answer (Text (read_job status_path status_limit job_id s))])
    | Log job_id => Some (s, [Answer (Text (read_job log_path log_limit job_id s))])
    | ListJobs => Some (s, [Answer (Listed (list_jobs s))])
    | Cancel w job_id =>
        let '(s', r, kills) := cancel w job_id s in Some (s', kills ++ [Answer (Cancelled r)])
    | Fork result => worker_fork result s
    | ForkFailedSection w => option_map (fun s' => (s', [])) (worker_fork_failed w s)
    | StartedSection w => worker_started w s
    | WaitReturns fails => option_map (fun s' => (s', [])) (worker_waited fails s)
    | FinishSection w => option_map (fun s' => (s', [])) (worker_finish w s)
    | ChildSetpgid => option_map (fun s' => (s', [])) (child_setpgid s)
    | ChildEnds status => option_map (fun s' => (s', [])) (child_ends status s)
    | Destroy => Some (destroy s)
    end.

Definition step (jobs_root : path) (s : JobManager) (e : Event) (s' : JobManager) (o : list Output) : Prop :=
  next jobs_root s e = Some (s', o).

(** ** [load_history] *)

(** one directory of [jobs_root_]; an exception skips it *)
Definition stored_job (dir : path) (stored : JsonValue) : Outcome Job :=
  (let! job_id := match member "id" stored with Some v => get_string v | None => type_error end in
   let! t := match member "job_type" stored with Some v => get_string v | None => type_error end in
   let! st := match member "state" stored with Some v => get_string v | None => type_error end in
   let! ps := value_json "parameters" (J_object []) stored in
   let! requested := value_string "requested_at" ""%string stored in
   let! started := value_string "started_at" ""%string stored in
   let! ended := value_string "ended_at" ""%string stored in
   let! code := value get_int "exit_code" (-1) stored in
   let! reason := value_string "cancellation_reason" ""%string stored in
   Returns (MakeJob job_id t st ps [] dir requested started ended reason (-1) code false))%outcome.

Definition interrupted (w : World) (j : Job) : Job :=
  j <| state := "failed"%string |> <| ended_at := utc_timestamp (clock w) |>
    <| cancellation_reason := "Vehicle Ops restarted before job completion"%string |>.

(** the job a directory yields and the files afterwards; an exception of
    [persist] skips the job too *)
Definition load_one (w : World) (dir : path) (fs : gmap path string) : option Job * gmap path string :=
  match (let! stored := parse (read_tail fs (dir ++ ["status.json"%string]) status_limit) in
         stored_job dir stored)%outcome with
  | Throws _ => (None, fs)
  | Returns j =>
      if is_pending j then
        match persist w (interrupted w j) fs with
        | (Done _, fs') => (Some (interrupted w j), fs')
        | (Raised _, fs') => (None, fs')
        end
      else (Some j, fs)
  end.

(** the loop over the directories, newest name first, until there are 50 jobs *)
Fixpoint load_loop (w : World) (room : nat) (dirs : list path) (fs : gmap path string)
  : list Job * gmap path string :=
  match dirs, room with
  | [], _ | _, O => ([], fs)
  | dir :: rest, S room' =>
      match load_one w dir fs with
      | (None, fs') => load_loop w room rest fs'
      | (Some j, fs') =>
          let '(l, fs'') := load_loop w room' rest fs' in (j :: l, fs'')
      end
  end.

(** The state the constructor leaves: [dirs] are the subdirectories of
    [jobs_root_] in descending order. *)
Definition load_history (w : World) (dirs : list path) (fs : gmap path string) : JobManager :=
  let '(l, fs') := load_loop w history_limit dirs fs in
  MakeManager (list_to_map (zip (seq 0 (List.length l)) l)) (List.length l) (seq 0 (List.length l))
    None NotJoinable NoChild 0 fs' false.

(** ** Consistency *)

(** the job the thread runs *)
Definition running_job (wk : Worker) : option nat :=
  match wk with
  | Forking p | AfterFork p _ | Waiting p _ | Waited p _ _ | ForkFailed p => Some p
  | NotJoinable | Returned | Terminated => None
  end.

(** what the thread knows of its job *)
Definition agrees (wk : Worker) (j : Job) : Prop :=
  match wk with
  | Forking _ | ForkFailed _ => state j = "queued"%string
  | AfterFork _ q => state j = "queued"%string /\ 0 < q
  | Waiting _ q | Waited _ q _ => state j = "running"%string /\ pid j = q /\ 0 < q
  | NotJoinable | Returned | Terminated => True
  end.

(** the child the thread waits for *)
Definition child_agrees (wk : Worker) (c : Child) : Prop :=
  match wk, c with
  | AfterFork _ q, (Forked r | Grouped r _ | Ended r _) => r = q
  | Waiting _ q, (Forked r | Grouped r _ | Ended r _) => r = q
  | AfterFork _ _, NoChild | Waiting _ _, NoChild => False
  | _, _ => True
  end.

Record consistent (s : JobManager) : Prop := {
  refs_ok p : p ∈ jobs_ s -> is_Some (heap s !! p);
  refs_fresh p : is_Some (heap s !! p) -> (p < next_ref s)%nat;
  jobs_nodup : NoDup (jobs_ s);
  jobs_bounded : (List.length (jobs_ s) <= history_limit)%nat;
  active_first p : active_job_ s = Some p -> head (jobs_ s) = Some p;
  active_runs p : active_job_ s = Some p ->
    running_job (worker_ s) = Some p \/ worker_ s = NotJoinable \/ worker_ s = Terminated;
  runs_active p : running_job (worker_ s) = Some p -> active_job_ s = Some p;
  thread_agrees p j : running_job (worker_ s) = Some p -> heap s !! p = Some j -> agrees (worker_ s) j;
  child_known : child_agrees (worker_ s) (child s);
  active_pending p j : active_job_ s = Some p -> heap s !! p = Some j -> is_pending j = true;
  only_active_pending p j : p ∈ jobs_ s -> heap s !! p = Some j -> is_pending j = true ->
    active_job_ s = Some p }.

(** the active job may change in any way that suits the thread *)
Lemma consistent_job s p j j' act wk c sq fs cl :
  consistent s -> active_job_ s = Some p -> heap s !! p = Some j ->
  (act = Some p /\ is_pending j' = true /\
     (running_job wk = Some p \/ wk = NotJoinable \/ wk = Terminated) \/
   act = None /\ running_job wk = None /\ is_pending j' = false) ->
  (running_job wk = Some p -> agrees wk j') -> child_agrees wk c ->
  consistent (MakeManager (<[p := j']> (heap s)) (next_ref s) (jobs_ s) act wk c sq fs cl).
Proof.
  intros C Ha Hj Hact Hag Hc. pose proof (active_first _ C p Ha) as Hfirst.
  assert (Hrun : forall q, running_job wk = Some q -> q = p /\ act = Some p).
  { intros q Hq. destruct Hact as [(-> & _ & [E|[->| ->]])|(_ & E & _)]; naive_solver. }
  split; simpl.
  - intros q Hq. destruct (decide (q = p)) as [->|Hne]; [by rewrite lookup_insert_eq|].
    rewrite lookup_insert_ne by done. by apply (refs_ok _ C).
  - intros q Hq. destruct (decide (q = p)) as [->|Hne]; [by apply (refs_fresh _ C)|].
    rewrite lookup_insert_ne in Hq by done. by apply (refs_fresh _ C).
  - apply (jobs_nodup _ C).
  - apply (jobs_bounded _ C).
  - intros q ->. destruct Hact as [[[= ->] _]|[? _]]; done.
  - intros q ->. by destruct Hact as [([= ->] & _ & ?)|[? _]].
  - intros q Hq. by destruct (Hrun q Hq) as [-> ->].
  - intros q k Hq Hk. destruct (Hrun q Hq) as [-> _]. rewrite lookup_insert_eq in Hk. simplify_eq. auto.
  - done.
  - intros q k -> Hk. destruct Hact as [([= ->] & ? & _)|[? _]]; [|done].
    rewrite lookup_insert_eq in Hk. by simplify_eq.
  - intros q k Hq Hk Hp. destruct (decide (q = p)) as [->|Hne].
    + rewrite lookup_insert_eq in Hk. simplify_eq. destruct Hact as [[-> _]|(_ & _ & ?)]; [done|congruence].
    + rewrite lookup_insert_ne in Hk by done. pose proof (only_active_pending _ C q k Hq Hk Hp). congruence.
Qed.

(** nothing but the files, the counter and the flag changes *)
Lemma consistent_same s s' :
  consistent s -> heap s' = heap s -> next_ref s' = next_ref s -> jobs_ s' = jobs_ s ->
  active_job_ s' = active_job_ s -> worker_ s' = worker_ s -> child s' = child s -> consistent s'.
Proof.
  intros [] E1 E2 E3 E4 E5 E6. split; rewrite ?E1, ?E2, ?E3, ?E4, ?E5, ?E6; eauto.
Qed.

Lemma active_is_job s p : consistent s -> active_job_ s = Some p -> exists j, heap s !! p = Some j.
Proof.
  intros C Ha. apply (refs_ok _ C). pose proof (active_first _ C p Ha) as E.
  destruct (jobs_ s); [done|]. injection E as ->. by left.
Qed.

Lemma set_job_insert s p j f :
  heap s !! p = Some j -> set_job p f s = s <| heap := <[p := f j]> (heap s) |>.
Proof.
  intros Hj. unfold set_job. destruct s; simpl in *. f_equal. apply map_eq. intros q.
  destruct (decide (q = p)) as [->|Hne].
  - by rewrite lookup_alter_eq, Hj, lookup_insert_eq.
  - by rewrite lookup_alter_ne, lookup_insert_ne by done.
Qed.

Lemma persist_in_thread_spec w p after s j :
  job_at s p = Some j ->
  exists fs wk, persist_in_thread w p after s = s <| files := fs |> <| worker_ := wk |> /\
    (wk = after \/ wk = Terminated).
Proof.
  intros E. unfold persist_in_thread. rewrite E. destruct (persist w j (files s)) as [[u|e] fs]; eauto.
Qed.

Lemma agrees_pending wk j p : running_job wk = Some p -> agrees wk j -> is_pending j = true.
Proof. unfold is_pending. destruct wk; simpl; try done; intros _; [intros ->|intros [-> _]|intros [-> _]..|intros ->]; done. Qed.

Lemma busy_active s p :
  consistent s -> running_job (worker_ s) = Some p ->
  active_job_ s = Some p /\ exists j, heap s !! p = Some j /\ agrees (worker_ s) j.
Proof.
  intros C Hr. pose proof (runs_active _ C p Hr) as Ha. split; [done|].
  destruct (active_is_job s p C Ha) as [j Hj]. exists j. split; [done|]. by eapply (thread_agrees _ C).
Qed.

(** the new state of a section that ends with [persist_in_thread] *)
Lemma consistent_section w s p j j' act after c :
  consistent s -> active_job_ s = Some p -> heap s !! p = Some j ->
  (act = Some p /\ running_job after = Some p /\ agrees after j' \/
   act = None /\ running_job after = None /\ is_pending j' = false) ->
  child_agrees after c -> child_agrees Terminated c ->
  consistent (persist_in_thread w p after
    (MakeManager (<[p := j']> (heap s)) (next_ref s) (jobs_ s) act (worker_ s) c (sequence s) (files s) (closing s))).
Proof.
  intros C Ha Hj Hact Hc Hc'.
  pose proof (agrees_pending after j' p).
  edestruct (persist_in_thread_spec w p after) as (fs & wk & -> & [->| ->]);
    [unfold job_at; simpl; by rewrite lookup_insert_eq| |]; simpl; eapply consistent_job; eauto;
    naive_solver.
Qed.

Lemma signal_agrees wk q c : child_agrees wk c -> child_agrees wk (signal_group q c).
Proof. unfold signal_group. intros Hc. destruct c as [| |r b|]; try done. destruct (r =? q) eqn:E; [|done]. by destruct wk. Qed.

Lemma worker_fork_consistent s result s' o :
  consistent s -> worker_fork result s = Some (s', o) -> consistent s'.
Proof.
  unfold worker_fork. intros C E.
  destruct (worker_ s) as [|p|p q|p q|p q st|p| |] eqn:Ew; try done.
  destruct (busy_active s p C) as (Ha & j & Hj & Hag); [by rewrite Ew|]. rewrite Ew in Hag. simpl in Hag.
  destruct result as [r|].
  - unfold job_at in E. rewrite Hj in E. destruct (Z.ltb_spec 0 r); [|done]. injection E as <- <-.
    rewrite <- (insert_id _ _ _ Hj). eapply (consistent_job s p j); try done.
    left. split_and!; [done|by apply (active_pending _ C p)|auto].
  - injection E as <- <-. rewrite <- (insert_id _ _ _ Hj).
    eapply (consistent_job s p j); try done.
    left. split_and!; [done|by apply (active_pending _ C p)|auto].
Qed.

Lemma worker_fork_failed_consistent w s s' :
  consistent s -> worker_fork_failed w s = Some s' -> consistent s'.
Proof.
  unfold worker_fork_failed. intros C E. destruct (worker_ s) as [|p|p q|p q|p q st|p| |] eqn:Ew; try done.
  destruct (busy_active s p C) as (Ha & j & Hj & _); [by rewrite Ew|]. injection E as <-.
  erewrite set_job_insert by done. eapply (consistent_section w s p j); try done. by right.
Qed.

Lemma worker_started_consistent w s s' o :
  consistent s -> worker_started w s = Some (s', o) -> consistent s'.
Proof.
  unfold worker_started. intros C E. destruct (worker_ s) as [|p|p q|p q|p q st|p| |] eqn:Ew; try done.
  destruct (busy_active s p C) as (Ha & j & Hj & Hag); [by rewrite Ew|]. unfold job_at in E. rewrite Hj in E.
  rewrite Ew in Hag. simpl in Hag. destruct Hag as [_ Hq]. pose proof (child_known _ C) as Hc. rewrite Ew in Hc.
  erewrite set_job_insert in E by done. injection E as <- <-.
  destruct (cancel_requested j); eapply (consistent_section w s p j); try done; try by left.
  by apply (signal_agrees (Waiting p q)).
Qed.

Lemma worker_waited_consistent fails s s' :
  consistent s -> worker_waited fails s = Some s' -> consistent s'.
Proof.
  unfold worker_waited. intros C E. destruct (worker_ s) as [|p|p q|p q|p q st|p| |] eqn:Ew; try done.
  destruct (busy_active s p C) as (Ha & j & Hj & Hag); [by rewrite Ew|]. rewrite Ew in Hag.
  pose proof (child_known _ C) as Hc. rewrite Ew in Hc.
  destruct fails; [injection E as <-|destruct (child s) as [| | |r st] eqn:Ec; try done; injection E as <-];
    rewrite <- (insert_id _ _ _ Hj); eapply (consistent_job s p j); try done;
    try (left; split_and!; [done|by apply (active_pending _ C p)|auto]); by destruct (child s).
Qed.

Lemma worker_finish_consistent w s s' :
  consistent s -> worker_finish w s = Some s' -> consistent s'.
Proof.
  unfold worker_finish. intros C E. destruct (worker_ s) as [|p|p q|p q|p q st|p| |] eqn:Ew; try done.
  destruct (busy_active s p C) as (Ha & j & Hj & _); [by rewrite Ew|]. injection E as <-.
  erewrite set_job_insert by done. eapply (consistent_section w s p j); try done. right. split_and!; [done|done|].
  unfold is_pending. simpl. unfold final_state. destruct (cancel_requested j); [done|].
  by destruct st as [[[]|]|].
Qed.

Lemma child_setpgid_consistent s s' : consistent s -> child_setpgid s = Some s' -> consistent s'.
Proof.
  unfold child_setpgid. intros C E. destruct (child s) as [|q| |] eqn:Ec; try done. injection E as <-.
  pose proof (child_known _ C) as Hc. rewrite Ec in Hc. destruct C; split; try done.
Qed.

Lemma child_ends_consistent status s s' : consistent s -> child_ends status s = Some s' -> consistent s'.
Proof.
  unfold child_ends. intros C E. pose proof (child_known _ C) as Hc.
  destruct (child s) as [|q|q b|] eqn:Ec; try done; injection E as <-;
    (destruct C; split; try done; simpl; by destruct (worker_ s)).
Qed.

Lemma find_locked_in s job_id p :
  find_locked s job_id = Some p ->
  p ∈ jobs_ s /\ exists j, heap s !! p = Some j /\ id j = job_id.
Proof.
  unfold find_locked. intros E. apply find_some in E as [Hin E]. unfold job_at in E.
  split; [by apply list_elem_of_In|]. destruct (heap s !! p) as [j|]; [|done].
  exists j. by apply str_eqb_spec in E.
Qed.

(** a field that the thread does not look at *)
Lemma agrees_same wk j j' : state j' = state j -> pid j' = pid j -> agrees wk j -> agrees wk j'.
Proof. intros E1 E2. destruct wk; simpl; by rewrite ?E1, ?E2. Qed.

Lemma cancel_consistent w job_id s s' r o :
  consistent s -> cancel w job_id s = (s', r, o) -> consistent s'.
Proof.
  unfold cancel. intros C E. destruct (find_locked s job_id) as [p|] eqn:Ef; [|by simplify_eq].
  apply find_locked_in in Ef as (Hin & j & Hj & _). unfold job_at in E. rewrite Hj in E.
  destruct (is_pending j) eqn:Ep; simpl in E; [|by simplify_eq].
  destruct (uncancellable j); [by simplify_eq|].
  pose proof (only_active_pending _ C p j Hin Hj Ep) as Ha.
  destruct (persist _ _ _) as [[u|e] fs] in E; injection E as <- _ _;
    (eapply (consistent_job s p j); try done;
      [left; split_and!; [done|exact Ep|by apply (active_runs _ C)]
      |intros Hr; eapply agrees_same; [..|by apply (thread_agrees _ C p)]; done
      |destruct (0 <? pid j); [apply signal_agrees|]; apply (child_known _ C)]).
Qed.

Lemma destroy_consistent s : consistent s -> consistent (fst (destroy s)).
Proof.
  unfold destroy. intros C. destruct (active_job_ s) as [p|] eqn:Ha; [|by eapply consistent_same].
  destruct (active_is_job s p C Ha) as [j Hj]. unfold job_at. rewrite Hj.
  destruct (0 <? pid j) eqn:Eq; [|by eapply consistent_same]. simpl.
  erewrite set_job_insert by done. eapply (consistent_job s p j); try done.
  - left. split_and!; [done|exact (active_pending _ C p j Ha Hj)|by apply (active_runs _ C)].
  - intros Hr. eapply agrees_same; [..|by apply (thread_agrees _ C p)]; done.
  - apply signal_agrees, (child_known _ C).
Qed.

Lemma push_job_in p q l : q ∈ push_job p l -> q = p \/ q ∈ l.
Proof.
  unfold push_job. intros Hq. apply elem_of_cons. eapply elem_of_sublist; [done|apply sublist_take].
Qed.

Lemma not_running_inactive wk p : join wk = Some p -> running_job wk = None.
Proof. by destruct wk. Qed.

(** a new job at the head of the history, whether or not its thread starts *)
Lemma consistent_created s j wk fs :
  consistent s -> active_job_ s = None -> running_job (worker_ s) = None ->
  state j = "queued"%string -> wk = NotJoinable \/ wk = Forking (next_ref s) ->
  consistent (MakeManager (<[next_ref s := j]> (heap s)) (S (next_ref s)) (push_job (next_ref s) (jobs_ s))
    (Some (next_ref s)) wk (child s) (sequence s) fs (closing s)).
Proof.
  intros C Ha Hr Hj Hwk. set (p := next_ref s).
  assert (Hnew : heap s !! p = None).
  { apply eq_None_not_Some. intros Hp. apply (refs_fresh _ C) in Hp. unfold p in Hp. lia. }
  assert (Hold : forall q, q ∈ push_job p (jobs_ s) -> q = p \/ q <> p /\ q ∈ jobs_ s).
  { intros q [->|Hq]%push_job_in; [by left|]. destruct (decide (q = p)); auto. }
  split; cbn [heap next_ref jobs_ active_job_ worker_ child].
  - intros q [->|[Hne Hq]]%Hold; [by rewrite lookup_insert_eq|].
    rewrite lookup_insert_ne by done. by apply (refs_ok _ C).
  - intros q Hq. destruct (decide (q = p)) as [->|Hne]; [unfold p; lia|].
    rewrite lookup_insert_ne in Hq by done. apply (refs_fresh _ C) in Hq. lia.
  - eapply sublist_NoDup; [|apply sublist_take].
    apply NoDup_cons. split; [|apply (jobs_nodup _ C)].
    intros Hp. apply (refs_ok _ C) in Hp. rewrite Hnew in Hp. by destruct Hp.
  - unfold push_job. rewrite length_take. lia.
  - intros q [= <-]. done.
  - intros q [= <-]. destruct Hwk as [-> | ->]; simpl; auto.
  - intros q. destruct Hwk as [-> | ->]; simpl; intros Hq; by simplify_eq.
  - intros q k Hq Hk. destruct Hwk as [-> | ->]; simpl in Hq; [done|]. injection Hq as <-.
    rewrite lookup_insert_eq in Hk. by simplify_eq.
  - by destruct Hwk as [-> | ->].
  - intros q k [= <-] Hk. rewrite lookup_insert_eq in Hk. injection Hk as <-. unfold is_pending. by rewrite Hj.
  - intros q k [->|[Hne Hq]]%Hold Hk Hp; [done|]. rewrite lookup_insert_ne in Hk by done.
    pose proof (only_active_pending _ C q k Hq Hk Hp). congruence.
Qed.

Lemma create_locked_consistent c j s s' r :
  consistent s -> state j = "queued"%string -> create_locked c j s = Some (s', r) -> consistent s'.
Proof.
  unfold create_locked. intros C Hj E.
  destruct (active_job_ s) as [p|] eqn:Ha; [by simplify_eq|].
  destruct (join (worker_ s)) as [joined|] eqn:Ejoin; [|done].
  assert (joined = NotJoinable) as -> by (destruct (worker_ s); simpl in Ejoin; congruence).
  pose proof (not_running_inactive _ _ Ejoin) as Hr.
  destruct (create_directories c).
  - destruct (persist _ _ _) as [[u|e] fs] in E; [destruct (start_thread c) in E|];
      injection E as <- _; apply (consistent_created s j); auto.
  - injection E as <- _. destruct C; split; simpl; try done. intros p Hp. congruence.
Qed.

Lemma create_consistent root c body s s' r :
  consistent s -> create root c body s = Some (s', r) -> consistent s'.
Proof.
  unfold create. intros C E. destruct (request_head body) as [[t ps]|e]; [|by simplify_eq].
  destruct (command_for (paths c) t ps) as [cmd|e]; [|injection E as <- _; by eapply consistent_same].
  eapply create_locked_consistent; [| |exact E]; [by eapply consistent_same|done].
Qed.

Lemma next_consistent root s e s' o :
  consistent s -> next root s e = Some (s', o) -> consistent s'.
Proof.
  unfold next. intros C. destruct (is_call e && closing s || terminated s); [done|].
  destruct e as [c body|i|i| |w i|r|w|w|f|w| |st|]; intros E; simplify_eq; try done.
  - destruct (create root c body s) as [[s1 r]|] eqn:E1; [|done]. simplify_eq. by eapply create_consistent.
  - destruct (cancel w i s) as [[s1 r] k] eqn:E1. simplify_eq. by eapply cancel_consistent.
  - by eapply worker_fork_consistent.
  - destruct (worker_fork_failed w s) eqn:E1; [|done]. simplify_eq/=. by eapply worker_fork_failed_consistent.
  - by eapply worker_started_consistent.
  - destruct (worker_waited f s) eqn:E1; [|done]. simplify_eq/=. by eapply worker_waited_consistent.
  - destruct (worker_finish w s) eqn:E1; [|done]. simplify_eq/=. by eapply worker_finish_consistent.
  - destruct (child_setpgid s) eqn:E1; [|done]. simplify_eq/=. by eapply child_setpgid_consistent.
  - destruct (child_ends st s) eqn:E1; [|done]. simplify_eq/=. by eapply child_ends_consistent.
  - replace s' with (fst (destroy s)) by (by rewrite E). by apply destroy_consistent.
Qed.

(** ** The history of an earlier process *)
Lemma load_one_not_pending w dir fs j fs' : load_one w dir fs = (Some j, fs') -> is_pending j = false.
Proof.
  unfold load_one. destruct (obind _ _) as [k|]; [|done]. destruct (is_pending k) eqn:E; [|by intros [= -> _]].
  destruct (persist _ _ _) as [[u|e] fs1]; [|done]. by intros [= <- _].
Qed.

Lemma history_loop_spec w room dirs fs :
  (List.length (fst (load_loop w room dirs fs)) <= room)%nat /\
  Forall (fun j => is_pending j = false) (fst (load_loop w room dirs fs)).
Proof.
  revert room fs. induction dirs as [|dir dirs IH]; intros room fs; [split; [simpl; lia|constructor]|].
  destruct room as [|room]; [split; [done|constructor]|]. cbn [load_loop].
  destruct (load_one w dir fs) as [[j|] fs'] eqn:E; [|apply IH].
  pose proof (IH room fs') as [Hl Hp]. destruct (load_loop w room dirs fs') as [l fs'']. simpl in *.
  split; [lia|]. constructor; [|done]. by eapply load_one_not_pending.
Qed.

Lemma numbered_lookup {A} (l : list A) (n p : nat) :
  (list_to_map (zip (seq n (List.length l)) l) : gmap nat A) !! p = if decide (n <= p)%nat then l !! (p - n)%nat else None.
Proof.
  revert n. induction l as [|x l IH]; intros n; simpl.
  - rewrite lookup_empty. by case_decide.
  - destruct (decide (p = n)) as [->|Hne].
    + rewrite lookup_insert_eq, decide_True, Nat.sub_diag by lia. done.
    + rewrite lookup_insert_ne by done. rewrite IH. destruct (decide (S n <= p)%nat).
      * rewrite decide_True by lia. by replace (p - n)%nat with (S (p - S n)) by lia.
      * by rewrite decide_False by lia.
Qed.

Lemma load_history_consistent w dirs fs : consistent (load_history w dirs fs).
Proof.
  unfold load_history. pose proof (history_loop_spec w history_limit dirs fs) as [Hl Hp].
  destruct (load_loop w history_limit dirs fs) as [l fs']. simpl in Hl, Hp.
  split; cbn [heap next_ref jobs_ active_job_ worker_ child]; try done.
  - intros p Hq%elem_of_seq. rewrite numbered_lookup, decide_True, Nat.sub_0_r by lia.
    apply lookup_lt_is_Some_2. lia.
  - intros p. rewrite numbered_lookup, decide_True, Nat.sub_0_r by lia. apply lookup_lt_is_Some_1.
  - apply NoDup_seq.
  - by rewrite length_seq.
  - intros p j _. rewrite numbered_lookup, decide_True, Nat.sub_0_r by lia. intros Hj Hpend.
    eapply Forall_lookup_1 in Hp; [|done]. congruence.
Qed.

Definition starts (s : JobManager) : Prop := exists w dirs fs, s = load_history w dirs fs.

Lemma reachable_consistent root s : reachable (step root) starts s -> consistent s.
Proof.
  apply reachable_invariant; [|intros; by eapply next_consistent].
  intros s0 (w & dirs & fs & ->). apply load_history_consistent.
Qed.

(** ** Life of a job *)

(** what a step may do to a job: nothing to one that has ended *)
Definition same_request (j j' : Job) : Prop :=
  id j' = id j /\ type j' = type j /\ parameters j' = parameters j /\ command j' = command j /\
  directory j' = directory j /\ requested_at j' = requested_at j.
Definition moves (j j' : Job) : Prop :=
  same_request j j' /\
  (state j' = state j /\ (is_pending j = false -> j' = j) \/
   state j = "queued"%string /\ state j' ∈ ["running"; "failed"]%string \/
   state j = "running"%string /\ state j' ∈ ["succeeded"; "failed"; "cancelled"]%string).

Lemma moves_refl j : moves j j.
Proof. split; [done|]. by left. Qed.

Definition heap_moves (h h' : gmap nat Job) : Prop :=
  forall p j, h !! p = Some j -> exists j', h' !! p = Some j' /\ moves j j'.

Lemma heap_moves_refl h : heap_moves h h.
Proof. intros p j Hj. exists j. split; [done|apply moves_refl]. Qed.

Lemma heap_moves_insert h p j j' : h !! p = Some j -> moves j j' -> heap_moves h (<[p := j']> h).
Proof.
  intros Hj Hm q k Hk. destruct (decide (q = p)) as [->|Hne].
  - exists j'. rewrite lookup_insert_eq. by simplify_eq.
  - exists k. rewrite lookup_insert_ne by done. split; [done|apply moves_refl].
Qed.

Lemma heap_moves_new h p j : h !! p = None -> heap_moves h (<[p := j]> h).
Proof.
  intros Hn q k Hk. exists k. rewrite lookup_insert_ne by congruence. split; [done|apply moves_refl].
Qed.

Lemma heap_set_job s p j f : heap s !! p = Some j -> heap (set_job p f s) = <[p := f j]> (heap s).
Proof. intros Hj. by rewrite (set_job_insert s p j f Hj). Qed.

Lemma heap_persist_in_thread w p after s : heap (persist_in_thread w p after s) = heap s.
Proof. unfold persist_in_thread. destruct (job_at s p); [|done]. by destruct (persist w _ _) as [[] ?]. Qed.

Lemma create_heap root c body s s' r :
  consistent s -> create root c body s = Some (s', r) -> heap_moves (heap s) (heap s').
Proof.
  intros C. unfold create. destruct (request_head body) as [[t ps]|e];
    [|intros E; simplify_eq; apply heap_moves_refl].
  destruct (command_for (paths c) t ps) as [cmd|e]; [|intros E; simplify_eq; apply heap_moves_refl].
  unfold create_locked. simpl. destruct (active_job_ s); [intros E; simplify_eq; apply heap_moves_refl|].
  destruct (join (worker_ s)); [|done].
  assert (Hnew : heap s !! next_ref s = None).
  { apply eq_None_not_Some. intros Hp%(refs_fresh _ C). lia. }
  destruct (create_directories c); [|intros E; simplify_eq; apply heap_moves_refl].
  destruct (persist _ _ _) as [[u|e] fs]; [destruct (start_thread c)|]; intros E; simplify_eq;
    by apply heap_moves_new.
Qed.

Lemma cancel_heap w i s s' r o :
  consistent s -> cancel w i s = (s', r, o) -> heap_moves (heap s) (heap s').
Proof.
  intros C. unfold cancel. destruct (find_locked s i) as [p|] eqn:Ef;
    [|intros E; simplify_eq; apply heap_moves_refl].
  apply find_locked_in in Ef as (Hin & j & Hj & _). unfold job_at. rewrite Hj.
  destruct (is_pending j) eqn:Ep; simpl; [|intros E; simplify_eq; apply heap_moves_refl].
  destruct (uncancellable j); [intros E; simplify_eq; apply heap_moves_refl|].
  destruct (persist _ _ _) as [[u|e] fs]; intros E; injection E as <- _ _; simpl;
    (eapply heap_moves_insert; [done|]; split; [done|]; left; split; [done|congruence]).
Qed.

Lemma worker_heap root s e s' o :
  consistent s -> is_call e = false -> next root s e = Some (s', o) -> heap_moves (heap s) (heap s').
Proof.
  intros C Hcall. unfold next. rewrite Hcall. cbn [andb orb]. destruct (terminated s); [done|].
  destruct e as [c body|i|i| |w i|r|w|w|f|w| |st|]; try done; cbn [option_map]; intros E.
  - unfold worker_fork in E. destruct (worker_ s), r; try done;
      repeat case_match; simplify_eq; apply heap_moves_refl.
  - unfold worker_fork_failed in E. destruct (worker_ s) as [|p|p q|p q|p q st|p| |] eqn:Ew; try done.
    destruct (busy_active s p C) as (_ & j & Hj & Hag); [by rewrite Ew|]. rewrite Ew in Hag.
    injection E as <- _. rewrite heap_persist_in_thread, (heap_set_job _ p j) by done.
    eapply heap_moves_insert; [done|]. split; [done|]. right; left. split; [done|]. set_solver.
  - unfold worker_started in E. destruct (worker_ s) as [|p|p q|p q|p q st|p| |] eqn:Ew; try done.
    destruct (busy_active s p C) as (_ & j & Hj & Hag); [by rewrite Ew|]. rewrite Ew in Hag.
    unfold job_at in E. rewrite Hj in E. injection E as <- _.
    rewrite heap_persist_in_thread.
    replace (heap (if cancel_requested j then _ else _)) with
      (heap (set_job p (fun j => j <| pid := q |> <| state := "running"%string |>
        <| started_at := utc_timestamp (clock w) |>) s)) by (by destruct (cancel_requested j)).
    rewrite (heap_set_job _ p j) by done.
    eapply heap_moves_insert; [done|]. split; [done|]. right; left. split; [apply Hag|]. set_solver.
  - unfold worker_waited in E. destruct (worker_ s), f, (child s); simplify_eq/=; apply heap_moves_refl.
  - unfold worker_finish in E. destruct (worker_ s) as [|p|p q|p q|p q st|p| |] eqn:Ew; try done.
    destruct (busy_active s p C) as (_ & j & Hj & Hag); [by rewrite Ew|]. rewrite Ew in Hag.
    injection E as <- _. rewrite heap_persist_in_thread, (heap_set_job _ p j) by done.
    eapply heap_moves_insert; [done|]. split; [done|]. right; right. split; [apply Hag|].
    simpl. unfold final_state. destruct (cancel_requested j); [set_solver|].
    destruct st as [[[]|]|]; set_solver.
  - unfold child_setpgid in E. destruct (child s); simplify_eq/=; apply heap_moves_refl.
  - unfold child_ends in E. destruct (child s); simplify_eq/=; apply heap_moves_refl.
Qed.

Lemma next_heap root s e s' o :
  consistent s -> next root s e = Some (s', o) -> heap_moves (heap s) (heap s').
Proof.
  intros C E. destruct (is_call e) eqn:Hcall; [|by eapply worker_heap].
  unfold next in E. destruct (is_call e && closing s || terminated s); [done|].
  destruct e as [c body|i|i| |w i|r|w|w|f|w| |st|]; try done; simplify_eq; try apply heap_moves_refl.
  - destruct (create root c body s) as [[s1 r]|] eqn:E1; [|done]. simplify_eq. by eapply create_heap.
  - destruct (cancel w i s) as [[s1 r] k] eqn:E1. simplify_eq. by eapply cancel_heap.
  - replace s' with (fst (destroy s)) by (by rewrite E). clear E. unfold destroy.
    destruct (active_job_ s) as [p|] eqn:Ha; [|apply heap_moves_refl].
    destruct (active_is_job s p C Ha) as [j Hj]. unfold job_at. rewrite Hj.
    destruct (0 <? pid j) eqn:Eq; [|apply heap_moves_refl]. cbn [fst].
    rewrite (heap_set_job _ p j) by done. eapply heap_moves_insert; [done|]. split; [done|].
    left. split; [done|]. pose proof (active_pending _ C p j Ha Hj). congruence.
Qed.

(** ** Progress of the thread *)
Definition is_busy (s : JobManager) : Prop := is_Some (running_job (worker_ s)).

(** the steps left to the thread and to the child *)
Definition thread_measure (wk : Worker) : nat :=
  match wk with
  | Forking _ => 8
  | AfterFork _ _ => 4
  | Waiting _ _ => 3
  | ForkFailed _ | Waited _ _ _ => 1
  | NotJoinable | Returned | Terminated => 0
  end.
Definition child_measure (c : Child) : nat :=
  match c with Forked _ => 2 | Grouped _ _ => 1 | Ended _ _ | NoChild => 0 end.
Definition measure (s : JobManager) : nat := thread_measure (worker_ s) + child_measure (child s).

Lemma child_measure_signal q c : child_measure (signal_group q c) = child_measure c.
Proof. unfold signal_group. destruct c as [| |r b|]; try done. by destruct (r =? q). Qed.

Lemma persist_in_thread_measure w p after s :
  is_Some (job_at s p) ->
  (measure (persist_in_thread w p after s) <= thread_measure after + child_measure (child s))%nat.
Proof.
  intros [j Hj]. destruct (persist_in_thread_spec w p after s j Hj) as (fs & wk & -> & [->| ->]);
    unfold measure; simpl; lia.
Qed.

Lemma thread_step_measure root s e s' o :
  consistent s -> is_call e = false -> next root s e = Some (s', o) -> (measure s' < measure s)%nat.
Proof.
  intros C Hcall. unfold next. rewrite Hcall. cbn [andb orb]. destruct (terminated s); [done|].
  destruct e as [c body|i|i| |w i|r|w|w|f|w| |st|]; try done; cbn [option_map]; intros E.
  - unfold worker_fork in E. unfold measure. destruct (worker_ s), r; try done;
      repeat case_match; simplify_eq/=; lia.
  - unfold worker_fork_failed in E. destruct (worker_ s) as [|p|p q|p q|p q st|p| |] eqn:Ew; try done.
    destruct (busy_active s p C) as (_ & j & Hj & _); [by rewrite Ew|]. injection E as <- _.
    eapply Nat.le_lt_trans; [apply persist_in_thread_measure|unfold measure, set_job; rewrite Ew; simpl; lia].
    unfold job_at. rewrite (heap_set_job _ p j), lookup_insert_eq by done. by eexists.
  - unfold worker_started in E. destruct (worker_ s) as [|p|p q|p q|p q st|p| |] eqn:Ew; try done.
    destruct (busy_active s p C) as (_ & j & Hj & _); [by rewrite Ew|].
    unfold job_at in E. rewrite Hj in E. injection E as <- _.
    eapply Nat.le_lt_trans; [apply persist_in_thread_measure|unfold measure, set_job; rewrite Ew; destruct (cancel_requested j);
      simpl; rewrite ?child_measure_signal; lia].
    unfold job_at. exists (j <| pid := q |> <| state := "running"%string |> <| started_at := utc_timestamp (clock w) |>).
    destruct (cancel_requested j); simpl; by rewrite lookup_alter_eq, Hj.
  - unfold worker_waited in E. unfold measure. destruct (worker_ s); try done.
    destruct f; [|destruct (child s) eqn:Ec; try done]; simplify_eq/=; lia.
  - unfold worker_finish in E. destruct (worker_ s) as [|p|p q|p q|p q st|p| |] eqn:Ew; try done.
    destruct (busy_active s p C) as (_ & j & Hj & _); [by rewrite Ew|]. injection E as <- _.
    eapply Nat.le_lt_trans; [apply persist_in_thread_measure|unfold measure, set_job; rewrite Ew; simpl; lia].
    unfold job_at. rewrite (heap_set_job _ p j), lookup_insert_eq by done. by eexists.
  - unfold child_setpgid in E. unfold measure. destruct (child s); simplify_eq/=; lia.
  - unfold child_ends in E. unfold measure. destruct (child s); simplify_eq/=; lia.
Qed.

Lemma call_step_measure root s e s' o :
  consistent s -> is_busy s -> is_call e = true -> next root s e = Some (s', o) ->
  measure s' = measure s /\ worker_ s' = worker_ s.
Proof.
  intros C [p Hp] Hcall. unfold next. destruct (is_call e && closing s || terminated s); [done|].
  pose proof (runs_active _ C p Hp) as Ha.
  destruct e as [c body|i|i| |w i|r|w|w|f|w| |st|]; try done; intros E; simplify_eq; try done.
  - destruct (create root c body s) as [[s1 r]|] eqn:E1; [|done]. simplify_eq. unfold create in E1.
    destruct (request_head body) as [[t ps]|]; [|by simplify_eq].
    destruct (command_for (paths c) t ps); [|by simplify_eq]. unfold create_locked in E1. simpl in E1.
    rewrite Ha in E1. by simplify_eq.
  - unfold cancel in E. repeat case_match; simplify_eq; unfold measure; simpl;
      rewrite ?child_measure_signal; done.
  - replace s' with (fst (destroy s)) by (by rewrite E). unfold destroy, measure. rewrite Ha.
    destruct (job_at s p) as [j|]; [|done]. destruct (0 <? pid j); simpl; by rewrite ?child_measure_signal.
Qed.

Lemma busy_enabled root s (w : World) :
  consistent s -> is_busy s ->
  exists e s' o, is_call e = false /\ next root s e = Some (s', o).
Proof.
  intros C [p Hp]. destruct (busy_active s p C Hp) as (_ & j & Hj & _).
  pose proof (child_known _ C) as Hc.
  assert (Ht : terminated s = false) by (unfold terminated; by destruct (worker_ s)).
  assert (Hn : forall e, is_call e = false -> is_call e && closing s || terminated s = false)
    by (intros e He; by rewrite He, Ht).
  destruct (worker_ s) as [|p'|p' q|p' q|p' q st|p'| |] eqn:Ew; try done; simpl in Hp; injection Hp as ->.
  - eexists (Fork None), _, _. split; [done|]. unfold next. rewrite Hn by done. unfold worker_fork. by rewrite Ew.
  - eexists (StartedSection w), _, _. split; [done|]. unfold next. rewrite Hn by done.
    unfold worker_started, job_at. by rewrite Ew, Hj.
  - destruct (child s) as [|r|r b|r st] eqn:Ec; [done|..].
    + eexists (ChildEnds (Exited 0)), _, _. split; [done|]. unfold next. rewrite Hn by done.
      unfold child_ends. by rewrite Ec.
    + eexists (ChildEnds (Exited 0)), _, _. split; [done|]. unfold next. rewrite Hn by done.
      unfold child_ends. by rewrite Ec.
    + eexists (WaitReturns false), _, _. split; [done|]. unfold next. rewrite Hn by done.
      unfold worker_waited. by rewrite Ew, Ec.
  - eexists (FinishSection w), _, _. split; [done|]. unfold next. rewrite Hn by done.
    unfold worker_finish. by rewrite Ew.
  - eexists (ForkFailedSection w), _, _. split; [done|]. unfold next. rewrite Hn by done.
    unfold worker_fork_failed. by rewrite Ew.
Qed.

(** an idle manager whose last job was started properly takes the next one *)
Lemma join_when_inactive s :
  consistent s -> active_job_ s = None -> terminated s = false -> is_Some (join (worker_ s)).
Proof.
  intros C Ha Ht. unfold terminated in Ht. pose proof (runs_active _ C) as Hr.
  destruct (worker_ s); simpl in *; try done; try (by eexists); specialize (Hr _ eq_refl); congruence.
Qed.

(** a create whose [persist] or thread failed left its job active *)
Definition wedged (s : JobManager) : Prop := is_Some (active_job_ s) /\ worker_ s = NotJoinable.

Lemma wedged_step root s e s' o :
  wedged s -> next root s e = Some (s', o) ->
  wedged s' /\ forall c body, e = Create c body -> exists x, o = [Answer (Created (Raised x))].
Proof.
  intros [[p Ha] Hw]. unfold next. destruct (is_call e && closing s || terminated s); [done|].
  assert (Hkeep : wedged s) by (split; [by eexists|done]).
  destruct e as [c body|i|i| |w i|r|w|w|f|w| |st|]; intros E; simplify_eq; try done.
  - destruct (create root c body s) as [[s1 r]|] eqn:E1; [|done]. simplify_eq. unfold create in E1.
    destruct (request_head body) as [[t ps]|x]; [|simplify_eq; by split; [|eexists]].
    destruct (command_for (paths c) t ps) as [cmd|x];
      [|simplify_eq; split; [by split; [by eexists|]|by eexists]].
    unfold create_locked in E1. simpl in E1. rewrite Ha in E1. simplify_eq.
    split; [by split; [by eexists|]|by eexists].
  - assert (Hs : wedged s'); [|done].
    unfold cancel in E. repeat case_match; by simplify_eq.
  - unfold worker_fork in E. by rewrite Hw in E.
  - unfold worker_fork_failed in E. by rewrite Hw in E.
  - unfold worker_started in E. by rewrite Hw in E.
  - unfold worker_waited in E. by rewrite Hw in E.
  - unfold worker_finish in E. by rewrite Hw in E.
  - unfold child_setpgid in E. by destruct (child s); simplify_eq/=.
  - unfold child_ends in E. by destruct (child s); simplify_eq/=.
  - replace s' with (fst (destroy s)) by (by rewrite E). unfold destroy. rewrite Ha.
    destruct (job_at s p) as [j|]; [|done]. destruct (0 <? pid j); [|done]. cbn [fst].
    split; [by split; [by eexists|]|done].
Qed.

(** a sequence of events, [None] when one of them is not enabled *)
Fixpoint perform (root : path) (s : JobManager) (es : list Event) : option JobManager :=
  match es with
  | [] => Some s
  | e :: r => match next root s e with Some (s', _) => perform root s' r | None => None end
  end.

Lemma perform_invariant_on (E : Event -> Prop) (I : JobManager -> Prop) root s es s' :
  (forall a e b o, E e -> I a -> next root a e = Some (b, o) -> I b) ->
  Forall E es -> I s -> perform root s es = Some s' -> I s'.
Proof.
  intros Hstep. revert s. induction es as [|e es IH]; intros s He Hs; simpl; [by intros [= <-]|].
  apply list.Forall_cons in He as [He Hes].
  destruct (next root s e) as [[s1 o]|] eqn:En; [|done]. apply IH; [done|]. by eapply Hstep.
Qed.

Lemma perform_invariant (I : JobManager -> Prop) root s es s' :
  (forall a e b o, I a -> next root a e = Some (b, o) -> I b) -> I s -> perform root s es = Some s' -> I s'.
Proof.
  intros Hstep. apply (perform_invariant_on (fun _ => True)); [|by apply list.Forall_true]. intros. by eapply Hstep.
Qed.

(** the worker thread keeps its job until it returns, and never takes an old one again *)
Lemma worker_keeps root s e s' o p :
  consistent s -> next root s e = Some (s', o) -> is_Some (heap s !! p) ->
  running_job (worker_ s') = Some p -> running_job (worker_ s) = Some p.
Proof.
  intros C. unfold next. destruct (is_call e && closing s || terminated s); [done|].
  destruct e as [c body|i|i| |w i|r|w|w|f|w| |st|]; cbn [option_map]; intros E Hp; simplify_eq; try done.
  - destruct (create root c body s) as [[s1 r]|] eqn:E1; [|done]. simplify_eq. unfold create in E1.
    destruct (request_head body) as [[t ps]|]; [|by simplify_eq].
    destruct (command_for (paths c) t ps); [|by simplify_eq]. unfold create_locked in E1. simpl in E1.
    destruct (active_job_ s); [by simplify_eq|]. apply (refs_fresh _ C) in Hp.
    destruct (join (worker_ s)) as [k|] eqn:Ej; [|done].
    assert (k = NotJoinable) as -> by (destruct (worker_ s); simpl in Ej; congruence).
    repeat case_match; simplify_eq/=; intros Hr; simplify_eq; lia.
  - unfold cancel in E. repeat case_match; simplify_eq; done.
  - unfold worker_fork in E. repeat case_match; simplify_eq/=; done.
  - unfold worker_fork_failed, persist_in_thread in E. repeat case_match; simplify_eq/=; try done;
      match goal with Hw : worker_ s = _ |- _ => by rewrite Hw end.
  - unfold worker_started, persist_in_thread in E. repeat case_match; simplify_eq/=; try done;
      match goal with Hw : worker_ s = _ |- _ => by rewrite Hw end.
  - unfold worker_waited in E. repeat case_match; simplify_eq/=; done.
  - unfold worker_finish, persist_in_thread in E. repeat case_match; simplify_eq/=; try done;
      match goal with Hw : worker_ s = _ |- _ => by rewrite Hw end.
  - unfold child_setpgid in E. repeat case_match; simplify_eq/=; done.
  - unfold child_ends in E. repeat case_match; simplify_eq/=; done.
  - replace s' with (fst (destroy s)) by (by rewrite E). unfold destroy. repeat case_match; done.
Qed.
End Manager.
