(* ===== verification/JobProperties.v ===== *)
(** * What the job manager guarantees

    The properties of [Jobs]: one job at a time, the life of a job and its end,
    the arguments a request can bring into a command line, the history across a
    restart, and the ways in which the manager stops accepting work. *)
From S2P Require Import Prelude Calendar Floats JsonData Regex FileSystem Jobs.
Local Open Scope Z_scope.
Local Open Scope result_scope.

(** ** One job, its life and its end *)
Section Lifecycle.
Context `{Nlohmann} (root : path).

(** the order of the states of a job *)
Definition stage (st : string) : nat :=
  if str_eqb st "queued" then 0 else if str_eqb st "running" then 1 else 2.

Lemma moves_stage j j' : moves j j' -> (stage (state j) <= stage (state j'))%nat.
Proof.
  intros [_ [[-> _]|[[-> Hs]|[-> Hs]]]]; [done|..]; unfold stage; simpl; [lia|].
  rewrite !elem_of_cons in Hs. destruct Hs as [->|[->|[->|Hs]]]; [simpl; lia..|by inversion Hs].
Qed.

Lemma moves_ended j j' : moves j j' -> is_pending j = false -> j' = j.
Proof.
  intros [_ [[_ Hs]|[[Hs _]|[Hs _]]]] Hp; [auto|unfold is_pending in Hp; by rewrite Hs in Hp..].
Qed.

Lemma same_request_trans a b c : same_request a b -> same_request b c -> same_request a c.
Proof. unfold same_request. intuition congruence. Qed.

Lemma perform_consistent s es s' : consistent s -> perform root s es = Some s' -> consistent s'.
Proof. apply perform_invariant. intros. by eapply next_consistent. Qed.

Lemma perform_job s es s' p j :
  consistent s -> perform root s es = Some s' -> heap s !! p = Some j ->
  exists j', heap s' !! p = Some j' /\ same_request j j' /\ (stage (state j) <= stage (state j'))%nat /\
    (is_pending j = false -> j' = j).
Proof.
  revert s j. induction es as [|e es IH]; intros s j C E Hj; simpl in E.
  { simplify_eq. by exists j. }
  destruct (next root s e) as [[s1 o]|] eqn:En; [|done].
  destruct (next_heap root s e s1 o C En p j Hj) as (j1 & Hj1 & Hm).
  destruct (IH s1 j1 ltac:(by eapply next_consistent) E Hj1) as (j2 & Hj2 & Hr & Hs & He).
  exists j2. split_and!; [done|by eapply same_request_trans; [apply Hm|]| |].
  - etransitivity; [by apply moves_stage|done].
  - intros Hp. pose proof (moves_ended _ _ Hm Hp) as ->. auto.
Qed.

(** C24: Whatever the requests, the answers of the operating system and their
    order, the history holds at most 50 different jobs, only its first one can
    be pending, and that is the job the manager calls active.  While there is an
    active job every [create] is refused; when there is none, and the process
    and the manager live, [create] does not block on [worker_.join]. *)
Theorem one_job_at_a_time s :
  reachable (step root) starts s ->
  NoDup (jobs_ s) /\ (List.length (jobs_ s) <= 50)%nat /\
  (forall p j, p ∈ jobs_ s -> heap s !! p = Some j -> is_pending j = true ->
     active_job_ s = Some p /\ head (jobs_ s) = Some p) /\
  (forall p, running_job (worker_ s) = Some p -> active_job_ s = Some p) /\
  (forall c body, active_job_ s <> None ->
     match next root s (Create c body) with
     | Some (_, o) => exists x, o = [Answer (Created (Raised x))]
     | None => closing s = true \/ terminated s = true
     end) /\
  (forall c body, active_job_ s = None -> closing s = false -> terminated s = false ->
     is_Some (next root s (Create c body))).
Proof.
  intros C%reachable_consistent. split_and!.
  - apply (jobs_nodup _ C).
  - apply (jobs_bounded _ C).
  - intros p j Hin Hj Hp. pose proof (only_active_pending _ C p j Hin Hj Hp) as Ha.
    split; [done|]. by apply (active_first _ C).
  - apply (runs_active _ C).
  - intros c body Ha. unfold next. cbn [is_call andb]. destruct (closing s); [simpl; by left|].
    destruct (terminated s); [simpl; by right|]. cbn [orb]. unfold create.
    destruct (request_head body) as [[t ps]|]; [|by eexists].
    destruct (command_for (paths c) t ps); [|by eexists].
    unfold create_locked. simpl. destruct (active_job_ s); [by eexists|done].
  - intros c body Ha Hc Ht. unfold next. rewrite Hc, Ht, andb_false_r. simpl. unfold create.
    destruct (request_head body) as [[t ps]|]; [|by eexists].
    destruct (command_for (paths c) t ps); [|by eexists].
    unfold create_locked. simpl. rewrite Ha.
    destruct (join_when_inactive s C Ha Ht) as [k ->].
    destruct (create_directories c); [|by eexists].
    destruct (persist _ _ _) as [[u|x] fs]; [destruct (start_thread c)|]; by eexists.
Qed.

(** A job keeps its identifier, type, parameters, command line and
    directory; one step changes its state only from queued to running or failed
    and from running to succeeded, failed or cancelled, so over any sequence of
    events it only moves forward, and once it has ended nothing about it ever
    changes. *)
Theorem job_lifecycle s p j es s' e s1 o :
  reachable (step root) starts s -> heap s !! p = Some j ->
  next root s e = Some (s1, o) -> perform root s1 es = Some s' ->
  (exists j1, heap s1 !! p = Some j1 /\
     (state j1 = state j \/
      state j = "queued"%string /\ state j1 ∈ ["running"; "failed"]%string \/
      state j = "running"%string /\ state j1 ∈ ["succeeded"; "failed"; "cancelled"]%string)) /\
  exists j', heap s' !! p = Some j' /\ same_request j j' /\ (stage (state j) <= stage (state j'))%nat /\
    (is_pending j = false -> j' = j).
Proof.
  intros C%reachable_consistent Hj En E. split.
  - destruct (next_heap root s e s1 o C En p j Hj) as (j1 & Hj1 & [_ Hm]). exists j1. tauto.
  - apply (perform_job s (e :: es)); [done| |done]. simpl. by rewrite En.
Qed.

Lemma persist_in_thread_jobs w p after s :
  jobs_ (persist_in_thread w p after s) = jobs_ s /\ active_job_ (persist_in_thread w p after s) = active_job_ s.
Proof. unfold persist_in_thread. destruct (job_at s p); [|done]. by destruct (persist w _ _) as [[] ?]. Qed.

Lemma persist_in_thread_worker w p after s :
  is_Some (job_at s p) ->
  worker_ (persist_in_thread w p after s) = after \/ worker_ (persist_in_thread w p after s) = Terminated.
Proof.
  intros [j Hj]. destruct (persist_in_thread_spec w p after s j Hj) as (fs & wk & -> & [->| ->]); auto.
Qed.

(** a step of the thread or of the child keeps the history, and the thread
    leaves its job only when it is not the active one any more *)
Lemma thread_step_job s e s' o p :
  consistent s -> is_call e = false -> next root s e = Some (s', o) -> running_job (worker_ s) = Some p ->
  jobs_ s' = jobs_ s /\
  (running_job (worker_ s') = Some p \/ terminated s' = true \/ active_job_ s' = None).
Proof.
  intros C Hcall En Hp. destruct (busy_active s p C Hp) as (_ & j & Hj & _). revert En.
  unfold next. rewrite Hcall. cbn [andb orb]. destruct (terminated s); [done|].
  destruct e as [c body|i|i| |w i|r|w|w|f|w| |st|]; try done; cbn [option_map]; intros E.
  - unfold worker_fork in E. destruct (worker_ s), r; repeat case_match; simplify_eq/=; auto.
  - unfold worker_fork_failed in E. destruct (worker_ s); try done. injection E as <- <-.
    match goal with |- context [persist_in_thread w ?p ?a ?t] =>
      destruct (persist_in_thread_jobs w p a t) as [-> ->] end. auto.
  - unfold worker_started in E. destruct (worker_ s) as [|?|p0 q|?|?|?| |] eqn:Ew; try done.
    simpl in Hp. injection Hp as ->. unfold job_at in E. rewrite Hj in E. injection E as <- _.
    match goal with |- context [persist_in_thread w p ?a ?t] =>
      destruct (persist_in_thread_jobs w p a t) as [-> _];
      destruct (persist_in_thread_worker w p a t) as [Hw|Hw] end.
    + unfold job_at. destruct (cancel_requested j); simpl; rewrite lookup_alter_eq, Hj; by eexists.
    + rewrite Hw. split; [by destruct (cancel_requested j)|by left].
    + unfold terminated. rewrite Hw. split; [by destruct (cancel_requested j)|auto].
  - unfold worker_waited in E. destruct (worker_ s), f, (child s); simplify_eq/=; auto.
  - unfold worker_finish in E. destruct (worker_ s); try done. injection E as <- <-.
    match goal with |- context [persist_in_thread w ?p ?a ?t] =>
      destruct (persist_in_thread_jobs w p a t) as [-> ->] end. auto.
  - unfold child_setpgid in E. destruct (child s); simplify_eq/=; auto.
  - unfold child_ends in E. destruct (child s); simplify_eq/=; auto.
Qed.

(** the job of the thread is running, or has ended, or the process has *)
Definition served (p : nat) (s : JobManager) : Prop :=
  terminated s = true \/
  exists j, heap s !! p = Some j /\ (running_job (worker_ s) = Some p \/ is_pending j = false).

Lemma served_step p s e s' o :
  consistent s -> served p s -> next root s e = Some (s', o) -> served p s'.
Proof.
  intros C [Ht|(j & Hj & Hr)] En.
  { unfold next in En. by rewrite Ht, orb_true_r in En. }
  destruct (next_heap root s e s' o C En p j Hj) as (j' & Hj' & Hm).
  destruct Hr as [Hr|Hp].
  - destruct (is_call e) eqn:Hcall.
    + destruct (call_step_measure root s e s' o C ltac:(by eexists) Hcall En) as [_ Hw].
      right. exists j'. rewrite Hw. auto.
    + destruct (thread_step_job s e s' o p C Hcall En Hr) as [Hjobs [Hk|[Hk|Hk]]];
        [right; eauto|by left|]. right. exists j'. split; [done|]. right.
      destruct (is_pending j') eqn:Ep; [|done].
      pose proof (next_consistent root s e s' o C En) as C'.
      rewrite (only_active_pending _ C' p j') in Hk; [done| |done|done].
      rewrite Hjobs. pose proof (active_first _ C p (runs_active _ C p Hr)) as E.
      destruct (jobs_ s); [done|]. injection E as ->. by left.
  - right. exists j'. split; [done|]. right. by rewrite (moves_ended j j' Hm Hp).
Qed.

Lemma perform_not_running p s es s' :
  consistent s -> is_Some (heap s !! p) -> running_job (worker_ s) <> Some p ->
  perform root s es = Some s' -> running_job (worker_ s') <> Some p.
Proof.
  intros C Hp Hr E.
  apply (perform_invariant (fun a => consistent a /\ is_Some (heap a !! p) /\ running_job (worker_ a) <> Some p)
    root s es s'); [|done|done].
  intros a e b o (Ca & [j Hj] & Ha) En. destruct (next_heap root a e b o Ca En p j Hj) as (j' & Hj' & _).
  split_and!; [by eapply next_consistent|by eexists|].
  intros Hb. apply Ha. eapply worker_keeps; [done..|by eexists|done].
Qed.

Lemma perform_measure p s es s' :
  consistent s -> running_job (worker_ s) = Some p -> perform root s es = Some s' ->
  running_job (worker_ s') = Some p ->
  (List.length (List.filter (fun e => negb (is_call e)) es) + measure s' <= measure s)%nat.
Proof.
  revert s. induction es as [|e es IH]; intros s C Hp E Hp'; simpl in E; [by simplify_eq|].
  destruct (next root s e) as [[s1 o]|] eqn:En; [|done].
  destruct (busy_active s p C Hp) as (_ & j & Hj & _).
  destruct (next_heap root s e s1 o C En p j Hj) as (j1 & Hj1 & _).
  pose proof (next_consistent root s e s1 o C En) as C1.
  destruct (decide (running_job (worker_ s1) = Some p)) as [Hp1|Hn1].
  - specialize (IH s1 C1 Hp1 E Hp'). simpl. destruct (is_call e) eqn:Hcall; simpl.
    + destruct (call_step_measure root s e s1 o C ltac:(by eexists) Hcall En) as [Hm _]. lia.
    + pose proof (thread_step_measure root s e s1 o C Hcall En). lia.
  - by destruct (perform_not_running p s1 es s' C1 ltac:(by eexists) Hn1 E).
Qed.

Lemma measure_bound s : (measure s <= 10)%nat.
Proof. unfold measure. destruct (worker_ s), (child s); simpl; lia. Qed.

(** C25: A job the worker thread has taken comes to an end, provided the thread
    and the child process go on running (the end of the child is a step of the
    environment).  As long as the thread runs the job, some step of the thread or
    of the child is possible, calls of the interface neither block nor repeat one,
    and there can be no more than ten of them; afterwards the process has died of an exception
    in the thread, or the job is recorded as ended. *)
Theorem job_always_finishes (w : World) s p es s' :
  reachable (step root) starts s -> running_job (worker_ s) = Some p -> perform root s es = Some s' ->
  (running_job (worker_ s') = Some p ->
     (List.length (List.filter (fun e => negb (is_call e)) es) <= 10)%nat /\
     exists e s'' o, is_call e = false /\ next root s' e = Some (s'', o)) /\
  (running_job (worker_ s') <> Some p ->
     terminated s' = true \/ exists j, heap s' !! p = Some j /\ is_pending j = false).
Proof.
  intros C%reachable_consistent Hp E. pose proof (perform_consistent s es s' C E) as C'. split.
  - intros Hp'. pose proof (perform_measure p s es s' C Hp E Hp'). pose proof (measure_bound s).
    split; [lia|]. apply (busy_enabled root s' w C'). by eexists.
  - intros Hn. destruct (busy_active s p C Hp) as (_ & j & Hj & _).
    apply (perform_invariant (fun a => consistent a /\ served p a) root s es s') in E as [_ [Ht|(k & Hk & [Hr|Hr])]];
      [by left|done|eauto| |].
    + intros a e b o [Ca Ha] En. split; [by eapply next_consistent|by eapply served_step].
    + split; [done|]. right. eauto.
Qed.

(** C27: [create] marks a job active before it writes the job's files and starts
    the thread.  When either of the two fails the request is answered with an
    error, and from then on, whatever else happens, every [create] is refused:
    no job can be started until the service restarts. *)
Theorem failed_start_blocks_jobs c j s s' e :
  active_job_ s = None -> create_directories c = Done tt ->
  create_locked c j s = Some (s', Raised e) ->
  forall es s'' c' body, perform root s' es = Some s'' ->
  match next root s'' (Create c' body) with
  | Some (_, o) => exists x, o = [Answer (Created (Raised x))]
  | None => closing s'' = true
  end.
Proof.
  intros Ha Hd E es s'' c' body Ep.
  assert (Hw : wedged s').
  { revert E. unfold create_locked. rewrite Ha, Hd. destruct (join (worker_ s)) as [k|] eqn:Ej; [|done].
    assert (k = NotJoinable) as -> by (destruct (worker_ s); simpl in Ej; congruence).
    destruct (persist _ _ _) as [[u|x] fs]; [destruct (start_thread c); [done|]|]; intros [= <- _];
      (split; [by eexists|done]). }
  assert (Hw' : wedged s'').
  { eapply (perform_invariant wedged root s' es s''); [|done|done].
    intros a ev b o Hab En. by destruct (wedged_step root a ev b o Hab En). }
  destruct (next root s'' (Create c' body)) as [[s3 o]|] eqn:En.
  - destruct (wedged_step root s'' _ s3 o Hw' En) as [_ Hr]. by eapply Hr.
  - destruct Hw' as [[p Hp] Hwk]. unfold next, terminated in En. rewrite Hwk in En. simpl in En.
    destruct (closing s''); [done|]. simpl in En. revert En. unfold create.
    destruct (request_head body) as [[t ps]|]; [|done]. destruct (command_for (paths c') t ps); [|done].
    unfold create_locked. simpl. by rewrite Hp.
Qed.

(** The process group of a job is made by the child alone, after [fork].  A
    cancellation that arrives before that signals a group that does not exist
    yet: the child is not told, runs to its end, and the job is recorded as
    cancelled whatever it did. *)
Theorem cancellation_can_be_lost w s p q job_id j s1 o code s2 :
  reachable (step root) starts s -> worker_ s = Waiting p q -> child s = Forked q ->
  find_locked s job_id = Some p -> heap s !! p = Some j -> uncancellable j = false ->
  next root s (Cancel w job_id) = Some (s1, o) ->
  perform root s1 [ChildSetpgid; ChildEnds (Exited code); WaitReturns false; FinishSection w] = Some s2 ->
  Kill q ∈ o /\ child s1 = Forked q /\
  exists j2, heap s2 !! p = Some j2 /\ state j2 = "cancelled"%string /\ exit_code j2 = code.
Proof.
  intros C%reachable_consistent Hw Hc Hf Hj Hu En E.
  pose proof (thread_agrees _ C p j) as Ha. rewrite Hw in Ha. destruct (Ha eq_refl Hj) as (Hst & Hpid & Hq).
  assert (Hp : is_pending j = true) by (unfold is_pending; by rewrite Hst).
  assert (H1 : Kill q ∈ o /\ child s1 = Forked q /\ worker_ s1 = Waiting p q /\
    exists j1, heap s1 !! p = Some j1 /\ cancel_requested j1 = true).
  { unfold next in En. destruct (is_call _ && closing s || terminated s); [done|].
    unfold cancel, job_at in En. rewrite Hf, Hj, Hp, Hu, Hpid, Hc, (proj2 (Z.ltb_lt 0 q) Hq) in En. simpl in En.
    destruct (persist _ _ _) as [[u|x] fs] in En; injection En as <- <-; simpl;
      (split_and!; [by left|done|done|eexists; by rewrite lookup_insert_eq]). }
  destruct H1 as (Ho & Hc1 & Hw1 & j1 & Hj1 & Hr). split_and!; [done..|].
  set (sa := s1 <| child := Grouped q false |>). set (sb := sa <| child := Ended q (Exited code) |>).
  set (sc := sb <| worker_ := Waited p q (Some (Exited code)) |> <| child := NoChild |>).
  assert (Na : next root s1 ChildSetpgid = Some (sa, [])).
  { unfold next, terminated, child_setpgid. by rewrite Hw1, Hc1. }
  assert (Nb : next root sa (ChildEnds (Exited code)) = Some (sb, [])).
  { unfold next, terminated, child_ends, sb, sa. simpl. by rewrite Hw1. }
  assert (Nc : next root sb (WaitReturns false) = Some (sc, [])).
  { unfold next, terminated, worker_waited, sc, sb, sa. simpl. by rewrite Hw1. }
  cbn [perform] in E. rewrite Na in E. rewrite Nb in E. rewrite Nc in E.
  unfold next, worker_finish, sc, sb, sa in E. simpl in E. injection E as <-.
  rewrite heap_persist_in_thread. erewrite heap_set_job by exact Hj1. eexists. rewrite lookup_insert_eq.
  split; [done|]. simpl. by rewrite Hr.
Qed.
End Lifecycle.

(** ** What a request can put on a command line *)
Section Arguments.
Variable w : Paths.

(** the canonical form of a path below one of the allowed directories *)
Definition confined (a : string) : Prop :=
  exists name allowed below, name ∈ root_names /\ weakly_canonical w (in_project w name) = Done allowed /\
    a = path_text (allowed ++ below).

(** the alphabet of the arguments of the policy scripts *)
Definition plain (a : string) : Prop := all_of path_char a = true.

(** the name of an entry of a directory, other than [.] and [..] *)
Definition entry_name (a : string) : Prop :=
  exists x r, a = String x r /\ alphanumeric x = true /\ all_of name_char r = true /\
    (String.length a <= 80)%nat.

Lemma is_within_app child parent : is_within child parent = true -> exists below, child = parent ++ below.
Proof. intros [below ->]%bool_decide_eq_true. by exists below. Qed.

Lemma within_roots allowed p :
  roots w = Done allowed -> existsb (is_within p) allowed = true -> confined (path_text p).
Proof.
  intros Hr%rmap_done Hw. apply existsb_exists in Hw as (r & Hin%list_elem_of_In & [below ->]%is_within_app).
  apply list_elem_of_lookup in Hin as [i Hi].
  destruct (Forall2_lookup_r _ _ _ _ _ Hr Hi) as (name & Hn & Hc).
  exists name, r, below. split_and!; [|done|done]. by eapply list_elem_of_lookup_2.
Qed.

Lemma resolve_input_done v p :
  resolve_input w v = Done p -> path_exists w p = true /\ confined (path_text p).
Proof.
  unfold resolve_input. intros (u & _ & (q & _ & (allowed & Hr & E)%rbind_done)%rbind_done)%rbind_done.
  destruct (path_exists w q) eqn:Ex; [|done]. destruct (existsb (is_within q) allowed) eqn:Ew; [|done].
  simplify_eq/=. split; [done|by eapply within_roots].
Qed.

Lemma resolve_output_done v p : resolve_output w v = Done p -> confined (path_text p).
Proof.
  unfold resolve_output. intros (u & _ & (q & _ & (allowed & Hr & E)%rbind_done)%rbind_done)%rbind_done.
  destruct (existsb (is_within q) allowed) eqn:Ew; [|done]. simplify_eq/=. by eapply within_roots.
Qed.

Lemma input_of_done ps key a : input_of w ps key = Done a -> confined a.
Proof.
  unfold input_of. intros (v & _ & (p & Hp & E)%rbind_done)%rbind_done.
  injection E as <-. by eapply resolve_input_done.
Qed.

Lemma output_of_done ps key a : output_of w ps key = Done a -> confined a.
Proof.
  unfold output_of. intros (v & _ & (p & Hp & E)%rbind_done)%rbind_done.
  injection E as <-. by eapply resolve_output_done.
Qed.

Lemma dataset_arguments_done l args : rmap (dataset_argument w) l = Done args -> Forall confined args.
Proof.
  intros Hf%rmap_done. induction Hf as [|d a l' args' Hd _ IH]; constructor; [|done].
  destruct d; try done. simpl in Hd. apply rbind_done in Hd as (p & Hp & E). injection E as <-.
  by eapply resolve_input_done.
Qed.

Lemma checked_value_done ps key r v : checked_value ps key r = Done v -> matches r v.
Proof.
  unfold checked_value. intros (u & _ & E)%rbind_done. destruct (regex_match u r) eqn:Em; [|done].
  injection E as <-. by apply regex_match_matches.
Qed.

(** characters of a name and of a path *)
Lemma alphanumeric_path x : alphanumeric x = true -> path_char x = true.
Proof. unfold path_char, either. by intros ->. Qed.
Lemma name_char_path x : name_char x = true -> path_char x = true.
Proof.
  unfold name_char, path_char, either. intros [->|Hx]%orb_true_iff; [done|]. apply orb_true_iff. right.
  destruct x as [[] [] [] [] [] [] [] []]; done.
Qed.
Lemma lower_word_name x : lower_word x = true -> name_char x = true.
Proof.
  unfold lower_word, name_char, either, alphanumeric. intros [Hx|[Hx|Hx]%orb_true_iff]%orb_true_iff; rewrite ?Hx, ?orb_true_r; try done.
  destruct x as [[] [] [] [] [] [] [] []]; done.
Qed.

Lemma version_entry v : matches version_pattern v -> entry_name v.
Proof.
  intros (x & t & -> & Hx & [Ha Hl]%matches_between)%matches_class_seq; [|lia].
  exists x, t. split_and!; [done|done|done|simpl; lia].
Qed.

Lemma entry_plain v : entry_name v -> plain v.
Proof.
  intros (x & r & -> & Hx & Hr & _). unfold plain. simpl. rewrite alphanumeric_path by done.
  simpl. eapply all_of_mono; [|done]. intros y. apply name_char_path.
Qed.

Lemma model_plain v : matches model_pattern v -> plain v.
Proof.
  intros (a & b & -> & [Ha _]%matches_plus & (x & t & -> & Hx & [Ht _]%matches_plus)%matches_class_seq)%matches_seq_inv.
  unfold plain. rewrite all_of_app. rewrite (all_of_mono _ _ _ name_char_path Ha). simpl.
  rewrite (all_of_mono _ _ _ name_char_path Ht). apply Ascii.eqb_eq in Hx as <-. done.
Qed.

Lemma between_plain lo hi v : (lo <= hi)%nat -> matches (between lo hi (Class path_char)) v -> plain v.
Proof. intros Hle [Ha _]%matches_between; done. Qed.

Lemma precision_plain v : matches precision_pattern v -> plain v.
Proof.
  unfold precision_pattern. rewrite !matches_or_inv, !matches_word. intros [->|[->|[->|[->| ->]]]]; done.
Qed.

Lemma registered_provider_done ps a : registered_provider ps = Done a -> plain a.
Proof.
  unfold registered_provider. intros (v & _ & (u & Hc%check_done%str_eqb_spec & E)%rbind_done)%rbind_done.
  injection E as <-. by rewrite Hc.
Qed.

Lemma optional_dataset_done ps a : optional_dataset ps = Done a -> plain a.
Proof.
  unfold optional_dataset. intros (v & _ & (u & Hc%check_done%regex_match_matches & E)%rbind_done)%rbind_done.
  injection E as <-. eapply between_plain; [|exact Hc]. lia.
Qed.

(** the script of each type of job *)
Definition scripts : list (string * string) :=
  [("dataset.export_episode", "export_episode.sh"); ("dataset.inspect", "inspect_dataset.sh");
   ("dataset.split", "split_vehicle_dataset.sh"); ("dataset.archive_lerobot", "archive_dataset.sh");
   ("dataset.convert_lerobot", "convert_lerobot_dataset.sh");
   ("policy.health_check", "verify_smolvla_model_offline.sh");
   ("policy.runtime_test", "test_smolvla_runtime.sh"); ("policy.runtime_switch", "switch_policy_runtime.sh");
   ("policy.model_install", "install_policy_model.sh"); ("policy.model_import", "import_policy_model.sh");
   ("policy.model_activate", "activate_policy_model.sh");
   ("policy.model_variant", "prepare_policy_model_variant.sh")]%string.

(** the arguments of a type of job: paths below the allowed directories for the
    dataset tools; for the policy tools words of a safe alphabet, a model
    version being the name of a directory entry *)
Definition arguments_ok (t : string) (args : list string) : Prop :=
  if String.prefix "dataset." t then Forall confined args
  else Forall plain args /\
    (String.prefix "policy.model_" t = true ->
       exists provider version rest, args = provider :: version :: rest /\ entry_name version) /\
    (t = "policy.model_variant"%string ->
       exists provider version target precision,
         args = [provider; version; target; precision] /\ entry_name target).

Ltac take_apart :=
  repeat match goal with
  | H : rbind _ _ = Done _ |- _ => apply rbind_done in H as (? & ? & ?)
  | H : checked_value _ _ _ = Done _ |- _ => apply checked_value_done in H
  | H : input_of _ _ _ = Done _ |- _ => apply input_of_done in H
  | H : output_of _ _ _ = Done _ |- _ => apply output_of_done in H
  | H : rmap (dataset_argument _) _ = Done _ |- _ => apply dataset_arguments_done in H
  | H : registered_provider _ = Done _ |- _ => apply registered_provider_done in H
  | H : optional_dataset _ = Done _ |- _ => apply optional_dataset_done in H
  | H : matches version_pattern _ |- _ => apply version_entry in H
  | H : matches model_pattern _ |- _ => apply model_plain in H
  | H : matches precision_pattern _ |- _ => apply precision_plain in H
  | H : matches revision_pattern _ |- _ => unfold revision_pattern in H
  | H : matches path_pattern _ |- _ => unfold path_pattern in H
  | H : matches (between _ _ (Class path_char)) _ |- _ => apply between_plain in H; [|lia]
  | H : Done _ = Done _ |- _ => injection H as <-
  end.

Lemma dataset_command_ok t cmd :
  String.prefix "dataset." t = true ->
  (exists name args, (t, name) ∈ scripts /\ cmd = script w name :: args /\ Forall confined args) ->
  exists name args, (t, name) ∈ scripts /\ cmd = script w name :: args /\ arguments_ok t args.
Proof. intros Ht (name & args & Hin & E & Hf). exists name, args. unfold arguments_ok. by rewrite Ht. Qed.

Lemma dataset_commands_done t ps cmd :
  (t = "dataset.export_episode"%string /\ export_command w ps = Done cmd \/
   t = "dataset.inspect"%string /\ inspect_command w ps = Done cmd \/
   t = "dataset.split"%string /\ split_command w ps = Done cmd \/
   t = "dataset.archive_lerobot"%string /\ archive_command w ps = Done cmd \/
   t = "dataset.convert_lerobot"%string /\ convert_command w ps = Done cmd) ->
  exists name args, (t, name) ∈ scripts /\ cmd = script w name :: args /\ Forall confined args.
Proof.
  intros [[-> E]|[[-> E]|[[-> E]|[[-> E]|[-> E]]]]].
  - unfold export_command in E. take_apart. eexists _, _. split_and!; [|done|auto]. set_solver.
  - unfold inspect_command in E. take_apart. eexists _, _. split_and!; [|done|auto]. set_solver.
  - unfold split_command in E. take_apart. eexists _, _. split_and!; [|done|auto]. set_solver.
  - unfold archive_command in E. apply rbind_done in E as (o & _ & E). destruct o as [[|d l]|]; try done.
    take_apart. eexists _, _. split_and!; [|done|by constructor]. set_solver.
  - unfold convert_command in E. apply rbind_done in E as (o & _ & E).
    destruct o as [[|d l]|]; take_apart; (eexists _, _; split_and!; [|done|by repeat constructor]); set_solver.
Qed.

Lemma tool_command_done t name ps cmd :
  String.prefix "dataset." t = false -> String.prefix "policy.model_" t = false ->
  t <> "policy.model_variant"%string -> (t, name) ∈ scripts ->
  (no_parameters w t name ps = Done cmd \/
   t = "policy.runtime_switch"%string /\ name = "switch_policy_runtime.sh"%string /\ switch_command w ps = Done cmd) ->
  exists name args, (t, name) ∈ scripts /\ cmd = script w name :: args /\ arguments_ok t args.
Proof.
  intros Hd Hm Hv Hin E. unfold arguments_ok. rewrite Hd, Hm. destruct E as [E|(-> & -> & E)].
  - unfold no_parameters in E. take_apart. exists name, []. split_and!; try done.
  - unfold switch_command in E. apply rbind_done in E as (v & _ & E). apply rbind_done in E as (u & Hu & E).
    take_apart. eexists _, _. split_and!; [exact Hin|done| |done..].
    constructor; [|constructor].
    apply check_done, orb_true_iff in Hu as [->%str_eqb_spec| ->%str_eqb_spec]; done.
Qed.

Lemma model_commands_done t ps cmd :
  (t = "policy.model_install"%string /\ install_command w ps = Done cmd \/
   t = "policy.model_import"%string /\ import_command w ps = Done cmd \/
   t = "policy.model_activate"%string /\ activate_command w ps = Done cmd \/
   t = "policy.model_variant"%string /\ variant_command w ps = Done cmd) ->
  exists name args, (t, name) ∈ scripts /\ cmd = script w name :: args /\ arguments_ok t args.
Proof.
  intros E. unfold arguments_ok. destruct E as [[-> E]|[[-> E]|[[-> E]|[-> E]]]];
    [unfold install_command in E|unfold import_command in E|unfold activate_command in E|unfold variant_command in E];
    take_apart; (eexists _, _; split_and!; [|done|simpl]; [set_solver|]);
    (split_and!; [repeat constructor; auto using entry_plain|intros _; by eexists _, _, _|try done]).
  intros _. by eexists _, _, _, _.
Qed.

(** C23: Whatever the parameters of a request, the command line of its job is the
    script of its type under [scripts/], followed by arguments that cannot leave
    their place: for the dataset tools every argument is the canonical path of
    something below [datasets/], [run/test/] or [run/ops/exports/]; for the
    policy tools it is a word of letters, digits and [._/-], and a model version
    is the name of a directory entry, never [.], [..] or a path. *)
Theorem commands_are_confined t ps cmd :
  command_for w t ps = Done cmd ->
  exists name args, (t, name) ∈ scripts /\ cmd = script w name :: args /\ arguments_ok t args.
Proof.
  unfold command_for. intros E.
  repeat match type of E with (if str_eqb t ?n then _ else _) = _ =>
    destruct (str_eqb t n) eqn:?; [match goal with H : str_eqb t n = true |- _ => apply str_eqb_spec in H as -> end|] end.
  1-5: apply dataset_command_ok; [done|]; apply (dataset_commands_done _ ps); naive_solver.
  1-2: eapply tool_command_done; [..|by left]; [done..|set_solver].
  1: eapply tool_command_done; [..|by right]; [done..|set_solver].
  1-4: apply (model_commands_done _ ps); naive_solver.
  done.
Qed.
End Arguments.

(** ** The history across a restart *)
Section Restart.
Context `{NlohmannRoundTrip}.

Lemma substring_whole s : substring 0 (String.length s) s = s.
Proof. induction s as [|x s IH]; simpl; [done|by rewrite IH]. Qed.

Lemma tail_whole limit text : (String.length text <= limit)%nat -> tail limit text = text.
Proof. intros Hl. unfold tail. replace (_ - limit)%nat with 0%nat by lia. apply substring_whole. Qed.

Lemma value_member {A} (get : JsonValue -> Outcome A) key d v x :
  member key v = Some x -> value get key d v = get x.
Proof. destruct v; simpl; try done. by intros ->. Qed.

(** what the new process knows of a job of the old one: neither its command nor
    its process *)
Definition restored (j : Job) (ps : JsonValue) : Job :=
  MakeJob (id j) (type j) (state j) ps [] (directory j) (requested_at j) (started_at j) (ended_at j)
    (cancellation_reason j) (-1) (exit_code j) false.

Lemma stored_job_reads_back w j r v :
  same (status_document w j r) v -> - 2 ^ 31 <= exit_code j < 2 ^ 31 ->
  exists ps, same (parameters j) ps /\ stored_job (directory j) v = Returns (restored j ps).
Proof.
  intros Hs Hc. pose proof (same_member _ _ "parameters" Hs) as Hps. simpl in Hps.
  inversion Hps as [x ps Hx E1 E2|]; subst. exists ps. split; [done|].
  pose proof (fun key s => same_string _ _ key s Hs) as Hstr.
  pose proof (same_integer _ _ "exit_code" _ Hs eq_refl) as Hcode.
  unfold stored_job, value_string, value_json.
  rewrite (Hstr "id" _ eq_refl), (Hstr "job_type" _ eq_refl), (Hstr "state" _ eq_refl).
  erewrite (value_member get_json) by (symmetry; exact E2).
  erewrite (value_member get_string "requested_at") by exact (Hstr "requested_at" _ eq_refl).
  erewrite (value_member get_string "started_at") by exact (Hstr "started_at" _ eq_refl).
  erewrite (value_member get_string "ended_at") by exact (Hstr "ended_at" _ eq_refl).
  erewrite (value_member get_string "cancellation_reason") by exact (Hstr "cancellation_reason" _ eq_refl).
  erewrite (value_member get_int) by exact Hcode. simpl. by rewrite get_int_exact.
Qed.

Lemma status_document_well_formed w j r :
  well_formed (parameters j) = true -> - 2 ^ 63 <= pid j < 2 ^ 64 -> - 2 ^ 31 <= exit_code j < 2 ^ 31 ->
  well_formed (status_document w j r) = true.
Proof.
  intros Hp Hpid Hc. cbn [status_document well_formed forallb snd]. rewrite Hp.
  rewrite (proj2 (Z.leb_le _ _)), (proj2 (Z.ltb_lt _ _)) by lia.
  rewrite (proj2 (Z.leb_le _ _)), (proj2 (Z.ltb_lt _ _)) by lia. done.
Qed.

(** C26: What [persist] writes, [load_history] reads back: on a disk that keeps
    what is written, a job whose status document is not cut off comes back with
    its identifier, type, state, parameters, times, exit code and reason, and a
    job that was queued or running comes back as failed, with the reason that
    the service restarted. *)
Theorem history_survives_restart w w' j fs fs' :
  (forall p t, disk w p t = Some t) -> persist w j fs = (Done tt, fs') ->
  well_formed (parameters j) = true -> - 2 ^ 63 <= pid j < 2 ^ 64 -> - 2 ^ 31 <= exit_code j < 2 ^ 31 ->
  (forall text, fs' !! status_path j = Some text -> (String.length text <= status_limit)%nat) ->
  exists ps, same (parameters j) ps /\
    load_one w' (directory j) fs' =
      if is_pending j then
        match persist w' (interrupted w' (restored j ps)) fs' with
        | (Done _, fs'') => (Some (interrupted w' (restored j ps)), fs'')
        | (Raised _, fs'') => (None, fs'')
        end
      else (Some (restored j ps), fs').
Proof.
  intros Hd E Hp Hpid Hc Hlen. unfold persist in E.
  destruct (relative w (log_path j)) as [r|]; [|done].
  destruct (dump_indent 2 (status_document w j r)) as [text|] eqn:Et; [|done].
  destruct (dump_indent 2 (request_document j)) as [text'|]; [|done].
  unfold write_file in E. rewrite !Hd in E.
  assert (Hne : request_path j <> status_path j).
  { unfold request_path, status_path. intros Heq%app_inv_head. done. }
  assert (Hf : fs' !! status_path j = Some (text ++ newline)%string).
  { injection E as <-. by rewrite lookup_insert_ne, lookup_insert_eq. }
  destruct (reads_back 2 (status_document w j r) text) as (v & Hv & Hs); [by apply status_document_well_formed|done|].
  destruct (stored_job_reads_back w j r v Hs Hc) as (ps & Hps & Hj).
  exists ps. split; [done|]. unfold load_one, read_tail.
  change (directory j ++ ["status.json"%string]) with (status_path j).
  rewrite Hf, tail_whole by auto. rewrite Hv. cbn [obind]. by rewrite Hj.
Qed.
End Restart.

(** ** Witnesses *)
Definition demo_request : JsonValue := J_object [("job_type"%string, J_string "policy.health_check")].
Definition nlohmann_any : Nlohmann := {|
  dump _ := Returns "{}"%string;
  dump_indent _ _ := Returns "{}"%string;
  parse _ := Returns demo_request;
  get_int v := match v with J_integer z => Returns z | _ => type_error end;
  get_uint32 _ := type_error; get_uint64 _ := type_error;
  get_float _ := type_error; get_double _ := type_error
|}.
Definition demo_world : World :=
  {| clock := 1704067200; disk := fun _ text => Some text;
     relative := fun _ => Done "run/ops/jobs/job.log"%string |}.
Definition demo_root : path := ["srv"; "run"; "ops"; "jobs"]%string.
Definition demo_paths : Paths :=
  {| project_root_ := ["srv"]%string; weakly_canonical := fun t => Done [t]; path_exists := fun _ => true |}.
Definition demo_create : CreateCall :=
  {| paths := demo_paths; milliseconds := 1000; world := demo_world; create_directories := Done tt;
     start_thread := Done tt |}.
Definition demo_start : JobManager := @load_history nlohmann_any demo_world [] ∅.
Definition demo_after (es : list Event) : JobManager :=
  default demo_start (@perform nlohmann_any demo_root demo_start es).
Definition demo_started : list Event :=
  [Create demo_create "{}"; Fork (Some 42); StartedSection demo_world]%string.

Lemma reachable_perform `{Nlohmann} root s es s' :
  reachable (step root) starts s -> perform root s es = Some s' -> reachable (step root) starts s'.
Proof.
  intros Hs. apply perform_invariant; [|done]. intros a e b o Ha En. by eapply reach_step.
Qed.

Lemma demo_reachable es s :
  @perform nlohmann_any demo_root demo_start es = Some s ->
  reachable (@step nlohmann_any demo_root) (@starts nlohmann_any) s.
Proof. apply reachable_perform, reach_init. by eexists _, _, _. Qed.

Lemma one_job_at_a_time_witness :
  exists s, reachable (@step nlohmann_any demo_root) (@starts nlohmann_any) s /\
    active_job_ s = Some 0%nat /\ NoDup (jobs_ s).
Proof.
  exists (demo_after demo_started).
  assert (Hr : reachable (@step nlohmann_any demo_root) (@starts nlohmann_any) (demo_after demo_started))
    by (apply (demo_reachable demo_started); vm_compute; reflexivity).
  split; [exact Hr|split; [vm_compute; reflexivity|]].
  exact (proj1 (@one_job_at_a_time nlohmann_any demo_root (demo_after demo_started) Hr)).
Defined.

Definition demo_job (s : JobManager) : Job :=
  default (MakeJob "" "" "" J_null [] [] "" "" "" "" 0 0 false) (heap s !! 0%nat).
Definition demo_rest : list Event :=
  [ChildSetpgid; ChildEnds (Exited 0); WaitReturns false; FinishSection demo_world].

Lemma job_lifecycle_witness :
  exists j', heap (demo_after (demo_started ++ demo_rest)) !! 0%nat = Some j' /\
    state (demo_job (demo_after demo_started)) = "running"%string /\ (1 <= stage (state j'))%nat.
Proof.
  destruct (@job_lifecycle nlohmann_any demo_root (demo_after demo_started) 0%nat
    (demo_job (demo_after demo_started)) (tl demo_rest) (demo_after (demo_started ++ demo_rest)) ChildSetpgid
    (demo_after (demo_started ++ [ChildSetpgid])) []) as (_ & j' & Hj' & _ & Hs & _);
    [apply (demo_reachable demo_started); vm_compute; reflexivity|vm_compute; reflexivity..|].
  exists j'. split; [exact Hj'|split; [vm_compute; reflexivity|exact Hs]].
Defined.

Lemma job_always_finishes_witness :
  terminated (demo_after (demo_started ++ demo_rest)) = true \/
  exists j, heap (demo_after (demo_started ++ demo_rest)) !! 0%nat = Some j /\ is_pending j = false.
Proof.
  refine (proj2 (@job_always_finishes nlohmann_any demo_root demo_world (demo_after demo_started) 0%nat demo_rest
    (demo_after (demo_started ++ demo_rest)) _ _ _) _).
  - apply (demo_reachable demo_started). vm_compute. reflexivity.
  - vm_compute. reflexivity.
  - vm_compute. reflexivity.
  - vm_compute. discriminate.
Defined.

Lemma cancellation_can_be_lost_witness :
  exists j2, heap (demo_after (demo_started ++ Cancel demo_world "job-1000-0" :: demo_rest)) !! 0%nat = Some j2 /\
    state j2 = "cancelled"%string /\ exit_code j2 = 0.
Proof.
  refine (proj2 (proj2 (@cancellation_can_be_lost nlohmann_any demo_root demo_world (demo_after demo_started) 0%nat 42
    "job-1000-0" (demo_job (demo_after demo_started)) (demo_after (demo_started ++ [Cancel demo_world "job-1000-0"]))
    [Kill 42; Answer (Cancelled (Done (Some ("{}" ++ newline)%string)))] 0
    (demo_after (demo_started ++ Cancel demo_world "job-1000-0" :: demo_rest)) _ _ _ _ _ _ _ _)));
    [apply (demo_reachable demo_started); vm_compute; reflexivity|vm_compute; reflexivity..].
Defined.

(** the thread cannot be created *)
Definition failing_create : CreateCall :=
  {| paths := demo_paths; milliseconds := 1000; world := demo_world; create_directories := Done tt;
     start_thread := Raised (RuntimeError "Resource temporarily unavailable") |}.
Definition demo_new : Job := new_job failing_create demo_root 0 "policy.health_check" (J_object []) [].
Definition demo_wedged : JobManager :=
  match @create_locked nlohmann_any failing_create demo_new demo_start with
  | Some (s, _) => s
  | None => demo_start
  end.

Lemma failed_start_blocks_jobs_witness :
  exists x, option_map snd (@next nlohmann_any demo_root demo_wedged (Create demo_create "{}")) =
    Some [Answer (Created (Raised x))].
Proof.
  pose proof (@failed_start_blocks_jobs nlohmann_any demo_root failing_create demo_new demo_start demo_wedged
    (RuntimeError "Resource temporarily unavailable") eq_refl eq_refl eq_refl [] demo_wedged demo_create "{}" eq_refl) as E.
  revert E. vm_compute. intros [x E]. exists x. f_equal. exact E.
Defined.

Definition demo_inspect : JsonValue :=
  J_object [("dataset", J_string "datasets/a"); ("output", J_string "run/test/report.json")]%string.
Definition split_path (t : string) : path :=
  if str_eqb t "/srv/datasets" then ["srv"; "datasets"]
  else if str_eqb t "/srv/run/test" then ["srv"; "run"; "test"]
  else if str_eqb t "/srv/datasets/a" then ["srv"; "datasets"; "a"]
  else if str_eqb t "/srv/run/test/report.json" then ["srv"; "run"; "test"; "report.json"]
  else [t].
Definition tree_paths : Paths :=
  {| project_root_ := ["srv"]%string; weakly_canonical := fun t => Done (split_path t); path_exists := fun _ => true |}.

Lemma commands_are_confined_witness :
  exists name args, ("dataset.inspect"%string, name) ∈ scripts /\
    ["/srv/scripts/inspect_dataset.sh"; "/srv/datasets/a"; "/srv/run/test/report.json"]%string =
      script tree_paths name :: args /\ arguments_ok tree_paths "dataset.inspect" args.
Proof.
  apply (commands_are_confined tree_paths "dataset.inspect" demo_inspect). vm_compute. reflexivity.
Defined.

(** a library that writes and reads one job *)
Definition kept_job : Job :=
  MakeJob "job-1000-0" "policy.health_check" "succeeded" (J_object []) [] (demo_root ++ ["job-1000-0"%string])
    "t0" "t1" "t2" "" (-1) 0 false.
Definition kept_status : JsonValue := status_document demo_world kept_job "run/ops/jobs/job.log".
Definition nlohmann_one : Nlohmann := {|
  dump _ := Throws "type_error";
  dump_indent _ v := if json_eqb v kept_status then Returns "S"%string
                     else if json_eqb v (request_document kept_job) then Returns "R"%string
                     else Throws "type_error";
  parse t := if str_eqb t ("S" ++ newline) then Returns kept_status
             else if str_eqb t ("R" ++ newline) then Returns (request_document kept_job)
             else Throws "parse_error";
  get_int v := match v with J_integer z => Returns z | _ => type_error end;
  get_uint32 _ := type_error; get_uint64 _ := type_error;
  get_float _ := type_error; get_double _ := type_error
|}.
Definition nlohmann_one_reads_back : @NlohmannRoundTrip nlohmann_one.
Proof.
  split.
  - intros n v text _ E. cbn [dump_indent nlohmann_one] in E.
    destruct (json_eqb v kept_status) eqn:E1.
    + injection E as <-. apply json_eqb_eq in E1 as ->. exists kept_status. split; [reflexivity|apply same_refl].
    + destruct (json_eqb v (request_document kept_job)) eqn:E2; [|discriminate].
      injection E as <-. apply json_eqb_eq in E2 as ->. exists (request_document kept_job).
      split; [reflexivity|apply same_refl].
  - intros z _. reflexivity.
Defined.

Definition kept_files : gmap path string := snd (@persist nlohmann_one demo_world kept_job ∅).

Lemma history_survives_restart_witness :
  exists ps, same (J_object []) ps /\
    @load_one nlohmann_one demo_world (directory kept_job) kept_files = (Some (restored kept_job ps), kept_files).
Proof.
  apply (@history_survives_restart nlohmann_one nlohmann_one_reads_back demo_world demo_world kept_job ∅ kept_files).
  - reflexivity.
  - unfold kept_files. rewrite (surjective_pairing (@persist nlohmann_one demo_world kept_job ∅)) at 1.
    assert (fst (@persist nlohmann_one demo_world kept_job ∅) = Done tt) as -> by (vm_compute; reflexivity).
    reflexivity.
  - vm_compute. reflexivity.
  - simpl. lia.
  - simpl. lia.
  - intros text E.
    assert (text = "S" ++ newline)%string as -> by (vm_compute in E; injection E as <-; reflexivity).
    apply Nat2Z.inj_le. unfold status_limit. rewrite Z2Nat.id by (intros Hlt; discriminate Hlt).
    intros Hgt. discriminate Hgt.
Defined.
