(* ===== verification/Http.v ===== *)
(** * The HTTP server of the operations service

    Models the part of [vehicle_ops/src/vehicle_ops_api_node.cpp] between the
    socket and the handlers: texts and encodings, [read_request], [authorize],
    [route], [handle_client], [send_all], and the queue between the thread that
    accepts connections and the workers.  A socket is the list of what its
    [recv] calls give.  [route] gives the handler that is called ([Call]); the
    handlers are in [OpsApi]. *)
From S2P Require Import Prelude Floats JsonData Json Text.
Local Open Scope Z_scope.
Local Open Scope result_scope.

(** ** Requests and responses *)
Record HttpRequest := MakeRequest {
  method : string;
  target : string;
  headers : gmap string string;
  body : string }.

Record HttpResponse := MakeResponse {
  status : Z;
  content_type : string;
  content : string;
  response_headers : list (string * string) }.

Definition json_type : string := "application/json; charset=utf-8".
Definition no_store : list (string * string) := [("Cache-Control", "no-store")]%string.

(** ** Encodings *)

(** the same as the recorder's *)
Definition json_escape : string -> string := Recorder.json_escape.
Definition json_string (value : string) : string := String dquote (json_escape value ++ String dquote "").

Definition lowercase (value : string) : string := map_chars to_lower value.

(** [static_cast<char>] of an [int] *)
Definition to_char (n : Z) : ascii := char (n mod 256).

Fixpoint url_decode (value : string) : string :=
  match value with
  | EmptyString => ""
  | String c r =>
      let plain := String (if Ascii.eqb c "+" then " "%char else c) (url_decode r) in
      if Ascii.eqb c "%" then
        match r with
        | String a (String b rest) =>
            match stoi_hex (String a (String b "")) with
            | Some n => String (to_char n) (url_decode rest)
            | None => plain
            end
        | _ => plain
        end
      else plain
  end.

(** position in the base64 alphabet *)
Definition base64_position (c : ascii) : option Z :=
  let n := code c in
  if (65 <=? n) && (n <=? 90) then Some (n - 65)
  else if (97 <=? n) && (n <=? 122) then Some (n - 71)
  else if (48 <=? n) && (n <=? 57) then Some (n + 4)
  else if n =? 43 then Some 62
  else if n =? 47 then Some 63
  else None.

(** the loop of [decode_base64]: [accumulator] is a [uint32_t] of which [bits]
    are waiting *)
Fixpoint decode_loop (encoded : string) (accumulator bits : Z) : Result (list Z) :=
  match encoded with
  | EmptyString => Done []
  | String c r =>
      if is_space c then decode_loop r accumulator bits
      else if Ascii.eqb c "=" then Done []
      else match base64_position c with
           | None => Raised (InvalidArgument "Invalid image encoding")
           | Some position =>
               let accumulator := Z.lor (wrap32 (Z.shiftl accumulator 6)) position in
               let bits := bits + 6 in
               if 8 <=? bits then
                 let bits := bits - 8 in
                 let value := Z.land (Z.shiftr accumulator bits) 255 in
                 let accumulator := Z.land accumulator (if bits =? 0 then 0 else Z.shiftl 1 bits - 1) in
                 let? output := decode_loop r accumulator bits in Done (value :: output)
               else decode_loop r accumulator bits
           end
  end.

Definition too_large : Exn := LengthError "Uploaded image is too large".
Definition decode_base64 (encoded : string) : Result (list Z) :=
  let? _ := check (Z.of_nat (String.length encoded) <=? 900000) too_large in
  let? output := decode_loop encoded 0 0 in
  let? _ := check (Z.of_nat (List.length output) <=? 700000) too_large in
  Done output.

Definition is_jpeg (data : list Z) : bool :=
  match data with
  | a :: b :: c :: _ :: _ => (a =? 255) && (b =? 216) && (c =? 255)
  | _ => false
  end.

(** fields of a body, separated by the character 0x1f *)
Definition unit_separator : ascii := char 31.
Definition split_fields (text : string) : list string := map trim (getlines unit_separator text).

(** ** Responses *)
Definition error (code : Z) (message : string) : HttpResponse :=
  MakeResponse code json_type
    (quoted "{'success':false,'message':" ++ json_string message ++ "}" ++ newline)%string no_store.

Definition success (message extra : string) : HttpResponse :=
  MakeResponse 200 json_type
    (quoted "{'success':true,'message':" ++ json_string message ++
     (if str_empty extra then "" else "," ++ extra) ++ "}" ++ newline)%string no_store.

Definition status_text (status : Z) : string :=
  match status with
  | 200 => "OK" | 202 => "Accepted" | 400 => "Bad Request" | 401 => "Unauthorized"
  | 404 => "Not Found" | 405 => "Method Not Allowed" | 409 => "Conflict"
  | 408 => "Request Timeout" | 413 => "Payload Too Large" | 503 => "Service Unavailable"
  | _ => "Error"
  end.

Definition crlf : string := String (char 13) newline.

Definition security_headers : string :=
  ("Connection: close" ++ crlf ++ "X-Content-Type-Options: nosniff" ++ crlf ++ "X-Frame-Options: DENY" ++ crlf ++
   "Content-Security-Policy: default-src 'self'; img-src 'self' data: blob:; style-src 'self'; script-src 'self'; object-src 'none'; base-uri 'none'"
   ++ crlf)%string.

Fixpoint header_lines (l : list (string * string)) : string :=
  match l with [] => "" | (k, v) :: r => (k ++ ": " ++ v ++ crlf ++ header_lines r)%string end.

Definition response_head (r : HttpResponse) : string :=
  ("HTTP/1.1 " ++ to_string (status r) ++ " " ++ status_text (status r) ++ crlf ++
   "Content-Type: " ++ content_type r ++ crlf ++
   "Content-Length: " ++ to_string (Z.of_nat (String.length (content r))) ++ crlf ++
   security_headers ++ header_lines (response_headers r) ++ crlf)%string.

(** What [send] answers: a number of bytes, an interruption, or an error.  [0]
    and an exhausted list end the transmission. *)
Inductive Sent := Count (n : nat) | SendInterrupted | SendFailed.

Fixpoint send_all (data : string) (answers : list Sent) : string * list Sent :=
  if str_empty data then ("", answers)
  else
    match answers with
    | SendInterrupted :: r => send_all data r
    | Count (S n) :: r =>
        let '(rest, r') := send_all (str_drop (S n) data) r in ((str_take (S n) data ++ rest)%string, r')
    | Count O :: r | SendFailed :: r => ("", r)
    | [] => ("", [])
    end.

(** what reaches the client *)
Definition send_response (r : HttpResponse) (answers : list Sent) : string :=
  let '(head, rest) := send_all (response_head r) answers in
  (head ++ fst (send_all (content r) rest))%string.

(** ** Reading a request *)

(** one [recv]: bytes ([""] when the peer has closed), an interruption, the end
    of the socket's time-out, an error *)
Inductive Received :=
| Bytes (chunk : string)
| Interrupted
| TimedOut
| ReceiveFailed (reason : string).

Definition crlf2 : string := (crlf ++ crlf)%string.
Definition lf2 : string := (newline ++ newline)%string.

(** where the headers end, and the size of the delimiter *)
Definition find_header_end (data : string) : option (nat * nat) :=
  match str_find crlf2 data with
  | Some i => Some (i, 4%nat)
  | None => match str_find lf2 data with Some i => Some (i, 2%nat) | None => None end
  end.

(** [receive] and what the two loops do with its result; an interrupted call
    leaves the data as they are *)
Definition receive (limit : Z) (incomplete data : string) (r : Received) : Result string :=
  match r with
  | Interrupted => Done data
  | TimedOut => Raised (RuntimeError "Request receive timed out")
  | ReceiveFailed reason => Raised (RuntimeError ("Request receive failed: " ++ reason)%string)
  | Bytes chunk =>
      if str_empty chunk then Raised (RuntimeError incomplete)
      else if limit <? Z.of_nat (String.length (data ++ chunk)%string) then Raised (LengthError "Request too large")
      else Done (data ++ chunk)%string
  end.

(** what a loop needs from [data] before it stops *)
Fixpoint receive_until {A} (limit : Z) (incomplete : string) (found : string -> option A)
    (data : string) (input : list Received) : Result (A * string * list Received) :=
  match found data with
  | Some a => Done (a, data, input)
  | None =>
      match input with
      | [] => Raised (RuntimeError incomplete)
      | r :: rest =>
          let? data' := receive limit incomplete data r in
          receive_until limit incomplete found data' rest
      end
  end.

Definition add_header (m : gmap string string) (line : string) : gmap string string :=
  match str_find ":" line with
  | Some separator => <[lowercase (trim (str_take separator line)) := trim (str_drop (S separator) line)]> m
  | None => m
  end.

Definition parse_head (text : string) : Result (string * string * gmap string string) :=
  let lines := getlines (char 10) text in
  let first := str_words (trim (default ""%string (head lines))) in
  match first with
  | method :: target :: version :: _ =>
      if str_prefix "HTTP/" version then Done (method, target, fold_left add_header (tl lines) ∅)
      else Raised (RuntimeError "Invalid request line")
  | _ => Raised (RuntimeError "Invalid request line")
  end.

Definition content_length (headers : gmap string string) : Result Z :=
  match headers !! "content-length"%string with
  | None => Done 0
  | Some value => match stoul value with
                  | None => Raised (InvalidArgument "stoul")
                  | Some None => Raised (OutOfRange "stoul")
                  | Some (Some n) => Done n
                  end
  end.

(** [limit_] is an [int], compared as a [size_t] *)
Definition read_request (limit_ : Z) (input : list Received) : Result HttpRequest :=
  let limit := wrap64 limit_ in
  let? (header_end, delimiter_size, data, rest) :=
    receive_until limit "Incomplete request" find_header_end "" input in
  let? (method, target, headers) := parse_head (str_take header_end data) in
  let? length := content_length headers in
  let? _ := check (length <=? limit) (LengthError "Body too large") in
  let body_offset := (header_end + delimiter_size)%nat in
  let? (_, data, _) :=
    receive_until limit "Incomplete body"
      (fun data => if Z.of_nat (String.length data - body_offset) <? length then None else Some tt) data rest in
  Done (MakeRequest method target headers (str_take (Z.to_nat length) (str_drop body_offset data))).

(** ** Routing *)

(** the handler a request reaches, with its arguments *)
Inductive Call :=
| Reply (r : HttpResponse)
| Status | Camera
| CalibrationStatus | CalibrationImage (undistorted : bool)
| CalibrationStart (body : string) | CalibrationCapture | CalibrationCompute
| CalibrationApply (body : string) | CalibrationReset
| PipelineLive | PipelineHistory
| TeleopStatus | TeleopAcquire (body : string) | TeleopCommand (body : string) | TeleopRelease (body : string)
| ActiveDebugGet | ActiveDebugCreate (body : string) | ActiveDebugControl (action : string)
| ComponentsList | ComponentControl (body : string) | ProfileControl (body : string)
| ComponentLog (component_id : string)
| StorageStatus | StorageItems (category_id : string) | StorageCleanup (body : string)
| DatasetCatalog | DatasetDetail (relative : string) | DatasetDownload (archive : string)
| DatasetReview (body : string)
| ModelsCatalog | MobilityPlugins
| EnterShadowMode | EnterSingleStepMode | DebugCapture (body : string) | DebugRun (body : string)
| DebugImage (run_id image_name : string)
| JobsCreate (body : string) | JobsList | JobGet (job_id : string) | JobLog (job_id : string)
| JobCancel (job_id : string)
| Task (body : string) | StartEpisode (body : string) | StopEpisode (body : string) | SafeStop (body : string)
| StaticFile (path : string).

Section Routing.
Variable token_ : string.

Definition authorize (request : HttpRequest) : option HttpResponse :=
  if str_empty token_ then Some (error 503 "Write operations are disabled")
  else match headers request !! "x-ops-token"%string with
       | Some given => if str_eqb given token_ then None else Some (error 401 "A valid operator token is required")
       | None => Some (error 401 "A valid operator token is required")
       end.

(** [const auto denied = authorize(request); if (denied) {return *denied;}] *)
Definition guarded (request : HttpRequest) (k : Result Call) : Result Call :=
  match authorize request with
  | Some denied => Done (Reply denied)
  | None => k
  end.

Definition request_path (request : HttpRequest) : string :=
  match str_find "?" (target request) with
  | Some query => str_take query (target request)
  | None => target request
  end.

(** [std::string::substr(position)] *)
Definition substr_from (position : nat) (s : string) : Result string :=
  if (String.length s <? position)%nat then Raised (OutOfRange "basic_string::substr") else Done (str_drop position s).

Definition ends_with (suffix s : string) : bool :=
  str_eqb (str_drop (String.length s - String.length suffix) s) suffix.

Definition calibration_route (post : bool) (path body : string) : Result Call :=
  if post && str_eqb path "/api/camera-calibration/start" then Done (CalibrationStart body)
  else if post && str_eqb path "/api/camera-calibration/capture" then Done CalibrationCapture
  else if post && str_eqb path "/api/camera-calibration/compute" then Done CalibrationCompute
  else if post && str_eqb path "/api/camera-calibration/apply" then Done (CalibrationApply body)
  else if post && str_eqb path "/api/camera-calibration/reset" then Done CalibrationReset
  else Done (Reply (error 405 "Unsupported camera calibration endpoint")).

Definition teleop_route (post : bool) (path body : string) : Result Call :=
  if post && str_eqb path "/api/teleop/acquire" then Done (TeleopAcquire body)
  else if post && str_eqb path "/api/teleop/command" then Done (TeleopCommand body)
  else if post && str_eqb path "/api/teleop/release" then Done (TeleopRelease body)
  else Done (Reply (error 405 "Unsupported teleop endpoint")).

Definition debug_unsupported : Result Call := Done (Reply (error 405 "Unsupported VLA debug endpoint")).
Definition debug_route (get post : bool) (path body : string) : Result Call :=
  if post && str_eqb path "/api/vla-debug/enter-shadow" then Done EnterShadowMode
  else if post && str_eqb path "/api/vla-debug/enter-single-step" then Done EnterSingleStepMode
  else if post && str_eqb path "/api/vla-debug/capture" then Done (DebugCapture body)
  else if post && str_eqb path "/api/vla-debug/run" then Done (DebugRun body)
  else if get && str_prefix "/api/vla-debug/runs/" path then
    let remainder := str_drop 20 path in
    match str_find "/" remainder with
    | Some separator => Done (DebugImage (str_take separator remainder) (str_drop (S separator) remainder))
    | None => debug_unsupported
    end
  else debug_unsupported.

Definition jobs_route (get post : bool) (path body : string) : Result Call :=
  if post && str_eqb path "/api/jobs" then Done (JobsCreate body)
  else if get && str_eqb path "/api/jobs" then Done JobsList
  else
    let? remainder := substr_from 10 path in
    let '(job_id, action) := match str_find "/" remainder with
                             | Some separator => (str_take separator remainder, str_drop (S separator) remainder)
                             | None => (remainder, ""%string)
                             end in
    if get && str_empty action then Done (JobGet job_id)
    else if get && str_eqb action "log" then Done (JobLog job_id)
    else if post && str_eqb action "cancel" then Done (JobCancel job_id)
    else Done (Reply (error 405 "Unsupported job endpoint")).

(** the last two conditions of [route] *)
Definition remaining_route (get : bool) (path : string) : Result Call :=
  if get then Done (StaticFile path) else Done (Reply (error 405 "Unsupported endpoint")).

Definition post_route (get : bool) (path body : string) : Result Call :=
  if str_eqb path "/api/task" then Done (Task body)
  else if str_eqb path "/api/episode/start" then Done (StartEpisode body)
  else if str_eqb path "/api/episode/stop" then Done (StopEpisode body)
  else if str_eqb path "/api/safe-stop" then Done (SafeStop body)
  else if str_eqb path "/api/storage/cleanup" then Done (StorageCleanup body)
  else remaining_route get path.

Definition route (request : HttpRequest) : Result Call :=
  let path := request_path request in
  let get := str_eqb (method request) "GET" in
  let post := str_eqb (method request) "POST" in
  let body := body request in
  if get && str_eqb path "/api/status" then Done Status
  else if get && str_eqb path "/api/camera/front.jpg" then Done Camera
  else if get && str_eqb path "/api/camera-calibration/status" then Done CalibrationStatus
  else if get && str_eqb path "/api/camera-calibration/preview.jpg" then Done (CalibrationImage false)
  else if get && str_eqb path "/api/camera-calibration/undistorted.jpg" then Done (CalibrationImage true)
  else if str_prefix "/api/camera-calibration/" path then guarded request (calibration_route post path body)
  else if get && str_eqb path "/api/pipeline/live" then Done PipelineLive
  else if get && str_eqb path "/api/teleop/status" then Done TeleopStatus
  else if str_prefix "/api/teleop/" path then guarded request (teleop_route post path body)
  else if get && str_eqb path "/api/pipeline/history" then Done PipelineHistory
  else if get && str_eqb path "/api/active-debug/session" then Done ActiveDebugGet
  else if post && str_eqb path "/api/active-debug/sessions" then guarded request (Done (ActiveDebugCreate body))
  else if post && str_prefix "/api/active-debug/session/" path then
    guarded request (Done (ActiveDebugControl (str_drop 26 path)))
  else if get && str_eqb path "/api/components" then Done ComponentsList
  else if get && str_eqb path "/api/storage" then Done StorageStatus
  else if get && str_eqb path "/api/datasets" then Done DatasetCatalog
  else if get && str_prefix "/api/datasets/detail/" path then Done (DatasetDetail (url_decode (str_drop 21 path)))
  else if get && str_prefix "/api/datasets/download/" path then
    guarded request (Done (DatasetDownload (url_decode (str_drop 23 path))))
  else if post && str_eqb path "/api/datasets/review" then guarded request (Done (DatasetReview body))
  else if get && str_eqb path "/api/models" then Done ModelsCatalog
  else if get && str_eqb path "/api/mobility/plugins" then Done MobilityPlugins
  else if get && str_prefix "/api/storage/items/" path then guarded request (Done (StorageItems (str_drop 19 path)))
  else if str_prefix "/api/components/" path && (20 <? String.length path)%nat && ends_with "/log" path then
    guarded request (Done (ComponentLog (str_take (String.length path - 20) (str_drop 16 path))))
  else if post && (str_eqb path "/api/components/control" || str_eqb path "/api/profiles/control") then
    guarded request (Done (if str_eqb path "/api/components/control" then ComponentControl body else ProfileControl body))
  else if str_prefix "/api/vla-debug/" path then guarded request (debug_route get post path body)
  else if str_eqb path "/api/jobs" || str_prefix "/api/jobs/" path then guarded request (jobs_route get post path body)
  else if post then guarded request (post_route get path body)
  else remaining_route get path.
End Routing.

(** [handle_client]: what is sent, given the answers of the handlers *)
Definition handle_client (token_ : string) (limit_ : Z) (handle : Call -> Result HttpResponse)
    (input : list Received) : HttpResponse :=
  match (let? request := read_request limit_ input in
         let? call := route token_ request in
         match call with Reply r => Done r | _ => handle call end) with
  | Done r => r
  | Raised (LengthError what) => error 413 what
  | Raised e => error 400 (what e)
  end.

(** the handlers that anyone may call; they change nothing *)
Definition is_public (c : Call) : bool :=
  match c with
  | Reply _ | Status | Camera | CalibrationStatus | CalibrationImage _ | PipelineLive | PipelineHistory
  | TeleopStatus | ActiveDebugGet | ComponentsList | StorageStatus | DatasetCatalog | DatasetDetail _
  | ModelsCatalog | MobilityPlugins | StaticFile _ => true
  | _ => false
  end.

Lemma guarded_done token_ request k c :
  guarded token_ request k = Done c -> is_public c = false ->
  k = Done c /\ token_ <> ""%string /\ headers request !! "x-ops-token"%string = Some token_.
Proof.
  unfold guarded, authorize. destruct (str_empty token_) eqn:Et; [intros [= <-] Hp; done|].
  destruct (headers request !! _) as [given|]; [|intros [= <-] Hp; done].
  destruct (str_eqb given token_) eqn:Eg; [|intros [= <-] Hp; done].
  apply str_eqb_spec in Eg as ->. intros -> _. split_and!; [done| |done]. intros ->. done.
Qed.

(** the handlers that change something: the vehicle, a process, a file *)
Definition acts (c : Call) : bool :=
  match c with
  | CalibrationStart _ | CalibrationCapture | CalibrationCompute | CalibrationApply _ | CalibrationReset
  | TeleopAcquire _ | TeleopCommand _ | TeleopRelease _ | ActiveDebugCreate _ | ActiveDebugControl _
  | ComponentControl _ | ProfileControl _ | StorageCleanup _ | DatasetReview _
  | EnterShadowMode | EnterSingleStepMode | DebugCapture _ | DebugRun _ | JobsCreate _ | JobCancel _
  | Task _ | StartEpisode _ | StopEpisode _ | SafeStop _ => true
  | _ => false
  end.

Lemma acts_not_public c : acts c = true -> is_public c = false.
Proof. by destruct c. Qed.

(** walk through the tests of a route *)
Ltac walk E :=
  repeat match type of E with (if ?b then _ else _) = _ => destruct b eqn:? end.

Lemma calibration_post post path body c :
  calibration_route post path body = Done c -> acts c = true -> post = true.
Proof. unfold calibration_route. intros E Ha. by destruct post; [|injection E as <-]. Qed.

Lemma teleop_post post path body c : teleop_route post path body = Done c -> acts c = true -> post = true.
Proof. unfold teleop_route. intros E Ha. by destruct post; [|injection E as <-]. Qed.

Lemma debug_post get post path body c :
  debug_route get post path body = Done c -> acts c = true -> post = true.
Proof.
  unfold debug_route, debug_unsupported. intros E Ha. destruct post; [done|]. cbn [andb] in E.
  destruct (get && _); [destruct (str_find _ _)|]; by injection E as <-.
Qed.

Lemma jobs_post get post path body c : jobs_route get post path body = Done c -> acts c = true -> post = true.
Proof.
  unfold jobs_route. intros E Ha. destruct post; [done|]. cbn [andb] in E.
  destruct (get && _); [by injection E as <-|].
  apply rbind_done in E as (remainder & _ & E). destruct (str_find _ _); walk E; by injection E as <-.
Qed.

Lemma remaining_public get path c : remaining_route get path = Done c -> is_public c = true.
Proof. unfold remaining_route. destruct get; by intros [= <-]. Qed.

Lemma route_guarded token_ request c :
  route token_ request = Done c -> is_public c = false ->
  token_ <> ""%string /\ headers request !! "x-ops-token"%string = Some token_ /\
  (acts c = true -> method request = "POST"%string).
Proof.
  unfold route. intros E Hp. rewrite <- (str_eqb_spec (method request) "POST").
  destruct (str_eqb (method request) "POST") eqn:Epost; cbn [andb] in E;
  repeat match type of E with (if ?b then _ else _) = _ =>
    destruct b; [first [apply guarded_done in E; [|done]; destruct E as (E & ? & ?);
                        split_and!; [done|done|]; intros Ha; first
                          [done | injection E as <-; done | by apply (calibration_post _ _ _ _ E)
                          |by apply (teleop_post _ _ _ _ E)|by apply (debug_post _ _ _ _ _ E)
                          |by apply (jobs_post _ _ _ _ _ E)]
                       | injection E as <-; done]|] end.
  - apply guarded_done in E as (_ & ? & ?); [by split_and!|done].
  - apply remaining_public in E. congruence.
Qed.

(** C12: Whoever reaches a handler other than those that only show something has
    the token of the operator: every call that can move the vehicle, change its
    mode, record, start or stop a job or a component, write or delete a file, or
    read a log, a debug image, an archive or the list of jobs, comes from a
    request whose [x-ops-token] header is the configured token, which is not
    empty; and what changes something is a POST. *)
Theorem only_operators_act token_ request c :
  route token_ request = Done c -> is_public c = false ->
  token_ <> ""%string /\ headers request !! "x-ops-token"%string = Some token_ /\
  (acts c = true -> method request = "POST"%string).
Proof. apply route_guarded. Qed.

(** ** The request does not depend on how TCP cuts it *)

(** [input] gives [s] and nothing else, in pieces, until the peer closes *)
Inductive delivers : list Received -> string -> Prop :=
| delivers_end : delivers [] ""
| delivers_closed r : delivers (Bytes "" :: r) ""
| delivers_interrupted r s : delivers r s -> delivers (Interrupted :: r) s
| delivers_bytes chunk r s : chunk <> ""%string -> delivers r s -> delivers (Bytes chunk :: r) (chunk ++ s).

Lemma str_append_empty s : (s ++ "")%string = s.
Proof. induction s as [|c s IH]; [done|]. by rewrite append_cons, IH. Qed.

Lemma receive_until_delivers {A} limit incomplete (found : string -> option A) data input s :
  delivers input s -> Z.of_nat (String.length (data ++ s)%string) <= limit ->
  (forall d r, (data ++ s)%string = (d ++ r)%string -> found d = None \/ found d = found (data ++ s)%string) ->
  match found (data ++ s)%string with
  | Some a => exists d s' rest, receive_until limit incomplete found data input = Done (a, d, rest) /\
      (data ++ s)%string = (d ++ s')%string /\ delivers rest s' /\ found d = Some a
  | None => receive_until limit incomplete found data input = Raised (RuntimeError incomplete)
  end.
Proof.
  intros Hd. revert data. induction Hd as [|r|r s Hd IH|chunk r s Hne Hd IH]; intros data Hl Hf.
  - rewrite str_append_empty in *. simpl. destruct (found data) as [a|] eqn:E; [|done].
    exists data, ""%string, []. rewrite str_append_empty. split_and!; try done. constructor.
  - rewrite str_append_empty in *. simpl. destruct (found data) as [a|] eqn:E; [|done].
    exists data, ""%string, (Bytes "" :: r). rewrite str_append_empty. split_and!; try done. constructor.
  - simpl. destruct (Hf data s eq_refl) as [->|E]; [by apply IH|].
    destruct (found data) as [a|] eqn:E'; rewrite <- E.
    + exists data, s, (Interrupted :: r). split_and!; try done. by constructor.
    + specialize (IH data Hl Hf). by rewrite <- E in IH.
  - assert (Hstop : forall a, found data = Some a -> found (data ++ chunk ++ s)%string = Some a).
    { intros a E. destruct (Hf data (chunk ++ s)%string eq_refl); congruence. }
    cbn [receive_until]. destruct (found data) as [a|] eqn:E.
    + rewrite (Hstop a eq_refl). exists data, (chunk ++ s)%string, (Bytes chunk :: r).
      split_and!; try done. by constructor.
    + unfold receive. rewrite (proj2 (Z.ltb_ge _ _)).
      2:{ rewrite !length_append in *. lia. }
      destruct chunk as [|x chunk']; [done|]. cbn [str_empty rbind].
      specialize (IH (data ++ String x chunk')%string).
      rewrite string_app_assoc in IH. apply IH; [done|]. intros d r' Hdr. by apply (Hf d r').
Qed.

(** The reference: the request a whole text is, with headers that end in an empty
    line of CR LF. *)
Definition parse_request (limit : Z) (text : string) : Result HttpRequest :=
  match str_find crlf2 text with
  | None => Raised (RuntimeError "Incomplete request")
  | Some header_end =>
      let? (method, target, headers) := parse_head (str_take header_end text) in
      let? length := content_length headers in
      let? _ := check (length <=? limit) (LengthError "Body too large") in
      let rest := str_drop (header_end + 4) text in
      if Z.of_nat (String.length rest) <? length then Raised (RuntimeError "Incomplete body")
      else Done (MakeRequest method target headers (str_take (Z.to_nat length) rest))
  end.

(** no empty line without its CR, before the end of the headers *)
Definition no_bare_newlines (text : string) : Prop :=
  match str_find crlf2 text with
  | Some i => str_find lf2 (str_take (i + 4) text) = None
  | None => str_find lf2 text = None
  end.

Lemma length_crlf2 : String.length crlf2 = 4%nat.
Proof. done. Qed.

Lemma str_take_length s : str_take (String.length s) s = s.
Proof. induction s as [|c s IH]; [done|]. simpl. by rewrite IH. Qed.

(** a part of the text has the same end of the headers as the text, or none *)
Lemma header_end_prefix text d r :
  no_bare_newlines text -> text = (d ++ r)%string ->
  find_header_end d = None \/ find_header_end d = find_header_end text.
Proof.
  unfold no_bare_newlines, find_header_end. intros Hn E.
  destruct (str_find crlf2 text) as [i|] eqn:Ei; rewrite E in Ei.
  - destruct (le_lt_dec (i + 4) (String.length d)) as [Hle|Hlt].
    + destruct (str_find crlf2 d) as [k|] eqn:Ek.
      * apply (find_app _ _ r) in Ek. rewrite Ei in Ek. injection Ek as ->. by right.
      * exfalso. pose proof (find_within crlf2 d r i Ei) as Hw. rewrite length_crlf2 in Hw.
        rewrite Hw in Ek by lia. done.
    + rewrite (find_before crlf2 d r i Ei) by (rewrite length_crlf2; lia). left.
      rewrite E in Hn.
      assert (Hd : (str_take (i + 4) (d ++ r))%string = (d ++ str_take (i + 4 - String.length d) r)%string)
        by (apply str_take_beyond; lia).
      rewrite Hd in Hn. by rewrite (find_app_none _ _ _ Hn).
  - left. rewrite E in Hn. by rewrite (find_app_none _ _ _ Ei), (find_app_none _ _ _ Hn).
Qed.

(** C13: For a text whose header lines end in CR LF and which is no longer than
    the limit, the request that is read is the one of [parse_request], however
    the text is cut into segments and however often a call is interrupted: also
    when it is incomplete or malformed, with the same error.  (A longer text can
    be answered [Request too large] or not, depending on the cut.) *)
Theorem request_is_the_stream limit_ input text :
  delivers input text -> no_bare_newlines text ->
  Z.of_nat (String.length text) <= wrap64 limit_ ->
  read_request limit_ input = parse_request (wrap64 limit_) text.
Proof.
  intros Hd Hn Hl. unfold read_request, parse_request.
  pose proof (receive_until_delivers (wrap64 limit_) "Incomplete request" find_header_end "" input text Hd Hl
    (fun d r => header_end_prefix text d r Hn)) as Hhead.
  change ("" ++ text)%string with text in Hhead.
  assert (Hfe : find_header_end text = option_map (fun i => (i, 4%nat)) (str_find crlf2 text)).
  { unfold find_header_end. unfold no_bare_newlines in Hn. destruct (str_find crlf2 text); [done|]. by rewrite Hn. }
  rewrite Hfe in Hhead. destruct (str_find crlf2 text) as [i|] eqn:Ei; simpl in Hhead; [|by rewrite Hhead].
  destruct Hhead as (d & s' & rest & -> & Etext & Hrest & Hfd). cbn [rbind].
  assert (Hi : (i + 4 <= String.length d)%nat).
  { unfold find_header_end in Hfd. destruct (str_find crlf2 d) as [k|] eqn:Ek.
    - injection Hfd as <-. apply find_length in Ek. by rewrite length_crlf2 in Ek.
    - destruct (str_find lf2 d); simplify_eq. }
  rewrite Etext, str_take_app by lia.
  destruct (parse_head (str_take i d)) as [[[m t] h]|e]; [|done]. cbn [rbind].
  destruct (content_length h) as [n|e]; [|done]. cbn [rbind].
  destruct (n <=? wrap64 limit_); [|done]. cbn [check rbind].
  set (found := fun data : string => if Z.of_nat (String.length data - (i + 4)) <? n then None else Some tt).
  pose proof (receive_until_delivers (wrap64 limit_) "Incomplete body" found d rest s' Hrest) as Hbody.
  rewrite Etext in Hl. specialize (Hbody Hl).
  rewrite str_drop_app by lia. rewrite length_append, length_drop_text.
  assert (Hdec : found (d ++ s')%string =
    if Z.of_nat (String.length d - (i + 4) + String.length s') <? n then None else Some tt).
  { unfold found. rewrite length_append.
    by replace (String.length d + String.length s' - (i + 4))%nat
      with (String.length d - (i + 4) + String.length s')%nat by lia. }
  rewrite Hdec in Hbody.
  destruct (Z.ltb_spec (Z.of_nat (String.length d - (i + 4) + String.length s')) n) as [Hlt|Hge].
  - rewrite Hbody; [done|]. intros d' r E. unfold found.
    assert (String.length d' <= String.length d + String.length s')%nat.
    { apply (f_equal String.length) in E. rewrite !length_append in E. lia. }
    left. by rewrite (proj2 (Z.ltb_lt _ _)) by lia.
  - destruct Hbody as (d2 & s2 & rest2 & -> & E2 & _ & Hf2).
    { intros d' r E. unfold found. destruct (_ <? n); auto. }
    cbn [rbind]. do 2 f_equal. unfold found in Hf2.
    destruct (Z.ltb_spec (Z.of_nat (String.length d2 - (i + 4))) n) as [|Hge2]; [done|].
    destruct (Z.to_nat n) as [|k] eqn:Ek; [done|].
    rewrite <- (str_take_app (S k) (str_drop (i + 4) d2) s2) by (rewrite length_drop_text; lia).
    rewrite <- str_drop_app by lia. by rewrite <- E2, str_drop_app by lia.
Qed.

(** a bare empty line ends the headers only if no CR LF one has arrived with it:
    the same bytes in one or in two segments are two requests *)
Definition stray_request : string :=
  ("GET /api/status HTTP/1.1" ++ crlf ++ "X-A: 1" ++ lf2 ++ "X-Ops-Token: t" ++ crlf2)%string.
Lemma bare_newlines_depend_on_segments :
  option_map (fun m : gmap string string => m !! "x-ops-token"%string)
    (match read_request 1048576 [Bytes stray_request] with Done r => Some (headers r) | Raised _ => None end) =
    Some (Some "t"%string) /\
  option_map (fun m : gmap string string => m !! "x-ops-token"%string)
    (match read_request 1048576 [Bytes (str_take 34 stray_request); Bytes (str_drop 34 stray_request)] with
     | Done r => Some (headers r) | Raised _ => None end) = Some None.
Proof. vm_compute. done. Qed.

(** ** Base64 and percent encoding read back *)

(** the reference encoder of RFC 4648 *)
Definition base64_char (p : Z) : ascii :=
  if p <? 26 then char (p + 65) else if p <? 52 then char (p + 71) else if p <? 62 then char (p - 4)
  else if p =? 62 then char 43 else char 47.

Fixpoint encode_base64 (data : list Z) : string :=
  match data with
  | a :: b :: c :: r =>
      String (base64_char (a / 4)) (String (base64_char (a mod 4 * 16 + b / 16))
        (String (base64_char (b mod 16 * 4 + c / 64)) (String (base64_char (c mod 64)) (encode_base64 r))))
  | [a; b] =>
      String (base64_char (a / 4)) (String (base64_char (a mod 4 * 16 + b / 16))
        (String (base64_char (b mod 16 * 4)) "="))
  | [a] => String (base64_char (a / 4)) (String (base64_char (a mod 4 * 16)) "==")
  | [] => ""
  end.

Lemma base64_char_position p :
  0 <= p < 64 ->
  is_space (base64_char p) = false /\ Ascii.eqb (base64_char p) "=" = false /\
  base64_position (base64_char p) = Some p.
Proof.
  intros Hp.
  assert (H : forallb (fun n => let c := base64_char (Z.of_nat n) in
    negb (is_space c) && negb (Ascii.eqb c "=") &&
    match base64_position c with Some q => q =? Z.of_nat n | None => false end) (seq 0 64) = true)
    by (vm_compute; reflexivity).
  rewrite forallb_forall in H. specialize (H (Z.to_nat p)). rewrite Z2Nat.id in H by lia.
  assert (Hin : In (Z.to_nat p) (seq 0 64)) by (apply in_seq; lia). specialize (H Hin). cbv zeta in H.
  destruct (is_space _), (Ascii.eqb _ _); try done. destruct (base64_position _) as [q|]; [|done].
  simpl in H. apply Z.eqb_eq in H as ->. done.
Qed.

(** one character, with the arithmetic of the accumulator *)
Lemma decode_step p r acc bits :
  0 <= p < 64 -> 0 <= acc < 2 ^ 6 -> 
  decode_loop (String (base64_char p) r) acc bits =
    if 8 <=? bits + 6 then
      let? output := decode_loop r
        (Z.land (acc * 64 + p) (if bits + 6 - 8 =? 0 then 0 else Z.shiftl 1 (bits + 6 - 8) - 1)) (bits + 6 - 8) in
      Done (Z.land (Z.shiftr (acc * 64 + p) (bits + 6 - 8)) 255 :: output)
    else decode_loop r (acc * 64 + p) (bits + 6).
Proof.
  intros Hp Hacc. destruct (base64_char_position p Hp) as (H1 & H2 & H3).
  cbn [decode_loop]. rewrite H1, H2, H3. cbv zeta.
  assert (Z.lor (wrap32 (Z.shiftl acc 6)) p = acc * 64 + p) as ->; [|done].
  rewrite Z.shiftl_mul_pow2 by lia. change (2 ^ 6) with 64.
  unfold wrap32, wrap. rewrite Z.mod_small by lia.
  symmetry. rewrite Z.add_nocarry_lxor, Z.lxor_lor; try done.
  all: apply Z.bits_inj'; intros n Hn; rewrite Z.land_spec, Z.bits_0; change 64 with (2 ^ 6).
  all: destruct (Z.ltb_spec n 6); [rewrite Z.mul_pow2_bits_low by lia; done|].
  all: rewrite (Z.bits_above_log2 p), andb_false_r; [done|lia|].
  all: destruct (Z.eq_dec p 0) as [->|]; [simpl; lia|].
  all: assert (Z.log2 p < 6) by (apply Z.log2_lt_pow2; lia); lia.
Qed.

Ltac div_lia := Z.div_mod_to_equations; lia.

Lemma land_255 x : Z.land x 255 = x mod 256.
Proof. change 255 with (Z.ones 8). by rewrite Z.land_ones. Qed.
Lemma land_15 x : Z.land x 15 = x mod 16.
Proof. change 15 with (Z.ones 4). by rewrite Z.land_ones. Qed.
Lemma land_3 x : Z.land x 3 = x mod 4.
Proof. change 3 with (Z.ones 2). by rewrite Z.land_ones. Qed.

(** the states of the loop between the characters of a group *)
Lemma decode_first p r : 0 <= p < 64 -> decode_loop (String (base64_char p) r) 0 0 = decode_loop r p 6.
Proof. intros Hp. rewrite decode_step by lia. done. Qed.

Lemma decode_second p q r :
  0 <= p < 64 -> 0 <= q < 64 ->
  decode_loop (String (base64_char q) r) p 6 =
    rbind (decode_loop r (q mod 16) 4) (fun output => Done ((p * 4 + q / 16) :: output)).
Proof.
  intros Hp Hq. rewrite decode_step by lia. change (8 <=? 6 + 6) with true. cbv iota.
  change (6 + 6 - 8) with 4. change (Z.shiftl 1 4 - 1) with 15. cbn [Z.eqb].
  rewrite land_15, land_255, Z.shiftr_div_pow2 by lia. change (2 ^ 4) with 16.
  replace ((p * 64 + q) mod 16) with (q mod 16) by div_lia.
  by replace ((p * 64 + q) / 16 mod 256) with (p * 4 + q / 16) by div_lia.
Qed.

Lemma decode_third p q r :
  0 <= p < 16 -> 0 <= q < 64 ->
  decode_loop (String (base64_char q) r) p 4 =
    rbind (decode_loop r (q mod 4) 2) (fun output => Done ((p * 16 + q / 4) :: output)).
Proof.
  intros Hp Hq. rewrite decode_step by lia. change (8 <=? 4 + 6) with true. cbv iota.
  change (4 + 6 - 8) with 2. change (Z.shiftl 1 2 - 1) with 3. cbn [Z.eqb].
  rewrite land_3, land_255, Z.shiftr_div_pow2 by lia. change (2 ^ 2) with 4.
  replace ((p * 64 + q) mod 4) with (q mod 4) by div_lia.
  by replace ((p * 64 + q) / 4 mod 256) with (p * 16 + q / 4) by div_lia.
Qed.

Lemma decode_fourth p q r :
  0 <= p < 4 -> 0 <= q < 64 ->
  decode_loop (String (base64_char q) r) p 2 =
    rbind (decode_loop r 0 0) (fun output => Done ((p * 64 + q) :: output)).
Proof.
  intros Hp Hq. rewrite decode_step by lia. change (8 <=? 2 + 6) with true. cbv iota.
  change (2 + 6 - 8) with 0. cbn [Z.eqb]. rewrite Z.land_0_r, land_255, Z.shiftr_0_r.
  by rewrite Z.mod_small by lia.
Qed.

Definition is_byte (a : Z) : Prop := 0 <= a < 256.

Lemma decode_padding r acc bits : decode_loop (String "=" r) acc bits = Done [].
Proof. done. Qed.

Lemma decode_loop_encode data : Forall is_byte data -> decode_loop (encode_base64 data) 0 0 = Done data.
Proof.
  remember (List.length data) as n eqn:En. revert data En.
  induction n as [n IH] using (well_founded_induction lt_wf). intros data -> Hb. unfold is_byte in Hb.
  destruct data as [|a [|b [|c r]]]; [done|..].
  - inversion Hb; subst. cbn [encode_base64].
    rewrite decode_first, decode_second, decode_padding by div_lia. cbn [rbind].
    by replace (a / 4 * 4 + a mod 4 * 16 / 16) with a by div_lia.
  - inversion Hb as [|? ? ? Hb']; inversion Hb'; subst. cbn [encode_base64].
    rewrite decode_first, decode_second, decode_third, decode_padding by div_lia. cbn [rbind].
    do 2 f_equal; [div_lia|]. f_equal. div_lia.
  - inversion Hb as [|? ? ? Hb']; inversion Hb' as [|? ? ? Hb'']; inversion Hb''; subst. cbn [encode_base64].
    rewrite decode_first, decode_second, decode_third, decode_fourth by div_lia.
    rewrite (IH (List.length r)) by (simpl; lia || done). cbn [rbind].
    do 2 f_equal; [div_lia|]. f_equal; [div_lia|]. f_equal. div_lia.
Qed.

Lemma length_encode_base64 data :
  String.length (encode_base64 data) = (4 * ((List.length data + 2) / 3))%nat.
Proof.
  remember (List.length data) as n eqn:En. revert data En.
  induction n as [n IH] using (well_founded_induction lt_wf). intros data ->.
  destruct data as [|a [|b [|c r]]]; [done..|].
  cbn [encode_base64 String.length List.length].
  rewrite (IH (List.length r)) by (simpl; lia || done).
  replace (S (S (S (List.length r))) + 2)%nat with (List.length r + 2 + 1 * 3)%nat by lia.
  rewrite Nat.div_add by lia. lia.
Qed.

(** An uploaded image reads back: what the standard base64 encoding writes
    for up to 675000 bytes, [decode_base64] accepts and decodes to the same
    bytes. *)
Theorem decode_base64_encode data :
  Forall is_byte data -> (List.length data <= Z.to_nat 675000)%nat ->
  decode_base64 (encode_base64 data) = Done data.
Proof.
  intros Hb Hl. unfold decode_base64. pose proof (length_encode_base64 data) as He.
  assert (Hz : Z.of_nat (List.length data) <= 675000) by lia.
  rewrite (proj2 (Z.leb_le _ _)).
  - cbn [check rbind]. rewrite decode_loop_encode by done. cbn [rbind].
    rewrite (proj2 (Z.leb_le _ _)) by lia. done.
  - rewrite He, Nat2Z.inj_mul, Nat2Z.inj_div, Nat2Z.inj_add. div_lia.
Qed.

(** percent encoding of every byte *)
Definition url_encode_char (c : ascii) : string :=
  String "%" (String (digit_char (code c / 16)) (String (digit_char (code c mod 16)) "")).
Fixpoint url_encode (s : string) : string :=
  match s with EmptyString => "" | String c r => url_encode_char c ++ url_encode r end.

Lemma url_decode_char c r : url_decode (url_encode_char c ++ r) = String c (url_decode r).
Proof.
  assert (Hc : stoi_hex (String (digit_char (code c / 16)) (String (digit_char (code c mod 16)) "")) = Some (code c) /\
               to_char (code c) = c).
  { by destruct c as [[] [] [] [] [] [] [] []]; vm_compute. }
  destruct Hc as [Hc Ht]. unfold url_encode_char. rewrite !append_cons.
  cbn [url_decode]. rewrite Hc, Ht. by cbn.
Qed.

Lemma url_decode_encode s : url_decode (url_encode s) = s.
Proof. induction s as [|c s IH]; [done|]. cbn [url_encode]. by rewrite url_decode_char, IH. Qed.

(** ** Every endpoint is reached *)

(** the endpoints of the interface, with what they do with the body *)
Definition endpoints : list (string * string * (string -> Call)) :=
  [("GET", "/api/status", fun _ => Status); ("GET", "/api/camera/front.jpg", fun _ => Camera);
   ("GET", "/api/camera-calibration/status", fun _ => CalibrationStatus);
   ("GET", "/api/camera-calibration/preview.jpg", fun _ => CalibrationImage false);
   ("GET", "/api/camera-calibration/undistorted.jpg", fun _ => CalibrationImage true);
   ("POST", "/api/camera-calibration/start", CalibrationStart);
   ("POST", "/api/camera-calibration/capture", fun _ => CalibrationCapture);
   ("POST", "/api/camera-calibration/compute", fun _ => CalibrationCompute);
   ("POST", "/api/camera-calibration/apply", CalibrationApply);
   ("POST", "/api/camera-calibration/reset", fun _ => CalibrationReset);
   ("GET", "/api/pipeline/live", fun _ => PipelineLive); ("GET", "/api/teleop/status", fun _ => TeleopStatus);
   ("POST", "/api/teleop/acquire", TeleopAcquire); ("POST", "/api/teleop/command", TeleopCommand);
   ("POST", "/api/teleop/release", TeleopRelease); ("GET", "/api/pipeline/history", fun _ => PipelineHistory);
   ("GET", "/api/active-debug/session", fun _ => ActiveDebugGet);
   ("POST", "/api/active-debug/sessions", ActiveDebugCreate);
   ("POST", "/api/active-debug/session/pause", fun _ => ActiveDebugControl "pause");
   ("POST", "/api/active-debug/session/resume", fun _ => ActiveDebugControl "resume");
   ("POST", "/api/active-debug/session/stop", fun _ => ActiveDebugControl "stop");
   ("GET", "/api/components", fun _ => ComponentsList); ("GET", "/api/storage", fun _ => StorageStatus);
   ("GET", "/api/datasets", fun _ => DatasetCatalog); ("POST", "/api/datasets/review", DatasetReview);
   ("GET", "/api/models", fun _ => ModelsCatalog); ("GET", "/api/mobility/plugins", fun _ => MobilityPlugins);
   ("POST", "/api/components/control", ComponentControl); ("POST", "/api/profiles/control", ProfileControl);
   ("POST", "/api/vla-debug/enter-shadow", fun _ => EnterShadowMode);
   ("POST", "/api/vla-debug/enter-single-step", fun _ => EnterSingleStepMode);
   ("POST", "/api/vla-debug/capture", DebugCapture); ("POST", "/api/vla-debug/run", DebugRun);
   ("POST", "/api/jobs", JobsCreate); ("GET", "/api/jobs", fun _ => JobsList);
   ("POST", "/api/task", Task); ("POST", "/api/episode/start", StartEpisode);
   ("POST", "/api/episode/stop", StopEpisode); ("POST", "/api/safe-stop", SafeStop);
   ("POST", "/api/storage/cleanup", StorageCleanup);
   ("GET", "/", fun _ => StaticFile "/"); ("GET", "/teleop", fun _ => StaticFile "/teleop")]%string.

(** With the token of the operator every endpoint reaches its handler with
    the body of the request, whatever the query; without it the handler is
    reached exactly when it only shows something. *)
Theorem endpoints_are_reached m p call query token_ request :
  (m, p, call) ∈ endpoints -> method request = m ->
  target request = (p ++ (if str_empty query then "" else "?" ++ query))%string ->
  route token_ request =
    match authorize token_ request with
    | Some denied => if is_public (call (body request)) then Done (call (body request)) else Done (Reply denied)
    | None => Done (call (body request))
    end.
Proof.
  intros Hin Hm Ht.
  assert (Hp : request_path request = p).
  { unfold request_path. rewrite Ht.
    assert (Hnone : str_find "?" p = None).
    { apply list_elem_of_In in Hin. unfold endpoints in Hin. cbn [In] in Hin.
      repeat (destruct Hin as [[= _ <- _]|Hin]; [reflexivity|]). done. }
    destruct (str_empty query).
    - by rewrite str_append_empty, Hnone.
    - change ("?" ++ query)%string with (String "?" query).
      rewrite (find_first_char "?" p query Hnone). by apply str_take_app_length. }
  clear Ht. unfold route. rewrite Hp, Hm. unfold guarded.
  apply list_elem_of_In in Hin. unfold endpoints in Hin. cbn [In] in Hin.
  repeat (destruct Hin as [[= <- <- <-]|Hin]; [cbn; by destruct (authorize token_ request)|]).
  done.
Qed.

(** ** Sending *)

(** what [send] was told is sent is what it takes from the data *)
Fixpoint sent_bytes (answers : list Sent) : nat :=
  match answers with
  | SendInterrupted :: r => sent_bytes r
  | Count (S n) :: r => S n + sent_bytes r
  | _ => 0
  end.

Lemma str_take_drop n m s : (str_take n s ++ str_take m (str_drop n s))%string = str_take (n + m) s.
Proof.
  revert s; induction n as [|n IH]; intros s; [done|]. destruct s as [|c s]; [by destruct m|].
  cbn [str_take str_drop Nat.add]. rewrite append_cons. by rewrite IH.
Qed.

Lemma str_take_empty n : str_take n "" = ""%string.
Proof. by destruct n. Qed.

Lemma send_all_prefix data answers :
  fst (send_all data answers) = str_take (sent_bytes answers) data.
Proof.
  revert data. induction answers as [|[[|n]| |] r IH]; intros data; cbn [send_all sent_bytes];
    destruct (str_empty data) eqn:Ed; try (apply str_empty_spec in Ed as ->; by rewrite str_take_empty); try done.
  rewrite <- (str_take_drop (S n)), <- IH. by destruct (send_all (str_drop (S n) data) r).
Qed.

(** ** Witnesses *)
Definition demo_request : HttpRequest :=
  MakeRequest "POST" "/api/safe-stop?x=1" {["x-ops-token" := "secret"]} "ops"%string.

Lemma only_operators_act_witness :
  "secret"%string <> ""%string /\ headers demo_request !! "x-ops-token"%string = Some "secret"%string /\
  (acts (SafeStop "ops") = true -> method demo_request = "POST"%string).
Proof. apply (only_operators_act "secret" demo_request (SafeStop "ops")); reflexivity. Defined.

Lemma endpoints_are_reached_witness :
  route "" demo_request = Done (Reply (error 503 "Write operations are disabled")).
Proof.
  refine (endpoints_are_reached "POST" "/api/safe-stop" SafeStop "x=1" "" demo_request _ _ _);
    [unfold endpoints; repeat (first [apply list_elem_of_here|apply list_elem_of_further])|reflexivity|reflexivity].
Defined.

Definition demo_text : string :=
  ("POST /api/task HTTP/1.1" ++ crlf ++ "Content-Length: 4" ++ crlf2 ++ "dock")%string.

Lemma request_is_the_stream_witness :
  read_request 1048576 [Bytes (str_take 30 demo_text); Interrupted; Bytes (str_drop 30 demo_text)] =
  parse_request (wrap64 1048576) demo_text.
Proof.
  apply request_is_the_stream.
  - change demo_text with (str_take 30 demo_text ++ (str_drop 30 demo_text ++ ""))%string at 3.
    repeat (constructor; try discriminate).
  - vm_compute. reflexivity.
  - vm_compute. discriminate.
Defined.

Lemma decode_base64_encode_witness : decode_base64 (encode_base64 [255; 216; 255; 224]) = Done [255; 216; 255; 224].
Proof.
  apply decode_base64_encode.
  - repeat constructor; vm_compute; (discriminate || reflexivity).
  - apply Nat2Z.inj_le. rewrite Z2Nat.id by (intros Hlt; discriminate Hlt). intros Hgt. discriminate Hgt.
Defined.
