(* ===== verification/HttpServer.v ===== *)
(** * The threads of the HTTP server

    Models [server_loop], [worker_loop], [start_server]'s limits and the
    destructor of [vehicle_ops/src/vehicle_ops_api_node.cpp]: one thread accepts
    connections and queues them, [http_worker_count_] workers take them from the
    queue.  A critical section of [client_queue_mutex_] is one event; only the
    wait on the condition variable is two, because a notification that comes
    without the mutex can fall between the test of the predicate and the block.
    A blocked worker goes on when it is notified; [Spurious] is the wake-up the
    standard allows and nobody can count on. *)
From S2P Require Import Prelude.
Local Open Scope nat_scope.

(** ** State *)
Inductive Worker :=
| Testing                    (* before the predicate of [wait] *)
| Deciding                   (* the predicate was false; the mutex is held *)
| Blocked                    (* in the condition variable *)
| Serving (client : nat)     (* in [handle_client] *)
| Exited.

Inductive Acceptor :=
| Looping                    (* before [while (running_)] *)
| Accepting                  (* in [accept] *)
| Notifying                  (* a client was queued; before [notify_one] *)
| Stopped.

Inductive Destructor := Alive | Stopping | Closing | Joining | Destroyed.

Record Server := MakeServer {
  running_ : bool;
  client_queue_ : list nat;
  worker_threads_ : list Worker;
  thread_ : Acceptor;
  destructor : Destructor;
  accepted : list nat;       (* the clients that were queued, in order *)
  taken : list nat;          (* the clients the workers took, in order *)
  refused : list nat }.      (* the clients closed at once *)
#[export] Instance eta_server : Eta Server := fun s =>
  MakeServer (running_ s) (client_queue_ s) (worker_threads_ s) (thread_ s) (destructor s)
    (accepted s) (taken s) (refused s).

(** the limits of the constructor *)
Definition clamp (v lo hi : Z) : Z := if (v <? lo)%Z then lo else if (hi <? v)%Z then hi else v.
Definition worker_count (http_worker_count : Z) : Z := clamp http_worker_count 1 32.
Definition queue_limit (http_worker_count http_queue_limit : Z) : Z :=
  clamp http_queue_limit (worker_count http_worker_count) 256.

Definition start_server (workers : nat) : Server :=
  MakeServer true [] (replicate workers Testing) Looping Alive [] [] [].

(** ** Steps *)
Inductive Event :=
| Test (i : nat)                          (* worker [i] takes the mutex and tests *)
| Block (i : nat)                         (* it releases the mutex and blocks *)
| Spurious (i : nat)
| Finish (i : nat)                        (* [handle_client] returns *)
| Enter                                   (* the test of [while (running_)] *)
| Accept (client : nat)
| AcceptFails
| NotifyOne (i : option nat)              (* the worker that is woken, if any waits *)
| Stop | CloseSocket | NotifyAll | Join.

Definition mutex_free (s : Server) : bool :=
  forallb (fun w => match w with Deciding => false | _ => true end) (worker_threads_ s).
Definition set_worker (i : nat) (w : Worker) (s : Server) : Server :=
  s <| worker_threads_ := <[i := w]> (worker_threads_ s) |>.
Definition wake (w : Worker) : Worker := match w with Blocked => Testing | _ => w end.
Definition is_blocked (w : Worker) : bool := match w with Blocked => true | _ => false end.
Definition has_exited (w : Worker) : bool := match w with Exited => true | _ => false end.

(** the critical section of a worker: [wait] returns when the predicate holds *)
Definition take_client (i : nat) (s : Server) : Server :=
  match client_queue_ s with
  | client :: rest => set_worker i (Serving client) (s <| client_queue_ := rest |> <| taken := taken s ++ [client] |>)
  | [] => if running_ s then set_worker i Deciding s else set_worker i Exited s
  end.

(** the critical section of [server_loop] *)
Definition queue_client (limit client : nat) (s : Server) : Server :=
  if List.length (client_queue_ s) <? limit
  then s <| client_queue_ := client_queue_ s ++ [client] |> <| accepted := accepted s ++ [client] |>
         <| thread_ := Notifying |>
  else s <| refused := refused s ++ [client] |> <| thread_ := Looping |>.

Definition notify_one (i : option nat) (s : Server) : option Server :=
  match i with
  | Some i => match worker_threads_ s !! i with
              | Some Blocked => Some (set_worker i Testing s <| thread_ := Looping |>)
              | _ => None
              end
  | None => if existsb is_blocked (worker_threads_ s) then None else Some (s <| thread_ := Looping |>)
  end.

Definition next (limit : nat) (s : Server) (e : Event) : option Server :=
  match e with
  | Test i => match worker_threads_ s !! i with
              | Some Testing => if mutex_free s then Some (take_client i s) else None
              | _ => None
              end
  | Block i => match worker_threads_ s !! i with
               | Some Deciding => Some (set_worker i Blocked s)
               | _ => None
               end
  | Spurious i => match worker_threads_ s !! i with
                  | Some Blocked => Some (set_worker i Testing s)
                  | _ => None
                  end
  | Finish i => match worker_threads_ s !! i with
                | Some (Serving _) => Some (set_worker i Testing s)
                | _ => None
                end
  | Enter => match thread_ s with
             | Looping => Some (s <| thread_ := if running_ s then Accepting else Stopped |>)
             | _ => None
             end
  | Accept client => match thread_ s with
                     | Accepting => if mutex_free s then Some (queue_client limit client s) else None
                     | _ => None
                     end
  | AcceptFails => match thread_ s with
                   | Accepting => Some (s <| thread_ := if running_ s then Looping else Stopped |>)
                   | _ => None
                   end
  | NotifyOne i => match thread_ s with Notifying => notify_one i s | _ => None end
  | Stop => match destructor s with
            | Alive => Some (s <| running_ := false |> <| destructor := Stopping |>)
            | _ => None
            end
  | CloseSocket => match destructor s with
                   | Stopping => Some (s <| destructor := Closing |>)
                   | _ => None
                   end
  | NotifyAll => match destructor s with
                 | Closing => Some (s <| worker_threads_ := map wake (worker_threads_ s) |>
                                      <| destructor := Joining |>)
                 | _ => None
                 end
  | Join => match destructor s, thread_ s with
            | Joining, Stopped => if forallb has_exited (worker_threads_ s)
                                  then Some (s <| destructor := Destroyed |>) else None
            | _, _ => None
            end
  end.

Definition step (limit : nat) (s : Server) (e : Event) (s' : Server) (_ : list unit) : Prop := next limit s e = Some s'.

(** ** Invariants *)

(** A worker that will look at the queue without being notified. *)
Definition attentive (w : Worker) : bool := match w with Testing | Serving _ => true | _ => false end.

Record sound (limit : nat) (s : Server) : Prop := {
  fifo : taken s ++ client_queue_ s = accepted s;
  bounded : List.length (client_queue_ s) <= limit;
  has_workers : worker_threads_ s <> [];
  deciding_empty i : worker_threads_ s !! i = Some Deciding -> client_queue_ s = [];
  exited_stopped i : worker_threads_ s !! i = Some Exited -> running_ s = false;
  attended : running_ s = true -> client_queue_ s <> [] ->
    (exists i w, worker_threads_ s !! i = Some w /\ attentive w = true) \/ thread_ s = Notifying }.

Lemma start_sound limit n : 0 < n -> sound limit (start_server n).
Proof.
  intros Hn. split; simpl; try done; try lia.
  - by destruct n; [lia|].
  - by intros i [? _]%lookup_replicate_1.
Qed.

(** a worker moves to a place from which it looks at the queue again *)
Lemma sound_worker limit s i w :
  sound limit s -> is_Some (worker_threads_ s !! i) -> w <> Exited -> w <> Deciding ->
  (attentive w = true \/ client_queue_ s = []) -> sound limit (set_worker i w s).
Proof.
  intros S Hi He Hd Ha. split; simpl.
  - apply (fifo _ _ S).
  - apply (bounded _ _ S).
  - pose proof (has_workers _ _ S). by destruct (worker_threads_ s), i.
  - intros j. rewrite list_lookup_insert_Some. intros [(-> & ? & _)|[_ Hj]]; [done|].
    by eapply (deciding_empty _ _ S).
  - intros j. rewrite list_lookup_insert_Some. intros [(-> & ? & _)|[_ Hj]]; [done|].
    by eapply (exited_stopped _ _ S).
  - intros Hr Hq. left. destruct Ha as [Ha|?]; [|done]. exists i, w. split; [|done].
    apply list_lookup_insert_eq. by apply lookup_lt_is_Some_1.
Qed.

(** nothing the invariant speaks of changes but the acceptor, which is not the
    one that had to notify *)
Lemma sound_other limit s s' :
  sound limit s -> running_ s' = running_ s -> client_queue_ s' = client_queue_ s ->
  worker_threads_ s' = worker_threads_ s -> accepted s' = accepted s -> taken s' = taken s ->
  (thread_ s <> Notifying \/ thread_ s' = thread_ s) -> sound limit s'.
Proof.
  intros [] E1 E2 E3 E4 E5 E6. split; rewrite ?E1, ?E2, ?E3, ?E4, ?E5; try done.
  intros Hr Hq. destruct (attended0 Hr Hq) as [?|Hn]; [by left|].
  destruct E6 as [|E6]; [done|]. right. congruence.
Qed.

Lemma take_client_sound limit s i :
  sound limit s -> worker_threads_ s !! i = Some Testing -> mutex_free s = true -> sound limit (take_client i s).
Proof.
  intros S Hi Hm. assert (Hlt : i < List.length (worker_threads_ s)) by by eapply lookup_lt_Some.
  unfold take_client. destruct (client_queue_ s) as [|client rest] eqn:Eq.
  - destruct (running_ s) eqn:Er; (destruct S as [S1 S2 S3 S4 S5 S6]; split; simpl; rewrite ?Eq in *; try done;
      [by destruct (worker_threads_ s), i|..]).
    intros j. rewrite list_lookup_insert_Some. intros [(_ & ? & _)|[_ ?]]; [done|by eapply S5].
  - destruct S as [S1 S2 S3 S4 S5 S6]. rewrite Eq in *. split; simpl.
    + rewrite <- S1. by rewrite <- app_assoc.
    + simpl in S2. lia.
    + by destruct (worker_threads_ s), i.
    + intros j. rewrite list_lookup_insert_Some. intros [(_ & ? & _)|[_ Hj]]; [done|]. by apply S4 in Hj.
    + intros j. rewrite list_lookup_insert_Some. intros [(_ & ? & _)|[_ ?]]; [done|by eapply S5].
    + intros _ _. left. exists i, (Serving client). split; [by apply list_lookup_insert_eq|done].
Qed.

Lemma queue_client_sound limit s client :
  sound limit s -> mutex_free s = true -> thread_ s = Accepting -> sound limit (queue_client limit client s).
Proof.
  intros S Hm Ht. unfold queue_client. destruct (Nat.ltb_spec (List.length (client_queue_ s)) limit) as [Hl|Hl].
  - destruct S as [S1 S2 S3 S4 S5 S6]. split; simpl; try done.
    + by rewrite app_assoc, S1.
    + rewrite length_app. simpl. lia.
    + intros i Hi. unfold mutex_free in Hm. rewrite forallb_forall in Hm.
      apply list_elem_of_lookup_2, list_elem_of_In in Hi. by apply Hm in Hi.
    + intros _ _. by right.
  - eapply sound_other; [exact S|done..|]. left. congruence.
Qed.

Lemma notify_one_sound limit s i s' :
  sound limit s -> notify_one i s = Some s' -> sound limit s'.
Proof.
  intros S. unfold notify_one. destruct i as [i|].
  - destruct (worker_threads_ s !! i) as [[]|] eqn:Hi; try done. intros [= <-].
    pose proof (sound_worker limit s i Testing S (ltac:(by eexists)) ltac:(done) ltac:(done) (or_introl eq_refl)) as S'.
    destruct S' as [S1 S2 S3 S4 S5 _]. split; try done.
    intros _ _. left. exists i, Testing. split; [|done]. simpl. apply list_lookup_insert_eq.
    by eapply lookup_lt_Some.
  - destruct (existsb is_blocked (worker_threads_ s)) eqn:Eb; [done|]. intros [= <-].
    destruct S as [S1 S2 S3 S4 S5 S6]. split; try done. simpl. intros Hr Hq. left.
    destruct (worker_threads_ s) as [|w r] eqn:Ew; [done|]. exists 0, w. split; [done|].
    simpl in Eb. apply orb_false_iff in Eb as [Eb _].
    destruct w; try done.
    + by rewrite (S4 0 eq_refl) in Hq.
    + by rewrite (S5 0 eq_refl) in Hr.
Qed.

Lemma next_sound limit s e s' : sound limit s -> next limit s e = Some s' -> sound limit s'.
Proof.
  intros S. destruct e as [i|i|i|i| |client| |i| | | |]; cbn [next].
  - destruct (worker_threads_ s !! i) as [[]|] eqn:Hi; try done. destruct (mutex_free s) eqn:Hm; [|done].
    intros [= <-]. by apply take_client_sound.
  - destruct (worker_threads_ s !! i) as [[]|] eqn:Hi; try done. intros [= <-].
    apply sound_worker; [done|by eexists|done|done|]. right. by eapply (deciding_empty _ _ S).
  - destruct (worker_threads_ s !! i) as [[]|] eqn:Hi; try done. intros [= <-].
    apply sound_worker; [done|by eexists|done|done|by left].
  - destruct (worker_threads_ s !! i) as [[]|] eqn:Hi; try done. intros [= <-].
    apply sound_worker; [done|by eexists|done|done|by left].
  - destruct (thread_ s) eqn:Ht; try done. intros [= <-]. eapply sound_other; [exact S|done..|]. left. congruence.
  - destruct (thread_ s) eqn:Ht; try done. destruct (mutex_free s) eqn:Hm; [|done]. intros [= <-].
    by apply queue_client_sound.
  - destruct (thread_ s) eqn:Ht; try done. intros [= <-]. eapply sound_other; [exact S|done..|]. left. congruence.
  - destruct (thread_ s) eqn:Ht; try done. by apply notify_one_sound.
  - destruct (destructor s); try done. intros [= <-]. by destruct S; split.
  - destruct (destructor s); try done. intros [= <-]. eapply sound_other; [exact S|done..|by right].
  - destruct (destructor s); try done. intros [= <-]. destruct S as [S1 S2 S3 S4 S5 S6]. split; try done; simpl.
    + by destruct (worker_threads_ s).
    + intros i. rewrite list_lookup_fmap. destruct (worker_threads_ s !! i) as [[]|] eqn:Hi; try done.
      intros _. by eapply S4.
    + intros i. rewrite list_lookup_fmap. destruct (worker_threads_ s !! i) as [[]|] eqn:Hi; try done.
      intros _. by eapply S5.
    + intros Hr Hq. destruct (S6 Hr Hq) as [(i & w & Hi & Ha)|?]; [|by right]. left. exists i, (wake w).
      rewrite list_lookup_fmap, Hi. by destruct w.
  - destruct (destructor s), (thread_ s) eqn:Ht; try done. destruct (forallb _ _); [|done]. intros [= <-].
    eapply sound_other; [exact S|done..|by right].
Qed.

Definition starts (workers : nat) (s : Server) : Prop := s = start_server workers.

Lemma reachable_sound limit n s : 0 < n -> reachable (step limit) (starts n) s -> sound limit s.
Proof.
  intros Hn. apply reachable_invariant; [intros ? ->; by apply start_sound|].
  intros a e b o _ Ha E. by eapply next_sound.
Qed.

(** the events that are no choice of a client, of the operator or of chance *)
Definition is_progress (e : Event) : bool :=
  match e with
  | Test _ | Block _ | Finish _ | NotifyOne _ => true
  | _ => false
  end.

Lemma first_blocked ws :
  existsb is_blocked ws = true -> exists i, ws !! i = Some Blocked.
Proof.
  intros (w & Hin%list_elem_of_In & Hb)%existsb_exists. apply list_elem_of_lookup in Hin as [i Hi].
  exists i. by destruct w.
Qed.

Lemma mutex_held s : mutex_free s = false -> exists i, worker_threads_ s !! i = Some Deciding.
Proof.
  unfold mutex_free. generalize (worker_threads_ s). intros ws. induction ws as [|w ws IH]; [done|]. simpl.
  destruct w; simpl; intros Hf; try (destruct (IH Hf) as [i Hi]; by exists (S i)). by exists 0.
Qed.

(** C14: Clients are taken in the order in which they were queued, none is lost,
    none is taken twice, and the queue never exceeds its limit; and while the
    server runs no client is forgotten: as long as one is queued, a worker or
    the thread that queued it can go on, whatever the order of tests, blocks and
    notifications. *)
Theorem clients_are_served_in_order limit n s :
  0 < n -> reachable (step limit) (starts n) s ->
  taken s ++ client_queue_ s = accepted s /\ List.length (client_queue_ s) <= limit /\
  (running_ s = true -> client_queue_ s <> [] ->
     exists e s', is_progress e = true /\ next limit s e = Some s').
Proof.
  intros Hn S%reachable_sound; [|done].
  split_and!; [apply (fifo _ _ S)|apply (bounded _ _ S)|]. intros Hr Hq.
  destruct (mutex_free s) eqn:Hm.
  - destruct (attended _ _ S Hr Hq) as [(i & w & Hi & Ha)|Ht].
    + destruct w; try done.
      * eexists (Test i), _. split; [done|]. simpl. by rewrite Hi, Hm.
      * eexists (Finish i), _. split; [done|]. simpl. by rewrite Hi.
    + destruct (existsb is_blocked (worker_threads_ s)) eqn:Eb.
      * destruct (first_blocked _ Eb) as [i Hi].
        eexists (NotifyOne (Some i)), _. split; [done|]. simpl. by rewrite Ht, Hi.
      * eexists (NotifyOne None), _. split; [done|]. simpl. by rewrite Ht, Eb.
  - destruct (mutex_held s Hm) as [i Hi]. eexists (Block i), _. split; [done|]. simpl. by rewrite Hi.
Qed.

(** one worker and the shutdown between its test and its block *)
Definition lost_notification : list Event :=
  [Test 0; Stop; CloseSocket; NotifyAll; Block 0; Enter].
Fixpoint perform (limit : nat) (s : Server) (es : list Event) : option Server :=
  match es with
  | [] => Some s
  | e :: r => match next limit s e with Some s' => perform limit s' r | None => None end
  end.

Lemma perform_reachable limit n s es s' :
  reachable (step limit) (starts n) s -> perform limit s es = Some s' -> reachable (step limit) (starts n) s'.
Proof.
  revert s. induction es as [|e es IH]; intros s Hs; simpl; [by intros [= <-]|].
  destruct (next limit s e) as [s1|] eqn:E; [|done]. apply IH. eapply (reach_step _ _ s e s1 []); done.
Qed.

(** The destructor changes [running_] and notifies the workers without their
    mutex, so a notification can come between a worker's test and its block.
    Then the worker blocks for good and the destructor waits for it: nothing but
    a spurious wake-up can ever end the shutdown. *)
Theorem shutdown_can_hang :
  exists s, reachable (step 32) (starts 1) s /\ destructor s = Joining /\
    worker_threads_ s = [Blocked] /\ running_ s = false /\
    forall e s', next 32 s e = Some s' -> e = Spurious 0.
Proof.
  destruct (perform 32 (start_server 1) lost_notification) as [s|] eqn:E; [|by vm_compute in E].
  exists s. split; [by eapply perform_reachable; [apply reach_init|]|].
  vm_compute in E. injection E as <-. split_and!; try done.
  intros [[|i]|[|i]|[|i]|[|i]| |client| |i| | | |] s'; cbn; by try (destruct i).
Qed.

Definition busy_start : list Event :=
  [Test 0; Block 0; Enter; Accept 7; NotifyOne (Some 0); Enter; Accept 8].
Definition busy_server : Server := default (start_server 2) (perform 2 (start_server 2) busy_start).

Lemma clients_are_served_in_order_witness :
  taken busy_server ++ client_queue_ busy_server = [7; 8] /\
  exists e s', is_progress e = true /\ next 2 busy_server e = Some s'.
Proof.
  assert (Hr : reachable (step 2) (starts 2) busy_server).
  { apply (perform_reachable 2 2 (start_server 2) busy_start); [apply reach_init; reflexivity|vm_compute; reflexivity]. }
  destruct (clients_are_served_in_order 2 2 busy_server ltac:(lia) Hr) as (H1 & _ & H2).
  split; [exact H1|]. apply H2; [reflexivity|discriminate].
Defined.
