(* ===== verification/OpsApi.v ===== *)
(** * The state of the operations service

    Models the members of [VehicleOpsApi] in
    [vehicle_ops/src/vehicle_ops_api_node.cpp] that several threads share, under
    [mutex_]: what the subscriptions keep, the active debug session with its
    timer, and the handlers that read or change them: [active_debug_*],
    [teleop_command], [teleop_acquire], [jobs_create] and the status of
    freshness.  One handler or callback is one event; a handler that throws
    leaves the state it has reached.  Times are nanoseconds of [steady_clock]. *)
From S2P Require Import Prelude Floats Messages JsonData Json Text Http.
Local Open Scope Z_scope.
Local Open Scope result_scope.

(** ** State *)
Record Timed (A : Type) := MakeTimed { message : option A; received : Z }.
Arguments MakeTimed {A} _ _.
Arguments message {A} _.
Arguments received {A} _.
Definition never {A} : Timed A := MakeTimed None 0.
Definition update {A} (m : A) (now : Z) : Timed A := MakeTimed (Some m) now.

Record ActiveDebugSession := MakeSession {
  session_id : string;
  task : string;
  status : string;
  stop_reason : string;
  last_observation_id : string;
  last_trace_id : string;
  baseline_observation_id : string;
  started : Z;
  last_step : Z;
  finished : Z;
  steps : Z;
  max_steps : Z;
  max_duration_seconds : double;
  frequency_hz : double;
  shadow_only : bool;
  waiting_for_task_observation : bool }.
#[export] Instance eta_session : Eta ActiveDebugSession := fun a =>
  MakeSession (session_id a) (task a) (status a) (stop_reason a) (last_observation_id a) (last_trace_id a)
    (baseline_observation_id a) (started a) (last_step a) (finished a) (steps a) (max_steps a)
    (max_duration_seconds a) (frequency_hz a) (shadow_only a) (waiting_for_task_observation a).
Definition no_session : ActiveDebugSession :=
  MakeSession "" "" "IDLE" "" "" "" "" 0 0 0 0 100 (of_int 60) (of_int 1) true false.

Record VehicleOpsApi := MakeApi {
  system_ : Timed SystemState.SystemStateMsg;
  observation_ : Timed ObservationStatus.ObservationStatusMsg;
  episode_ : Timed EpisodeState.EpisodeStateMsg;
  policy_ : Timed PolicyStatus.PolicyStatusMsg;
  shadow_ : Timed ShadowMetrics.ShadowMetricsMsg;
  safety_ : Timed SafetyEvent.SafetyEventMsg;
  control_lease_ : Timed ControlLease.ControlLeaseMsg;
  pipeline_trace_ : option PipelineTrace.PipelineTraceMsg;
  pipeline_history_ : list PipelineTrace.PipelineTraceMsg;
  pipeline_received_ : Z;
  camera_data_ : list Z;
  camera_time_ : Z;
  camera_wall_time_ : Z;
  camera_sequence_ : Z;
  camera_content_analyzed_ : bool;
  camera_content_valid_ : bool;
  camera_mean_intensity_ : double;
  camera_max_intensity_ : Z;
  latest_command_ : Twist;
  command_received_ : Z;
  latest_odometry_ : Twist;                (* of [nav_msgs::msg::Odometry], its twist *)
  odometry_received_ : Z;
  active_debug_ : ActiveDebugSession }.
#[export] Instance eta_api : Eta VehicleOpsApi := fun s =>
  MakeApi (system_ s) (observation_ s) (episode_ s) (policy_ s) (shadow_ s) (safety_ s) (control_lease_ s)
    (pipeline_trace_ s) (pipeline_history_ s) (pipeline_received_ s) (camera_data_ s) (camera_time_ s)
    (camera_wall_time_ s) (camera_sequence_ s) (camera_content_analyzed_ s) (camera_content_valid_ s)
    (camera_mean_intensity_ s) (camera_max_intensity_ s) (latest_command_ s) (command_received_ s)
    (latest_odometry_ s) (odometry_received_ s) (active_debug_ s).
Definition initial : VehicleOpsApi :=
  MakeApi never never never never never never never None [] 0 [] 0 0 0 false false dzero 0
    Twist.zero 0 Twist.zero 0 no_session.

(** the parameters of the node that the handlers use *)
Record Settings := MakeSettings {
  stale_seconds_ : double;
  camera_dark_mean_threshold_ : double;
  command_timeout_seconds_ : double;
  odometry_timeout_seconds_ : double;
  stationary_linear_threshold_ : double;
  stationary_angular_threshold_ : double }.

(** ** Ages *)
Definition chrono_millis (ns : Z) : double := ddiv (of_int ns) (of_int 1000000).
Definition age {A} (value : Timed A) (now : Z) : double :=
  match message value with
  | None => of_int (-1)
  | Some _ => chrono_millis (now - received value)
  end.
Definition fresh (p : Settings) (value : double) : bool :=
  dle dzero value && dle value (dmul (stale_seconds_ p) (of_int 1000)).

(** ** Subscriptions *)
Definition history_limit : nat := 30.
#[local] Arguments history_limit : simpl never.

Definition on_trace (m : PipelineTrace.PipelineTraceMsg) (now : Z) (s : VehicleOpsApi) : VehicleOpsApi :=
  s <| pipeline_trace_ := Some m |> <| pipeline_received_ := now |>
    <| pipeline_history_ :=
       match pipeline_history_ s with
       | front :: rest =>
           if str_eqb (PipelineTrace.trace_id front) (PipelineTrace.trace_id m) then m :: rest
           else take history_limit (m :: front :: rest)
       | [] => [m]
       end |>.

(** [sensor_msgs::msg::Image], without its size *)
Record Image := MakeImage { encoding : string; pixels : list Z }.

Definition analyzable (m : Image) : bool :=
  str_in (encoding m) ["rgb8"; "bgr8"; "rgba8"; "bgra8"; "mono8"].
Definition channels (m : Image) : nat :=
  if str_eqb (encoding m) "mono8" then 1
  else if str_eqb (encoding m) "rgba8" || str_eqb (encoding m) "bgra8" then 4 else 3.
Definition stride (m : Image) : nat := Nat.max (channels m) (List.length (pixels m) / Z.to_nat 8192).

(** the loop over [index]: the sum, the number and the maximum of the samples *)
Fixpoint sample_loop (fuel index step channels : nat) (data : list Z) (acc : Z * Z * Z) : Z * Z * Z :=
  match fuel with
  | O => acc
  | S fuel =>
      match data !! index with
      | None => acc
      | Some v =>
          let '(sum, samples, maximum) := acc in
          sample_loop fuel (index + step) step channels data
            (if (channels =? 4)%nat && (index mod channels =? 3)%nat then acc
             else (sum + v, samples + 1, Z.max maximum v))
      end
  end.
Definition sample_image (m : Image) : Z * Z * Z :=
  sample_loop (List.length (pixels m)) 0 (stride m) (channels m) (pixels m) (0, 0, 0).
Definition mean_intensity (sum samples : Z) : double :=
  if samples =? 0 then dzero else ddiv (of_int sum) (of_int samples).

(** [camera_calibration_->update_frame] is called first, in [Calibration] *)
Definition on_image (p : Settings) (m : Image) (s : VehicleOpsApi) : VehicleOpsApi :=
  if negb (analyzable m) || (List.length (pixels m) =? 0)%nat then
    s <| camera_content_analyzed_ := false |> <| camera_content_valid_ := true |>
  else
    let '(sum, samples, maximum) := sample_image m in
    let mean := mean_intensity sum samples in
    s <| camera_content_analyzed_ := true |> <| camera_mean_intensity_ := mean |>
      <| camera_max_intensity_ := maximum |>
      <| camera_content_valid_ := dle (camera_dark_mean_threshold_ p) mean |>.

Inductive Received :=
| SystemReceived (m : SystemState.SystemStateMsg)
| ObservationReceived (m : ObservationStatus.ObservationStatusMsg)
| EpisodeReceived (m : EpisodeState.EpisodeStateMsg)
| PolicyReceived (m : PolicyStatus.PolicyStatusMsg)
| ShadowReceived (m : ShadowMetrics.ShadowMetricsMsg)
| SafetyReceived (m : SafetyEvent.SafetyEventMsg)
| LeaseReceived (m : ControlLease.ControlLeaseMsg)
| TraceReceived (m : PipelineTrace.PipelineTraceMsg)
| ImageReceived (m : Image)
| FrameReceived (m : CompressedImage.CompressedImageMsg) (wall : Z)
| CommandReceived (m : Twist)
| OdometryReceived (m : Twist).

Definition on_message (p : Settings) (e : Received) (now : Z) (s : VehicleOpsApi) : VehicleOpsApi :=
  match e with
  | SystemReceived m => s <| system_ := update m now |>
  | ObservationReceived m => s <| observation_ := update m now |>
  | EpisodeReceived m => s <| episode_ := update m now |>
  | PolicyReceived m => s <| policy_ := update m now |>
  | ShadowReceived m => s <| shadow_ := update m now |>
  | SafetyReceived m => s <| safety_ := update m now |>
  | LeaseReceived m => s <| control_lease_ := update m now |>
  | TraceReceived m => on_trace m now s
  | ImageReceived m => on_image p m s
  | FrameReceived m wall =>
      s <| camera_data_ := CompressedImage.data m |> <| camera_time_ := now |> <| camera_wall_time_ := wall |>
        <| camera_sequence_ := wrap64 (camera_sequence_ s + 1) |>
  | CommandReceived m => s <| latest_command_ := m |> <| command_received_ := now |>
  | OdometryReceived m => s <| latest_odometry_ := m |> <| odometry_received_ := now |>
  end.

(** ** The active debug session *)
Inductive Output :=
| PublishTask (text : string)
| PublishTeleop (m : TeleopCommand.TeleopCommandMsg).

Definition is_open (a : ActiveDebugSession) : bool := str_eqb (status a) "RUNNING" || str_eqb (status a) "PAUSED".

(** [std::clamp] of an [int] *)
Definition clamp (v lo hi : Z) : Z := if v <? lo then lo else if hi <? v then hi else v.

Definition invalid_body : HttpResponse := error 400 "Request body must be valid JSON".

Section Sessions.
Context `{Nlohmann}.

(** the session [active_debug_create] has made before it reads the options *)
Definition fresh_session (now : Z) (task_value : string) (s : VehicleOpsApi) : ActiveDebugSession :=
  no_session <| session_id := ("active-debug-" ++ to_string (now / 1000000))%string |>
    <| task := task_value |> <| status := "RUNNING"%string |> <| started := now |>
    <| baseline_observation_id := match pipeline_trace_ s with
                                  | Some trace => PipelineTrace.observation_id trace
                                  | None => ""%string
                                  end |>
    <| waiting_for_task_observation := true |>.

(** the assignments of the options, each of which may throw *)
Definition read_options (input : JsonValue) (a : ActiveDebugSession) : ActiveDebugSession * Result unit :=
  match value get_int "max_steps" 100 input with
  | Throws e => (a, Raised (JsonError e))
  | Returns n =>
      let a := a <| max_steps := clamp n 1 10000 |> in
      match value get_double "max_duration_seconds" (of_int 60) input with
      | Throws e => (a, Raised (JsonError e))
      | Returns x =>
          let a := a <| max_duration_seconds := dclamp x (of_int 1) (of_int 3600) |> in
          match value get_double "hz" (of_int 1) input with
          | Throws e => (a, Raised (JsonError e))
          | Returns hz =>
              let a := a <| frequency_hz := dclamp hz (lit 1 1) (of_int 5) |> in
              match value_string "mode" "shadow"%string input with
              | Throws e => (a, Raised (JsonError e))
              | Returns mode => (a <| shadow_only := negb (str_eqb mode "controlled_real") |>, Done tt)
              end
          end
      end
  end.

Definition created_body (a : ActiveDebugSession) : JsonValue :=
  J_object [("success", J_bool true); ("message", J_string "Active debug session started in Shadow mode");
            ("session_id", J_string (session_id a)); ("status", J_string (status a))]%string.

(** a JSON document as a response *)
Definition document (code : Z) (v : JsonValue) (hs : list (string * string)) : Result HttpResponse :=
  let? text := json (dump v) in Done (MakeResponse code json_type (text ++ newline)%string hs).

Definition active_debug_create (now : Z) (body : string) (s : VehicleOpsApi)
  : VehicleOpsApi * Result HttpResponse * list Output :=
  match parse body with
  | Throws _ => (s, Done invalid_body, [])
  | Returns input =>
      match value_string "task" ""%string input with
      | Throws e => (s, Raised (JsonError e), [])
      | Returns task_value =>
          if str_empty task_value then (s, Done (error 400 "Active debug task is required"), [])
          else if is_open (active_debug_ s) then
            (s, Done (error 409 "An active debug session is already running"), [])
          else
            match read_options input (fresh_session now task_value s) with
            | (a, Raised e) => (s <| active_debug_ := a |>, Raised e, [])
            | (a, Done _) =>
                (s <| active_debug_ := a |>, document 202 (created_body a) [], [PublishTask task_value])
            end
      end
  end.

Definition session_document (now : Z) (a : ActiveDebugSession) : JsonValue :=
  let elapsed_end := if finished a =? 0 then now else finished a in
  let elapsed := if started a =? 0 then dzero else chrono_seconds (elapsed_end - started a) in
  J_object
    [("session_id", J_string (session_id a)); ("task", J_string (task a)); ("status", J_string (status a));
     ("stop_reason", J_string (stop_reason a)); ("steps", J_integer (steps a));
     ("elapsed_seconds", J_number elapsed); ("max_steps", J_integer (max_steps a));
     ("max_duration_seconds", J_number (max_duration_seconds a)); ("frequency_hz", J_number (frequency_hz a));
     ("shadow_only", J_bool (shadow_only a)); ("last_observation_id", J_string (last_observation_id a));
     ("last_trace_id", J_string (last_trace_id a));
     ("waiting_for_task_observation", J_bool (waiting_for_task_observation a))]%string.
Definition active_debug_get (now : Z) (s : VehicleOpsApi) : Result HttpResponse :=
  document 200 (session_document now (active_debug_ s)) no_store.

Definition close_session (state reason : string) (now : Z) (a : ActiveDebugSession) : ActiveDebugSession :=
  a <| status := state |> <| stop_reason := reason |> <| finished := now |>.

Definition active_debug_control (now : Z) (action : string) (s : VehicleOpsApi)
  : VehicleOpsApi * Result HttpResponse :=
  let a := active_debug_ s in
  let set a' := (s <| active_debug_ := a' |>, Done (success "Active debug session updated" "")) in
  if str_eqb (status a) "IDLE" then (s, Done (error 404 "No active debug session"))
  else if str_eqb action "pause" && str_eqb (status a) "RUNNING" then set (a <| status := "PAUSED"%string |>)
  else if str_eqb action "resume" && str_eqb (status a) "PAUSED" then set (a <| status := "RUNNING"%string |>)
  else if str_eqb action "stop" && is_open a then set (close_session "STOPPED" "Stopped by operator" now a)
  else (s, Done (error 409 "Invalid active debug operation")).

(** *** The timer *)

(** the task in the first stage [observation_assembly] *)
Fixpoint observation_task (stages : list PipelineStage.PipelineStageMsg) : string :=
  match stages with
  | [] => ""
  | stage :: r =>
      if negb (str_eqb (PipelineStage.stage_id stage) "observation_assembly") then observation_task r
      else match parse (PipelineStage.detail_json stage) with
           | Returns detail => match member "task" detail with Some (J_string t) => t | _ => "" end
           | Throws _ => ""
           end
  end.

Definition reports_completion (stage : PipelineStage.PipelineStageMsg) : bool :=
  let text := lowercase (PipelineStage.message stage ++ " " ++ PipelineStage.output_summary stage)%string in
  str_contains "success" text || str_contains "completed" text || str_contains "terminate" text.
Definition reports_failure (stage : PipelineStage.PipelineStageMsg) : bool :=
  (PipelineStage.status stage =? PipelineStage.STATUS_FAILED) ||
  (PipelineStage.status stage =? PipelineStage.STATUS_REJECTED).

(** the loop over the stages after a step *)
Fixpoint judge (now : Z) (stages : list PipelineStage.PipelineStageMsg) (a : ActiveDebugSession)
  : ActiveDebugSession :=
  match stages with
  | [] => a
  | stage :: r =>
      if reports_completion stage then
        close_session "SUCCEEDED" (PipelineStage.label stage ++ ": task completion reported")%string now a
      else if reports_failure stage then
        close_session "FAILED" (PipelineStage.label stage ++ ": " ++ PipelineStage.message stage)%string now a
      else judge now r a
  end.

Definition task_observation_timeout_seconds : double := of_int 5.
Definition wait_failed (now : Z) (elapsed : double) (a : ActiveDebugSession) : ActiveDebugSession :=
  if dle task_observation_timeout_seconds elapsed
  then close_session "FAILED" "Timed out waiting for an Observation containing the active task" now a
  else a.

(** one step, once the session does not wait any more *)
Definition take_step (now : Z) (trace : PipelineTrace.PipelineTraceMsg) (a : ActiveDebugSession)
  : ActiveDebugSession :=
  let step_period := ddiv (of_int 1) (frequency_hz a) in
  if negb (last_step a =? 0) && dlt (chrono_seconds (now - last_step a)) step_period then a
  else if str_empty (PipelineTrace.observation_id trace) ||
          str_eqb (PipelineTrace.observation_id trace) (last_observation_id a) then a
  else judge now (PipelineTrace.stages trace)
         (a <| last_observation_id := PipelineTrace.observation_id trace |>
            <| last_trace_id := PipelineTrace.trace_id trace |> <| last_step := now |>
            <| steps := steps a + 1 |>).

Definition tick_session (now : Z) (pipeline : option PipelineTrace.PipelineTraceMsg) (a : ActiveDebugSession)
  : ActiveDebugSession :=
  if negb (str_eqb (status a) "RUNNING") then a
  else
    let elapsed := chrono_seconds (now - started a) in
    if dle (max_duration_seconds a) elapsed then close_session "TIMED_OUT" "Maximum duration reached" now a
    else if max_steps a <=? steps a then close_session "STOPPED" "Maximum steps reached" now a
    else
      match pipeline with
      | None => if waiting_for_task_observation a then wait_failed now elapsed a else a
      | Some trace =>
          if waiting_for_task_observation a then
            let is_new_observation :=
              negb (str_empty (PipelineTrace.observation_id trace)) &&
              negb (str_eqb (PipelineTrace.observation_id trace) (baseline_observation_id a)) in
            if negb is_new_observation || negb (str_eqb (observation_task (PipelineTrace.stages trace)) (task a))
            then wait_failed now elapsed a
            else take_step now trace (a <| waiting_for_task_observation := false |>)
          else take_step now trace a
      end.
Definition active_debug_tick (now : Z) (s : VehicleOpsApi) : VehicleOpsApi :=
  s <| active_debug_ := tick_session now (pipeline_trace_ s) (active_debug_ s) |>.
End Sessions.

(** ** Teleoperation *)
Section Teleop.
Context `{Nlohmann} `{Rclcpp}.

(** [body] parsed, or the answer of the handler *)
Definition parsed (body : string) (k : JsonValue -> Result HttpResponse * list Output)
  : Result HttpResponse * list Output :=
  match parse body with
  | Throws _ => (Done invalid_body, [])
  | Returns input => k input
  end.

(** the arguments of [teleop_command], read before any of them is checked *)
Record CommandArguments := MakeArguments {
  lease_id : string;
  controller_id : string;
  sequence : Z;
  deadman : bool;
  manual_obstacle_override : bool;
  linear : double;
  angular : double;
  valid_for_ms : Z }.

Definition command_arguments (input : JsonValue) : Outcome CommandArguments :=
  (let! lease := value_string "lease_id" ""%string input in
   let! controller := value_string "controller_id" ""%string input in
   let! seq := value get_uint64 "sequence" 0 input in
   let! dead := value_bool "deadman" false input in
   let! override := value_bool "manual_obstacle_override" false input in
   let! lin := value get_double "linear" dzero input in
   let! ang := value get_double "angular" dzero input in
   let! valid := value get_int "valid_for_ms" 250 input in
   Returns (MakeArguments lease controller seq dead override lin ang (clamp valid 50 300)))%outcome.

Definition valid_arguments (c : CommandArguments) : bool :=
  negb (str_empty (lease_id c) || str_empty (controller_id c) || (sequence c =? 0) ||
        negb (isfinite (linear c)) || negb (isfinite (angular c)) ||
        dlt (of_int 1) (dabs (linear c)) || dlt (of_int 1) (dabs (angular c))).

Definition holds_lease (c : CommandArguments) (s : VehicleOpsApi) : bool :=
  match message (control_lease_ s) with
  | None => false
  | Some lease => ControlLease.active lease && str_eqb (ControlLease.lease_id lease) (lease_id c) &&
                  str_eqb (ControlLease.controller_id lease) (controller_id c)
  end.

Definition teleop_message (now : Z) (c : CommandArguments) : TeleopCommand.TeleopCommandMsg :=
  TeleopCommand.Make (Header.Make (to_msg now) "base_link") (lease_id c) (controller_id c) (sequence c)
    (MakeTime (valid_for_ms c / 1000) (wrap32 (valid_for_ms c mod 1000 * 1000000)))
    (deadman c) (deadman c && manual_obstacle_override c) (to_float (linear c)) (to_float (angular c)).

Definition teleop_command (now : Z) (body : string) (s : VehicleOpsApi) : Result HttpResponse * list Output :=
  parsed body (fun input =>
    match command_arguments input with
    | Throws e => (Raised (JsonError e), [])
    | Returns c =>
        if negb (valid_arguments c) then (Done (error 400 "Invalid teleop command"), [])
        else if negb (holds_lease c s) then
          (Done (error 409 "Teleop lease is not active for this controller"), [])
        else (Done (success (if deadman c then "Teleop command accepted" else "Teleop zero command accepted") ""),
              [PublishTeleop (teleop_message now c)])
    end).

(** *** The lease *)
Inductive ServiceAnswer (A : Type) := Unavailable | Late | Answered (a : A).
Arguments Unavailable {A}.
Arguments Late {A}.
Arguments Answered {A} a.

(** [AcquireControlLease::Goal] *)
Record LeaseGoal := MakeGoal {
  goal_controller_id : string;
  source : string;
  requested_duration : Time;
  requested_max_linear_velocity : float32;
  requested_max_angular_velocity : float32;
  remote : bool }.

(** what the lease manager makes of a goal: no handle, no result in time, or a
    result with its code, whether it is granted, message and lease *)
Inductive LeaseAnswer :=
| GoalRefused
| ResultLate
| ResultGiven (succeeded : bool) (result : option (bool * string * ControlLease.ControlLeaseMsg)).

Definition controller_char (x : ascii) : bool :=
  is_digit x || ((65 <=? code x) && (code x <=? 90)) || ((97 <=? code x) && (code x <=? 122)) ||
  Ascii.eqb x "-" || Ascii.eqb x "_".
Definition valid_controller (controller_id : string) : bool :=
  negb (str_empty controller_id) && (String.length controller_id <=? 64)%nat && all_chars controller_char controller_id.

Definition lease_goal (controller_id : string) (duration : Z) (linear angular : float32) : LeaseGoal :=
  MakeGoal controller_id "mobile" (MakeTime (clamp duration 3 30) 0)
    (dclamp linear (litf 2 2) (litf 4 1)) (dclamp angular (litf 5 2) (litf 8 1)) false.

Definition lease_json (lease : ControlLease.ControlLeaseMsg) : JsonValue :=
  let expires := ControlLease.expires_at lease in
  J_object
    [("lease_id", J_string (ControlLease.lease_id lease));
     ("controller_id", J_string (ControlLease.controller_id lease)); ("source", J_string (ControlLease.source lease));
     ("expires_at_ms", J_integer (sec expires * 1000 + nanosec expires / 1000000));
     ("max_linear_velocity", J_number (to_double (ControlLease.max_linear_velocity lease)));
     ("max_angular_velocity", J_number (to_double (ControlLease.max_angular_velocity lease)));
     ("remote", J_bool (ControlLease.remote lease)); ("active", J_bool (ControlLease.active lease))]%string.

(** the message and an extra member that is a document *)
Definition success_with (message key : string) (v : JsonValue) : Result HttpResponse :=
  let? text := json (dump v) in
  Done (success message (String dquote key ++ String dquote ":" ++ text)%string).

Definition lease_response (a : LeaseAnswer) : Result HttpResponse :=
  match a with
  | GoalRefused => Done (error 409 "Another controller owns the active teleop lease")
  | ResultLate => Done (error 408 "Teleop lease result timed out")
  | ResultGiven succeeded (Some (granted, text, lease)) =>
      if succeeded && granted then success_with text "lease" (lease_json lease) else Done (error 409 text)
  | ResultGiven _ None => Done (error 409 "Teleop lease was rejected")
  end.

(** the goal is what is sent, when one is *)
Definition teleop_acquire (available : bool) (manager : LeaseGoal -> ServiceAnswer LeaseAnswer) (body : string)
  : Result HttpResponse * option LeaseGoal :=
  match parse body with
  | Throws _ => (Done invalid_body, None)
  | Returns input =>
      match value_string "controller_id" ""%string input with
      | Throws e => (Raised (JsonError e), None)
      | Returns controller_id =>
          if negb (valid_controller controller_id) then (Done (error 400 "Invalid controller_id"), None)
          else if negb available then (Done (error 503 "Teleop lease manager is unavailable"), None)
          else
            match (let! duration := value get_int "duration_seconds" 30 input in
                   let! linear := value get_float "max_linear_velocity" (litf 25 2) input in
                   let! angular := value get_float "max_angular_velocity" (litf 5 1) input in
                   Returns (lease_goal controller_id duration linear angular))%outcome with
            | Throws e => (Raised (JsonError e), None)
            | Returns goal =>
                (match manager goal with
                 | Answered a => lease_response a
                 | _ => Done (error 408 "Teleop lease request timed out")
                 end, Some goal)
            end
      end
  end.

(** [ReleaseControlLease]: released, message *)
Definition teleop_release (manager : string -> string -> ServiceAnswer (bool * string)) (body : string)
  : Result HttpResponse :=
  match parse body with
  | Throws _ => Done invalid_body
  | Returns input =>
      let? lease := json (value_string "lease_id" ""%string input) in
      let? controller := json (value_string "controller_id" ""%string input) in
      if str_empty lease || str_empty controller then Done (error 400 "Lease identity is required")
      else match manager lease controller with
           | Unavailable => Done (error 503 "Teleop lease manager is unavailable")
           | Late => Done (error 408 "Teleop release timed out")
           | Answered (released, text) => Done (if released then success text "" else error 409 text)
           end
  end.
End Teleop.
Arguments Unavailable {A}.
Arguments Late {A}.
Arguments Answered {A} a.

(** ** Jobs that change the policy runtime *)

(** what [jobs_create] reads of the file system *)
Record ModelFiles := MakeFiles {
  manifest : string -> option (Result JsonValue);    (* of a version; [None]: no regular file *)
  active_mobility : option (Result JsonValue);       (* [run/config/mobility.json] *)
  plugins : Result (list JsonValue) }.               (* [load_mobility_plugins] *)

Section Gate.
Context `{Nlohmann}.

(** [std::any_of] over the accepted schemas; a schema that is not a string throws *)
Fixpoint any_accepts (schema : string) (items : list JsonValue) : Outcome bool :=
  match items with
  | [] => Returns false
  | item :: r =>
      if is_object item then
        (let! s := value_string "schema" ""%string item in
         if str_eqb s schema then Returns true else any_accepts schema r)%outcome
      else any_accepts schema r
  end.
Definition mobility_plugin_accepts (plugin : JsonValue) (schema : string) : Outcome bool :=
  match member "accepts" plugin with
  | Some (J_array items) => any_accepts schema items
  | _ => Returns false
  end.

Fixpoint recommended_mobility_plugins (plugins : list JsonValue) (schema : string) : Outcome (list string) :=
  match plugins with
  | [] => Returns []
  | plugin :: r =>
      (let! accepts := mobility_plugin_accepts plugin schema in
       if accepts then
         let! plugin_id := value_string "id" ""%string plugin in
         let! rest := recommended_mobility_plugins r schema in Returns (plugin_id :: rest)
       else recommended_mobility_plugins r schema)%outcome
  end.

(** [load_mobility_plugins]: the entries of the directory, with whether they are
    regular files, their extension and their content *)
Record PluginFile := MakePlugin { file_name : string; regular : bool; extension : string; document_of : Result JsonValue }.
Definition schema_version : string := "chitu.mobility-plugin.v1".
Fixpoint load_plugins (entries : list PluginFile) : list JsonValue :=
  match entries with
  | [] => []
  | entry :: r =>
      if negb (regular entry) || negb (str_eqb (extension entry) ".json") then load_plugins r
      else match document_of entry with
           | Done plugin =>
               match value_string "schema_version" ""%string plugin with
               | Returns v => if str_eqb v schema_version
                              then set "manifest_path" (J_string (file_name entry)) plugin :: load_plugins r
                              else load_plugins r
               | Throws _ => load_plugins r
               end
           | Raised _ => load_plugins r
           end
  end.

Definition is_stationary (p : Settings) (now : Z) (s : VehicleOpsApi) : bool :=
  let command_recent := negb (command_received_ s =? 0) &&
    dle (chrono_seconds (now - command_received_ s)) (command_timeout_seconds_ p) in
  negb (command_recent &&
    (dlt (stationary_linear_threshold_ p) (dabs (Vector3.x (Twist.linear (latest_command_ s)))) ||
     dlt (stationary_angular_threshold_ p) (dabs (Vector3.z (Twist.angular (latest_command_ s)))))).

Definition is_recording (s : VehicleOpsApi) : bool :=
  match message (episode_ s) with
  | Some m => EpisodeState.state m =? EpisodeState.STATE_RECORDING
  | None => false
  end.
Definition in_shadow_mode (p : Settings) (now : Z) (s : VehicleOpsApi) : bool :=
  match message (system_ s) with
  | Some m => fresh p (age (system_ s) now) && (SystemState.mode m =? SystemState.MODE_VLA_SHADOW)
  | None => false
  end.

Definition changes_runtime (job_type : string) : bool :=
  str_eqb job_type "policy.runtime_switch" || str_eqb job_type "policy.model_activate".

(** the critical section of [jobs_create] *)
Definition runtime_gate (p : Settings) (now : Z) (s : VehicleOpsApi) : option HttpResponse :=
  if negb (in_shadow_mode p now s) then Some (error 409 "Policy Runtime changes require VLA_SHADOW mode")
  else if is_open (active_debug_ s) then
    Some (error 409 "Stop the active debug session before changing Policy Runtime")
  else if is_recording s then Some (error 409 "Stop episode recording before changing Policy Runtime")
  else if negb (is_stationary p now s) then Some (error 409 "Vehicle command is not stationary")
  else None.

(** the action descriptor of a manifest against the active mobility plugin *)
Definition mobility_gate (f : ModelFiles) (action_schema : string) : Result (option HttpResponse) :=
  match active_mobility f with
  | None => Done (Some (error 409 "Activate a compatible mobility plugin before activating this model"))
  | Some (Raised _) => Done (Some (error 409 "Active mobility plugin metadata is invalid"))
  | Some (Done active) =>
      let? accepts := json (mobility_plugin_accepts active action_schema) in
      if accepts then Done None
      else
        let? available := plugins f in
        let? recommended := json (recommended_mobility_plugins available action_schema) in
        let? name := json (value_string "plugin_id" "the active mobility plugin"%string active) in
        Done (Some (error 409
          ("Model action schema " ++ action_schema ++ " is incompatible with " ++ name ++
           match recommended with [] => "" | first :: _ => "; recommended plugin: " ++ first end)%string))
  end.

Definition activation_gate (f : ModelFiles) (input : JsonValue) : Result (option HttpResponse) :=
  let? parameters := json (value_json "parameters" (J_object []) input) in
  let? provider := json (value_string "provider" ""%string parameters) in
  let? version := json (value_string "version" ""%string parameters) in
  if negb (str_eqb provider "smolvla") || str_empty version || str_has "/" version || str_has backslash version
  then Done (Some (error 400 "Invalid model activation request"))
  else match manifest f version with
       | None => Done None
       | Some (Raised _) => Done (Some (error 409 "Model manifest is invalid"))
       | Some (Done m) =>
           match member "action" m with
           | None | Some J_null => Done None
           | Some (J_object _ as action) =>
               let? schema := json (value_string "schema" ""%string action) in
               if str_empty schema then Done (Some (error 409 "Model action descriptor has no schema"))
               else mobility_gate f schema
           | Some _ => Done (Some (error 409 "Model action descriptor must be an object"))
           end
       end.

(** [jobs_create]; [create] is [JobManager::create], [None] when it is not called *)
Definition job_gates (p : Settings) (f : ModelFiles) (now : Z) (body : string) (s : VehicleOpsApi)
  : Result (option HttpResponse) :=
  match parse body with
  | Throws _ => Raised (InvalidArgument "Request body must be valid JSON")
  | Returns input =>
      let? job_type := json (value_string "job_type" ""%string input) in
      match (if changes_runtime job_type then runtime_gate p now s else None) with
      | Some r => Done (Some r)
      | None => if str_eqb job_type "policy.model_activate" then activation_gate f input else Done None
      end
  end.

Definition jobs_create (p : Settings) (f : ModelFiles) (create : string -> Result string) (now : Z)
    (body : string) (s : VehicleOpsApi) : Result HttpResponse :=
  match (let? denied := job_gates p f now body s in
         match denied with
         | Some r => Done r
         | None => let? text := create body in Done (MakeResponse 202 json_type text no_store)
         end) with
  | Raised (InvalidArgument what) => Done (error 400 what)
  | Raised (RuntimeError what) => Done (error 409 what)
  | r => r
  end.

Definition job_cancel (cancel : string -> Result (option string)) (job_id : string) : Result HttpResponse :=
  match cancel job_id with
  | Raised (RuntimeError what) => Done (error 409 what)
  | Raised e => Raised e
  | Done (Some text) => Done (MakeResponse 200 json_type text no_store)
  | Done None => Done (error 404 "Job not found")
  end.
End Gate.

(** ** The service as a machine *)
Inductive Event :=
| Message (e : Received) (now : Z)
| Tick (now : Z)
| CreateSession (now : Z) (body : string)
| ControlSession (now : Z) (action : string)
| CommandTeleop (now : Z) (body : string).

Section Machine.
Context `{Nlohmann} `{Rclcpp} (p : Settings).

Definition next (s : VehicleOpsApi) (e : Event) : VehicleOpsApi * list Output :=
  match e with
  | Message m now => (on_message p m now s, [])
  | Tick now => (active_debug_tick now s, [])
  | CreateSession now body => let '(s', _, o) := active_debug_create now body s in (s', o)
  | ControlSession now action => (fst (active_debug_control now action s), [])
  | CommandTeleop now body => (s, snd (teleop_command now body s))
  end.
Definition step (s : VehicleOpsApi) (e : Event) (s' : VehicleOpsApi) (o : list Output) : Prop :=
  next s e = (s', o).
Definition starts (s : VehicleOpsApi) : Prop := s = initial.

(** *** Teleoperation *)

(** an error, by an exception or a response *)
Definition refused (r : Result HttpResponse) : Prop :=
  (exists e, r = Raised e) \/ exists code text, r = Done (error code text) /\ code <> 200.
Lemma refused_error code text : code <> 200 -> refused (Done (error code text)).
Proof. intros Hc. right. by eexists _, _. Qed.
Lemma refused_raised e : refused (Raised e).
Proof. left. by eexists. Qed.

(** C7: A command that the service publishes was sent by the holder of the
    active lease the service knows: the lease is active and its identifier and
    controller are the command's; the command has a sequence number, is valid
    for 50 to 300 ms, overrides the obstacle guard only while the dead man's
    switch is held, and its two values are finite and at most 1 in magnitude
    before they become [float]s.  Nothing else is published, and it is published
    exactly when the answer says it was accepted. *)
Theorem teleop_commands_are_authorised now body s r o :
  teleop_command now body s = (r, o) ->
  match o with
  | [PublishTeleop m] =>
      (exists lease, message (control_lease_ s) = Some lease /\ ControlLease.active lease = true /\
         ControlLease.lease_id lease = TeleopCommand.lease_id m /\
         ControlLease.controller_id lease = TeleopCommand.controller_id m) /\
      TeleopCommand.sequence m <> 0 /\
      sec (TeleopCommand.valid_for m) = 0 /\ 50000000 <= nanosec (TeleopCommand.valid_for m) <= 300000000 /\
      (TeleopCommand.manual_obstacle_override m = true -> TeleopCommand.deadman m = true) /\
      (exists x y, TeleopCommand.linear_normalized m = to_float x /\ TeleopCommand.angular_normalized m = to_float y /\
         isfinite x = true /\ isfinite y = true /\
         dlt (of_int 1) (dabs x) = false /\ dlt (of_int 1) (dabs y) = false) /\
      exists text, r = Done (success text "")
  | [] => refused r
  | _ => False
  end.
Proof.
  unfold teleop_command, parsed, invalid_body.
  destruct (parse body) as [input|e]; [|intros [= <- <-]; by apply refused_error].
  destruct (command_arguments input) as [c|e] eqn:Ec; [|intros [= <- <-]; apply refused_raised].
  destruct (valid_arguments c) eqn:Ev; cbn [negb]; [|intros [= <- <-]; by apply refused_error].
  destruct (holds_lease c s) eqn:Eh; cbn [negb]; [|intros [= <- <-]; by apply refused_error].
  intros [= <- <-]. unfold holds_lease in Eh. destruct (message (control_lease_ s)) as [lease|]; [|done].
  unfold valid_arguments in Ev. reflect_bools. destruct_and! Eh. destruct_and! Ev.
  assert (Hv : 50 <= valid_for_ms c <= 300).
  { unfold command_arguments in Ec. repeat (apply obind_returns in Ec as (? & _ & Ec)).
    injection Ec as <-. simpl. unfold clamp.
    repeat match goal with |- context [?a <? ?b] => destruct (Z.ltb_spec a b) end; lia. }
  cbn [teleop_message TeleopCommand.lease_id TeleopCommand.controller_id TeleopCommand.sequence
    TeleopCommand.valid_for TeleopCommand.manual_obstacle_override TeleopCommand.deadman
    TeleopCommand.linear_normalized TeleopCommand.angular_normalized sec nanosec].
  unfold wrap32, wrap. rewrite (Z.div_small _ 1000), (Z.mod_small _ 1000) by lia.
  rewrite Z.mod_small by lia. split_and!; try done; try lia.
  - by exists lease.
  - by intros [? _]%andb_true_iff.
  - exists (linear c), (angular c). by split_and!.
  - by eexists.
Qed.

(** *** The active debug session *)
Definition statuses : list string :=
  ["IDLE"; "RUNNING"; "PAUSED"; "STOPPED"; "TIMED_OUT"; "SUCCEEDED"; "FAILED"]%string.

Record session_ok (a : ActiveDebugSession) : Prop := {
  status_ok : status a ∈ statuses;
  steps_ok : 0 <= steps a <= max_steps a;
  max_steps_ok : 1 <= max_steps a <= 10000;
  duration_ok : dle (of_int 1) (max_duration_seconds a) = true /\ dle (max_duration_seconds a) (of_int 3600) = true }.

Lemma in_statuses st : str_in st statuses = true -> st ∈ statuses.
Proof. apply str_in_spec. Qed.

Lemma no_session_ok : session_ok no_session.
Proof. split; simpl; [by apply in_statuses|lia|lia|by split; vm_compute]. Qed.

(** the JSON numbers are numbers *)
Definition numbers : Prop := forall v x, get_double v = Returns x -> is_nan x = false.

Lemma value_number key d input x :
  numbers -> is_nan d = false -> value get_double key d input = Returns x -> is_nan x = false.
Proof.
  intros Hn Hd. unfold value. destruct input; try done. destruct (find_member key members); [apply Hn|].
  by intros [= <-].
Qed.

Lemma clamp_bounds v lo hi : lo <= hi -> lo <= clamp v lo hi <= hi.
Proof. intros Hl. unfold clamp. destruct (Z.ltb_spec v lo); [lia|]. destruct (Z.ltb_spec hi v); lia. Qed.

Lemma read_options_ok input a :
  numbers -> session_ok a -> steps a = 0 -> session_ok (fst (read_options input a)).
Proof.
  intros Hn [S1 S2 S3 S4] Hz. unfold read_options.
  destruct (value get_int _ _ _) as [n|]; [|by split].
  pose proof (clamp_bounds n 1 10000 ltac:(lia)) as Hc.
  destruct (value get_double "max_duration_seconds" _ _) as [x|] eqn:Ex;
    [|split; simpl; rewrite ?Hz; done || lia].
  pose proof (dclamp_bounds x (of_int 1) (of_int 3600) (value_number "max_duration_seconds" (of_int 60) input x Hn eq_refl Ex) eq_refl) as Hd.
  destruct (value get_double "hz" _ _); [|split; simpl; rewrite ?Hz; done || lia].
  destruct (value_string _ _ _); split; simpl; rewrite ?Hz; done || lia.
Qed.

Lemma close_session_ok st reason now a : st ∈ statuses -> session_ok a -> session_ok (close_session st reason now a).
Proof. by intros Hs []; split. Qed.

Lemma judge_ok now stages a : session_ok a -> session_ok (judge now stages a).
Proof.
  intros Ha. induction stages as [|stage r IH]; [done|]. simpl.
  destruct (reports_completion stage); [by apply close_session_ok; [apply in_statuses|]|].
  destruct (reports_failure stage); [by apply close_session_ok; [apply in_statuses|]|done].
Qed.

Lemma judge_fields now stages a :
  steps (judge now stages a) = steps a /\ last_observation_id (judge now stages a) = last_observation_id a /\
  max_duration_seconds (judge now stages a) = max_duration_seconds a.
Proof.
  induction stages as [|stage r IH]; [done|]. simpl.
  destruct (reports_completion stage); [done|]. by destruct (reports_failure stage).
Qed.

Lemma take_step_ok now trace a : session_ok a -> steps a < max_steps a -> session_ok (take_step now trace a).
Proof.
  intros [S1 S2 S3 S4] Hs. unfold take_step. destruct (_ && _); [done|]. destruct (_ || _); [done|].
  apply judge_ok. split; simpl; done || lia.
Qed.

Lemma wait_failed_ok now elapsed a : session_ok a -> session_ok (wait_failed now elapsed a).
Proof.
  intros Ha. unfold wait_failed. destruct (dle _ _); [|done].
  by apply close_session_ok; [apply in_statuses|].
Qed.

Lemma tick_session_ok now trace a : session_ok a -> session_ok (tick_session now trace a).
Proof.
  intros Ha. unfold tick_session. destruct (negb _); [done|].
  destruct (dle _ _); [by apply close_session_ok; [apply in_statuses|]|].
  destruct (Z.leb_spec (max_steps a) (steps a)); [by apply close_session_ok; [apply in_statuses|]|].
  destruct trace as [trace|].
  - destruct (waiting_for_task_observation a); [|by apply take_step_ok].
    destruct (_ || _); [by apply wait_failed_ok|]. apply take_step_ok; [|done]. by destruct Ha; split.
  - destruct (waiting_for_task_observation a); [by apply wait_failed_ok|done].
Qed.

Lemma on_message_session m now s : active_debug_ (on_message p m now s) = active_debug_ s.
Proof.
  destruct m; try done. simpl. unfold on_image. destruct (_ || _); [done|].
  by destruct (sample_image m) as [[] ?].
Qed.

Lemma create_ok now body s :
  numbers -> session_ok (active_debug_ s) ->
  session_ok (active_debug_ (fst (fst (active_debug_create now body s)))).
Proof.
  intros Hn Ha. unfold active_debug_create. destruct (parse body) as [input|]; [|done].
  destruct (value_string _ _ _) as [t|]; [|done]. destruct (str_empty t); [done|].
  destruct (is_open _); [done|].
  pose proof (read_options_ok input (fresh_session now t s) Hn) as Hr.
  destruct (read_options _ _) as [a []]; apply Hr; try done;
    (split; simpl; [by apply in_statuses|lia|lia|by split; vm_compute]).
Qed.

Lemma control_ok now action s :
  session_ok (active_debug_ s) -> session_ok (active_debug_ (fst (active_debug_control now action s))).
Proof.
  intros Ha. unfold active_debug_control. destruct (str_eqb (status _) "IDLE"); [done|].
  destruct (_ && _); [by destruct Ha; split; try apply in_statuses|].
  destruct (_ && _); [by destruct Ha; split; try apply in_statuses|].
  destruct (_ && _); [by apply close_session_ok; [apply in_statuses|]|done].
Qed.

Lemma next_session_ok s e s' o :
  numbers -> session_ok (active_debug_ s) -> next s e = (s', o) -> session_ok (active_debug_ s').
Proof.
  intros Hn Ha. destruct e as [m now|now|now body|now action|now body]; simpl; intros E.
  - injection E as <- _. by rewrite on_message_session.
  - injection E as <- _. by apply tick_session_ok.
  - pose proof (create_ok now body s Hn Ha) as Hc.
    destruct (active_debug_create now body s) as [[s1 r] o1]. by injection E as <- _.
  - injection E as <- _. by apply control_ok.
  - by injection E as <- _.
Qed.

(** C34: Whatever is received and requested, the session is in one of its seven
    states with at most [max_steps] steps, itself between 1 and 10000, and a
    duration between one second and one hour; and a running session ends at the
    first tick of the timer an hour after its start at the latest. *)
Theorem active_debug_is_bounded s now :
  numbers -> reachable step starts s ->
  session_ok (active_debug_ s) /\
  (status (active_debug_ s) = "RUNNING"%string ->
   dle (of_int 3600) (chrono_seconds (now - started (active_debug_ s))) = true ->
   status (active_debug_ (active_debug_tick now s)) = "TIMED_OUT"%string).
Proof.
  intros Hn Hs.
  assert (Ha : session_ok (active_debug_ s)).
  { revert s Hs. apply reachable_invariant; [intros ? ->; apply no_session_ok|].
    intros a e b o _ Ha E. by eapply next_session_ok. }
  split; [done|]. intros Hr He. simpl. unfold tick_session. rewrite Hr. cbn [negb str_eqb String.eqb].
  rewrite (dle_trans _ _ _ (proj2 (duration_ok _ Ha)) He). done.
Qed.

(** A tick counts a step only for an observation that is new: not the one
    counted last, paced by the frequency, and, for the first one, other than
    the one before the session and carrying the session's task.  It counts at
    most one, and only while the session runs and below its limit. *)
Theorem steps_count_new_observations now trace a :
  let a' := tick_session now trace a in
  steps a' = steps a \/
  steps a' = steps a + 1 /\ status a = "RUNNING"%string /\ steps a < max_steps a /\
  exists t, trace = Some t /\ PipelineTrace.observation_id t <> ""%string /\
    PipelineTrace.observation_id t <> last_observation_id a /\
    last_observation_id a' = PipelineTrace.observation_id t /\
    (last_step a = 0 \/ dlt (chrono_seconds (now - last_step a)) (ddiv (of_int 1) (frequency_hz a)) = false) /\
    (waiting_for_task_observation a = true ->
       PipelineTrace.observation_id t <> baseline_observation_id a /\
       observation_task (PipelineTrace.stages t) = task a).
Proof.
  cbv zeta. unfold tick_session.
  destruct (str_eqb (status a) "RUNNING") eqn:Er; cbn [negb]; [|by left]. apply str_eqb_spec in Er.
  destruct (dle _ _); [by left|]. destruct (Z.leb_spec (max_steps a) (steps a)); [by left|].
  assert (Hwait : forall elapsed, steps (wait_failed now elapsed a) = steps a)
    by (intros e; unfold wait_failed; by destruct (dle _ _)).
  assert (Hstep : forall t b, steps b = steps a -> last_observation_id b = last_observation_id a ->
    last_step b = last_step a -> frequency_hz b = frequency_hz a ->
    steps (take_step now t b) = steps a \/
    steps (take_step now t b) = steps a + 1 /\ PipelineTrace.observation_id t <> ""%string /\
      PipelineTrace.observation_id t <> last_observation_id a /\
      last_observation_id (take_step now t b) = PipelineTrace.observation_id t /\
      (last_step a = 0 \/ dlt (chrono_seconds (now - last_step a)) (ddiv (of_int 1) (frequency_hz a)) = false)).
  { intros t b E1 E2 E3 E4. unfold take_step. rewrite E1, E2, E3, E4.
    destruct (negb (last_step a =? 0) && _) eqn:Ep; [by left|].
    destruct (_ || _) eqn:Eo; [by left|]. right.
    destruct (judge_fields now (PipelineTrace.stages t)
      (b <| last_observation_id := PipelineTrace.observation_id t |> <| last_trace_id := PipelineTrace.trace_id t |>
         <| last_step := now |> <| steps := steps a + 1 |>)) as (-> & -> & _).
    apply orb_false_iff in Eo as [Eo1 Eo2]. apply str_eqb_neq in Eo2. split_and!; try done.
    - intros E. by rewrite E in Eo1.
    - apply andb_false_iff in Ep as [Ep|Ep]; [left|by right]. apply negb_false_iff in Ep. lia. }
  destruct trace as [t|]; [|left; by destruct (waiting_for_task_observation a)].
  destruct (waiting_for_task_observation a) eqn:Ew.
  - destruct (_ || _) eqn:Eo; [left; apply Hwait|].
    apply orb_false_iff in Eo as [Eo1 Eo2]. apply negb_false_iff in Eo1, Eo2.
    apply andb_true_iff in Eo1 as [_ Eo1]. apply negb_true_iff, str_eqb_neq in Eo1. apply str_eqb_spec in Eo2.
    set (b := a <| waiting_for_task_observation := false |>).
    destruct (Hstep t b eq_refl eq_refl eq_refl eq_refl) as [Hx|(? & ? & ? & ? & ?)]; [left; exact Hx|]. right. split_and!; [done..|]. exists t. by split_and!.
  - destruct (Hstep t a eq_refl eq_refl eq_refl eq_refl) as [?|(? & ? & ? & ? & ?)]; [by left|].
    right. split_and!; [done..|]. exists t. by split_and!.
Qed.

(** [active_debug_create] makes the session before it reads its options: when
    one of them has the wrong type the request is refused, but the session is
    running, its task was not published, and a corrected request is refused
    because a session is already running. *)
Theorem refused_session_runs now body s input t e a now' body' :
  parse body = Returns input -> value_string "task" ""%string input = Returns t -> t <> ""%string ->
  is_open (active_debug_ s) = false ->
  read_options input (fresh_session now t s) = (a, Raised e) ->
  let '(s', r, o) := active_debug_create now body s in
  r = Raised e /\ o = [] /\ status (active_debug_ s') = "RUNNING"%string /\
  let '(s'', r', o') := active_debug_create now' body' s' in refused r' /\ o' = [] /\ s'' = s'.
Proof.
  intros Ep Et Hne Ho Er. unfold active_debug_create at 1. rewrite Ep, Et.
  destruct (str_empty t) eqn:Ee; [by apply str_empty_spec in Ee|]. rewrite Ho, Er.
  assert (Hr : status a = "RUNNING"%string).
  { unfold read_options in Er. destruct (value get_int _ _ _); [|by injection Er as <- _].
    destruct (value get_double "max_duration_seconds" _ _); [|by injection Er as <- _].
    destruct (value get_double "hz" _ _); [|by injection Er as <- _].
    destruct (value_string "mode" _ _); [discriminate Er|by injection Er as <- _]. }
  split_and!; [done|done|done|]. set (s' := s <| active_debug_ := a |>). unfold active_debug_create.
  destruct (parse body') as [input'|]; [|split_and!; [by apply refused_error|done|done]].
  destruct (value_string _ _ input') as [t'|]; [|split_and!; [by apply refused_raised|done|done]].
  destruct (str_empty t'); [split_and!; [by apply refused_error|done|done]|].
  unfold is_open. simpl. rewrite Hr. simpl. split_and!; [by apply refused_error|done|done].
Qed.

(** *** The history of traces *)
Definition apart (l : list PipelineTrace.PipelineTraceMsg) : Prop :=
  forall i a b, l !! i = Some a -> l !! S i = Some b -> PipelineTrace.trace_id a <> PipelineTrace.trace_id b.

Record history_ok (s : VehicleOpsApi) : Prop := {
  history_length : (List.length (pipeline_history_ s) <= history_limit)%nat;
  history_head : head (pipeline_history_ s) = pipeline_trace_ s;
  history_apart : apart (pipeline_history_ s) }.

Lemma length_take_le_limit (l : list PipelineTrace.PipelineTraceMsg) :
  (List.length (take history_limit l) <= history_limit)%nat.
Proof. rewrite length_take. lia. Qed.

Lemma apart_take n l : apart l -> apart (take n l).
Proof. intros Ha i a b Hi Hj. apply lookup_take_Some in Hi as [Hi _], Hj as [Hj _]. by eapply Ha. Qed.

Lemma apart_cons m l :
  apart l -> (forall a, head l = Some a -> PipelineTrace.trace_id m <> PipelineTrace.trace_id a) -> apart (m :: l).
Proof.
  intros Ha Hm [|i] a b; [|apply Ha]. intros [= <-] Hb. apply Hm. by destruct l.
Qed.

Lemma on_trace_history m now s : history_ok s -> history_ok (on_trace m now s).
Proof.
  intros [H1 H2 H3]. unfold on_trace.
  destruct (pipeline_history_ s) as [|front rest] eqn:E; [split; simpl|].
  - unfold history_limit. lia.
  - done.
  - apply apart_cons; [by intros i a b|done].
  - destruct (str_eqb _ _) eqn:Eid; split; simpl.
    + done.
    + done.
    + apply str_eqb_spec in Eid. apply apart_cons.
      * intros i a b Hi Hj. by apply (H3 (S i)).
      * intros a Ha. rewrite <- Eid. apply (H3 0%nat); [done|]. by destruct rest.
    + apply (length_take_le_limit (m :: front :: rest)).
    + done.
    + apply str_eqb_neq in Eid. apply (apart_take history_limit (m :: front :: rest)), apart_cons; [done|].
      intros a [= <-]. congruence.
Qed.

Lemma history_same s s' :
  pipeline_history_ s' = pipeline_history_ s -> pipeline_trace_ s' = pipeline_trace_ s -> history_ok s -> history_ok s'.
Proof. intros E1 E2 []. split; by rewrite ?E1, ?E2. Qed.

Lemma on_message_history m now s : history_ok s -> history_ok (on_message p m now s).
Proof.
  intros Hs. destruct m; try (by apply (history_same s)); [by apply on_trace_history|].
  simpl. unfold on_image. destruct (_ || _); [by apply (history_same s)|].
  destruct (sample_image m) as [[] ?]. by apply (history_same s).
Qed.

Lemma next_history s e s' o : history_ok s -> next s e = (s', o) -> history_ok s'.
Proof.
  intros Hs. destruct e as [m now|now|now body|now action|now body]; simpl; intros E.
  - injection E as <- _. by apply on_message_history.
  - injection E as <- _. by apply (history_same s).
  - destruct (active_debug_create now body s) as [[s1 r] o1] eqn:Ec. injection E as <- _.
    unfold active_debug_create in Ec. repeat (case_match; try by simplify_eq); simplify_eq; by apply (history_same s).
  - injection E as <- _. unfold active_debug_control. repeat case_match; try done; by apply (history_same s).
  - by injection E as <- _.
Qed.

(** The history shows at most the 30 latest traces, newest first: its head
    is the trace that is shown live, a trace that is sent again replaces itself,
    and no two neighbours have the same identifier. *)
Theorem history_is_recent s :
  reachable step starts s ->
  (List.length (pipeline_history_ s) <= 30)%nat /\ head (pipeline_history_ s) = pipeline_trace_ s /\
  apart (pipeline_history_ s).
Proof.
  intros Hs.
  assert (Hh : history_ok s).
  { revert s Hs. apply reachable_invariant; [intros ? ->; by split; [simpl; unfold history_limit; lia| |]|].
    intros a e b o _ Ha E. by eapply next_history. }
  by destruct Hh.
Qed.

(** *** Leases *)

(** A lease is requested only for a controller with a plain name, for 3 to
    30 seconds, with limits between 0.02 and 0.4 m/s and between 0.05 and 0.8
    rad/s, never as a remote one; and the request is answered with success only
    when the lease manager granted it. *)
Theorem lease_goals_are_limited available manager body r goal :
  (forall v x, get_float v = Returns x -> is_nan x = false) ->
  teleop_acquire available manager body = (r, Some goal) ->
  available = true /\ valid_controller (goal_controller_id goal) = true /\ source goal = "mobile"%string /\
  3 <= sec (requested_duration goal) <= 30 /\ nanosec (requested_duration goal) = 0 /\ remote goal = false /\
  dle (litf 2 2) (requested_max_linear_velocity goal) = true /\
  dle (requested_max_linear_velocity goal) (litf 4 1) = true /\
  dle (litf 5 2) (requested_max_angular_velocity goal) = true /\
  dle (requested_max_angular_velocity goal) (litf 8 1) = true /\
  (refused r \/ exists text lease, manager goal = Answered (ResultGiven true (Some (true, text, lease)))).
Proof.
  intros Hf. unfold teleop_acquire. destruct (parse body) as [input|]; [|done].
  destruct (value_string _ _ _) as [controller|]; [|done].
  destruct (valid_controller controller) eqn:Ev; cbn [negb]; [|done]. destruct available; cbn [negb]; [|done].
  destruct (obind _ _) as [g|] eqn:Eg; [|done]. intros [= <- <-].
  apply obind_returns in Eg as (d & Hd & Eg). apply obind_returns in Eg as (l & Hl & Eg).
  apply obind_returns in Eg as (a & Ha & [= <-]). simpl.
  assert (Hn : forall key d x, is_nan d = false -> value get_float key d input = Returns x -> is_nan x = false).
  { intros key d0 x Hd0. unfold value. destruct input; try done.
    destruct (find_member key members); [apply Hf|]. by intros [= <-]. }
  pose proof (clamp_bounds d 3 30 ltac:(lia)).
  pose proof (dclamp_bounds l (litf 2 2) (litf 4 1) (Hn "max_linear_velocity"%string (litf 25 2) l eq_refl Hl) eq_refl).
  pose proof (dclamp_bounds a (litf 5 2) (litf 8 1) (Hn "max_angular_velocity"%string (litf 5 1) a eq_refl Ha) eq_refl).
  split_and!; try done; try tauto; try lia.
  destruct (manager _) as [| |[| |succeeded [[[granted text] lease]|]]]; try (left; by apply refused_error).
  destruct succeeded, granted; try (left; by apply refused_error). right. by eexists _, _.
Qed.

(** *** Jobs that change the policy runtime *)

(** what must hold before the policy runtime is changed *)
Definition may_change_runtime (now : Z) (s : VehicleOpsApi) : Prop :=
  in_shadow_mode p now s = true /\ is_open (active_debug_ s) = false /\ is_recording s = false /\
  is_stationary p now s = true.

Lemma runtime_gate_open now s : runtime_gate p now s = None -> may_change_runtime now s.
Proof.
  unfold runtime_gate, may_change_runtime. destruct (in_shadow_mode p now s); [|done].
  destruct (is_open _); [done|]. destruct (is_recording s); [done|]. by destruct (is_stationary p now s).
Qed.

(** the model of a version does not ask for a plugin that is not active *)
Definition model_fits (f : ModelFiles) (version : string) : Prop :=
  match manifest f version with
  | None => True
  | Some (Raised _) => False
  | Some (Done m) =>
      match member "action" m with
      | None | Some J_null => True
      | Some action => exists schema active, value_string "schema" ""%string action = Returns schema /\
          schema <> ""%string /\ active_mobility f = Some (Done active) /\
          mobility_plugin_accepts active schema = Returns true
      end
  end.

Lemma returned_json {A} (o : Outcome A) x : json o = Done x -> o = Returns x.
Proof. destruct o; [|done]. by intros [= ->]. Qed.

(** the provider and the version a request for an activation names *)
Definition activates (input : JsonValue) (provider version : string) : Prop :=
  exists parameters, value_json "parameters" (J_object []) input = Returns parameters /\
    value_string "provider" ""%string parameters = Returns provider /\
    value_string "version" ""%string parameters = Returns version.

Lemma activation_gate_open f input :
  activation_gate f input = Done None ->
  exists version, activates input "smolvla" version /\
    version <> ""%string /\ str_has "/" version = false /\ str_has backslash version = false /\
    model_fits f version.
Proof.
  unfold activation_gate. intros (ps & Hps%returned_json & E)%rbind_done.
  apply rbind_done in E as (provider & Hp%returned_json & E).
  apply rbind_done in E as (version & Hv%returned_json & E). exists version.
  destruct (_ || _) eqn:Eb; [done|]. reflect_bools. destruct_and! Eb. subst provider.
  split_and!; [by exists ps|by intros ->|done|done|]. unfold model_fits. destruct (manifest f version) as [[m|]|]; try done.
  destruct (member "action" m) as [[]|]; try done.
  apply rbind_done in E as (schema & Hs & E). unfold json in Hs.
  destruct (value_string "schema" "" _) as [t|] eqn:Ev; [|done]. injection Hs as ->.
  destruct (str_empty schema) eqn:Ee; [done|]. unfold mobility_gate in E.
  destruct (active_mobility f) as [[active|]|]; try done.
  apply rbind_done in E as (b & Hb & E). unfold json in Hb.
  destruct (mobility_plugin_accepts active schema) as [b'|] eqn:Em; [|done]. injection Hb as ->.
  destruct b; [|exfalso; by repeat (apply rbind_done in E as (? & _ & E))].
  exists schema, active. split_and!; try done. by intros ->.
Qed.

(** C28: A job that switches the policy runtime or activates a model is created
    only while the vehicle is known to be in VLA_SHADOW, no debug session is
    open, no episode is recorded and the last command was not a motion; and an
    activation names the provider [smolvla] and a version that is one directory
    name, and goes on only if the active mobility plugin accepts the action
    schema of the manifest of that very version (if there is one that has an
    action).  Whenever this does not hold [JobManager::create] is
    not called. *)
Theorem runtime_changes_are_gated f create now body s input t :
  parse body = Returns input -> value_string "job_type" ""%string input = Returns t ->
  changes_runtime t = true ->
  (may_change_runtime now s /\
   (t = "policy.model_activate"%string ->
      exists version, activates input "smolvla" version /\
        version <> ""%string /\ str_has "/" version = false /\ str_has backslash version = false /\
        model_fits f version)) \/
  (forall create', jobs_create p f create now body s = jobs_create p f create' now body s).
Proof.
  intros Ep Et Hc.
  destruct (job_gates p f now body s) as [[r|]|e] eqn:Eg.
  - right. intros create'. unfold jobs_create. by rewrite Eg.
  - left. unfold job_gates in Eg. rewrite Ep, Et in Eg. cbn [json rbind] in Eg. rewrite Hc in Eg.
    destruct (runtime_gate p now s) eqn:Er; [done|]. split; [by apply runtime_gate_open|].
    intros ->. by apply (activation_gate_open f input).
  - right. intros create'. unfold jobs_create. by rewrite Eg.
Qed.
End Machine.

(** ** Witnesses *)
Definition demo_command : JsonValue :=
  J_object [("lease_id", J_string "L1"); ("controller_id", J_string "phone"); ("sequence", J_integer 1);
            ("deadman", J_bool true); ("linear", J_number (lit 5 1))]%string.
Definition demo_session (max_steps : JsonValue) : JsonValue :=
  J_object [("task", J_string "dock"); ("max_steps", max_steps)]%string.
Definition demo_lease_request : JsonValue := J_object [("controller_id", J_string "phone"); ("duration_seconds", J_integer 99)]%string.
Definition demo_switch : JsonValue := J_object [("job_type", J_string "policy.runtime_switch")]%string.
Definition demo_activation : JsonValue :=
  J_object [("job_type", J_string "policy.model_activate");
            ("parameters", J_object [("provider", J_string "smolvla"); ("version", J_string "v1")])]%string.
Definition finite_number (v : JsonValue) : Outcome double :=
  match v with J_number x => if isfinite x then Returns x else type_error | _ => type_error end.
Definition nlohmann_ops : Nlohmann := {|
  dump _ := Returns "{}"%string;
  dump_indent _ _ := Returns "{}"%string;
  parse t := if str_eqb t "command" then Returns demo_command
             else if str_eqb t "session" then Returns (demo_session (J_integer 3))
             else if str_eqb t "bad session" then Returns (demo_session (J_string "3"))
             else if str_eqb t "lease" then Returns demo_lease_request
             else if str_eqb t "switch" then Returns demo_switch
             else if str_eqb t "activate" then Returns demo_activation
             else Throws "parse_error";
  get_int v := match v with J_integer z => Returns z | _ => type_error end;
  get_uint32 v := match v with J_integer z => Returns z | _ => type_error end;
  get_uint64 v := match v with J_integer z => Returns z | _ => type_error end;
  get_float := finite_number; get_double := finite_number
|}.
Lemma finite_number_not_nan v x : finite_number v = Returns x -> is_nan x = false.
Proof.
  destruct v as [| | |y| | |]; try done. simpl. destruct (isfinite y) eqn:E; [|done]. intros [= <-].
  by apply isfinite_not_nan.
Qed.

Definition demo_settings : Settings :=
  MakeSettings (of_int 3) (of_int 2) (lit 5 1) (lit 5 1) (lit 2 2) (lit 5 2).
Definition demo_lease : ControlLease.ControlLeaseMsg :=
  ControlLease.zero <| ControlLease.lease_id := "L1"%string |> <| ControlLease.controller_id := "phone"%string |>
    <| ControlLease.active := true |>.
Definition demo_state : VehicleOpsApi :=
  initial <| control_lease_ := update demo_lease 1000 |>
    <| system_ := update (SystemState.zero <| SystemState.mode := SystemState.MODE_VLA_SHADOW |>) 1000 |>.

Lemma teleop_commands_are_authorised_witness :
  exists m, snd (@teleop_command nlohmann_ops rclcpp_doc 2000 "command" demo_state) = [PublishTeleop m] /\
    TeleopCommand.sequence m <> 0.
Proof.
  pose proof (@teleop_commands_are_authorised nlohmann_ops rclcpp_doc 2000 "command" demo_state _ _ (surjective_pairing _)) as E.
  eexists. split; [vm_compute; reflexivity|]. revert E. cbv zeta.
  vm_compute. intros (_ & E & _). exact E.
Defined.

Lemma active_debug_is_bounded_witness :
  exists s, reachable (@step nlohmann_ops rclcpp_doc demo_settings) starts s /\
    status (active_debug_ s) = "RUNNING"%string /\
    status (active_debug_ (@active_debug_tick nlohmann_ops 4000000000000 s)) = "TIMED_OUT"%string.
Proof.
  exists (fst (@next nlohmann_ops rclcpp_doc demo_settings initial (CreateSession 1000 "session"))).
  assert (Hr : reachable (@step nlohmann_ops rclcpp_doc demo_settings) starts
    (fst (@next nlohmann_ops rclcpp_doc demo_settings initial (CreateSession 1000 "session")))).
  { eapply reach_step; [apply reach_init; reflexivity|apply surjective_pairing]. }
  split; [exact Hr|split; [vm_compute; reflexivity|]].
  apply (@active_debug_is_bounded nlohmann_ops rclcpp_doc demo_settings);
    [exact finite_number_not_nan|exact Hr|vm_compute; reflexivity|vm_compute; reflexivity].
Defined.

Lemma refused_session_runs_witness :
  snd (@active_debug_create nlohmann_ops 1000 "bad session" demo_state) = [] /\
  status (active_debug_ (fst (fst (@active_debug_create nlohmann_ops 1000 "bad session" demo_state)))) = "RUNNING"%string.
Proof.
  pose proof (@refused_session_runs nlohmann_ops 1000 "bad session" demo_state (demo_session (J_string "3")) "dock"
    (JsonError "type_error") (fresh_session 1000 "dock" demo_state) 2000 "session"
    eq_refl eq_refl ltac:(discriminate) eq_refl eq_refl) as E.
  revert E. destruct (@active_debug_create nlohmann_ops 1000 "bad session" demo_state) as [[s r] o].
  intros (_ & Ho & Hs & _). split; [exact Ho|exact Hs].
Defined.

Definition demo_trace (n : string) : PipelineTrace.PipelineTraceMsg :=
  PipelineTrace.zero <| PipelineTrace.trace_id := n |>.
Definition demo_traces : VehicleOpsApi := on_trace (demo_trace "t2") 2 (on_trace (demo_trace "t1") 1 initial).

Lemma history_is_recent_witness :
  (List.length (pipeline_history_ demo_traces) <= 30)%nat /\ head (pipeline_history_ demo_traces) = Some (demo_trace "t2").
Proof.
  assert (Hr : reachable (@step nlohmann_ops rclcpp_doc demo_settings) starts demo_traces).
  { apply (reach_step _ _ (on_trace (demo_trace "t1") 1 initial) (Message (TraceReceived (demo_trace "t2")) 2) _ []);
      [|reflexivity].
    apply (reach_step _ _ initial (Message (TraceReceived (demo_trace "t1")) 1) _ []); [|reflexivity].
    apply reach_init. reflexivity. }
  destruct (@history_is_recent nlohmann_ops rclcpp_doc demo_settings demo_traces Hr) as (H1 & H2 & _).
  split; [exact H1|exact H2].
Defined.

Definition demo_manager (g : LeaseGoal) : ServiceAnswer LeaseAnswer :=
  Answered (ResultGiven true (Some (true, "granted"%string, demo_lease))).

Lemma lease_goals_are_limited_witness :
  exists goal, snd (@teleop_acquire nlohmann_ops true demo_manager "lease") = Some goal /\
    sec (requested_duration goal) <= 30.
Proof.
  eexists. split; [vm_compute; reflexivity|].
  refine (proj2 (proj1 (proj2 (proj2 (proj2 (@lease_goals_are_limited nlohmann_ops true demo_manager "lease"
    (fst (@teleop_acquire nlohmann_ops true demo_manager "lease")) _ finite_number_not_nan _)))))).
  vm_compute. reflexivity.
Defined.

(** two versions whose manifests ask for different schemas, one accepted *)
Definition demo_files : ModelFiles :=
  MakeFiles (fun v => Some (Done (J_object [("action", J_object [("schema", J_string ("schema." ++ v))])]%string)))
    (Some (Done (J_object [("accepts", J_array [J_object [("schema", J_string "schema.v1")]])]%string))) (Done []).

Lemma runtime_changes_are_gated_witness :
  may_change_runtime demo_settings 2000 demo_state /\
  (exists version, activates demo_activation "smolvla" version /\ model_fits demo_files version) /\
  ~ model_fits demo_files "v2".
Proof.
  destruct (@runtime_changes_are_gated nlohmann_ops demo_settings demo_files (fun _ => Done "created"%string) 2000 "activate"
    demo_state demo_activation "policy.model_activate" eq_refl eq_refl eq_refl) as [[E Ha]|E].
  - split; [exact E|]. split.
    + destruct (Ha eq_refl) as (version & Hv & _ & _ & _ & Hf). by exists version.
    + intros (schema & active & Hs & _ & Hactive & Hacc). vm_compute in Hs. injection Hs as <-.
      vm_compute in Hactive. injection Hactive as <-. vm_compute in Hacc. discriminate Hacc.
  - specialize (E (fun _ => Done "other"%string)). vm_compute in E. discriminate E.
Defined.
