(* ===== verification/VlaDebug.v ===== *)
(** * VLA debug orchestrator

    Models [vehicle_vla_debug/src/vla_debug_orchestrator_node.cpp]: the
    subscriptions, [/vla/debug/capture], which freezes an observation, and
    [/vla/debug/run], which sends a frozen observation to the policy provider,
    previews the mobility conversion of its answer and may execute one short
    command.

    All callbacks of the node are in its default, mutually exclusive callback
    group: although the executor has two threads, no other callback runs before
    one returns, so each is one event.  [request_mode] and [request_safe_stop]
    are never called.  The provider is the class [PolicyTransport]; what a
    callback reads of the file system and the clock is its [World]; what it does
    is its list of [Output]s.  An exception that leaves a callback ends the
    process. *)
From S2P Require Import Prelude Floats Messages PolicyTransport JsonData Json Text.
Local Open Scope Z_scope.
Local Open Scope outcome_scope.

(** ** JSON access of this node *)

(** [v[key] = x] *)
Definition assign (key : string) (x v : JsonValue) : Outcome JsonValue :=
  match v with
  | J_object _ | J_null => Returns (set key x v)
  | _ => type_error
  end.

(** what a range [for] over [v] visits *)
Definition json_elements (v : JsonValue) : list JsonValue :=
  match v with
  | J_array l => l
  | J_object members => map snd members
  | J_null => []
  | _ => [v]
  end.

(** [v[index]] for an [index] below [v.size()] *)
Definition json_at (v : JsonValue) (index : nat) : Outcome JsonValue :=
  match v with
  | J_array l => match l !! index with Some x => Returns x | None => type_error end
  | _ => type_error
  end.

Definition json_empty (v : JsonValue) : bool := json_size v =? 0.

(** ** State *)
Record Settings := MakeSettings {
  artifact_root_ : string;
  project_root_ : string;
  observation_timeout_ : double;
  command_timeout_ : double;
  stationary_linear_threshold_ : double;
  stationary_angular_threshold_ : double;
  require_shadow_mode_ : bool;
  provider_busy_retry_count_ : nat;
  provider_busy_retry_delay_ : Z;         (* milliseconds *)
  max_snapshots_ : nat }.

Abbreviation Observation := PolicyObservation.PolicyObservationMsg.

Record VlaDebugOrchestrator {T : Type} := MakeOrchestrator {
  sequence_ : Z;
  latest_observation_ : option Observation;
  observation_received_at_ : Z;
  system_state_ : option SystemState.SystemStateMsg;
  latest_command_ : Twist;
  command_received_at_ : Z;
  snapshots_ : gmap string Observation;
  snapshot_order_ : list string;
  transport_ : T }.
Arguments VlaDebugOrchestrator T : clear implicits.
#[export] Instance eta_orchestrator {T} : Eta (VlaDebugOrchestrator T) := fun s =>
  MakeOrchestrator T (sequence_ s) (latest_observation_ s) (observation_received_at_ s) (system_state_ s)
    (latest_command_ s) (command_received_at_ s) (snapshots_ s) (snapshot_order_ s) (transport_ s).

Definition initial {T} (transport : T) : VlaDebugOrchestrator T :=
  MakeOrchestrator T 0 None 0 None Twist.zero 0 ∅ [] transport.

(** the two services' messages *)
Record CaptureRequest := MakeCapture {
  task_override : string;
  use_image_override : bool;
  image_override : CompressedImage.CompressedImageMsg;
  image_source_name : string }.
Record CaptureResponse := MakeCaptured {
  c_accepted : bool;
  c_run_id : string;
  c_directory : string;
  c_observation_json : string;
  c_message : string }.
Record RunRequest := MakeRun {
  run_id : string;
  stage : string;
  mobility_plugin_id : string;
  execute_command : bool;
  operator_confirmation : string;
  execution_duration_ms : Z }.
Record RunResponse := MakeRan {
  r_accepted : bool;
  r_result_json : string;
  r_processed_image_path : string;
  r_message : string }.

Definition capture_refused (message : string) : CaptureResponse := MakeCaptured false "" "" "" message.
Definition run_refused (message : string) : RunResponse := MakeRan false "" "" message.

(** a file or image written, or only opened when its text could not be printed *)
Inductive Output :=
| PublishedCommand (m : TwistStamped)
| Slept (milliseconds : Z)
| CreatedDirectory (path : string)
| WroteText (path text : string)
| WroteBytes (path : string) (data : list Z)
| OpenedFile (path : string).

(** a directory entry of [config/mobility/plugins], in the iterator's order *)
Record PluginFile := MakePluginFile { is_regular : bool; extension : string; content : string }.

(** What one callback finds outside: the plugin directory (when it is one), the
    text an [ifstream] of a path delivers (none when it cannot be opened), the
    failure of [create_directories]; and the clock where a callback reads it
    at different moments. *)
Record World := MakeWorld {
  plugin_directory : option (list PluginFile);
  file_text : string -> string;
  directory_failure : option string;
  asked_at : Z;
  commanded_at : Z;
  stopped_at : Z }.

(** ** The two parameters of [std::regex_search]

    [name:\s*(class+)]: the first place where the name is followed, after white
    space, by characters of the class. *)
Fixpoint take_while (c : ascii -> bool) (s : string) : string :=
  match s with
  | String x r => if c x then String x (take_while c r) else ""
  | EmptyString => ""
  end.
Definition setting_here (name : string) (c : ascii -> bool) (s : string) : option string :=
  if str_prefix name s then
    let found := take_while c (skip_spaces (str_drop (String.length name) s)) in
    if str_empty found then None else Some found
  else None.
Fixpoint setting (name : string) (c : ascii -> bool) (s : string) : option string :=
  match setting_here name c s with
  | Some found => Some found
  | None => match s with EmptyString => None | String _ r => setting name c r end
  end.

Definition is_alpha (c : ascii) : bool :=
  (65 <=? code c) && (code c <=? 90) || (97 <=? code c) && (code c <=? 122).
Definition number_char (c : ascii) : bool :=
  is_digit c || existsb (Ascii.eqb c) ["e"; "E"; "+"; "."; "-"]%char.
Definition word_char (c : ascii) : bool := is_alpha c || Ascii.eqb c "_"%char.

(** [std::stod] of such a text: a decimal number, correctly rounded; it throws
    when there is no digit, on overflow and below the smallest normal number *)
Fixpoint digits_value (s : string) (acc : Z) : Z :=
  match s with
  | String c r => digits_value r (acc * 10 + (code c - 48))
  | EmptyString => acc
  end.
Definition strip_sign (s : string) : bool * string :=
  match s with
  | String c r => if Ascii.eqb c "-"%char then (true, r) else if Ascii.eqb c "+"%char then (false, r) else (false, s)
  | EmptyString => (false, s)
  end.
Definition exponent_of (s : string) : Z :=
  match s with
  | String c r =>
      if Ascii.eqb c "e"%char || Ascii.eqb c "E"%char then
        let '(negative, r) := strip_sign r in
        let e := digits_value (take_while is_digit r) 0 in
        if negative then - e else e
      else 0
  | EmptyString => 0
  end.
(** [n / d], rounded once *)
Definition quotient (s : bool) (n d : positive) : double :=
  let '(m, e, l) := SFdiv_core_binary 53 1024 (Zpos n) 0 (Zpos d) 0 in binary_round_aux 53 1024 s m e l.
Definition ten_to (x : Z) : positive := match x with Zpos k => Pos.pow 10 k | _ => 1 end.
(** [n * 10^x] *)
Definition decimal (s : bool) (n x : Z) : double :=
  match n with
  | Zpos p => quotient s (p * ten_to x) (ten_to (- x))
  | _ => S754_zero s
  end.
Definition smallest_normal : double := S754_finite false 4503599627370496 (-1074).
Definition stod (s : string) : option double :=
  let '(negative, r) := strip_sign s in
  let whole := take_while is_digit r in
  let r := str_drop (String.length whole) r in
  let '(fraction, r) :=
    match r with
    | String c t => if Ascii.eqb c "."%char then (take_while is_digit t, str_drop (String.length (take_while is_digit t)) t)
                    else (""%string, r)
    | EmptyString => (""%string, r)
    end in
  if str_empty whole && str_empty fraction then None
  else
    let n := digits_value (whole ++ fraction) 0 in
    let x := decimal negative n (exponent_of r - Z.of_nat (String.length fraction)) in
    if n =? 0 then Some x
    else if isfinite x && dle smallest_normal (dabs x) then Some x else None.

(** ** The operations *)
Section VlaDebug.
Context `{Rclcpp} `{Nlohmann} {T W : Type} `{PolicyTransport T W}.
(** [std::tan] *)
Variable tan : double -> double.
Variable p : Settings.

Definition time_ns (t : Time) : Z := sec t * 1000000000 + nanosec t.

Definition make_run_id (now : Z) (s : VlaDebugOrchestrator T) : string * VlaDebugOrchestrator T :=
  let s := s <| sequence_ := wrap64 (sequence_ s + 1) |> in
  ("vla-debug-" ++ to_string now ++ "-" ++ to_string (sequence_ s), s)%string.

(** the states, as many as the shortest of the three vectors *)
Fixpoint states_json (keys : list string) (values : list float32) (valid : list bool) : list JsonValue :=
  match keys, values, valid with
  | k :: kr, v :: vr, b :: br =>
      J_object [("key", J_string k); ("value", J_number (to_double v)); ("valid", J_bool b)]%string ::
      states_json kr vr br
  | _, _, _ => []
  end.
(** the images with their keys, [unknown] when the keys are too few *)
Fixpoint with_keys (keys : list string) (images : list CompressedImage.CompressedImageMsg)
  : list (string * CompressedImage.CompressedImageMsg) :=
  match images with
  | [] => []
  | image :: r => (default "unknown"%string (head keys), image) :: with_keys (tail keys) r
  end.
Definition image_json (e : string * CompressedImage.CompressedImageMsg) : JsonValue :=
  J_object [("key", J_string (fst e)); ("format", J_string (CompressedImage.format (snd e)));
    ("bytes", J_integer (Z.of_nat (List.length (CompressedImage.data (snd e)))))]%string.

Definition observation_json (o : Observation) (id : string) : JsonValue :=
  J_object [("schema_version", J_string "vehicle.vla.debug.observation.v1"); ("run_id", J_string id);
    ("observation_id", J_string (PolicyObservation.observation_id o));
    ("task", J_string (PolicyObservation.task o));
    ("generated_at_ns", J_integer (time_ns (PolicyObservation.generated_at o)));
    ("images", J_array (map image_json (with_keys (PolicyObservation.image_keys o) (PolicyObservation.images o))));
    ("state", J_array (states_json (PolicyObservation.state_keys o) (PolicyObservation.state o)
       (PolicyObservation.state_valid o)))]%string.

Definition transport_input (o : Observation) (id : string) (now : Z) : PolicyObservationInput :=
  MakeInput id (PolicyObservation.schema_version o) (PolicyObservation.task o)
    (time_ns (PolicyObservation.generated_at o)) (now + 60000000000)
    (map (fun e => PolicyTransport.MakeImage (fst e) (CompressedImage.format (snd e)) (CompressedImage.data (snd e)))
       (with_keys (PolicyObservation.image_keys o) (PolicyObservation.images o)))
    (PolicyObservation.state_keys o) (PolicyObservation.state o) (PolicyObservation.state_valid o).

Definition has_mode (mode : Z) (s : VlaDebugOrchestrator T) : bool :=
  match system_state_ s with Some m => SystemState.mode m =? mode | None => false end.

Definition is_moving (now : Z) (s : VlaDebugOrchestrator T) : bool :=
  (0 <? command_received_at_ s) && dle (seconds (now - command_received_at_ s)) (command_timeout_ p) &&
  (dlt (stationary_linear_threshold_ p) (dabs (Vector3.x (Twist.linear (latest_command_ s)))) ||
   dlt (stationary_angular_threshold_ p) (dabs (Vector3.z (Twist.angular (latest_command_ s))))).

(** the reason it is not safe, if there is one *)
Definition safe_to_debug (allow_motion : bool) (now : Z) (s : VlaDebugOrchestrator T) : option string :=
  let shadow_mode := has_mode SystemState.MODE_VLA_SHADOW s in
  let assisted_mode := has_mode SystemState.MODE_VLA_ASSISTED s in
  if require_shadow_mode_ p && bool_decide (system_state_ s = None) then
    Some "Vehicle system state is unavailable"%string
  else if require_shadow_mode_ p && negb shadow_mode && negb assisted_mode then
    Some "VLA debug requires VLA_SHADOW or VLA_ASSISTED mode"%string
  else if require_shadow_mode_ p && allow_motion && negb assisted_mode then
    Some "Single-step execution requires VLA_ASSISTED mode"%string
  else if is_moving now s then Some "Vehicle command is not stationary"%string
  else None.

(** *** capture *)

(** the override of the first image; [None] when it is no JPEG *)
Definition is_jpeg_format (format : string) : bool :=
  str_eqb format "jpeg" || str_eqb format "jpg" || str_contains "jpeg" format.
Definition with_stamp (now : Z) (m : CompressedImage.CompressedImageMsg) : CompressedImage.CompressedImageMsg :=
  m <| CompressedImage.header := Header.Make (to_msg now) (Header.frame_id (CompressedImage.header m)) |>.
Definition override_image (r : CaptureRequest) (now : Z) (o : Observation) : option Observation :=
  if negb (use_image_override r) then Some o
  else
    let image := image_override r in
    if negb (is_jpeg_format (CompressedImage.format image)) || (List.length (CompressedImage.data image) =? 0)%nat
    then None
    else Some match PolicyObservation.images o with
      | [] => o <| PolicyObservation.images := [with_stamp now image] |>
                <| PolicyObservation.image_keys := PolicyObservation.image_keys o ++ ["observation.images.front"%string] |>
      | _ :: rest => o <| PolicyObservation.images := with_stamp now image :: rest |>
      end.

(** the loop that drops the oldest snapshots *)
Fixpoint drop_oldest (excess : nat) (order : list string) (snapshots : gmap string Observation)
  : list string * gmap string Observation :=
  match excess, order with
  | S n, oldest :: rest => drop_oldest n rest (delete oldest snapshots)
  | _, _ => (order, snapshots)
  end.

(** the critical section of [capture]: the snapshot kept, or the refusal *)
Definition freeze (r : CaptureRequest) (now : Z) (s : VlaDebugOrchestrator T)
  : string + string * Observation * VlaDebugOrchestrator T :=
  match safe_to_debug false now s, latest_observation_ s with
  | Some reason, _ => inl reason
  | None, None => inl "A fresh PolicyObservation is required"%string
  | None, Some latest =>
      if dlt (observation_timeout_ p) (seconds (now - observation_received_at_ s)) then
        inl "A fresh PolicyObservation is required"%string
      else match override_image r now latest with
      | None => inl "Uploaded debug image must be a non-empty JPEG"%string
      | Some snapshot =>
          let snapshot :=
            if str_empty (task_override r) then snapshot
            else snapshot <| PolicyObservation.task := task_override r |> in
          if str_empty (PolicyObservation.task snapshot) then inl "Task text is required"%string
          else
            let '(id, s) := make_run_id now s in
            let order := snapshot_order_ s ++ [id] in
            let '(order, kept) :=
              drop_oldest (List.length order - max_snapshots_ p) order (<[id := snapshot]> (snapshots_ s)) in
            inr (id, snapshot, s <| snapshots_ := kept |> <| snapshot_order_ := order |>)
      end
  end.

Definition metadata (r : CaptureRequest) (snapshot : Observation) (id : string) : JsonValue :=
  set "image_source_name"
    (J_string (if use_image_override r then str_take 128 (image_source_name r) else ""))
    (set "input_source" (J_string (if use_image_override r then "upload" else "camera"))
       (observation_json snapshot id)).

(** the response, or the exception that leaves the callback *)
Definition capture (r : CaptureRequest) (now : Z) (w : World) (s : VlaDebugOrchestrator T)
  : VlaDebugOrchestrator T * Outcome CaptureResponse * list Output :=
  match freeze r now s with
  | inl reason => (s, Returns (capture_refused reason), [])
  | inr (id, snapshot, s) =>
      let directory := path_join (artifact_root_ p) id in
      match directory_failure w with
      | Some failure => (s, Throws failure, [])
      | None =>
          let data := metadata r snapshot id in
          let file := path_join directory "observation.json" in
          match dump_indent 2 data with
          | Throws e => (s, Throws e, [CreatedDirectory directory; OpenedFile file])
          | Returns text =>
              let written := [CreatedDirectory directory; WroteText file (text ++ newline)%string] ++
                match PolicyObservation.images snapshot with
                | image :: _ => [WroteBytes (path_join directory "camera-original.jpg") (CompressedImage.data image)]
                | [] => []
                end in
              match dump data with
              | Throws e => (s, Throws e, written)
              | Returns text =>
                  (s, Returns (MakeCaptured true id directory text
                    (if use_image_override r
                     then "Uploaded image snapshot captured; no control command was published"
                     else "Observation snapshot captured; no control command was published")), written)
              end
          end
      end
  end.
(** *** apply_mobility_plugin *)
Definition matches_id (id : string) (candidate : JsonValue) : bool :=
  match value_string "id" "" candidate with Returns found => str_eqb found id | Throws _ => false end.
Fixpoint find_manifest (id : string) (entries : list PluginFile) : JsonValue :=
  match entries with
  | [] => J_null
  | entry :: r =>
      if is_regular entry && str_eqb (extension entry) ".json" then
        match parse (content entry) with
        | Returns candidate => if matches_id id candidate then candidate else find_manifest id r
        | Throws _ => find_manifest id r
        end
      else find_manifest id r
  end.

Definition not_found (id : string) : JsonValue :=
  J_object [("plugin_id", J_string id); ("compatible", J_bool false);
    ("message", J_string "Mobility plugin manifest not found")]%string.

(** the schema, the feature names and the actions of the interpreted output;
    the older [twist_actions] are converted *)
Definition convert_twist (action : JsonValue) : Outcome JsonValue :=
  let! linear := value get_double "linear_x" dzero action in
  let! angular := value get_double "angular_z" dzero action in
  Returns (J_object [("values", J_array [J_number linear; J_number angular])]%string).
(** [actions.push_back] of each *)
Definition push_all (more : list JsonValue) (v : JsonValue) : Outcome JsonValue :=
  match more, v with
  | [], _ => Returns v
  | _, J_array l => Returns (J_array (l ++ more))
  | _, J_null => Returns (J_array more)
  | _, _ => type_error
  end.
Definition plugin_input (interpreted : JsonValue) : Outcome (string * JsonValue * JsonValue) :=
  let! input_schema := value_string "action_schema" "" interpreted in
  let! feature_names := value_json "feature_names" (J_array []) interpreted in
  let! actions := value_json "actions" (J_array []) interpreted in
  if str_empty input_schema && bool_decide (is_Some (member "twist_actions" interpreted)) then
    let! twists := value_json "twist_actions" (J_array []) interpreted in
    let! converted := omap_list convert_twist (json_elements twists) in
    let! actions := push_all converted actions in
    Returns ("vehicle.twist_chunk.v1"%string, J_array [J_string "linear_x"; J_string "angular_z"], actions)
  else Returns (input_schema, feature_names, actions).

Fixpoint accepts_schema (schema : string) (accepted : list JsonValue) : Outcome bool :=
  match accepted with
  | [] => Returns false
  | a :: r =>
      let! found := value_string "schema" "" a in
      if str_eqb found schema then Returns true else accepts_schema schema r
  end.

(** the calibration of the Ackermann adapter: wheelbase and meaning of the
    command; an exception keeps what has not been assigned yet *)
Definition parameters_file (w : World) (manifest : JsonValue) : Outcome string :=
  let! name := value_string "parameters_file" "" manifest in
  Returns (file_text w (path_join (project_root_ p) name)).
Definition ackermann_parameters (content : Outcome string) : double * string :=
  let default_wheelbase := lit 32 2 in
  match content with
  | Throws _ => (default_wheelbase, "yaw_rate"%string)
  | Returns content =>
      let semantics := default "yaw_rate"%string (setting "command_semantics:" word_char content) in
      match setting "wheelbase_m:" number_char content with
      | None => (default_wheelbase, semantics)
      | Some found =>
          match stod found with
          | Some wheelbase => (wheelbase, semantics)
          | None => (default_wheelbase, "yaw_rate"%string)
          end
      end
  end.

(** [value_for]: the loop over the feature names *)
Fixpoint value_for_from (n index : nat) (feature_names values : JsonValue) (name : string) : Outcome double :=
  match n with
  | O => Returns dzero
  | S n =>
      let! element := json_at feature_names index in
      let! feature := get_string element in
      if str_eqb feature name && (Z.of_nat index <? json_size values) then
        let! v := json_at values index in get_double v
      else value_for_from n (S index) feature_names values name
  end.
Definition value_for (feature_names values : JsonValue) (name : string) : Outcome double :=
  value_for_from (Z.to_nat (json_size feature_names)) 0 feature_names values name.

Definition yaw_of_steering (wheelbase speed steering : double) : double :=
  if dlt (lit 1 9) (dabs wheelbase) then ddiv (dmul speed (tan steering)) wheelbase else dzero.
(** the first of two names with a value other than zero *)
Definition first_of (feature_names values : JsonValue) (name other : string) : Outcome double :=
  let! v := value_for feature_names values name in
  if deq v dzero then value_for feature_names values other else Returns v.

Definition convert_action (adapter : string) (wheelbase : double) (semantics : string)
    (feature_names action : JsonValue) : Outcome JsonValue :=
  let! values := value_json "values" (J_array []) action in
  let! (linear, angular) :=
    if str_eqb adapter "ackermann" then
      let! speed := value_for feature_names values "speed_mps" in
      let! steering := value_for feature_names values "steering_angle_rad" in
      Returns (speed, if str_eqb semantics "steering_angle" then steering
                      else yaw_of_steering wheelbase speed steering)
    else
      let! linear := first_of feature_names values "linear_x" "linear_x_mps" in
      let! angular := first_of feature_names values "angular_z" "angular_z_radps" in
      Returns (linear, angular) in
  Returns (J_object [("linear_x", J_number linear); ("angular_z", J_number angular)]%string).

Definition plugin_header (id input_schema : string) (compatible : bool) (manifest : JsonValue)
  : Outcome JsonValue :=
  let! plugin_id := value_string "id" id manifest in
  let! version := value_string "version" "" manifest in
  let! adapter := value_string "runtime_adapter" "" manifest in
  let! actuator := value_json "actuator" (J_object []) manifest in
  let! output_type := value_string "output_type" "" actuator in
  Returns (J_object [("plugin_id", J_string plugin_id); ("plugin_version", J_string version);
    ("runtime_adapter", J_string adapter); ("input_schema", J_string input_schema);
    ("compatible", J_bool compatible); ("output_type", J_string output_type);
    ("commands", J_array [])]%string).

(** the conversion by a manifest that was found *)
Definition plugin_result (w : World) (id : string) (manifest result : JsonValue) : Outcome JsonValue :=
  let! interpreted := value_json "interpreted_output" (J_object []) result in
  let! (input_schema, feature_names, actions) := plugin_input interpreted in
  let! accepted := value_json "accepts" (J_array []) manifest in
  let! compatible := accepts_schema input_schema (json_elements accepted) in
  let! header := plugin_header id input_schema compatible manifest in
  if negb compatible then
    Returns (set "message" (J_string "Selected mobility plugin does not accept this action schema") header)
  else
    let! adapter := value_string "runtime_adapter" "" manifest in
    let '(wheelbase, semantics) :=
      if str_eqb adapter "ackermann" then ackermann_parameters (parameters_file w manifest)
      else (lit 32 2, "yaw_rate"%string) in
    let header :=
      if str_eqb adapter "ackermann" then
        set "command_semantics" (J_string semantics) (set "wheelbase_m" (J_number wheelbase) header)
      else header in
    let! commands := omap_list (convert_action adapter wheelbase semantics feature_names) (json_elements actions) in
    Returns (set "message" (J_string "Mobility plugin conversion preview; no command was published")
      (set "commands" (J_array commands) header)).

Definition apply_mobility_plugin (w : World) (id : string) (result : JsonValue) : Outcome JsonValue :=
  let manifest := find_manifest id (default [] (plugin_directory w)) in
  if json_empty manifest then assign "mobility_plugin" (not_found id) result
  else
    let! plugin := plugin_result w id manifest result in
    assign "mobility_plugin" plugin result.

(** *** execute_command *)
Definition stamped (at_ : Z) (v w : double) : TwistStamped :=
  TwistStamped.Make (Header.Make (to_msg at_) "base_link") (Twist.planar v w).
Definition speed_limit : double := lit 15 2.
Definition turn_limit : double := lit 5 1.
Definition clamp_duration (ms : Z) : Z :=
  let ms := if ms =? 0 then 150 else ms in
  if ms <? 50 then 50 else if 300 <? ms then 300 else ms.

Definition not_executed (message : string) : JsonValue :=
  J_object [("executed", J_bool false); ("message", J_string message)]%string.

(** whether it executed, the report, and what it published; it throws, if at
    all, before it publishes *)
Definition execute (result : JsonValue) (requested : Z) (w : World) (s : VlaDebugOrchestrator T)
  : Outcome (bool * JsonValue * list Output) :=
  let! plugin := value_json "mobility_plugin" (J_object []) result in
  let! commands := value_json "commands" (J_array []) plugin in
  let! compatible := value_bool "compatible" false plugin in
  if negb compatible || json_empty commands then
    Returns (false, not_executed "No compatible mobility command is available", [])
  else
    let command := default J_null (head (json_elements commands)) in
    let! linear := value get_double "linear_x" dzero command in
    let! angular := value get_double "angular_z" dzero command in
    let v := dclamp linear (dneg speed_limit) speed_limit in
    let w' := dclamp angular (dneg turn_limit) turn_limit in
    let duration := clamp_duration requested in
    if negb (has_mode SystemState.MODE_VLA_ASSISTED s) then
      Returns (false, not_executed "Enter VLA_ASSISTED single-step mode before executing", [])
    else
      Returns (true,
        J_object [("executed", J_bool true); ("duration_ms", J_integer duration);
          ("command", J_object [("linear_x", J_number v); ("angular_z", J_number w')]);
          ("control_mode", J_string "VLA_ASSISTED"); ("returned_to_shadow", J_bool false)]%string,
        [PublishedCommand (stamped (commanded_at w) v w'); Slept duration;
         PublishedCommand (stamped (stopped_at w) dzero dzero)]).

(** *** run *)
Definition provider_busy (message : string) : bool := str_contains "provider is busy" message.

(** the retry loop: [tries] more attempts after this one; [ws] is what the world
    contributes to the successive calls *)
Fixpoint debug_loop (tries : nat) (ws : nat -> W) (input : PolicyObservationInput) (id stage : string)
    (t : T) : T * Outcome PolicyDebugResult * list Output :=
  let '(t, outcome) := debug (ws tries) input id stage t in
  match outcome with
  | Returns result => (t, Returns result, [])
  | Throws message =>
      match tries with
      | S tries =>
          if provider_busy message then
            let '(t, outcome, slept) := debug_loop tries ws input id stage t in
            (t, outcome, Slept (provider_busy_retry_delay_ p) :: slept)
          else (t, Throws message, [])
      | O => (t, Throws message, [])
      end
  end.

Definition known_stage (stage : string) : string :=
  if str_eqb stage "preprocess" then "preprocess"
  else if str_eqb stage "inference" then "inference" else "".

(** the plugin of the request, or the active one *)
Definition active_plugin (w : World) : string :=
  match obind (parse (file_text w (path_join (project_root_ p) "run/config/mobility.json")))
          (value_string "plugin_id" "") with
  | Returns id => id
  | Throws _ => ""
  end.
Definition no_plugin : JsonValue :=
  J_object [("plugin_id", J_string ""); ("compatible", J_bool false);
    ("message", J_string "No active mobility plugin is configured"); ("commands", J_array [])]%string.
Definition with_mobility (w : World) (r : RunRequest) (result : JsonValue) : Outcome JsonValue :=
  let id := if str_empty (mobility_plugin_id r) then active_plugin w else mobility_plugin_id r in
  if str_empty id then assign "mobility_plugin" no_plugin result
  else apply_mobility_plugin w id result.

Definition preview_only : JsonValue := not_executed "Preview only; no vehicle command was published".

(** after the single step: the artifacts and the answer *)
Definition artifacts_json (directory stage : string) (image : list Z) : JsonValue :=
  J_object [("directory", J_string directory); ("original_image", J_string "camera-original.jpg");
    ("processed_image", J_string (match image with [] => "" | _ => "camera-processed.jpg" end));
    ("result", J_string (stage ++ ".json"))]%string.
Definition finish (r : RunRequest) (stage : string) (image : list Z) (result : JsonValue)
  : RunResponse * list Output :=
  let directory := path_join (artifact_root_ p) (run_id r) in
  let file := path_join directory (stage ++ ".json") in
  let processed := match image with [] => ""%string | _ => path_join directory "camera-processed.jpg" end in
  match assign "artifacts" (artifacts_json directory stage image) result with
  | Throws e => (run_refused e, [])
  | Returns result =>
      match dump_indent 2 result with
      | Throws e => (run_refused e, [OpenedFile file])
      | Returns text =>
          let written := WroteText file (text ++ newline)%string ::
            match image with [] => [] | _ => [WroteBytes processed image] end in
          match dump result with
          | Throws e => (MakeRan true "" "" e, written)
          | Returns text =>
              (MakeRan true text processed (stage ++ (if execute_command r
                 then " completed; single-step command was sent through the safety chain"
                 else " completed in preview-only mode"))%string, written)
          end
      end
  end.

(** with the provider's answer converted *)
Definition conclude (r : RunRequest) (stage : string) (image : list Z) (result : JsonValue) (w : World)
    (s : VlaDebugOrchestrator T) : RunResponse * list Output :=
  if execute_command r then
    match execute result (execution_duration_ms r) w s with
    | Throws e => (run_refused e, [])
    | Returns (executed, execution, published) =>
        match assign "single_step_execution" execution result with
        | Throws e => (run_refused e, published)
        | Returns result =>
            if executed then
              let '(response, written) := finish r stage image result in (response, published ++ written)
            else match dump result with
              | Throws e => (run_refused e, published)
              | Returns text =>
                  (MakeRan false text "" (match value_string "message" "Single-step command was not executed" execution with
                     | Returns m => m | Throws e => e end), published)
              end
        end
    end
  else
    match assign "single_step_execution" preview_only result with
    | Throws e => (run_refused e, [])
    | Returns result => finish r stage image result
    end.

Definition run (r : RunRequest) (now : Z) (w : World) (ws : nat -> W) (s : VlaDebugOrchestrator T)
  : VlaDebugOrchestrator T * RunResponse * list Output :=
  let stage := known_stage (stage r) in
  if str_empty stage then (s, run_refused "Stage must be preprocess or inference", [])
  else if execute_command r && negb (str_eqb stage "inference") then
    (s, run_refused "Only the inference stage can execute a single command", [])
  else if execute_command r && negb (str_eqb (operator_confirmation r) "I_CONFIRM_SINGLE_STEP") then
    (s, run_refused "Explicit single-step confirmation is required", [])
  else match safe_to_debug (execute_command r) now s, snapshots_ s !! run_id r with
  | Some reason, _ => (s, run_refused reason, [])
  | None, None => (s, run_refused "Debug snapshot not found", [])
  | None, Some snapshot =>
      let '(t, outcome, slept) := debug_loop (provider_busy_retry_count_ p) ws
        (transport_input snapshot (run_id r) (asked_at w)) (run_id r) stage (transport_ s) in
      let s := s <| transport_ := t |> in
      match obind outcome (fun answer => obind (parse (d_result_json answer)) (fun result =>
              obind (with_mobility w r result) (fun result => Returns (answer, result)))) with
      | Throws e => (s, run_refused e, slept)
      | Returns (answer, result) =>
          let '(response, outputs) := conclude r stage (d_processed_image_jpeg answer) result w s in
          (s, response, slept ++ outputs)
      end
  end.

(** *** The node *)
Inductive Event :=
| ObservationReceived (m : Observation) (now : Z)
| SystemReceived (m : SystemState.SystemStateMsg)
| CommandReceived (m : Twist) (now : Z)
| Capture (r : CaptureRequest) (now : Z) (w : World)
| Run (r : RunRequest) (now : Z) (w : World) (ws : nat -> W).

Definition handle (s : VlaDebugOrchestrator T) (e : Event) : VlaDebugOrchestrator T * list Output :=
  match e with
  | ObservationReceived m now => (s <| latest_observation_ := Some m |> <| observation_received_at_ := now |>, [])
  | SystemReceived m => (s <| system_state_ := Some m |>, [])
  | CommandReceived m now => (s <| latest_command_ := m |> <| command_received_at_ := now |>, [])
  | Capture r now w => let '(s, _, outputs) := capture r now w s in (s, outputs)
  | Run r now w ws => let '(s, _, outputs) := run r now w ws s in (s, outputs)
  end.

End VlaDebug.

(** ** Frozen snapshots *)
Section Snapshots.
Context `{Rclcpp} `{Nlohmann} {T W : Type} `{PolicyTransport T W}.
Variable tan : double -> double.
Variable p : Settings.

Definition run_name (now n : Z) : string := ("vla-debug-" ++ to_string now ++ "-" ++ to_string n)%string.

Lemma last_dash_unique a1 a2 b1 b2 :
  str_has "-" b1 = false -> str_has "-" b2 = false ->
  (a1 ++ String "-" b1 = a2 ++ String "-" b2)%string -> b1 = b2.
Proof.
  assert (forall a b, str_has "-" (a ++ String "-" b) = true) as Hd.
  { intros a b. induction a as [|x r IH]; [done|]. simpl.
    rewrite IH. apply orb_true_r. }
  intros Hb1 Hb2. revert a2. induction a1 as [|x a1 IH]; intros [|y a2] E; simpl in E.
  - by injection E.
  - injection E as <- ->. by rewrite Hd in Hb1.
  - injection E as -> <-. by rewrite Hd in Hb2.
  - injection E as -> E. by apply (IH a2).
Qed.

Lemma to_string_no_dash n : 0 <= n -> str_has "-" (to_string n) = false.
Proof.
  intros Hn. unfold to_string. rewrite (proj2 (Z.ltb_ge _ _) Hn).
  by apply base_digits_no_dash.
Qed.

Lemma run_name_inj now now' n n' : 0 <= n -> 0 <= n' -> run_name now n = run_name now' n' -> n = n'.
Proof.
  intros Hn Hn' E. injection E as E. apply last_dash_unique in E; [|by apply to_string_no_dash..].
  by apply to_string_inj in E.
Qed.

(** the snapshot one event freezes, with its identifier *)
Definition frozen (s : VlaDebugOrchestrator T) (e : Event (W := W)) : list (string * Observation) :=
  match e with
  | Capture r now w => match freeze p r now s with inl _ => [] | inr (id, snapshot, _) => [(id, snapshot)] end
  | _ => []
  end.
Fixpoint all_frozen (s : VlaDebugOrchestrator T) (es : list (Event (W := W))) : list (string * Observation) :=
  match es with
  | [] => []
  | e :: r => frozen s e ++ all_frozen (fst (handle tan p s e)) r
  end.

(** the last [max_snapshots_] of them *)
Definition kept (l : list (string * Observation)) : list (string * Observation) :=
  drop (List.length l - max_snapshots_ p) l.

Lemma freeze_inv r now (s : VlaDebugOrchestrator T) id snapshot s' :
  freeze p r now s = inr (id, snapshot, s') ->
  id = run_name now (wrap64 (sequence_ s + 1)) /\ sequence_ s' = wrap64 (sequence_ s + 1) /\
  (snapshot_order_ s', snapshots_ s') =
    drop_oldest (List.length (snapshot_order_ s ++ [id]) - max_snapshots_ p) (snapshot_order_ s ++ [id])
      (<[id := snapshot]> (snapshots_ s)) /\ transport_ s' = transport_ s.
Proof.
  unfold freeze. destruct (safe_to_debug p false now s); [done|]. destruct (latest_observation_ s); [|done].
  destruct (dlt _ _); [done|]. destruct (override_image r now _); [|done].
  destruct (str_empty (PolicyObservation.task _)); [done|]. simpl.
  destruct (drop_oldest _ _ _) as [order rest] eqn:E. intros [= <- <- <-]; simpl.
  split_and!; [done|done|by rewrite <- E|done].
Qed.

Lemma drop_oldest_spec n (l : list (string * Observation)) :
  NoDup (l.*1) -> drop_oldest n (l.*1) (list_to_map l) = ((drop n l).*1, list_to_map (drop n l)).
Proof.
  revert l. induction n as [|n IH]; intros [|[k v] l] Hnd; try done.
  inversion Hnd as [|? ? Hk Hl]; subst. cbn [fmap list_fmap drop_oldest fst].
  rewrite list_to_map_cons, delete_insert_id; [by apply IH|]. by apply not_elem_of_list_to_map.
Qed.

(** the invariant: the snapshots are the last ones frozen, under new names *)
Definition holds_last (l : list (string * Observation)) (s : VlaDebugOrchestrator T) : Prop :=
  snapshot_order_ s = (kept l).*1 /\ snapshots_ s = list_to_map (kept l) /\ NoDup (l.*1) /\
  Forall (fun e => exists now n, 0 <= n <= sequence_ s /\ fst e = run_name now n) l.

Lemma kept_snoc l e : drop (List.length (kept l ++ [e]) - max_snapshots_ p) (kept l ++ [e]) = kept (l ++ [e]).
Proof.
  unfold kept. rewrite !length_app, length_drop. simpl.
  destruct (decide (List.length l <= max_snapshots_ p)%nat) as [Hl|Hl].
  - replace (List.length l - max_snapshots_ p)%nat with 0%nat by lia. simpl.
    by replace (List.length l - 0 + 1)%nat with (List.length l + 1)%nat by lia.
  - destruct (decide (max_snapshots_ p = 0%nat)) as [Hz|Hz].
    + rewrite Hz, !drop_ge by (rewrite ?length_app, ?length_drop; simpl; lia). done.
    + rewrite !drop_app_le by (rewrite ?length_drop; lia). rewrite drop_drop. f_equal. f_equal. lia.
Qed.

Lemma kept_names l : NoDup (l.*1) -> NoDup ((kept l).*1).
Proof. intros Hl. unfold kept. rewrite fmap_drop. eapply sublist_NoDup; [done|apply sublist_drop]. Qed.

Lemma freeze_holds r now (s : VlaDebugOrchestrator T) id snapshot s' l :
  0 <= sequence_ s < 2 ^ 64 - 1 -> holds_last l s -> freeze p r now s = inr (id, snapshot, s') ->
  holds_last (l ++ [(id, snapshot)]) s'.
Proof.
  intros Hs (Ho & Hm & Hnd & Hn) (Hid & Hseq & Hdrop & _)%freeze_inv.
  rewrite Ho, Hm in Hdrop. rewrite wrap64_succ in Hid, Hseq by lia.
  assert (id ∉ l.*1) as Hnew.
  { intros Hin. apply list_elem_of_fmap in Hin as ([k v] & Hk & Hin). simpl in Hk.
    rewrite Forall_forall in Hn. destruct (Hn _ Hin) as (now' & n & Hle & E). simpl in E.
    rewrite <- Hk, Hid in E. apply run_name_inj in E; lia. }
  assert (NoDup ((l ++ [(id, snapshot)]).*1)) as Hnd'.
  { rewrite fmap_app. apply NoDup_app. split_and!; [done| |repeat constructor; set_solver].
    intros x Hx ->%list_elem_of_singleton. done. }
  assert (NoDup ((kept l ++ [(id, snapshot)]).*1)) as Hnk.
  { rewrite fmap_app. apply NoDup_app. split_and!; [by apply kept_names| |repeat constructor; set_solver].
    intros x Hx ->%list_elem_of_singleton. apply Hnew. unfold kept in Hx. rewrite fmap_drop in Hx.
    by apply (subseteq_drop _ _ _ Hx). }
  assert (<[id:=snapshot]> (list_to_map (kept l)) = list_to_map (M := gmap string Observation) (kept l ++ [(id, snapshot)])) as Hi.
  { rewrite list_to_map_snoc; [done|]. rewrite fmap_app in Hnk.
    apply NoDup_app in Hnk as (_ & Hd & _). intros Hx. apply (Hd _ Hx). simpl. by apply list_elem_of_singleton. }
  rewrite Hi in Hdrop. change [id] with ([(id, snapshot)].*1) in Hdrop. rewrite <- fmap_app, length_fmap in Hdrop.
  rewrite drop_oldest_spec, kept_snoc in Hdrop by done. injection Hdrop as Ho' Hm'.
  unfold holds_last. rewrite Ho', Hm', Hseq. split_and!; [done|done|done|]. apply Forall_app. split.
  - eapply Forall_impl; [done|]. intros e (now' & n & ? & ?). exists now', n. split; [lia|done].
  - repeat constructor. exists now, (sequence_ s + 1). simpl. split; [lia|done].
Qed.

(** events other than captures keep what the invariant speaks of *)
Lemma capture_state r now w (s : VlaDebugOrchestrator T) :
  fst (fst (capture p r now w s)) = match freeze p r now s with inl _ => s | inr (_, _, s') => s' end.
Proof.
  unfold capture. destruct (freeze p r now s) as [|[[id snapshot] s']]; [done|].
  destruct (directory_failure w); [done|]. destruct (dump_indent _ _); [|done]. by destruct (dump _).
Qed.

Lemma run_state r now w ws (s : VlaDebugOrchestrator T) :
  exists t, fst (fst (run tan p r now w ws s)) = s <| transport_ := t |>.
Proof.
  assert (s = s <| transport_ := transport_ s |>) as Hs by (by destruct s).
  unfold run. destruct (str_empty _); [by eexists|]. destruct (_ && _); [by eexists|].
  destruct (_ && _); [by eexists|]. destruct (safe_to_debug _ _ _ _); [by eexists|].
  destruct (_ !! _) as [snapshot|]; [|by eexists]. destruct (debug_loop _ _ _ _ _ _ _) as [[t outcome] slept].
  exists t. destruct (obind _ _) as [[answer result]|]; [|done]. by destruct (conclude _ _ _ _ _ _ _).
Qed.

Lemma handle_holds (s : VlaDebugOrchestrator T) (e : Event (W := W)) l :
  0 <= sequence_ s < 2 ^ 64 - 1 -> holds_last l s ->
  let s' := fst (handle tan p s e) in
  holds_last (l ++ frozen s e) s' /\ sequence_ s <= sequence_ s' <= sequence_ s + 1.
Proof.
  intros Hs Hl. destruct e as [m now|m|m now|r now w|r now w ws]; simpl.
  1-3: rewrite app_nil_r; split; [exact Hl|simpl; lia].
  - pose proof (capture_state r now w s) as Hc. destruct (capture p r now w s) as [[s' response] outputs].
    simpl in *. subst s'. destruct (freeze p r now s) as [|[[id snapshot] s']] eqn:E.
    + rewrite app_nil_r. split; [done|lia].
    + split; [by eapply freeze_holds|]. apply freeze_inv in E as (_ & -> & _). rewrite wrap64_succ; lia.
  - destruct (run_state r now w ws s) as [t Ht].
    destruct (run tan p r now w ws s) as [[s' response] outputs]. simpl in *. subst s'.
    rewrite app_nil_r. split; [exact Hl|simpl; lia].
Qed.

(** C31: From start-up, until 2^64 snapshots have been taken, the stored
    snapshots are exactly the last [max_snapshots_] ones frozen, under pairwise
    different run identifiers: [run] finds each of them, with the observation
    frozen under that identifier, and no older one. *)
Theorem snapshots_are_the_last (t : T) (es : list (Event (W := W))) :
  Z.of_nat (List.length es) < 2 ^ 64 ->
  let s := fst (Prelude.run (handle tan p) (initial t) es) in
  let last := kept (all_frozen (initial t) es) in
  snapshot_order_ s = last.*1 /\ NoDup (snapshot_order_ s) /\
  (forall id snapshot, snapshots_ s !! id = Some snapshot <-> (id, snapshot) ∈ last) /\
  (List.length last <= max_snapshots_ p)%nat.
Proof.
  intros Hes. simpl.
  assert (forall s l, 0 <= sequence_ s -> sequence_ s + Z.of_nat (List.length es) < 2 ^ 64 -> holds_last l s ->
    holds_last (l ++ all_frozen s es) (fst (Prelude.run (handle tan p) s es))) as Hrun.
  { clear Hes. induction es as [|e r IH]; intros s l Hs Hn Hl; simpl; [by rewrite app_nil_r|].
    cbn [List.length] in Hn. destruct (handle_holds s e l) as [Hl' Hs']; [lia|done|].
    destruct (handle tan p s e) as [s1 o1]; simpl in *. rewrite app_assoc.
    specialize (IH s1 _ ltac:(lia) ltac:(lia) Hl'). by destruct (Prelude.run (handle tan p) s1 r). }
  destruct (Hrun (initial t) []) as (Ho & Hm & Hnd & _); [done|simpl; lia| |].
  { split_and!; [done|done|constructor|constructor]. }
  simpl in *. pose proof (kept_names _ Hnd) as Hk. rewrite Ho, Hm. split_and!; [done|done| |].
  - intros id snapshot. by rewrite elem_of_list_to_map.
  - unfold kept. rewrite length_drop. lia.
Qed.

End Snapshots.

(** ** What the node writes *)
Section Writes.
Context `{Rclcpp} `{Nlohmann} {T W : Type} `{PolicyTransport T W}.
Variable tan : double -> double.
Variable p : Settings.

(** the identifiers [debug_image] of the operations service accepts *)
Definition id_char (c : ascii) : bool := is_alpha c || is_digit c || Ascii.eqb c "-"%char.
Fixpoint id_chars (s : string) : bool :=
  match s with EmptyString => true | String c r => id_char c && id_chars r end.
Definition debug_id (id : string) : bool := str_prefix "vla-debug-" id && id_chars id.

Definition artifact_names : list string :=
  ["observation.json"; "camera-original.jpg"; "preprocess.json"; "inference.json"; "camera-processed.jpg"]%string.

(** an output stays below the directory of a debug run *)
Definition confined (o : Output) : Prop :=
  let file path := exists id name, debug_id id = true /\ name ∈ artifact_names /\
    path = path_join (path_join (artifact_root_ p) id) name in
  match o with
  | CreatedDirectory path => exists id, debug_id id = true /\ path = path_join (artifact_root_ p) id
  | WroteText path _ | WroteBytes path _ | OpenedFile path => file path
  | PublishedCommand _ | Slept _ => True
  end.

Lemma id_chars_app s t : id_chars (s ++ t) = id_chars s && id_chars t.
Proof. induction s as [|c s IH]; simpl; [done|]. by rewrite IH, andb_assoc. Qed.

Lemma digits_id_chars b fuel z acc :
  2 <= b <= 16 -> id_chars acc = true -> id_chars (base_digits b fuel z acc) = true.
Proof.
  intros Hb. revert z acc; induction fuel as [|f IH]; intros z acc Ha; [done|].
  cbn [base_digits].
  assert (id_chars (String (digit_char (z mod b)) acc) = true) as Hc.
  { cbn [id_chars]. rewrite Ha, andb_true_r.
    assert (0 <= z mod b < 16) as Hz by (pose proof (Z.mod_pos_bound z b); lia). clear -Hz.
    assert (forallb (fun d => id_char (digit_char (Z.of_nat d))) (seq 0 16) = true) as Hall by reflexivity.
    rewrite forallb_forall in Hall. specialize (Hall (Z.to_nat (z mod b))). rewrite Z2Nat.id in Hall by lia.
    apply Hall, in_seq. lia. }
  destruct (z <? b); [done|]. by apply IH.
Qed.

Lemma to_string_id_chars z : id_chars (to_string z) = true.
Proof.
  unfold to_string, base_string. destruct (z <? 0); [cbn [id_chars String.append]|]; by rewrite ?digits_id_chars.
Qed.

Lemma run_name_debug_id now n : debug_id (run_name now n) = true.
Proof.
  unfold debug_id, run_name. rewrite !id_chars_app, !to_string_id_chars.
  by rewrite (str_prefix_app "vla-debug-" "vla-debug-").
Qed.
Definition under_ids (s : VlaDebugOrchestrator T) : Prop :=
  forall id, is_Some (snapshots_ s !! id) -> debug_id id = true.

Lemma drop_oldest_subset n order (m : gmap string Observation) id :
  is_Some (snd (drop_oldest n order m) !! id) -> is_Some (m !! id).
Proof.
  revert order m. induction n as [|n IH]; intros [|oldest rest] m; simpl; try done.
  intros (snapshot & [_ Hs]%lookup_delete_Some)%IH. by exists snapshot.
Qed.

Lemma freeze_under_ids r now (s : VlaDebugOrchestrator T) id snapshot s' :
  under_ids s -> freeze p r now s = inr (id, snapshot, s') -> debug_id id = true /\ under_ids s'.
Proof.
  intros Hs (-> & _ & Hdrop & _)%freeze_inv.
  split; [apply run_name_debug_id|]. intros id Hid.
  apply (f_equal snd) in Hdrop. simpl in Hdrop. rewrite Hdrop in Hid.
  apply drop_oldest_subset in Hid. destruct (decide (id = run_name now (wrap64 (sequence_ s + 1)))) as [->|Hne].
  - apply run_name_debug_id.
  - rewrite lookup_insert_ne in Hid by done. by apply Hs.
Qed.

(** decides a [confined] output of one of the fixed names *)
Ltac artifact id name :=
  exists id, name; split_and!;
  [assumption|apply list_elem_of_In; simpl; tauto|reflexivity].

Lemma capture_confined r now w (s : VlaDebugOrchestrator T) :
  under_ids s -> let '(s', _, outputs) := capture p r now w s in under_ids s' /\ Forall confined outputs.
Proof.
  intros Hs. unfold capture. destruct (freeze p r now s) as [|[[id snapshot] s']] eqn:E; [by split|].
  apply freeze_under_ids in E as [Hid Hs']; [|done].
  destruct (directory_failure w); [by split|]. destruct (dump_indent _ _); simpl.
  2:{ split; [done|]. repeat constructor; [by exists id|artifact id "observation.json"%string]. }
  assert (Forall confined ([CreatedDirectory (path_join (artifact_root_ p) id);
    WroteText (path_join (path_join (artifact_root_ p) id) "observation.json") (a ++ newline)%string] ++
    match PolicyObservation.images snapshot with
    | image :: _ => [WroteBytes (path_join (path_join (artifact_root_ p) id) "camera-original.jpg") (CompressedImage.data image)]
    | [] => []
    end)) as Hall.
  { apply Forall_app; split.
    - repeat constructor; [by exists id|artifact id "observation.json"%string].
    - destruct (PolicyObservation.images snapshot); repeat constructor. artifact id "camera-original.jpg"%string. }
  by destruct (dump _).
Qed.

Lemma finish_confined r stage image result :
  debug_id (run_id r) = true -> stage = "preprocess"%string \/ stage = "inference"%string ->
  Forall confined (snd (finish p r stage image result)).
Proof.
  intros Hid Hst. unfold finish. destruct (assign _ _ _) as [v|]; [|constructor].
  assert (confined (OpenedFile (path_join (path_join (artifact_root_ p) (run_id r)) (stage ++ ".json")%string)) ) as Hfile.
  { destruct Hst as [-> | ->]; [artifact (run_id r) "preprocess.json"%string|artifact (run_id r) "inference.json"%string]. }
  destruct (dump_indent 2 v) as [text|e]; simpl; [|by repeat constructor].
  assert (Forall confined (WroteText (path_join (path_join (artifact_root_ p) (run_id r)) (stage ++ ".json")%string)
      (text ++ newline)%string :: match image with
    | [] => []
    | _ => [WroteBytes (match image with [] => ""%string
        | _ => path_join (path_join (artifact_root_ p) (run_id r)) "camera-processed.jpg" end) image]
    end)) as Hall.
  { constructor; [exact Hfile|]. destruct image; repeat constructor. artifact (run_id r) "camera-processed.jpg"%string. }
  by destruct (dump v).
Qed.

Lemma execute_confined result requested w (s : VlaDebugOrchestrator T) executed report outputs :
  execute result requested w s = Returns (executed, report, outputs) -> Forall confined outputs.
Proof.
  unfold execute. intros (plugin & _ & E)%obind_returns. apply obind_returns in E as (commands & _ & E).
  apply obind_returns in E as (compatible & _ & E). destruct (_ || _); [injection E as <- <- <-; constructor|].
  apply obind_returns in E as (linear & _ & E). apply obind_returns in E as (angular & _ & E).
  destruct (negb _); injection E as <- <- <-; by repeat constructor.
Qed.

Lemma conclude_confined r stage image result w (s : VlaDebugOrchestrator T) :
  debug_id (run_id r) = true -> stage = "preprocess"%string \/ stage = "inference"%string ->
  Forall confined (snd (conclude p r stage image result w s)).
Proof.
  intros Hid Hst. unfold conclude. destruct (execute_command r).
  - destruct (execute _ _ _ _) as [[[executed report] outputs]|] eqn:E; [|constructor].
    apply execute_confined in E. destruct (assign _ _ _) as [v|]; [|done]. destruct executed; [|by destruct (dump v)].
    pose proof (finish_confined r stage image v Hid Hst) as Hf.
    destruct (finish p r stage image v) as [response written]. by apply Forall_app.
  - destruct (assign _ _ _) as [v|]; [|constructor]. by apply finish_confined.
Qed.

Lemma debug_loop_sleeps tries ws input id stage (t : T) :
  let '(_, _, slept) := debug_loop p tries ws input id stage t in
  slept = replicate (List.length slept) (Slept (provider_busy_retry_delay_ p)).
Proof.
  revert t. induction tries as [|n IH]; intros t; cbn [debug_loop];
    destruct (debug _ input id stage t) as [t1 [result|message]]; [done..| |]; [done|].
  destruct (provider_busy message); [|done]. specialize (IH t1).
  destruct (debug_loop p n ws input id stage t1) as [[t2 outcome] slept]. simpl. by f_equal.
Qed.

Lemma known_stage_cases stage :
  str_empty (known_stage stage) = false -> known_stage stage = "preprocess"%string \/ known_stage stage = "inference"%string.
Proof. unfold known_stage. destruct (str_eqb _ _); [by left|]. destruct (str_eqb _ _); [by right|done]. Qed.

Lemma run_confined r now w ws (s : VlaDebugOrchestrator T) :
  under_ids s -> let '(s', _, outputs) := run tan p r now w ws s in under_ids s' /\ Forall confined outputs.
Proof.
  intros Hs. unfold run. destruct (str_empty (known_stage (stage r))) eqn:Hst; [by split|].
  apply known_stage_cases in Hst. destruct (_ && _); [by split|]. destruct (_ && _); [by split|].
  destruct (safe_to_debug _ _ _ _); [by split|]. destruct (snapshots_ s !! run_id r) as [snapshot|] eqn:Hr; [|by split].
  assert (debug_id (run_id r) = true) as Hid by (apply Hs; by eexists).
  pose proof (debug_loop_sleeps (provider_busy_retry_count_ p) ws (transport_input snapshot (run_id r) (asked_at w))
    (run_id r) (known_stage (stage r)) (transport_ s)) as Hl.
  destruct (debug_loop _ _ _ _ _ _ _) as [[t outcome] slept].
  assert (Forall confined slept) as Hsl by (rewrite Hl; by apply Forall_replicate).
  destruct (obind _ _) as [[answer result]|]; [|by split].
  pose proof (conclude_confined r (known_stage (stage r)) (d_processed_image_jpeg answer) result w
    (s <| transport_ := t |>) Hid Hst) as Hc.
  destruct (conclude _ _ _ _ _ _ _) as [response outputs]. split; [exact Hs|by apply Forall_app].
Qed.

(** Whatever the requests, files are only written below
    [artifact_root_]/<run identifier>, under five fixed names, where the
    identifier starts with [vla-debug-] and consists of letters, digits and
    dashes: the form under which the operations service serves them. *)
Theorem writes_stay_in_the_run_directory (t : T) (es : list (Event (W := W))) :
  Forall confined (snd (Prelude.run (handle tan p) (initial t) es)).
Proof.
  refine (proj2 (run_outputs (handle tan p) under_ids (fun _ => True) confined _ es (initial t) _ _)).
  - intros s e _ Hs. destruct e as [m now|m|m now|r now w|r now w ws]; simpl; try by split; [exact Hs|constructor].
    + pose proof (capture_confined r now w s Hs) as Hc. by destruct (capture p r now w s) as [[s' response] outputs].
    + pose proof (run_confined r now w ws s Hs) as Hc. by destruct (run tan p r now w ws s) as [[s' response] outputs].
  - by apply Forall_true.
  - intros id [snapshot Hid]. simpl in Hid. by rewrite lookup_empty in Hid.
Qed.
End Writes.

(** ** Single steps *)

(** every number of a value is finite, as in what the library has parsed *)
Fixpoint numbers_finite (v : JsonValue) : bool :=
  match v with
  | J_number x => isfinite x
  | J_array l => forallb numbers_finite l
  | J_object members => forallb (fun e => numbers_finite (snd e)) members
  | _ => true
  end.

(** the documented behaviour: JSON has no infinities, a number that does not fit
    is a parse error, and a floating-point value is read as it is *)
Class NlohmannNumbers `{Nlohmann} := {
  parse_finite text v : parse text = Returns v -> numbers_finite v = true;
  get_double_number x y : get_double (J_number x) = Returns y -> y = x;
  get_double_other v y : match v with J_number _ => False | _ => True end ->
    get_double v = Returns y -> isfinite y = true
}.

Lemma find_member_finite key members v :
  forallb (fun e => numbers_finite (snd e)) members = true -> find_member key members = Some v ->
  numbers_finite v = true.
Proof.
  induction members as [|[k x] r IH]; simpl; [done|]. intros [Hx Hr]%andb_true_iff.
  destruct (str_eqb k key); [by intros [= <-]|by apply IH].
Qed.

Lemma json_elements_finite v : numbers_finite v = true -> Forall (fun x => numbers_finite x = true) (json_elements v).
Proof.
  destruct v as [| | | | |l|members]; simpl; intros Hv; try by repeat constructor.
  - apply Forall_forall. intros x Hx%list_elem_of_In. by apply (proj1 (forallb_forall _ _) Hv).
  - induction members as [|e r IH]; simpl in *; [constructor|].
    apply andb_true_iff in Hv as [He Hr]. constructor; [done|by apply IH].
Qed.

Lemma value_json_finite key default v x :
  numbers_finite default = true -> numbers_finite v = true -> value_json key default v = Returns x ->
  numbers_finite x = true.
Proof.
  intros Hd Hv. unfold value_json, value. destruct v as [| | | | | |members]; try done. simpl in Hv.
  destruct (find_member key members) eqn:E; intros [= <-]; [|done]. by eapply find_member_finite.
Qed.

Lemma json_at_finite v i x : numbers_finite v = true -> json_at v i = Returns x -> numbers_finite x = true.
Proof.
  intros Hv%json_elements_finite. destruct v; simpl in *; try done.
  destruct (l !! i) eqn:E; intros [= <-]. rewrite Forall_forall in Hv. by eapply Hv, list_elem_of_lookup_2.
Qed.

(** products of finite numbers, and their quotients by finite numbers other than
    zero, are numbers *)
Lemma dmul_not_nan x y : isfinite x = true -> isfinite y = true -> is_nan (dmul x y) = false.
Proof. destruct x, y; try done. intros _ _. by apply binary_round_aux_not_nan. Qed.

Lemma div_core_nonneg m1 e1 m2 e2 :
  0 <= m1 -> 0 < m2 -> 0 <= fst (fst (SFdiv_core_binary 53 1024 m1 e1 m2 e2)).
Proof.
  intros H1 H2. unfold SFdiv_core_binary.
  set (s := _ - Z.min _ (e1 - e2)).
  assert (0 <= match s with Zpos _ => Z.shiftl m1 s | Z0 => m1 | Zneg _ => 0 end) as Hm.
  { destruct s; [done|by apply Z.shiftl_nonneg|done]. }
  pose proof (Z_div_pos (match s with Zpos _ => Z.shiftl m1 s | Z0 => m1 | Zneg _ => 0 end) m2 ltac:(lia) Hm) as Hq.
  unfold Z.div in Hq. by destruct (Z.div_eucl _ _) as [q r].
Qed.

Lemma ddiv_not_nan x y :
  is_nan x = false -> isfinite y = true -> deq y dzero = false -> is_nan (ddiv x y) = false.
Proof.
  destruct x as [| | |sx mx ex], y as [| | |sy my ey]; try done. intros _ _ _. unfold ddiv, SFdiv.
  pose proof (div_core_nonneg (Zpos mx) ex (Zpos my) ey ltac:(lia) ltac:(lia)) as Hq.
  destruct (SFdiv_core_binary _ _ _ _ _ _) as [[q e] l]. by apply binary_round_aux_not_nan.
Qed.

Lemma stod_finite s x : stod s = Some x -> isfinite x = true.
Proof.
  unfold stod. destruct (strip_sign s) as [negative r]. destruct (match str_drop _ r with String _ _ => _ | _ => _ end) as [fraction r'].
  destruct (_ && _); [done|]. set (n := digits_value _ _). destruct (Z.eqb_spec n 0) as [->|Hn].
  - by intros [= <-].
  - destruct (isfinite _) eqn:E; simpl; [|done]. destruct (dle _ _); by intros [= <-].
Qed.

Section SingleStep.
Context `{Rclcpp} `{NlohmannNumbers} {T W : Type} `{PolicyTransport T W}.
Variable tan : double -> double.
(** no double is a pole of the tangent *)
Hypothesis tan_finite : forall x, isfinite x = true -> isfinite (tan x) = true.
Variable p : Settings.

Lemma get_double_finite v x : numbers_finite v = true -> get_double v = Returns x -> isfinite x = true.
Proof.
  intros Hv Hx. destruct v; try by eapply get_double_other in Hx. apply get_double_number in Hx. by subst.
Qed.

Lemma value_for_from_finite n i names values name x :
  numbers_finite values = true -> value_for_from n i names values name = Returns x -> isfinite x = true.
Proof.
  intros Hv. revert i. induction n as [|n IH]; intros i; cbn [value_for_from]; [by intros [= <-]|].
  intros (e & _ & E)%obind_returns. apply obind_returns in E as (feature & _ & E).
  destruct (_ && _); [|by eapply IH]. apply obind_returns in E as (v & Hat & E).
  eapply get_double_finite; [|done]. by eapply json_at_finite.
Qed.

Lemma first_of_finite names values a b x :
  numbers_finite values = true -> first_of names values a b = Returns x -> isfinite x = true.
Proof.
  intros Hv. unfold first_of, value_for. intros (v & Ha & E)%obind_returns. destruct (deq v dzero).
  - by eapply value_for_from_finite.
  - injection E as <-. by eapply value_for_from_finite.
Qed.

Lemma tiny_positive s : dlt (lit 1 9) (dabs (S754_zero s)) = false.
Proof. by vm_compute. Qed.
Lemma yaw_not_nan wheelbase speed steering :
  isfinite wheelbase = true -> isfinite speed = true -> isfinite steering = true ->
  is_nan (yaw_of_steering tan wheelbase speed steering) = false.
Proof.
  intros Hw Hs Ht. unfold yaw_of_steering. destruct (dlt _ (dabs wheelbase)) eqn:E; [|done].
  apply ddiv_not_nan; [|done|].
  - apply dmul_not_nan; [done|]. by apply tan_finite.
  - destruct wheelbase as [s|s| |s m e]; [|done|done|by destruct s].
    pose proof (tiny_positive s) as Hz. congruence.
Qed.

(** the commands of a conversion are two numbers that can be compared *)
Definition command_ok (v : JsonValue) : Prop :=
  exists l a, v = J_object [("linear_x", J_number l); ("angular_z", J_number a)]%string /\
    is_nan l = false /\ is_nan a = false.

Lemma convert_action_ok adapter wheelbase semantics names action command :
  isfinite wheelbase = true -> numbers_finite action = true ->
  convert_action tan adapter wheelbase semantics names action = Returns command -> command_ok command.
Proof.
  intros Hw Ha. unfold convert_action. intros (values & Hvs & E)%obind_returns.
  apply value_json_finite in Hvs; [|done..]. apply obind_returns in E as ([l a] & E & [= <-]).
  exists l, a. split; [done|]. destruct (str_eqb adapter "ackermann").
  - apply obind_returns in E as (speed & Hs & E). apply obind_returns in E as (steering & Ht & [= <- <-]).
    apply value_for_from_finite in Hs, Ht; [|done..]. split; [by apply isfinite_not_nan|].
    destruct (str_eqb semantics _); [by apply isfinite_not_nan|by apply yaw_not_nan].
  - apply obind_returns in E as (l' & Hl & E). apply obind_returns in E as (a' & Hla & [= <- <-]).
    apply first_of_finite in Hl, Hla; [|done..]. split; by apply isfinite_not_nan.
Qed.

Lemma default_wheelbase_finite : isfinite (lit 32 2) = true.
Proof. by vm_compute. Qed.
Lemma ackermann_finite content : isfinite (fst (ackermann_parameters content)) = true.
Proof.
  pose proof default_wheelbase_finite. unfold ackermann_parameters. cbv zeta.
  destruct content as [content|e]; [|exact H3]. destruct (setting "wheelbase_m:" _ _) as [found|]; [|exact H3].
  destruct (stod found) as [x|] eqn:E; [|exact H3]. exact (stod_finite _ _ E).
Qed.

Lemma push_all_finite more v x :
  Forall (fun y => numbers_finite y = true) more -> numbers_finite v = true ->
  push_all more v = Returns x -> numbers_finite x = true.
Proof.
  intros Hm Hv. assert (forallb numbers_finite more = true) as Hall.
  { apply forallb_forall. intros y Hy%list_elem_of_In. rewrite Forall_forall in Hm. by apply Hm. }
  destruct more as [|m r]; [by intros [= <-]|]. simpl. destruct v; try done; intros [= <-]; simpl in *.
  - done.
  - by rewrite forallb_app, Hv.
Qed.

Lemma convert_twist_finite action v :
  numbers_finite action = true -> convert_twist action = Returns v -> numbers_finite v = true.
Proof.
  intros Ha. unfold convert_twist. intros (l & Hl & E)%obind_returns. apply obind_returns in E as (a & Hla & [= <-]).
  assert (forall key x, value get_double key dzero action = Returns x -> isfinite x = true) as Hd.
  { intros key x. unfold value. destruct action as [| | | | | |members]; try done.
    destruct (find_member key members) eqn:E; [|by intros [= <-]].
    apply get_double_finite. by eapply find_member_finite. }
  simpl. by rewrite (Hd _ _ Hl), (Hd _ _ Hla).
Qed.

Lemma plugin_input_finite interpreted schema names actions :
  numbers_finite interpreted = true -> plugin_input interpreted = Returns (schema, names, actions) ->
  numbers_finite actions = true.
Proof.
  intros Hi. unfold plugin_input. intros (schema' & _ & E)%obind_returns.
  apply obind_returns in E as (names' & _ & E). apply obind_returns in E as (actions' & Ha & E).
  apply value_json_finite in Ha; [|done..]. destruct (_ && _).
  - apply obind_returns in E as (twists & Ht & E). apply value_json_finite in Ht; [|done..].
    apply obind_returns in E as (converted & Hc%omap_list_returns & E).
    apply obind_returns in E as (v & Hp & [= _ _ <-]). refine (push_all_finite converted _ _ _ Ha Hp).
    apply json_elements_finite in Ht. clear -Hc Ht H1.
    induction Hc as [|x y l r Hx _ IH]; constructor; inversion Ht as [|? ? Hx1 Hl1]; subst; [exact (convert_twist_finite x y Hx1 Hx)|exact (IH Hl1)].
  - by injection E as _ _ <-.
Qed.

Lemma returns_inj {A} (a b : A) : Returns a = Returns b -> a = b.
Proof. by intros [= ->]. Qed.

Lemma value_set_set key x other y v default :
  other <> key -> value_json key default (set other y (set key x v)) = Returns x.
Proof.
  intros Hne. unfold value_json, value, set.
  assert (exists members, match v with J_object members => J_object (set_member key x members)
    | _ => J_object [(key, x)] end = J_object (set_member key x members)) as [members ->].
  { destruct v as [| | | | | |members]; try (by exists []). by exists members. }
  by rewrite find_set_other, find_set_member.
Qed.

Lemma assign_value key x v v' default : assign key x v = Returns v' -> value_json key default v' = Returns x.
Proof.
  unfold assign, value_json, value. destruct v as [| | | | | |members]; try done; intros [= <-]; simpl.
  - by rewrite str_eqb_refl.
  - by rewrite find_set_member.
Qed.

(** a manifest lists the schema *)
Definition accepts (manifest : JsonValue) (schema : string) : Prop :=
  exists accepted entry, value_json "accepts" (J_array []) manifest = Returns accepted /\
    entry ∈ json_elements accepted /\ value_string "schema" "" entry = Returns schema.

(** the action schema of a provider's result: the one it names, or the one of the
    older output *)
Definition declares (result : JsonValue) (schema : string) : Prop :=
  exists interpreted named, value_json "interpreted_output" (J_object []) result = Returns interpreted /\
    value_string "action_schema" "" interpreted = Returns named /\
    schema = if str_empty named && bool_decide (is_Some (member "twist_actions" interpreted))
             then "vehicle.twist_chunk.v1"%string else named.
Definition fits (manifest result : JsonValue) : Prop :=
  exists schema, declares result schema /\ accepts manifest schema.

Lemma accepts_schema_entry schema l : accepts_schema schema l = Returns true ->
  exists entry, entry ∈ l /\ value_string "schema" "" entry = Returns schema.
Proof.
  induction l as [|a l IH]; [done|]. simpl. intros (found & Hf & E)%obind_returns.
  destruct (str_eqb found schema) eqn:Es.
  - apply str_eqb_spec in Es as ->. exists a. split; [left|done].
  - destruct (IH E) as (entry & Hin & He). exists entry. split; [by right|done].
Qed.

Lemma plugin_input_declares interpreted schema names actions :
  plugin_input interpreted = Returns (schema, names, actions) ->
  exists named, value_string "action_schema" "" interpreted = Returns named /\
    schema = if str_empty named && bool_decide (is_Some (member "twist_actions" interpreted))
             then "vehicle.twist_chunk.v1"%string else named.
Proof.
  unfold plugin_input. intros (named & Hn & E)%obind_returns. exists named. split; [done|].
  apply obind_returns in E as (? & _ & E). apply obind_returns in E as (? & _ & E).
  destruct (str_empty named && _); [|by injection E as <-].
  repeat (apply obind_returns in E as (? & _ & E)). by injection E as <-.
Qed.

Lemma plugin_result_commands w id manifest result plugin :
  numbers_finite result = true -> plugin_result tan p w id manifest result = Returns plugin ->
  value_bool "compatible" false plugin = Returns true ->
  fits manifest result /\
  exists commands, value_json "commands" (J_array []) plugin = Returns (J_array commands) /\
    Forall command_ok commands.
Proof.
  intros Hr. unfold plugin_result. intros (interpreted & Hint & E)%obind_returns Hc.
  pose proof Hint as Hi. apply value_json_finite in Hi; [|done..].
  apply obind_returns in E as ([[schema names] actions] & Hin & E).
  pose proof (plugin_input_declares _ _ _ _ Hin) as (named & Hnamed & Hschema).
  pose proof Hin as Ha. apply plugin_input_finite in Ha; [|done].
  apply obind_returns in E as (accepted & Hacc & E). apply obind_returns in E as (compatible & Hs & E).
  apply obind_returns in E as (header & Hh & E). unfold plugin_header in Hh.
  repeat (apply obind_returns in Hh as (? & _ & Hh)). injection Hh as <-.
  destruct compatible; simpl negb in E; cbv iota in E; [|by injection E as <-].
  split.
  { exists schema. split; [by exists interpreted, named|].
    destruct (accepts_schema_entry _ _ Hs) as (entry & Hentry & He). by exists accepted, entry. }
  apply obind_returns in E as (adapter & _ & E).
  assert (exists wheelbase semantics (header : JsonValue) commands, isfinite wheelbase = true /\
    omap_list (convert_action tan adapter wheelbase semantics names) (json_elements actions) = Returns commands /\
    plugin = set "message" (J_string "Mobility plugin conversion preview; no command was published")
      (set "commands" (J_array commands) header)) as (wb & semantics & header & commands & Hw & Hcmd & ->).
  { pose proof (ackermann_finite (parameters_file p w manifest)) as Hf.
    destruct (str_eqb adapter "ackermann"); [destruct (ackermann_parameters _) as [wb semantics]|];
      apply obind_returns in E as (commands & Hcmd & E%returns_inj);
      eexists _, _, _, commands; (split; [|split; [exact Hcmd|symmetry; exact E]]).
    - exact Hf.
    - exact default_wheelbase_finite. }
  exists commands. split.
  - apply value_set_set. done.
  - apply omap_list_returns in Hcmd. apply json_elements_finite in Ha. clear -Hcmd Ha Hw tan_finite H1.
    induction Hcmd as [|x y l r Hx _ IH]; constructor; inversion Ha as [|? ? Hx1 Hl1]; subst.
    + exact (convert_action_ok _ _ _ _ _ _ Hw Hx1 Hx).
    + exact (IH Hl1).
Qed.

(** the plugin of a request: named by it, or the active one *)
Definition selected_plugin (w : World) (r : RunRequest) : string :=
  if str_empty (mobility_plugin_id r) then active_plugin p w else mobility_plugin_id r.
Definition selected_manifest (w : World) (r : RunRequest) : JsonValue :=
  find_manifest (selected_plugin w r) (default [] (plugin_directory w)).

Lemma with_mobility_commands w r result result' plugin commands :
  numbers_finite result = true -> with_mobility tan p w r result = Returns result' ->
  value_json "mobility_plugin" (J_object []) result' = Returns plugin ->
  value_json "commands" (J_array []) plugin = Returns commands ->
  value_bool "compatible" false plugin = Returns true ->
  fits (selected_manifest w r) result /\ Forall command_ok (json_elements commands).
Proof.
  intros Hr. unfold with_mobility, apply_mobility_plugin. fold (selected_plugin w r). fold (selected_manifest w r).
  intros Hm Hp Hc Ht. destruct (str_empty (selected_plugin w r)).
  { rewrite (assign_value _ _ _ _ _ Hm) in Hp. injection Hp as <-. done. }
  destruct (json_empty _).
  { rewrite (assign_value _ _ _ _ _ Hm) in Hp. injection Hp as <-. done. }
  apply obind_returns in Hm as (found & Hf & Hm). rewrite (assign_value _ _ _ _ _ Hm) in Hp. injection Hp as ->.
  apply plugin_result_commands in Hf as (Hs & all & Hall & Hok); [|done..].
  rewrite Hall in Hc. injection Hc as <-. by split.
Qed.

Lemma speed_limits : dle (dneg speed_limit) speed_limit = true /\ dle (dneg turn_limit) turn_limit = true.
Proof. by vm_compute. Qed.

(** one command, held for a bounded time, then a stop *)
Definition single_step (w : World) (outputs : list Output) : Prop :=
  exists v a duration,
    outputs = [PublishedCommand (stamped (commanded_at w) v a); Slept duration;
               PublishedCommand (stamped (stopped_at w) dzero dzero)] /\
    dle (dneg speed_limit) v = true /\ dle v speed_limit = true /\
    dle (dneg turn_limit) a = true /\ dle a turn_limit = true /\ 50 <= duration <= 300.

Lemma clamp_duration_bounds ms : 50 <= clamp_duration ms <= 300.
Proof.
  unfold clamp_duration. destruct (ms =? 0); [done|].
  destruct (Z.ltb_spec ms 50); [lia|]. destruct (Z.ltb_spec 300 ms); lia.
Qed.

Lemma execute_inv w r result result' requested (s : VlaDebugOrchestrator T) executed report outputs :
  numbers_finite result = true -> with_mobility tan p w r result = Returns result' ->
  execute result' requested w s = Returns (executed, report, outputs) ->
  outputs = [] /\ executed = false \/
  executed = true /\ has_mode SystemState.MODE_VLA_ASSISTED s = true /\
  fits (selected_manifest w r) result /\ single_step w outputs.
Proof.
  intros Hr Hm. unfold execute. intros (plugin & Hp & E)%obind_returns.
  apply obind_returns in E as (commands & Hc & E). apply obind_returns in E as (compatible & Ht & E).
  destruct compatible; simpl orb in E; [|injection E as <- <- <-; by left].
  destruct (json_empty commands) eqn:He; [injection E as <- <- <-; by left|]. cbn [negb orb] in E.
  destruct (with_mobility_commands _ _ _ _ _ _ Hr Hm Hp Hc Ht) as [Hs Hok].
  destruct (json_elements commands) as [|command rest] eqn:Hel; [by destruct commands as [| | | | |[]|[]]|].
  inversion Hok as [|? ? (l & a & -> & Hl & Ha) _]; subst. cbn [head default] in E.
  apply obind_returns in E as (l' & Hgl & E). apply obind_returns in E as (a' & Hga & E).
  apply get_double_number in Hgl as ->. apply get_double_number in Hga as ->.
  destruct (has_mode _ s); [|injection E as <- <- <-; by left]. injection E as <- <- <-.
  right. split_and!; [done|done|done|]. destruct speed_limits as [Hv Hw].
  destruct (dclamp_bounds l _ _ Hl Hv) as [? ?]. destruct (dclamp_bounds a _ _ Ha Hw) as [? ?].
  eexists _, _, _. split_and!; [reflexivity|done|done|done|done|apply clamp_duration_bounds..].
Qed.

Definition quiet (o : Output) : Prop := match o with PublishedCommand _ => False | _ => True end.

Lemma finish_quiet r stage image result : Forall quiet (snd (finish p r stage image result)).
Proof.
  unfold finish. destruct (assign _ _ _) as [v|]; [|constructor]. destruct (dump_indent 2 v); [|by repeat constructor].
  assert (forall path text path', Forall quiet (WroteText path text :: match image with
    | [] => [] | _ => [WroteBytes path' image] end)) as Hq
    by (intros path text path'; destruct image; by repeat constructor).
  destruct (dump v); apply Hq.
Qed.

Lemma quiet_not_published o outputs m : Forall quiet outputs -> PublishedCommand m ∈ outputs -> o.
Proof. intros Hq Hm. rewrite Forall_forall in Hq. by destruct (Hq _ Hm). Qed.

Lemma conclude_inv r stage image result result' w (s : VlaDebugOrchestrator T) m :
  numbers_finite result = true -> with_mobility tan p w r result = Returns result' ->
  PublishedCommand m ∈ snd (conclude p r stage image result' w s) ->
  execute_command r = true /\ has_mode SystemState.MODE_VLA_ASSISTED s = true /\
  fits (selected_manifest w r) result /\
  exists step after, snd (conclude p r stage image result' w s) = step ++ after /\ single_step w step /\
    Forall quiet after.
Proof.
  intros Hr Hm. unfold conclude. destruct (execute_command r).
  2:{ destruct (assign _ _ _) as [v|]; [|by intros ?%elem_of_nil].
      intros Hin. eapply quiet_not_published; [apply finish_quiet|exact Hin]. }
  destruct (execute _ _ _ _) as [[[executed report] outputs]|] eqn:E; [|by intros ?%elem_of_nil].
  destruct (execute_inv _ _ _ _ _ _ _ _ _ Hr Hm E) as [[-> ->]|(-> & Hmode & Hs & Hstep)].
  { destruct (assign _ _ _) as [v|]; [|by intros ?%elem_of_nil]. by destruct (dump v); intros ?%elem_of_nil. }
  intros _. split_and!; [done|done|done|]. destruct (assign _ _ _) as [v|].
  - pose proof (finish_quiet r stage image v) as Hq. destruct (finish p r stage image v) as [response written].
    by exists outputs, written.
  - exists outputs, []. rewrite app_nil_r. split_and!; [done|done|constructor].
Qed.

Lemma run_published r now w ws (s : VlaDebugOrchestrator T) s' response outputs m :
  run tan p r now w ws s = (s', response, outputs) -> PublishedCommand m ∈ outputs ->
  execute_command r = true /\ stage r = "inference"%string /\
  operator_confirmation r = "I_CONFIRM_SINGLE_STEP"%string /\
  has_mode SystemState.MODE_VLA_ASSISTED s = true /\ is_moving p now s = false /\
  (exists snapshot answer result, snapshots_ s !! run_id r = Some snapshot /\
    snd (fst (debug_loop p (provider_busy_retry_count_ p) ws (transport_input snapshot (run_id r) (asked_at w))
      (run_id r) "inference" (transport_ s))) = Returns answer /\
    parse (d_result_json answer) = Returns result /\ fits (selected_manifest w r) result) /\
  exists before step after, outputs = before ++ step ++ after /\ single_step w step /\
    Forall quiet (before ++ after).
Proof.
  unfold run. intros E Hm. destruct (str_empty (known_stage (stage r))) eqn:Hst; [by simplify_eq; apply elem_of_nil in Hm|].
  destruct (execute_command r && negb (str_eqb _ "inference")) eqn:Hinf; [by simplify_eq; apply elem_of_nil in Hm|].
  destruct (_ && negb (str_eqb (operator_confirmation r) _)) eqn:Hconf; [by simplify_eq; apply elem_of_nil in Hm|].
  destruct (safe_to_debug _ _ _ _) as [|] eqn:Hsafe; [by simplify_eq; apply elem_of_nil in Hm|].
  destruct (snapshots_ s !! run_id r) as [snapshot|] eqn:Hr; [|by simplify_eq; apply elem_of_nil in Hm].
  pose proof (debug_loop_sleeps p (provider_busy_retry_count_ p) ws (transport_input snapshot (run_id r) (asked_at w))
    (run_id r) (known_stage (stage r)) (transport_ s)) as Hl.
  destruct (debug_loop _ _ _ _ _ _ _) as [[t outcome] slept] eqn:Hloop.
  assert (Forall quiet slept) as Hq by (rewrite Hl; by apply Forall_replicate).
  destruct (obind _ _) as [[answer result']|] eqn:Ho.
  2:{ simplify_eq. eapply quiet_not_published; [exact Hq|exact Hm]. }
  apply obind_returns in Ho as (a & -> & Ho). apply obind_returns in Ho as (result & Hparse & Ho).
  pose proof (parse_finite _ _ Hparse) as Hp.
  apply obind_returns in Ho as (result'' & Hmob & [= -> ->]).
  pose proof (conclude_inv r (known_stage (stage r)) (d_processed_image_jpeg answer) result result' w
    (s <| transport_ := t |>) m Hp Hmob) as Hc.
  destruct (conclude _ _ _ _ _ _ _) as [response' outputs']. simplify_eq.
  apply elem_of_app in Hm as [Hm|Hm]; [eapply quiet_not_published; [exact Hq|exact Hm]|].
  destruct (Hc Hm) as (He & Hmode & Hs & step & after & Ho & Hstep & Ha). simpl in Ho. subst outputs'.
  rewrite He in Hinf, Hconf. apply negb_false_iff, str_eqb_spec in Hinf, Hconf.
  split_and!; [done| |done|exact Hmode| | |].
  - unfold known_stage in Hinf. destruct (str_eqb (stage r) "preprocess") eqn:E1; [done|].
    destruct (str_eqb (stage r) "inference") eqn:E2; [by apply str_eqb_spec in E2|done].
  - unfold safe_to_debug in Hsafe. do 3 (destruct (_ && _); [done|]). by destruct (is_moving p now s).
  - exists snapshot, answer, result. rewrite Hinf in Hloop. by rewrite Hloop.
  - exists slept, step, after. rewrite Forall_app. done.
Qed.

(** C5: A request that makes the orchestrator publish a motion command asks to
    execute one in the inference stage with the explicit confirmation, names a
    stored snapshot, and finds the vehicle in VLA_ASSISTED mode with no recent
    motion command; the provider has answered for this snapshot, and the manifest
    of the selected mobility plugin lists the action schema of that very answer.
    Published is exactly one command with |v| <= 0.15 m/s and
    |w| <= 0.5 rad/s, then, after 50 to 300 ms, a stop. *)
Theorem single_steps_are_guarded r now w ws (s : VlaDebugOrchestrator T) s' response outputs m :
  run tan p r now w ws s = (s', response, outputs) -> PublishedCommand m ∈ outputs ->
  execute_command r = true /\ stage r = "inference"%string /\
  operator_confirmation r = "I_CONFIRM_SINGLE_STEP"%string /\
  has_mode SystemState.MODE_VLA_ASSISTED s = true /\ is_moving p now s = false /\
  (exists snapshot answer result, snapshots_ s !! run_id r = Some snapshot /\
    snd (fst (debug_loop p (provider_busy_retry_count_ p) ws (transport_input snapshot (run_id r) (asked_at w))
      (run_id r) "inference" (transport_ s))) = Returns answer /\
    parse (d_result_json answer) = Returns result /\ fits (selected_manifest w r) result) /\
  exists before step after, outputs = before ++ step ++ after /\ single_step w step /\
    Forall quiet (before ++ after).
Proof. apply run_published. Qed.
End SingleStep.

(** ** Retries, texts and the second mode check *)

(** every text of a value, the names of members included *)
Fixpoint texts (v : JsonValue) : list string :=
  match v with
  | J_string s => [s]
  | J_array l => flat_map texts l
  | J_object members => flat_map (fun e => fst e :: texts (snd e)) members
  | _ => []
  end.

(** the documented behaviour: a value is printed unless one of its texts is not
    UTF-8; then a [type_error] is thrown *)
Class NlohmannUtf8 `{Nlohmann} := {
  dump_throws v : returns (dump v) = forallb utf8 (texts v);
  dump_indent_throws n v : returns (dump_indent n v) = forallb utf8 (texts v)
}.

Section Behaviour.
Context `{Rclcpp} `{Nlohmann} {T W : Type} `{PolicyTransport T W}.
Variable tan : double -> double.
Variable p : Settings.

(** the successive calls when every one is made *)
Section Attempts.
Variables (tries : nat) (ws : nat -> W) (input : PolicyObservationInput) (id stage : string) (t : T).
Fixpoint before_attempt (i : nat) : T :=
  match i with
  | O => t
  | S i => fst (debug (ws (tries - i)%nat) input id stage (before_attempt i))
  end.
Definition attempt (i : nat) : Outcome PolicyDebugResult :=
  snd (debug (ws (tries - i)%nat) input id stage (before_attempt i)).
Definition is_busy (o : Outcome PolicyDebugResult) : bool :=
  match o with Throws message => provider_busy message | Returns _ => false end.
End Attempts.

Lemma before_attempt_shift tries ws input id stage t i :
  before_attempt (S tries) ws input id stage t (S i) =
  before_attempt tries ws input id stage (fst (debug (ws (S tries)) input id stage t)) i.
Proof. induction i as [|i IH]; [done|]. cbn [before_attempt] in *. rewrite <- IH. done. Qed.

(** The debug call is repeated only after the answer that the provider is
    busy, at most [provider_busy_retry_count_] times, with one pause before each
    repetition; the outcome is the one of the first call that is not answered
    so, or of the last one. *)
Theorem busy_providers_are_retried tries ws input id stage (t : T) :
  exists k, (k <= tries)%nat /\
    let '(t', outcome, slept) := debug_loop p tries ws input id stage t in
    t' = before_attempt tries ws input id stage t (S k) /\
    outcome = attempt tries ws input id stage t k /\
    slept = replicate k (Slept (provider_busy_retry_delay_ p)) /\
    (forall i, (i < k)%nat -> is_busy (attempt tries ws input id stage t i) = true) /\
    (k = tries \/ is_busy outcome = false).
Proof.
  revert t. induction tries as [|n IH]; intros t; cbn [debug_loop].
  { exists 0%nat. split; [lia|]. destruct (debug (ws 0%nat) input id stage t) as [t1 o] eqn:E.
    assert (t1 = before_attempt 0 ws input id stage t 1 /\ o = attempt 0 ws input id stage t 0) as [-> ->]
      by (unfold attempt; simpl; by rewrite E).
    destruct (attempt _ _ _ _ _ _ _) eqn:Ea; rewrite ?Ea; split_and!; try done; try lia; by left. }
  assert (debug (ws (S n)) input id stage t =
    (before_attempt (S n) ws input id stage t 1, attempt (S n) ws input id stage t 0)) as E.
  { unfold attempt. simpl. by destruct (debug _ _ _ _ _). }
  rewrite E. destruct (attempt (S n) ws input id stage t 0) as [result|message] eqn:Ea.
  { exists 0%nat. split_and!; [lia|done|by rewrite Ea|done|lia|by right]. }
  destruct (provider_busy message) eqn:Eb.
  2:{ exists 0%nat. split_and!; [lia|done|by rewrite Ea|done|lia|by right]. }
  destruct (IH (before_attempt (S n) ws input id stage t 1)) as (k & Hk & Hloop).
  destruct (debug_loop p n ws input id stage _) as [[t' outcome] slept].
  assert (forall i, before_attempt (S n) ws input id stage t (S i) =
    before_attempt n ws input id stage (before_attempt (S n) ws input id stage t 1) i) as Hshift.
  { intros i. apply before_attempt_shift. }
  assert (forall i, attempt (S n) ws input id stage t (S i) =
    attempt n ws input id stage (before_attempt (S n) ws input id stage t 1) i) as Hatt.
  { intros i. unfold attempt. by rewrite Hshift. }
  destruct Hloop as (-> & -> & -> & Hbusy & Hend). exists (S k).
  split_and!; [lia|by rewrite Hshift|by rewrite Hatt|done| |].
  - intros [|i] Hi; [by rewrite Ea|]. rewrite Hatt. apply Hbusy. lia.
  - destruct Hend as [->|Hend]; [by left|by right].
Qed.

(** The mode check right before a command is published cannot fail when the
    first check requires the mode: no callback runs in between, so it reads the
    mode from before the inference and its retries. *)
Theorem second_mode_check_is_idle now (s : VlaDebugOrchestrator T) t result requested w :
  require_shadow_mode_ p = true -> safe_to_debug p true now s = None ->
  execute result requested w (s <| transport_ := t |>) <>
    Returns (false, not_executed "Enter VLA_ASSISTED single-step mode before executing", []).
Proof.
  intros Hr Hsafe. assert (has_mode SystemState.MODE_VLA_ASSISTED s = true) as Hmode.
  { unfold safe_to_debug in Hsafe. rewrite Hr in Hsafe. destruct (_ && bool_decide _); [done|].
    destruct (_ && _); [done|]. by destruct (has_mode SystemState.MODE_VLA_ASSISTED s). }
  unfold execute. change (has_mode _ (s <| transport_ := t |>)) with (has_mode SystemState.MODE_VLA_ASSISTED s).
  rewrite Hmode. intros (plugin & _ & E)%obind_returns. apply obind_returns in E as (commands & _ & E).
  apply obind_returns in E as (compatible & _ & E). destruct (_ || _); [done|].
  apply obind_returns in E as (l & _ & E). by apply obind_returns in E as (a & _ & E).
Qed.

(** A capture that has frozen its snapshot and can make its directory ends
    the process, the answer unsent, exactly when a text of the metadata is not
    UTF-8; in particular when cutting the name of the uploaded image after 128
    bytes splits a character. *)
Theorem cut_names_end_the_process `{!NlohmannUtf8} r now w (s : VlaDebugOrchestrator T) id snapshot s' :
  freeze p r now s = inr (id, snapshot, s') -> directory_failure w = None ->
  returns (snd (fst (capture p r now w s))) = forallb utf8 (texts (metadata r snapshot id)) /\
  fst (fst (capture p r now w s)) = s' /\
  (use_image_override r = true -> utf8 (str_take 128 (image_source_name r)) = false ->
   returns (snd (fst (capture p r now w s))) = false).
Proof.
  intros Hf Hd. assert (returns (snd (fst (capture p r now w s))) = forallb utf8 (texts (metadata r snapshot id))) as Hiff.
  { unfold capture. rewrite Hf, Hd. pose proof (dump_indent_throws 2 (metadata r snapshot id)) as H1'.
    pose proof (dump_throws (metadata r snapshot id)) as H2'.
    destruct (dump_indent 2 _); [|done]. by destruct (dump _). }
  split_and!; [done| |].
  - rewrite capture_state. by rewrite Hf.
  - intros Ho Hu. rewrite Hiff. unfold metadata. rewrite Ho. apply not_true_iff_false. intros Hall.
    rewrite forallb_forall in Hall.
    assert (In (str_take 128 (image_source_name r))
      (texts (set "image_source_name" (J_string (str_take 128 (image_source_name r)))
        (set "input_source" (J_string "upload") (observation_json snapshot id))))) as Hin.
    { unfold observation_json. cbn -[str_take states_json with_keys flat_map app In].
      cbn [flat_map texts snd fst app].
      repeat first [left; reflexivity | apply in_cons | apply in_or_app; right]. }
    specialize (Hall _ Hin). congruence.
Qed.
End Behaviour.

(** ** A concrete JSON library *)
Module Demo.
Import Mock.
Definition manifest : JsonValue :=
  J_object [("id", J_string "diff"); ("runtime_adapter", J_string "differential");
    ("accepts", J_array [J_object [("schema", J_string "twist")]])]%string.
Definition answer : JsonValue :=
  J_object [("interpreted_output", J_object [("action_schema", J_string "twist");
    ("feature_names", J_array [J_string "linear_x"; J_string "angular_z"]);
    ("actions", J_array [J_object [("values", J_array [J_number (of_int 2); J_number (lit 25 2)])]])])]%string.

#[local] Instance nlohmann_debug : Nlohmann := {|
  dump v := if forallb utf8 (texts v) then Returns "{}"%string else Throws "type_error";
  dump_indent n v := if forallb utf8 (texts v) then Returns "{}"%string else Throws "type_error";
  parse text := if str_eqb text "manifest" then Returns manifest
    else if str_prefix "{" text then Returns answer else Throws "parse_error";
  get_int _ := type_error; get_uint32 _ := type_error; get_uint64 _ := type_error; get_float _ := type_error;
  get_double v := match v with J_number x => Returns x | _ => type_error end |}.
#[local] Instance nlohmann_debug_numbers : NlohmannNumbers.
Proof.
  split.
  - intros text v. cbn [parse nlohmann_debug]. destruct (str_eqb _ _); [by intros [= <-]|]. destruct (str_prefix _ _); [|done].
    intros [= <-]. by vm_compute.
  - by intros x y [= ->].
  - by intros [] y.
Defined.
#[local] Instance nlohmann_debug_utf8 : NlohmannUtf8.
Proof. split; intros; simpl; by destruct (forallb _ _). Defined.
#[local] Existing Instance rclcpp_doc.

Definition settings : Settings :=
  MakeSettings "/run/debug" "/vehicle" (of_int 1) (lit 5 1) (lit 2 2) (lit 5 2) true 5 350 2.
Definition mock : MockPolicyTransport := MakeMock 8 100 dzero dzero 0.
Definition world : World :=
  MakeWorld (Some [MakePluginFile true ".json" "manifest"]) (fun _ => ""%string) None 0 0 0.
Definition observation : Observation :=
  PolicyObservation.zero <| PolicyObservation.task := "go"%string |>.
Definition picture : CompressedImage.CompressedImageMsg :=
  CompressedImage.zero <| CompressedImage.format := "jpeg"%string |> <| CompressedImage.data := [255; 216] |>.
Definition plain : CaptureRequest := MakeCapture "" false CompressedImage.zero "".
(** a name of 127 letters and a character of two bytes *)
Definition long_name : string :=
  (String.concat "" (replicate 127 "a"%string) ++ String (char 195) (String (char 169) ""))%string.
Definition upload : CaptureRequest := MakeCapture "" true picture long_name.
Definition single : RunRequest :=
  MakeRun (run_name 7 1) "inference" "diff" true "I_CONFIRM_SINGLE_STEP" 0.

Definition prepared : list (Event (W := unit)) :=
  [ObservationReceived observation 7;
   SystemReceived (SystemState.zero <| SystemState.mode := SystemState.MODE_VLA_ASSISTED |>);
   Capture plain 7 world].
Definition ready : VlaDebugOrchestrator MockPolicyTransport :=
  fst (Prelude.run (handle (fun x => x) settings) (initial mock) prepared).

Lemma snapshots_are_the_last_witness :
  snapshot_order_ (fst (Prelude.run (handle (fun x => x) settings) (initial mock)
    (prepared ++ [Capture plain 8 world; Capture plain 9 world]))) = [run_name 8 2; run_name 9 3] /\
  (exists snapshot, snapshots_ (fst (Prelude.run (handle (fun x => x) settings) (initial mock)
    (prepared ++ [Capture plain 8 world; Capture plain 9 world]))) !! run_name 9 3 = Some snapshot).
Proof.
  destruct (snapshots_are_the_last (fun x => x) settings mock
    (prepared ++ [Capture plain 8 world; Capture plain 9 world])) as (Ho & _ & Hs & _); [done|].
  split.
  - rewrite Ho. vm_compute. reflexivity.
  - exists observation. apply Hs. vm_compute. right. left.
Defined.

Lemma single_steps_are_guarded_witness :
  exists v a, snd (run (fun x => x) settings single 8 world (fun _ => tt) ready) =
    [PublishedCommand (stamped 0 v a); Slept 150; PublishedCommand (stamped 0 dzero dzero);
     WroteText "/run/debug/vla-debug-7-1/inference.json" ("{}" ++ newline)] /\
    dle v speed_limit = true /\
    exists snapshot found result, snapshots_ ready !! run_name 7 1 = Some snapshot /\
      parse (d_result_json found) = Returns result /\ fits (selected_manifest settings world single) result.
Proof.
  assert (exists v a rest, snd (run (fun x => x) settings single 8 world (fun _ => tt) ready) =
    PublishedCommand (stamped 0 v a) :: rest) as (v & a & rest & E) by (vm_compute; by eexists _, _, _).
  destruct (single_steps_are_guarded (fun x => x) (fun _ Hx => Hx) settings single 8 world (fun _ => tt) ready _ _ _
    (stamped 0 v a) ltac:(rewrite <- !surjective_pairing; reflexivity)) as
    (_ & _ & _ & _ & _ & (snapshot & found & result & Hs & _ & Hp & Hf) & before & step & after & _); [rewrite E; left|].
  exists speed_limit, (lit 25 2). split; [vm_compute; reflexivity|]. split; [vm_compute; reflexivity|].
  exists snapshot, found, result. split; [exact Hs|split; [exact Hp|exact Hf]].
Defined.

Lemma second_mode_check_is_idle_witness :
  safe_to_debug settings true 8 ready = None /\
  execute (J_object []) 0 world (ready <| transport_ := mock |>) <>
    Returns (false, not_executed "Enter VLA_ASSISTED single-step mode before executing", []).
Proof. split; [by vm_compute|]. apply (second_mode_check_is_idle settings 8); [done|by vm_compute]. Defined.

Lemma cut_names_end_the_process_witness :
  utf8 long_name = true /\ str_empty (run_name 8 2) = false /\
  returns (snd (fst (capture settings upload 8 world ready))) = false.
Proof.
  split; [by vm_compute|]. split; [by vm_compute|].
  assert (exists snapshot s', freeze settings upload 8 ready = inr (run_name 8 2, snapshot, s')) as (snapshot & s' & E)
    by (vm_compute; by eexists _, _).
  destruct (cut_names_end_the_process settings upload 8 world ready _ _ _ E eq_refl) as (_ & _ & Hcut).
  apply Hcut; by vm_compute.
Defined.
End Demo.
