(* ===== verification/OpsServices.v ===== *)
(** * Handlers of the operations service that ask other nodes

    Models the handlers of [vehicle_ops/src/vehicle_ops_api_node.cpp] that read
    the shared state or pass a request on: components, profiles, logs, storage,
    episodes, the task, safe stop and mode changes, VLA debugging, the pipeline
    trace, the camera frame and the state of teleoperation, with the web files
    and the images of debug runs.  A handler answers, and lists the service
    requests it has sent: at most one.

    The other nodes are [Services]: whether each is available and what it answers
    in time ([None] when it does not).  The time limits themselves are not
    modelled. *)
From S2P Require Import Prelude Floats Messages VlaDebug JsonData Json Text Http OpsApi.
Local Open Scope Z_scope.
Local Open Scope result_scope.

(** ** Documents *)
Definition mode_name (mode : Z) : string :=
  if mode =? SystemState.MODE_MANUAL then "MANUAL"
  else if mode =? SystemState.MODE_NAV2 then "NAV2"
  else if mode =? SystemState.MODE_VLA_SHADOW then "VLA_SHADOW"
  else if mode =? SystemState.MODE_VLA_ASSISTED then "VLA_ASSISTED"
  else if mode =? SystemState.MODE_VLA_AUTONOMOUS then "VLA_AUTONOMOUS"
  else if mode =? SystemState.MODE_MOBILE_TELEOP then "MOBILE_TELEOP"
  else if mode =? SystemState.MODE_REMOTE_TELEOP then "REMOTE_TELEOP"
  else if mode =? SystemState.MODE_SAFE_STOP then "SAFE_STOP"
  else if mode =? SystemState.MODE_FAULT then "FAULT"
  else "OTHER".

Definition pipeline_stage_status_name (status : Z) : string :=
  if status =? PipelineStage.STATUS_LIVE then "LIVE"
  else if status =? PipelineStage.STATUS_READY then "READY"
  else if status =? PipelineStage.STATUS_RUNNING then "RUNNING"
  else if status =? PipelineStage.STATUS_STALE then "STALE"
  else if status =? PipelineStage.STATUS_SKIPPED then "SKIPPED"
  else if status =? PipelineStage.STATUS_REJECTED then "REJECTED"
  else if status =? PipelineStage.STATUS_FAILED then "FAILED"
  else "WAITING".

Definition episode_name (state : Z) : string :=
  if state =? EpisodeState.STATE_IDLE then "IDLE"
  else if state =? EpisodeState.STATE_RECORDING then "RECORDING"
  else if state =? EpisodeState.STATE_FINALIZING then "FINALIZING"
  else if state =? EpisodeState.STATE_ERROR then "ERROR"
  else "UNKNOWN".

Definition policy_name (state : Z) : string :=
  if state =? PolicyStatus.STATE_DISCONNECTED then "DISCONNECTED"
  else if state =? PolicyStatus.STATE_LOADING then "LOADING"
  else if state =? PolicyStatus.STATE_READY then "READY"
  else if state =? PolicyStatus.STATE_ERROR then "ERROR"
  else "UNKNOWN".

Definition strings_json (l : list string) : JsonValue := J_array (map J_string l).
Definition float_json (x : float32) : JsonValue := J_number (to_double x).

Definition component_state_json (c : ComponentState.ComponentStateMsg) : JsonValue :=
  J_object
    [("component_id", J_string (ComponentState.component_id c));
     ("display_name", J_string (ComponentState.display_name c));
     ("group_name", J_string (ComponentState.group_name c)); ("unit_name", J_string (ComponentState.unit_name c));
     ("state", J_string (ComponentState.state c)); ("managed", J_bool (ComponentState.managed c));
     ("healthy", J_bool (ComponentState.healthy c)); ("can_start", J_bool (ComponentState.can_start c));
     ("can_stop", J_bool (ComponentState.can_stop c)); ("can_restart", J_bool (ComponentState.can_restart c));
     ("pid", J_integer (ComponentState.pid c)); ("uptime_seconds", J_number (ComponentState.uptime_seconds c));
     ("last_exit_code", J_integer (ComponentState.last_exit_code c));
     ("message", J_string (ComponentState.message c));
     ("dependencies", strings_json (ComponentState.dependencies c));
     ("expected_nodes", strings_json (ComponentState.expected_nodes c));
     ("health_topics", strings_json (ComponentState.health_topics c))]%string.

Definition category_json (c : StorageCategory.StorageCategoryMsg) : JsonValue :=
  J_object
    [("category_id", J_string (StorageCategory.category_id c));
     ("display_name", J_string (StorageCategory.display_name c)); ("path", J_string (StorageCategory.path c));
     ("bytes", J_integer (StorageCategory.bytes c)); ("item_count", J_integer (StorageCategory.item_count c));
     ("cleanup_allowed", J_bool (StorageCategory.cleanup_allowed c));
     ("automatic_cleanup", J_bool (StorageCategory.automatic_cleanup c));
     ("message", J_string (StorageCategory.message c))]%string.

Definition item_json (i : StorageItem.StorageItemMsg) : JsonValue :=
  J_object
    [("item_id", J_string (StorageItem.item_id i)); ("display_name", J_string (StorageItem.display_name i));
     ("path", J_string (StorageItem.path i)); ("bytes", J_integer (StorageItem.bytes i));
     ("modified_at", J_object [("sec", J_integer (sec (StorageItem.modified_at i)));
                               ("nanosec", J_integer (nanosec (StorageItem.modified_at i)))]);
     ("protected", J_bool (StorageItem.is_protected i)); ("message", J_string (StorageItem.message i))]%string.

(** ** The other nodes *)
Record Service (Q A : Type) := MakeService { available : bool; answer : Q -> option A }.
Arguments MakeService {Q A} _ _.
Arguments available {Q A} _.
Arguments answer {Q A} _ _.

Record StorageStatusReply := MakeStorageStatus {
  total_bytes : Z; used_bytes : Z; available_bytes : Z; used_percent : float32; level : string;
  storage_message : string; categories : list StorageCategory.StorageCategoryMsg }.

Record Services := MakeServices {
  (** [ListComponents] and [ListProfiles] in one *)
  components : Service unit (list ComponentState.ComponentStateMsg * list string);
  (** identifier, action, force; accepted, message, the component *)
  component_control_ : Service (string * string * bool) (bool * string * ComponentState.ComponentStateMsg);
  profile_control_ : Service (string * string) (bool * string);
  component_log_ : Service string (bool * string * string);
  storage_status_ : Service unit StorageStatusReply;
  storage_items_ : Service string (bool * string * list StorageItem.StorageItemMsg);
  (** category, items, rehearsal; accepted, message, bytes, items *)
  storage_cleanup_ : Service (string * list string * bool) (bool * string * Z * Z);
  (** episode, task, operator; accepted, message, resolved identifier, directory *)
  start_episode_ : Service (string * string * string) (bool * string * string * string);
  (** success, reason; accepted, message, directory *)
  stop_episode_ : Service (bool * string) (bool * string * string);
  (** requester, reason *)
  safe_stop_ : Service (string * string) (bool * string);
  (** mode, requester, reason; accepted, message, current mode *)
  request_mode_ : Service (Z * string * string) (bool * string * Z);
  capture_ : Service CaptureRequest CaptureResponse;
  run_ : Service RunRequest RunResponse }.

Inductive Request :=
| ListComponents
| ControlComponent (component_id action : string) (force : bool)
| ControlProfile (profile_id action : string)
| ReadComponentLog (component_id : string)
| GetStorageStatus
| ListStorageItems (category_id : string)
| CleanupStorage (category_id : string) (item_ids : list string) (dry_run : bool)
| StartEpisodeRequest (episode_id task operator_id : string)
| StopEpisodeRequest (success_ : bool) (reason : string)
| RequestSafeStop (requester reason : string)
| RequestControlMode (mode : Z) (requester reason : string)
| CaptureVlaDebug (r : CaptureRequest)
| RunVlaDebug (r : RunRequest)
| PublishTaskText (text : string).

(** ** The handlers *)
Definition Handled : Type := Result HttpResponse * list Request.
Definition answered (r : HttpResponse) : Handled := (Done r, []).

(** [async_send_request] and the wait for its answer *)
Definition ask {Q A} (svc : Service Q A) (q : Q) (sent : Request) (late : string)
    (k : A -> Result HttpResponse) : Handled :=
  (match answer svc q with Some a => k a | None => Done (error 408 late) end, [sent]).

Definition when_available {Q A} (svc : Service Q A) (otherwise : string) (k : Handled) : Handled :=
  if available svc then k else answered (error 503 otherwise).

Definition orchestrator_missing : string := "Operation Orchestrator is unavailable".
Definition storage_missing : string := "Storage Manager is unavailable".
Definition recorder_missing : string := "Episode Recorder is unavailable".
Definition supervisor_missing : string := "Vehicle Supervisor is unavailable".
Definition debug_missing : string := "VLA Debug Orchestrator is unavailable".

(** a member that is a text: [contains] and [is_string] *)
Definition text_member (key : string) (v : JsonValue) : option string :=
  match member key v with Some (J_string s) => Some s | _ => None end.

(** a computation that may throw before anything is sent *)
Definition checked {A} (m : Outcome A) (k : A -> Handled) : Handled :=
  match m with Returns a => k a | Throws e => (Raised (JsonError e), []) end.

Section Handlers.
Context `{Nlohmann}.
Variable services : Services.

Definition document (v : JsonValue) : Result HttpResponse :=
  let? text := json (dump v) in Done (MakeResponse 200 json_type (text ++ newline)%string no_store).
Definition with_body (body : string) (k : JsonValue -> Handled) : Handled :=
  match parse body with Returns input => k input | Throws _ => answered invalid_body end.

(** *** Components and profiles *)
Definition components_list : Handled :=
  when_available (components services) orchestrator_missing
    (ask (components services) tt ListComponents "Component status request timed out" (fun '(all, profiles) =>
      document (J_object [("components", J_array (map component_state_json all));
                          ("profiles", strings_json profiles)]%string))).

Definition component_control (body : string) : Handled :=
  when_available (component_control_ services) orchestrator_missing
    (with_body body (fun input =>
      match text_member "component_id" input, text_member "action" input with
      | Some component_id, Some action =>
          checked (value_bool "force" false input) (fun force =>
            ask (component_control_ services) (component_id, action, force) (ControlComponent component_id action force)
              "Component operation timed out" (fun '(accepted, text, c) =>
                if negb (accepted : bool) then Done (error 409 text)
                else success_with text "component" (component_state_json c)))
      | _, _ => answered (error 400 "component_id and action are required")
      end)).

Definition profile_control (body : string) : Handled :=
  when_available (profile_control_ services) orchestrator_missing
    (with_body body (fun input =>
      match text_member "profile_id" input, text_member "action" input with
      | Some profile_id, Some action =>
          ask (profile_control_ services) (profile_id, action) (ControlProfile profile_id action)
            "Profile operation timed out" (fun '(accepted, text) =>
              Done (if negb (accepted : bool) then error 409 text else success text ""))
      | _, _ => answered (error 400 "profile_id and action are required")
      end)).

Definition component_log (component_id : string) : Handled :=
  when_available (component_log_ services) orchestrator_missing
    (ask (component_log_ services) component_id (ReadComponentLog component_id)
      "Component log request timed out" (fun '(accepted, text, content) =>
        Done (if negb (accepted : bool) then error 404 text
              else MakeResponse 200 "text/plain; charset=utf-8" content no_store))).

(** *** Storage *)
Definition storage_status : Handled :=
  when_available (storage_status_ services) storage_missing
    (ask (storage_status_ services) tt GetStorageStatus "Storage status request timed out" (fun a =>
      document (J_object
        [("total_bytes", J_integer (total_bytes a)); ("used_bytes", J_integer (used_bytes a));
         ("available_bytes", J_integer (available_bytes a)); ("used_percent", float_json (used_percent a));
         ("level", J_string (level a)); ("message", J_string (storage_message a));
         ("categories", J_array (map category_json (categories a)))]%string))).

Definition storage_items (category_id : string) : Handled :=
  if str_empty category_id then answered (error 400 "Storage category is required")
  else when_available (storage_items_ services) storage_missing
    (ask (storage_items_ services) category_id (ListStorageItems category_id)
      "Storage item request timed out" (fun '(accepted, text, items) =>
        if negb (accepted : bool) then Done (error 404 text)
        else document (J_object [("category_id", J_string category_id);
                                 ("items", J_array (map item_json items))]%string))).

(** [get<std::vector<std::string>>()] *)
Definition get_strings (v : JsonValue) : Outcome (list string) :=
  match v with J_array l => omap_list get_string l | _ => type_error end.

Definition storage_cleanup (body : string) : Handled :=
  with_body body (fun input =>
    match text_member "category_id" input, member "item_ids" input with
    | Some category_id, Some (J_array _ as ids) =>
        checked (get_strings ids) (fun item_ids =>
          checked (value_bool "dry_run" true input) (fun dry_run =>
            when_available (storage_cleanup_ services) storage_missing
              (ask (storage_cleanup_ services) (category_id, item_ids, dry_run)
                (CleanupStorage category_id item_ids dry_run) "Storage cleanup request timed out"
                (fun '(accepted, text, bytes, count) =>
                  if negb (accepted : bool) then Done (error 409 text)
                  else document (J_object
                    [("success", J_bool true); ("message", J_string text); ("dry_run", J_bool dry_run);
                     ("bytes", J_integer bytes); ("item_count", J_integer count)]%string)))))
    | _, _ => answered (error 400 "category_id and item_ids are required")
    end).

(** *** Episodes, the task, safe stop and modes *)
Definition task_ (body : string) : Handled :=
  let text := trim body in
  if str_empty text then answered (error 400 "Task text is required")
  else (Done (success "Task published" (quoted "'task':" ++ json_string text)%string), [PublishTaskText text]).

Definition field (i : nat) (default : string) (fields : list string) : string :=
  match fields !! i with
  | Some f => if str_empty f then default else f
  | None => default
  end.

Definition start_episode (body : string) : Handled :=
  when_available (start_episode_ services) recorder_missing
    (let fields := split_fields body in
     let episode_id := field 0 "" fields in
     let text := field 1 "" fields in
     let operator := field 2 "vehicle_ops_console" fields in
     ask (start_episode_ services) (episode_id, text, operator) (StartEpisodeRequest episode_id text operator)
       "Episode start timed out" (fun '(accepted, text, resolved, directory) =>
         Done (if negb (accepted : bool) then error 400 text
               else success text (quoted "'episode_id':" ++ json_string resolved ++
                 quoted ",'directory':" ++ json_string directory)%string))).

Definition default_reason : string := "Episode completed from Vehicle Ops".
Definition stop_episode (body : string) : Handled :=
  when_available (stop_episode_ services) recorder_missing
    (let stop (good : bool) (reason : string) : Handled :=
       ask (stop_episode_ services) (good, reason) (StopEpisodeRequest good reason)
         "Episode stop timed out" (fun '(accepted, text, directory) =>
           Done (if negb (accepted : bool) then error 400 text
                 else success text (quoted "'directory':" ++ json_string directory)%string)) in
     if str_empty (trim body) then stop true default_reason
     else match parse body with
       | Returns (J_object _ as input) =>
           checked (value_bool "success" true input) (fun good =>
             checked (value_string "reason" default_reason input) (fun reason => stop good reason))
       | _ => answered (error 400 "Episode stop body must be valid JSON")
       end).

Definition safe_stop (body : string) : Handled :=
  when_available (safe_stop_ services) supervisor_missing
    (let fields := split_fields body in
     let requester := field 0 "vehicle_ops_console" fields in
     let reason := field 1 "Ops Console safe stop" fields in
     ask (safe_stop_ services) (requester, reason) (RequestSafeStop requester reason)
       "Safe stop timed out" (fun '(accepted, text) =>
         Done (if (accepted : bool) then success text "" else error 400 text))).

Definition enter_mode (mode : Z) (name reason : string) : Handled :=
  when_available (request_mode_ services) supervisor_missing
    (ask (request_mode_ services) (mode, "vehicle_ops_console"%string, reason)
      (RequestControlMode mode "vehicle_ops_console" reason)
      "Control mode request timed out" (fun '(accepted, text, current) =>
        Done (if negb (accepted : bool) then error 409 text
              else success text (quoted "'mode':'" ++ name ++ quoted "','current_mode':" ++ to_string current)%string))).
Definition enter_shadow_mode : Handled :=
  enter_mode SystemState.MODE_VLA_SHADOW "VLA_SHADOW" "Operator entered VLA shadow debug mode".
Definition enter_single_step_mode : Handled :=
  enter_mode SystemState.MODE_VLA_ASSISTED "VLA_ASSISTED" "Operator entered VLA single-step control mode".

(** *** VLA debugging *)
Definition near_black : string :=
  "Camera is publishing near-black frames; check the lens, USB connection, or restart the front camera".
Definition no_image : CompressedImage.CompressedImageMsg := CompressedImage.zero.

(** the request made of a JSON body, or the answer that refuses it *)
Definition upload_request (input : JsonValue) : Result (HttpResponse + CaptureRequest) :=
  match text_member "task" input with
  | None => Done (inl (error 400 "task is required"))
  | Some text =>
      match member "image_base64" input with
      | None => Done (inr (MakeCapture text false no_image ""))
      | Some (J_string encoded) =>
          match decode_base64 encoded with
          | Raised (LengthError what) => Done (inl (error 413 what))
          | Raised e => Done (inl (error 400 (what e)))
          | Done data =>
              if negb (is_jpeg data) then Done (inl (error 400 "Uploaded image must be JPEG"))
              else
                let? name := json (value_string "image_name" "uploaded-image.jpg" input) in
                Done (inr (MakeCapture text true
                  (no_image <| CompressedImage.format := "jpeg"%string |> <| CompressedImage.data := data |>)
                  (if (128 <? String.length name)%nat then str_take 128 name else name)))
          end
      | Some _ => Done (inl (error 400 "image_base64 must be a string"))
      end
  end.
Definition capture_request (body : string) : Result (HttpResponse + CaptureRequest) :=
  let content := trim body in
  if str_prefix "{" content then
    match parse content with
    | Throws _ => Done (inl invalid_body)
    | Returns input => upload_request input
    end
  else Done (inr (MakeCapture content false no_image "")).

Definition debug_capture (s : VehicleOpsApi) (body : string) : Handled :=
  when_available (capture_ services) debug_missing
    (match capture_request body with
     | Raised e => (Raised e, [])
     | Done (inl refusal) => answered refusal
     | Done (inr request) =>
         if negb (use_image_override request) && camera_content_analyzed_ s && negb (camera_content_valid_ s)
         then answered (error 409 near_black)
         else ask (capture_ services) request (CaptureVlaDebug request) "VLA debug capture timed out" (fun a =>
           Done (if negb (c_accepted a) then error 400 (c_message a)
                 else success (c_message a) (quoted "'run_id':" ++ json_string (c_run_id a) ++
                   quoted ",'directory':" ++ json_string (c_directory a) ++
                   quoted ",'observation':" ++ c_observation_json a)%string))
     end).

Definition run_request (input : JsonValue) (id stage_ : string) : Outcome RunRequest :=
  (let! plugin := value_string "mobility_plugin_id" "" input in
   let! execute := value_bool "execute_command" false input in
   let! confirmation := value_string "operator_confirmation" "" input in
   let! duration := value get_uint32 "execution_duration_ms" 150 input in
   Returns (MakeRun id stage_ plugin execute confirmation duration))%outcome.

Definition debug_run (body : string) : Handled :=
  when_available (run_ services) debug_missing
    (with_body body (fun input =>
      match text_member "run_id" input, text_member "stage" input with
      | Some id, Some stage_ =>
          checked (run_request input id stage_) (fun request =>
            ask (run_ services) request (RunVlaDebug request) "VLA debug stage timed out" (fun a =>
              Done (if negb (r_accepted a) then error 400 (r_message a)
                    else success (r_message a) (quoted "'result':" ++ r_result_json a)%string)))
      | _, _ => answered (error 400 "run_id and stage are required")
      end)).
End Handlers.

(** ** Handlers that read the state *)
Fixpoint bytes_text (data : list Z) : string :=
  match data with [] => "" | b :: r => String (to_char b) (bytes_text r) end.

Section Reading.
Context `{Nlohmann}.

Definition camera (s : VehicleOpsApi) : HttpResponse :=
  match camera_data_ s with
  | [] => error 404 "No camera frame received"
  | data => MakeResponse 200 "image/jpeg" (bytes_text data) no_store
  end.

Definition stage_json (g : PipelineStage.PipelineStageMsg) : JsonValue :=
  let detail := match parse (PipelineStage.detail_json g) with
                | Returns v => v
                | Throws _ => J_object [("raw", J_string (PipelineStage.detail_json g))]%string
                end in
  J_object
    [("stage_id", J_string (PipelineStage.stage_id g)); ("label", J_string (PipelineStage.label g));
     ("component", J_string (PipelineStage.component g));
     ("status", J_string (pipeline_stage_status_name (PipelineStage.status g)));
     ("status_code", J_integer (PipelineStage.status g));
     ("age_seconds", float_json (PipelineStage.age_seconds g));
     ("latency_ms", float_json (PipelineStage.latency_ms g));
     ("input_summary", J_string (PipelineStage.input_summary g));
     ("output_summary", J_string (PipelineStage.output_summary g));
     ("message", J_string (PipelineStage.message g)); ("detail", detail);
     ("control_boundary", J_bool (PipelineStage.control_boundary g));
     ("publishes_control", J_bool (PipelineStage.publishes_control g))]%string.
Definition pipeline_trace_json (t : PipelineTrace.PipelineTraceMsg) : JsonValue :=
  J_object
    [("trace_id", J_string (PipelineTrace.trace_id t)); ("observation_id", J_string (PipelineTrace.observation_id t));
     ("mode", J_string (PipelineTrace.mode t)); ("provider_id", J_string (PipelineTrace.provider_id t));
     ("model_id", J_string (PipelineTrace.model_id t)); ("shadow_only", J_bool (PipelineTrace.shadow_only t));
     ("publishes_control", J_bool (PipelineTrace.publishes_control t));
     ("stages", J_array (map stage_json (PipelineTrace.stages t)))]%string.

Definition pipeline_live (now : Z) (s : VehicleOpsApi) : Result HttpResponse :=
  match pipeline_trace_ s with
  | None => Done (error 404 "No pipeline trace received")
  | Some t => document (set "received_age_ms" (J_number (chrono_millis (now - pipeline_received_ s)))
                          (pipeline_trace_json t))
  end.
Definition pipeline_history (s : VehicleOpsApi) : Result HttpResponse :=
  document (J_object [("traces", J_array (map pipeline_trace_json (pipeline_history_ s)))]%string).

Definition system_json (m : SystemState.SystemStateMsg) : JsonValue :=
  J_object
    [("mode", J_integer (SystemState.mode m)); ("mode_name", J_string (mode_name (SystemState.mode m)));
     ("control_source", J_string (SystemState.control_source m));
     ("safe_to_move", J_bool (SystemState.safe_to_move m));
     ("message", J_string (SystemState.status_message m))]%string.
Definition episode_json (m : EpisodeState.EpisodeStateMsg) : JsonValue :=
  J_object
    [("state", J_integer (EpisodeState.state m)); ("state_name", J_string (episode_name (EpisodeState.state m)));
     ("episode_id", J_string (EpisodeState.episode_id m)); ("task", J_string (EpisodeState.task m));
     ("elapsed_seconds", float_json (EpisodeState.elapsed_seconds m));
     ("image_count", J_integer (EpisodeState.image_count m));
     ("message_count", J_integer (EpisodeState.message_count m))]%string.
Definition planar_json (available : list (string * JsonValue)) (t : Twist) : JsonValue :=
  J_object (available ++ [("linear_x", J_number (Vector3.x (Twist.linear t)));
                          ("angular_z", J_number (Vector3.z (Twist.angular t)))]%string).
Definition odometry_available (p : Settings) (now : Z) (s : VehicleOpsApi) : bool :=
  negb (odometry_received_ s =? 0) && dle (chrono_seconds (now - odometry_received_ s)) (odometry_timeout_seconds_ p).

(** [wall]: milliseconds of the system clock *)
Definition teleop_status (p : Settings) (now wall : Z) (s : VehicleOpsApi) : Result HttpResponse :=
  let or_empty {A} (f : A -> JsonValue) (m : option A) := match m with Some a => f a | None => J_object [] end in
  let? text := json (dump (J_object
    [("server_time_ms", J_integer wall);
     ("lease_received", J_bool (bool_decide (is_Some (message (control_lease_ s)))));
     ("lease", or_empty lease_json (message (control_lease_ s)));
     ("system", or_empty system_json (message (system_ s)));
     ("episode", or_empty episode_json (message (episode_ s)));
     ("executed_command", planar_json [] (latest_command_ s));
     ("measured_motion", planar_json [("available", J_bool (odometry_available p now s))] (latest_odometry_ s))]%string)) in
  Done (MakeResponse 200 json_type text no_store).

(** *** Jobs *)
Definition jobs_list (text : string) : HttpResponse := MakeResponse 200 json_type text no_store.
Definition job_get (job : option string) : HttpResponse :=
  match job with
  | Some text => MakeResponse 200 json_type text no_store
  | None => error 404 "Job not found"
  end.
Definition job_log (log : option string) : HttpResponse :=
  match log with
  | Some text => MakeResponse 200 "text/plain; charset=utf-8" text no_store
  | None => error 404 "Job not found"
  end.
End Reading.

(** ** Files *)

(** [path::filename] and [path::extension] *)
Fixpoint filename_from (s current : string) : string :=
  match s with
  | EmptyString => current
  | String c r => if Ascii.eqb c "/" then filename_from r "" else filename_from r (current ++ String c "")
  end.
Definition filename (path : string) : string := filename_from path "".
Fixpoint last_dot (s : string) : option string :=
  match s with
  | EmptyString => None
  | String c r => match last_dot r with
                  | Some e => Some e
                  | None => if Ascii.eqb c "." then Some s else None
                  end
  end.
Definition extension (path : string) : string :=
  let name := filename path in
  if str_eqb name "." || str_eqb name ".." then ""
  else match name with
       | EmptyString => ""
       | String c r => match last_dot r with Some e => e | None => "" end
       end.

Definition content_type_for (path : string) : string :=
  let e := lowercase (extension path) in
  if str_eqb e ".html" then "text/html; charset=utf-8"
  else if str_eqb e ".css" then "text/css; charset=utf-8"
  else if str_eqb e ".js" then "application/javascript; charset=utf-8"
  else if str_eqb e ".svg" then "image/svg+xml"
  else if str_eqb e ".webmanifest" then "application/manifest+json"
  else "application/octet-stream".

Section Files.
(** [read_file]: the content, or none when it throws *)
Variable read_file : string -> option string.
Variables web_root_ project_root_ : string.

Definition asset_extensions : list string := [".css"; ".js"; ".svg"; ".png"; ".webp"]%string.
Definition relative_path (path : string) : option string :=
  if str_in path ["/"; "/index.html"]%string then Some "index.html"%string
  else if str_in path ["/teleop"; "/teleop.html"]%string then Some "teleop.html"%string
  else if str_eqb path "/favicon.svg" then Some "favicon.svg"%string
  else if str_eqb path "/manifest.webmanifest" then Some "manifest.webmanifest"%string
  else if str_eqb path "/teleop-sw.js" then Some "teleop-sw.js"%string
  else if str_prefix "/assets/" path && (String.length path <=? 180)%nat && negb (str_contains ".." path) &&
          negb (str_has backslash path) then
    let relative := str_drop 1 path in
    if str_in (lowercase (extension relative)) asset_extensions then Some relative else None
  else None.

Definition not_found_ : HttpResponse := error 404 "Resource not found".
Definition static_file (path : string) : HttpResponse :=
  match relative_path path with
  | None => not_found_
  | Some relative =>
      let file := path_join web_root_ relative in
      match read_file file with
      | None => not_found_
      | Some content =>
          MakeResponse 200 (content_type_for file) content
            ([("Cache-Control", "no-cache")]%string ++
             if str_eqb path "/teleop-sw.js" then [("Service-Worker-Allowed", "/")]%string else [])
      end
  end.

Definition image_file (image_name : string) : string :=
  if str_eqb image_name "original.jpg" then "camera-original.jpg"
  else if str_eqb image_name "processed.jpg" then "camera-processed.jpg" else "".
Definition debug_image (id image_name : string) : HttpResponse :=
  let name := image_file image_name in
  if negb (debug_id id) || str_empty name then error 404 "Debug image not found"
  else match read_file (path_join (path_join (path_join project_root_ "run/ops/debug") id) name) with
       | Some content => MakeResponse 200 "image/jpeg" content no_store
       | None => error 404 "Debug image not found"
       end.
End Files.

(** ** The handlers of this file by call *)
Section Relay.
Context `{Nlohmann}.
Variable services : Services.

Definition relay (s : VehicleOpsApi) (c : Call) : option Handled :=
  match c with
  | ComponentsList => Some (components_list services)
  | ComponentControl body => Some (component_control services body)
  | ProfileControl body => Some (profile_control services body)
  | ComponentLog id => Some (component_log services id)
  | StorageStatus => Some (storage_status services)
  | StorageItems category_id => Some (storage_items services category_id)
  | StorageCleanup body => Some (storage_cleanup services body)
  | EnterShadowMode => Some (enter_shadow_mode services)
  | EnterSingleStepMode => Some (enter_single_step_mode services)
  | DebugCapture body => Some (debug_capture services s body)
  | DebugRun body => Some (debug_run services body)
  | Task body => Some (task_ body)
  | StartEpisode body => Some (start_episode services body)
  | StopEpisode body => Some (stop_episode services body)
  | SafeStop body => Some (safe_stop services body)
  | _ => None
  end.

(** what the asked node has answered: nothing in time, or whether it accepted *)
Definition verdict (q : Request) : option bool :=
  match q with
  | ListComponents => option_map (fun _ => true) (answer (components services) tt)
  | ControlComponent i a f => option_map (fun a => fst (fst a)) (answer (component_control_ services) (i, a, f))
  | ControlProfile i a => option_map fst (answer (profile_control_ services) (i, a))
  | ReadComponentLog i => option_map (fun a => fst (fst a)) (answer (component_log_ services) i)
  | GetStorageStatus => option_map (fun _ => true) (answer (storage_status_ services) tt)
  | ListStorageItems i => option_map (fun a => fst (fst a)) (answer (storage_items_ services) i)
  | CleanupStorage i l d => option_map (fun a => fst (fst (fst a))) (answer (storage_cleanup_ services) (i, l, d))
  | StartEpisodeRequest i t o => option_map (fun a => fst (fst (fst a))) (answer (start_episode_ services) (i, t, o))
  | StopEpisodeRequest g r => option_map (fun a => fst (fst a)) (answer (stop_episode_ services) (g, r))
  | RequestSafeStop w r => option_map fst (answer (safe_stop_ services) (w, r))
  | RequestControlMode m w r => option_map (fun a => fst (fst a)) (answer (request_mode_ services) (m, w, r))
  | CaptureVlaDebug r => option_map c_accepted (answer (capture_ services) r)
  | RunVlaDebug r => option_map r_accepted (answer (run_ services) r)
  | PublishTaskText _ => Some true
  end.

(** an answer that agrees with it; a document that cannot be printed raises *)
Definition agrees (v : option bool) (r : Result HttpResponse) : Prop :=
  match v with
  | None => exists text, r = Done (error 408 text)
  | Some false => exists code text, r = Done (error code text) /\ code <> 200 /\ code <> 408
  | Some true => (exists response, r = Done response /\ Http.status response = 200) \/ exists e, r = Raised (JsonError e)
  end.
Definition outcome_ok (h : Handled) : Prop :=
  match snd h with
  | [] => refused (fst h)
  | [q] => agrees (verdict q) (fst h)
  | _ => False
  end.

Lemma answered_ok code text : code <> 200 -> outcome_ok (answered (error code text)).
Proof. intros Hc. by apply refused_error. Qed.
Lemma when_available_ok {Q A} (svc : Service Q A) text k : outcome_ok k -> outcome_ok (when_available svc text k).
Proof. unfold when_available. destruct (available svc); [done|]. intros _. by apply answered_ok. Qed.
Lemma checked_ok {A} (m : Outcome A) k : (forall a, outcome_ok (k a)) -> outcome_ok (checked m k).
Proof. intros Hk. destruct m; [apply Hk|]. apply refused_raised. Qed.
Lemma with_body_ok body k : (forall input, outcome_ok (k input)) -> outcome_ok (with_body body k).
Proof. intros Hk. unfold with_body. destruct (parse body); [apply Hk|]. by apply answered_ok. Qed.
Lemma ask_ok {Q A} (svc : Service Q A) q sent late k (accepted : A -> bool) :
  verdict sent = option_map accepted (answer svc q) ->
  (forall a, agrees (Some (accepted a)) (k a)) -> outcome_ok (ask svc q sent late k).
Proof.
  intros Hv Hk. unfold outcome_ok, ask. cbn [fst snd]. rewrite Hv.
  destruct (answer svc q) as [a|]; [apply Hk|]. by eexists.
Qed.
Lemma document_ok v : agrees (Some true) (document v).
Proof. unfold document. destruct (dump v); simpl; [left; by eexists|right; by eexists]. Qed.
Lemma success_ok text extra : agrees (Some true) (Done (success text extra)).
Proof. left. by eexists. Qed.
Lemma error_ok code text : code <> 200 -> code <> 408 -> agrees (Some false) (Done (error code text)).
Proof. intros. by eexists _, _. Qed.
Lemma success_with_ok text key v : agrees (Some true) (success_with text key v).
Proof. unfold success_with. destruct (dump v); simpl; [left; by eexists|right; by eexists]. Qed.
End Relay.

Create HintDb relay.
#[export] Hint Resolve answered_ok when_available_ok checked_ok with_body_ok document_ok success_ok error_ok
  success_with_ok : relay.
#[export] Hint Extern 1 (_ <> _) => done : relay.

Section Theorems.
Context `{Nlohmann}.
Variable services : Services.

(** one request with its verdict: [accepted] is what the answer says *)
Ltac asked accepted := apply (ask_ok services _ _ _ _ _ accepted); [reflexivity|].

Lemma start_episode_ok body : outcome_ok services (start_episode services body).
Proof.
  apply when_available_ok. asked (fun a : bool * string * string * string => fst (fst (fst a))).
  intros [[[[] text] id] directory]; cbn [fst snd negb]; eauto with relay.
Qed.
Lemma stop_episode_ok body : outcome_ok services (stop_episode services body).
Proof.
  apply when_available_ok.
  assert (forall good reason, outcome_ok services (ask (stop_episode_ services) (good, reason)
    (StopEpisodeRequest good reason) "Episode stop timed out" (fun '(accepted, text, directory) =>
      Done (if negb (accepted : bool) then error 400 text
            else success text (quoted "'directory':" ++ json_string directory)%string)))) as Hstop.
  { intros good reason. asked (fun a : bool * string * string => fst (fst a)).
    intros [[[] text] directory]; cbn [fst snd negb]; eauto with relay. }
  destruct (str_empty (trim body)); [apply Hstop|]. destruct (parse body) as [[]|]; eauto 6 with relay.
Qed.
Lemma enter_mode_ok mode name reason : outcome_ok services (enter_mode services mode name reason).
Proof.
  apply when_available_ok. asked (fun a : bool * string * Z => fst (fst a)).
  intros [[[] text] current]; cbn [fst snd negb]; eauto with relay.
Qed.
Lemma safe_stop_ok body : outcome_ok services (safe_stop services body).
Proof.
  apply when_available_ok. asked (fst : bool * string -> bool). intros [[] text]; cbn [fst snd negb]; eauto with relay.
Qed.
Lemma capture_request_refusal body r :
  capture_request body = Done (inl r) -> exists code text, r = error code text /\ code <> 200.
Proof.
  unfold capture_request. destruct (str_prefix "{" (trim body)); [|done].
  destruct (parse _) as [input|]; [|intros [= <-]; by eexists _, _]. unfold upload_request.
  destruct (text_member "task" input); [|intros [= <-]; by eexists _, _].
  destruct (member "image_base64" input) as [[]|]; try done; try (intros [= <-]; by eexists _, _).
  destruct (decode_base64 _) as [data|[]]; try (intros [= <-]; by eexists _, _).
  destruct (negb _); [intros [= <-]; by eexists _, _|]. by destruct (value_string _ _ _).
Qed.
Lemma debug_capture_ok s body : outcome_ok services (debug_capture services s body).
Proof.
  apply when_available_ok.
  assert (forall m : Result (HttpResponse + CaptureRequest),
    (forall r, m = Done (inl r) -> exists code text, r = error code text /\ code <> 200) ->
    outcome_ok services (match m with
      | Done (inl refusal) => answered refusal
      | Done (inr request) =>
          if negb (use_image_override request) && camera_content_analyzed_ s && negb (camera_content_valid_ s)
          then answered (error 409 near_black)
          else ask (capture_ services) request (CaptureVlaDebug request) "VLA debug capture timed out" (fun a =>
            Done (if negb (c_accepted a) then error 400 (c_message a)
                  else success (c_message a) (quoted "'run_id':" ++ json_string (c_run_id a) ++
                    quoted ",'directory':" ++ json_string (c_directory a) ++
                    quoted ",'observation':" ++ c_observation_json a)%string))
      | Raised e => (Raised e, [])
      end)) as Hm.
  { intros [[refusal|request]|e] Hr.
    - destruct (Hr _ eq_refl) as (code & text & -> & Hc). by apply answered_ok.
    - destruct (_ && _ && _); [by apply answered_ok|]. asked c_accepted.
      intros a. destruct (c_accepted a); cbn [fst snd negb]; eauto with relay.
    - apply refused_raised. }
  apply Hm. apply capture_request_refusal.
Qed.

(** A handler that passes a request on sends at most one.  If it sends none,
    it answers with an error.  If it sends one, the answer is the other node's:
    408 when nothing came in time, so that the outcome is open; another error
    when the node refused; 200 when it accepted, unless its answer cannot be
    printed as JSON. *)
Theorem answers_report_the_service s c h : relay services s c = Some h -> outcome_ok services h.
Proof.
  destruct c; intros [= <-]; try apply start_episode_ok; try apply stop_episode_ok; try apply enter_mode_ok;
    try apply safe_stop_ok; try apply debug_capture_ok.
  - apply when_available_ok. asked (fun _ : list ComponentState.ComponentStateMsg * list string => true).
    intros [all profiles]. apply document_ok.
  - apply when_available_ok, with_body_ok. intros input.
    destruct (text_member "component_id" input), (text_member "action" input); eauto with relay.
    apply checked_ok. intros force. asked (fun a : bool * string * ComponentState.ComponentStateMsg => fst (fst a)).
    intros [[[] text] c]; cbn [fst snd negb]; eauto with relay.
  - apply when_available_ok, with_body_ok. intros input.
    destruct (text_member "profile_id" input), (text_member "action" input); eauto with relay.
    asked (fst : bool * string -> bool). intros [[] text]; cbn [fst snd negb]; eauto with relay.
  - apply when_available_ok. asked (fun a : bool * string * string => fst (fst a)).
    intros [[[] text] content]; cbn [fst snd negb]; [left; by eexists|eauto with relay].
  - apply when_available_ok. asked (fun _ : StorageStatusReply => true). intros a. apply document_ok.
  - unfold storage_items. destruct (str_empty category_id); [eauto with relay|].
    apply when_available_ok. asked (fun a : bool * string * list StorageItem.StorageItemMsg => fst (fst a)).
    intros [[[] text] items]; cbn [fst snd negb]; eauto with relay.
  - apply with_body_ok. intros input.
    destruct (text_member "category_id" input), (member "item_ids" input) as [[]|]; eauto with relay.
    apply checked_ok. intros ids. apply checked_ok. intros dry_run. apply when_available_ok.
    asked (fun a : bool * string * Z * Z => fst (fst (fst a))).
    intros [[[[] text] bytes] count]; cbn [fst snd negb]; eauto with relay.
  - apply when_available_ok, with_body_ok. intros input.
    destruct (text_member "run_id" input), (text_member "stage" input); eauto with relay.
    apply checked_ok. intros request. asked r_accepted. intros a. destruct (r_accepted a); cbn [fst snd negb]; eauto with relay.
  - unfold task_. destruct (str_empty (trim body)); [eauto with relay|]. apply success_ok.
Qed.
End Theorems.

(** ** What is sent, and by whom *)
Lemma value_bool_explicit key default v b :
  value_bool key default v = Returns b -> b <> default -> member key v = Some (J_bool b).
Proof.
  unfold value_bool, value. destruct v as [| | | | | |members]; try done. simpl.
  destruct (find_member key members) as [[]|]; try done; by intros [= <-].
Qed.
Lemma value_string_explicit key default v s :
  value_string key default v = Returns s -> s <> default -> member key v = Some (J_string s).
Proof.
  unfold value_string, value. destruct v as [| | | | | |members]; try done. simpl.
  destruct (find_member key members) as [[]|]; try done; by intros [= <-].
Qed.

Section Sent.
Context `{Nlohmann}.
Variable services : Services.

Lemma sent_when_available {Q A} (svc : Service Q A) text k q : q ∈ snd (when_available svc text k) -> q ∈ snd k.
Proof. unfold when_available. destruct (available svc); [done|]. by intros ?%elem_of_nil. Qed.
Lemma sent_with_body body k q :
  q ∈ snd (with_body body k) -> exists input, parse body = Returns input /\ q ∈ snd (k input).
Proof. unfold with_body. destruct (parse body); [by eexists|]. by intros ?%elem_of_nil. Qed.
Lemma sent_checked {A} (m : Outcome A) k q : q ∈ snd (checked m k) -> exists a, m = Returns a /\ q ∈ snd (k a).
Proof. destruct m; [by eexists|]. by intros ?%elem_of_nil. Qed.
Lemma sent_ask {Q A} (svc : Service Q A) x sent late k q : q ∈ snd (ask svc x sent late k) -> q = sent.
Proof. by intros ?%list_elem_of_singleton. Qed.
Lemma sent_answered r q : q ∈ snd (answered r) -> False.
Proof. by intros ?%elem_of_nil. Qed.

(** requests that change nothing in the other nodes *)
Definition is_query (q : Request) : bool :=
  match q with
  | ListComponents | ReadComponentLog _ | GetStorageStatus | ListStorageItems _ => true
  | _ => false
  end.

(** whether a body is an object with these members *)
Definition body_has (body : string) (l : list (string * JsonValue)) : Prop :=
  exists input, parse body = Returns input /\ Forall (fun e => member (fst e) input = Some (snd e)) l.

(** what the operator has written of a request that is dangerous *)
Definition explicit (c : Call) (q : Request) : Prop :=
  match q with
  | CleanupStorage _ _ false => exists body, c = StorageCleanup body /\ body_has body [("dry_run", J_bool false)]%string
  | ControlComponent _ _ true => exists body, c = ComponentControl body /\ body_has body [("force", J_bool true)]%string
  | RunVlaDebug r =>
      exists body, c = DebugRun body /\ body_has body [("stage", J_string (stage r))]%string /\
        (execute_command r = true -> operator_confirmation r <> ""%string ->
         body_has body [("stage", J_string (stage r)); ("execute_command", J_bool true);
                        ("operator_confirmation", J_string (operator_confirmation r))]%string)
  | RequestControlMode m _ _ =>
      (c = EnterShadowMode /\ m = SystemState.MODE_VLA_SHADOW) \/
      (c = EnterSingleStepMode /\ m = SystemState.MODE_VLA_ASSISTED)
  | _ => True
  end.

Lemma text_member_some key v s : text_member key v = Some s -> member key v = Some (J_string s).
Proof. unfold text_member. destruct (member key v) as [[]|]; naive_solver. Qed.

Lemma component_control_sent body q :
  q ∈ snd (component_control services body) -> is_query q = false /\ explicit (ComponentControl body) q.
Proof.
  intros (input & Hp & Hq)%sent_when_available%sent_with_body.
  destruct (text_member "component_id" input), (text_member "action" input); try by apply sent_answered in Hq.
  apply sent_checked in Hq as (force & Hf & ->%sent_ask). split; [done|]. simpl. destruct force; [|done].
  apply value_bool_explicit in Hf; [|done]. exists body. split; [done|]. exists input. by repeat constructor.
Qed.
Lemma storage_cleanup_sent body q :
  q ∈ snd (storage_cleanup services body) -> is_query q = false /\ explicit (StorageCleanup body) q.
Proof.
  intros (input & Hp & Hq)%sent_with_body.
  destruct (text_member "category_id" input), (member "item_ids" input) as [[]|]; try by apply sent_answered in Hq.
  apply sent_checked in Hq as (ids & _ & Hq). apply sent_checked in Hq as (dry_run & Hd & Hq).
  apply sent_when_available, sent_ask in Hq as ->. split; [done|]. simpl. destruct dry_run; [done|].
  apply value_bool_explicit in Hd; [|done]. exists body. split; [done|]. exists input. by repeat constructor.
Qed.
Lemma debug_run_sent body q :
  q ∈ snd (debug_run services body) -> is_query q = false /\ explicit (DebugRun body) q.
Proof.
  intros (input & Hp & Hq)%sent_when_available%sent_with_body.
  destruct (text_member "run_id" input), (text_member "stage" input) as [g|] eqn:Hg; try by apply sent_answered in Hq.
  apply sent_checked in Hq as (r & Hr & ->%sent_ask). split; [done|]. apply text_member_some in Hg.
  unfold run_request in Hr. apply obind_returns in Hr as (plugin & _ & Hr).
  apply obind_returns in Hr as (execute & He & Hr). apply obind_returns in Hr as (confirmation & Hc & Hr).
  apply obind_returns in Hr as (duration & _ & [= <-]). exists body. split; [done|]. simpl. split.
  - exists input. by repeat constructor.
  - intros -> Hne. apply value_bool_explicit in He; [|done]. apply value_string_explicit in Hc; [|done].
    exists input. by repeat constructor.
Qed.

(** a request other than a query is sent by an acting call, and a dangerous one
    is written out by the operator *)
Lemma relay_sent s c h q :
  relay services s c = Some h -> q ∈ snd h -> (is_query q = false -> acts c = true) /\ explicit c q.
Proof.
  destruct c; intros [= <-] Hq;
    try (apply component_control_sent in Hq as [? ?]; by split);
    try (apply storage_cleanup_sent in Hq as [? ?]; by split);
    try (apply debug_run_sent in Hq as [? ?]; by split).
  - by apply sent_when_available, sent_ask in Hq as ->.
  - apply sent_when_available, sent_with_body in Hq as (input & _ & Hq).
    destruct (text_member "profile_id" input), (text_member "action" input); try by apply sent_answered in Hq.
    by apply sent_ask in Hq as ->.
  - by apply sent_when_available, sent_ask in Hq as ->.
  - by apply sent_when_available, sent_ask in Hq as ->.
  - unfold storage_items in Hq. destruct (str_empty category_id); [by apply sent_answered in Hq|].
    by apply sent_when_available, sent_ask in Hq as ->.
  - apply sent_when_available, sent_ask in Hq as ->. split; [done|by left].
  - apply sent_when_available, sent_ask in Hq as ->. split; [done|by right].
  - apply sent_when_available in Hq. destruct (capture_request body) as [[refusal|request]|]; try by apply elem_of_nil in Hq.
    destruct (_ && _ && _); [by apply sent_answered in Hq|]. by apply sent_ask in Hq as ->.
  - unfold task_ in Hq. destruct (str_empty (trim body)); [by apply sent_answered in Hq|].
    by apply list_elem_of_singleton in Hq as ->.
  - by apply sent_when_available, sent_ask in Hq as ->.
  - apply sent_when_available in Hq. destruct (str_empty (trim body)); [by apply sent_ask in Hq as ->|].
    destruct (parse body) as [[]|]; try by apply sent_answered in Hq.
    apply sent_checked in Hq as (good & _ & Hq). apply sent_checked in Hq as (reason & _ & Hq).
    by apply sent_ask in Hq as ->.
  - by apply sent_when_available, sent_ask in Hq as ->.
Qed.

(** C30: From the HTTP request to the other nodes, for the handlers of [relay] (those
    that send one request and wait: not the teleoperation, the restart of the
    camera after a calibration, or the task of an active debug session): a request
    that is more than a query is sent only for a POST with the operator's token, and what is
    dangerous has been written out in its body: a clean-up that really deletes
    ([dry_run] false), the forced control of a component ([force] true); a mode
    is only requested as one of the two debug modes. *)
Theorem other_nodes_obey_the_operator token_ request s c h q :
  route token_ request = Done c -> relay services s c = Some h -> q ∈ snd h -> is_query q = false ->
  token_ <> ""%string /\ headers request !! "x-ops-token"%string = Some token_ /\
  method request = "POST"%string /\ explicit c q.
Proof.
  intros Hc Hr Hq Hn. destruct (relay_sent s c h q Hr Hq) as [Ha He]. specialize (Ha Hn).
  destruct (route_guarded token_ request c Hc (acts_not_public c Ha)) as (Ht & Hh & Hm). auto.
Qed.
End Sent.

(** ** A single step, from the console to the wheels *)
Section Console.
Context `{Rclcpp} `{NlohmannNumbers} {T W : Type} `{PolicyTransport.PolicyTransport T W}.
Variable tan : double -> double.
Hypothesis tan_finite : forall x, isfinite x = true -> isfinite (tan x) = true.
Variable p : VlaDebug.Settings.
Variable services : Services.

(** When the run request of the console makes the debug orchestrator publish
    a motion command, the console's request was a POST with the operator's token
    whose JSON body says [execute_command] true, the inference stage and the
    literal confirmation, and the orchestrator knew the vehicle to be in
    VLA_ASSISTED mode. *)
Theorem console_single_steps_are_confirmed token_ request s c h r now w ws (o : VlaDebugOrchestrator T) o' response outputs m :
  route token_ request = Done c -> relay services s c = Some h -> RunVlaDebug r ∈ snd h ->
  VlaDebug.run tan p r now w ws o = (o', response, outputs) -> PublishedCommand m ∈ outputs ->
  headers request !! "x-ops-token"%string = Some token_ /\ token_ <> ""%string /\ method request = "POST"%string /\
  (exists body, c = DebugRun body /\
     body_has body [("stage", J_string "inference"); ("execute_command", J_bool true);
                    ("operator_confirmation", J_string "I_CONFIRM_SINGLE_STEP")]%string) /\
  has_mode SystemState.MODE_VLA_ASSISTED o = true.
Proof.
  intros Hc Hr Hq Hrun Hm. destruct (relay_sent services s c h _ Hr Hq) as [Ha (body & -> & _ & Hbody)].
  destruct (route_guarded token_ request _ Hc eq_refl) as (Ht & Hh & Hpost).
  destruct (run_published tan tan_finite p r now w ws o o' response outputs m Hrun Hm)
    as (He & Hs & Hconf & Hmode & _).
  rewrite Hs, Hconf in Hbody. split_and!; [done|done|by apply Hpost|by exists body; auto|done].
Qed.
End Console.

(** ** The files served *)
Section Served.
Variable read_file : string -> option string.
Variables web_root_ project_root_ : string.

(** a path below the directory it is joined to *)
Definition below (relative : string) : Prop :=
  starts_with_slash relative = false /\ str_contains ".." relative = false.

Lemma relative_path_below path relative : relative_path path = Some relative -> below relative.
Proof.
  unfold relative_path. repeat (destruct (str_in path _); [by intros [= <-]|]).
  repeat (destruct (str_eqb path _); [by intros [= <-]|]).
  destruct (str_prefix "/assets/" path) eqn:Hp; [|done]. destruct (String.length path <=? 180)%nat; [|done].
  destruct (str_contains ".." path) eqn:Hd; [done|]. cbn [andb negb].
  destruct (str_has backslash path); [done|]. cbn [negb]. destruct (str_in _ _); [|done]. intros [= <-].
  destruct path as [|c1 [|c2 r]]; [done|done|]. cbn [str_drop]. split.
  - cbn [str_prefix] in Hp. apply andb_true_iff in Hp as [_ Hp]. apply andb_true_iff in Hp as [Hc _].
    apply Ascii.eqb_eq in Hc as <-. done.
  - cbn [str_contains] in Hd. by apply orb_false_iff in Hd as [_ Hd].
Qed.

(** The pages and the images of debug runs come from files below two
    directories, whatever the request: a page is not found or a file below
    [web_root_], reached without [..]; an image is not found or one of the two
    images of a debug run below run/ops/debug, whose identifier has only
    letters, digits and dashes. *)
Theorem served_files_are_confined path id image_name :
  (static_file read_file web_root_ path = not_found_ \/
   exists relative, below relative /\
     read_file (path_join web_root_ relative) = Some (Http.content (static_file read_file web_root_ path))) /\
  (debug_image read_file project_root_ id image_name = error 404 "Debug image not found" \/
   exists name, debug_id id = true /\ name ∈ ["camera-original.jpg"; "camera-processed.jpg"]%string /\
     read_file (path_join (path_join (path_join project_root_ "run/ops/debug") id) name) =
       Some (Http.content (debug_image read_file project_root_ id image_name))).
Proof.
  split.
  - unfold static_file. destruct (relative_path path) as [relative|] eqn:Hr; [|by left].
    destruct (read_file _) as [text|] eqn:Hf; [|by left]. right. exists relative.
    split; [by eapply relative_path_below|done].
  - unfold debug_image. destruct (debug_id id) eqn:Hid; [|by left]. cbn [negb orb].
    destruct (str_empty (image_file image_name)) eqn:Hn; [by left|].
    destruct (read_file _) as [text|] eqn:Hf; [|by left]. right. exists (image_file image_name).
    split_and!; [done| |done]. unfold image_file in *.
    destruct (str_eqb _ _); [left|]. destruct (str_eqb _ _); [right; left|done].
Qed.
End Served.

(** ** A concrete console *)
Module Console.
Definition step_input : JsonValue :=
  J_object [("run_id", J_string (run_name 7 1)); ("stage", J_string "inference");
    ("mobility_plugin_id", J_string "diff"); ("execute_command", J_bool true);
    ("operator_confirmation", J_string "I_CONFIRM_SINGLE_STEP")]%string.
Definition cleanup_input : JsonValue :=
  J_object [("category_id", J_string "logs"); ("item_ids", J_array [J_string "a"]); ("dry_run", J_bool false)]%string.
(** the library of the orchestrator's example, with the console's two bodies *)
#[local] Instance nlohmann_console : Nlohmann := {|
  dump := @dump Demo.nlohmann_debug; dump_indent := @dump_indent Demo.nlohmann_debug;
  parse text := if str_eqb text "step" then Returns step_input
    else if str_eqb text "cleanup" then Returns cleanup_input else @parse Demo.nlohmann_debug text;
  get_int := @get_int Demo.nlohmann_debug;
  get_uint32 v := match v with J_integer z => Returns z | _ => type_error end;
  get_uint64 := @get_uint64 Demo.nlohmann_debug; get_float := @get_float Demo.nlohmann_debug;
  get_double := @get_double Demo.nlohmann_debug |}.
#[local] Instance nlohmann_console_numbers : NlohmannNumbers.
Proof.
  split.
  - intros text v. cbn [parse nlohmann_console]. destruct (str_eqb _ _); [by intros [= <-]|].
    destruct (str_eqb _ _); [by intros [= <-]|]. apply (@parse_finite _ Demo.nlohmann_debug_numbers).
  - by intros x y [= ->].
  - by intros [] y.
Defined.
#[local] Existing Instance rclcpp_doc.
#[local] Existing Instance PolicyTransport.Mock.mock_transport.

Definition accepting {Q A} (a : A) : Service Q A := MakeService true (fun _ => Some a).
Definition missing {Q A} : Service Q A := MakeService false (fun _ => None).
Definition services : Services :=
  MakeServices missing missing missing missing missing missing
    (accepting (true, "Deleted"%string, 10, 1)) missing missing missing missing missing
    (accepting (MakeRan true "{}" "" "done")).
Definition post (target body : string) : HttpRequest :=
  MakeRequest "POST" target {["x-ops-token"%string := "secret"%string]} body.
Definition step_request : RunRequest :=
  MakeRun (run_name 7 1) "inference" "diff" true "I_CONFIRM_SINGLE_STEP" 150.

Lemma answers_report_the_service_witness :
  outcome_ok services (storage_cleanup services "cleanup") /\
  snd (storage_cleanup services "cleanup") = [CleanupStorage "logs" ["a"]%string false].
Proof.
  split; [|reflexivity]. exact (answers_report_the_service services OpsApi.initial (StorageCleanup "cleanup") _ eq_refl).
Defined.

Lemma other_nodes_obey_the_operator_witness :
  route "secret" (post "/api/storage/cleanup" "cleanup") = Done (StorageCleanup "cleanup") /\
  body_has "cleanup" [("dry_run", J_bool false)]%string.
Proof.
  assert (route "secret" (post "/api/storage/cleanup" "cleanup") = Done (StorageCleanup "cleanup")) as Hr by reflexivity.
  split; [done|].
  destruct (other_nodes_obey_the_operator services "secret" _ OpsApi.initial _ _
    (CleanupStorage "logs" ["a"]%string false) Hr eq_refl) as (_ & _ & _ & body & [= <-] & Hb);
    [left|done|exact Hb].
Defined.

Lemma console_single_steps_are_confirmed_witness :
  exists m, PublishedCommand m ∈ snd (VlaDebug.run (fun x => x) Demo.settings step_request 8 Demo.world (fun _ => tt) Demo.ready) /\
    has_mode SystemState.MODE_VLA_ASSISTED Demo.ready = true.
Proof.
  assert (exists v a rest, snd (VlaDebug.run (fun x => x) Demo.settings step_request 8 Demo.world (fun _ => tt) Demo.ready) =
    PublishedCommand (stamped 0 v a) :: rest) as (v & a & rest & E) by (vm_compute; by eexists _, _, _).
  exists (stamped 0 v a). split; [rewrite E; left|].
  refine (proj2 (proj2 (proj2 (proj2 (console_single_steps_are_confirmed (fun x => x) (fun _ Hx => Hx) Demo.settings
    services "secret" (post "/api/vla-debug/run" "step") OpsApi.initial (DebugRun "step") _ step_request 8 Demo.world
    (fun _ => tt) Demo.ready _ _ _ (stamped 0 v a) _ eq_refl _ _ _))))).
  - reflexivity.
  - left.
  - rewrite <- !surjective_pairing. reflexivity.
  - rewrite E. left.
Defined.
End Console.
