(* ===== verification/Calibration.v ===== *)
(** * Camera calibration manager

    Models [vehicle_ops/src/camera_calibration_manager.cpp] and the handlers of
    [vehicle_ops_api_node.cpp] that call it.  The session, the last frames and
    what is known of [CameraInfo] are one state under [mutex_]; [capture] takes
    the mutex twice, so it is two steps between which the other operations may
    run.

    OpenCV is third-party: the class [OpenCV] has its functions; an empty
    [cv::Mat] is [None].  The functions of [<cmath>] that IEEE 754 does not fix
    ([hypot], [atan2]) are operations of the class [Libm].  The
    files are a map from paths to contents; what fails is part of the [World] of
    one call. *)
From S2P Require Import Prelude Calendar Floats Messages VlaDebug JsonData Json Text Numbers Http OpsApi OpsServices.
Local Open Scope Z_scope.
Local Open Scope result_scope.

(** ** Images *)

(** [sensor_msgs::msg::Image] *)
Record RosImage := MakeRosImage {
  width : Z; height : Z; step : Z; image_encoding : string; image_data : list Z }.

(** a [cv::Mat] of pixels that is not empty *)
Record Frame := MakeFrame { cols : Z; rows : Z; samples_of : list Z }.

Inductive Conversion := RgbToBgr | BgraToBgr | RgbaToBgr | GrayToBgr | BgrToGray.
Record Point := MakePoint { px : float32; py : float32 }.
Record Point3 := MakePoint3 { p3x : float32; p3y : float32; p3z : float32 }.

(** what [cv::calibrateCamera] returns: the error, the matrix by rows, the
    distortion and the pose of every board *)
Record Calibration := MakeCalibration {
  rms : double;
  matrix : list double;
  distortion : list double;
  poses : list (list double) }.

Class OpenCV := {
  cvt_color : Conversion -> Frame -> Frame;
  find_chessboard_sb : Frame -> Z -> Z -> bool * list Point;
  find_chessboard : Frame -> Z -> Z -> bool * list Point;
  corner_sub_pix : Frame -> list Point -> list Point;
  draw_corners : Frame -> Z -> Z -> list Point -> bool -> Frame;
  bounding_area : list Point -> Z;
  calibrate_camera : list (list Point3) -> list (list Point) -> Z -> Z -> Outcome Calibration;
  project_points : list Point3 -> list double -> list double -> list double -> list Point;
  norm_l2 : list Point -> list Point -> double;
  undistort : Frame -> list double -> list double -> Frame;
  imencode : Frame -> list Z
}.
Class Libm := {
  hypot : double -> double -> double;
  (** [std::atan2] of two [float]s *)
  atan2f : float32 -> float32 -> float32
}.
Definition dsqrt : double -> double := SFsqrt 53 1024.

(** channels and the conversion, when one is needed *)
Definition image_format (encoding : string) : option (Z * option Conversion) :=
  if str_eqb encoding "bgr8" then Some (3, None)
  else if str_eqb encoding "rgb8" then Some (3, Some RgbToBgr)
  else if str_eqb encoding "bgra8" then Some (4, Some BgraToBgr)
  else if str_eqb encoding "rgba8" then Some (4, Some RgbaToBgr)
  else if str_eqb encoding "mono8" then Some (1, Some GrayToBgr)
  else None.

(** [message.step < minimum_step || message.data.size() < message.step * message.height]:
    the product is a [uint32_t] *)
Definition fits (m : RosImage) (channels : Z) : bool :=
  (width m * channels <=? step m) && (wrap32 (step m * height m) <=? Z.of_nat (List.length (image_data m))).

(** the pixels of a [cv::Mat] over the data: [n] rows of [size] bytes, [step] apart *)
Fixpoint mat_rows (n : nat) (step size : nat) (data : list Z) : list Z :=
  match n with
  | O => []
  | S n => take size data ++ mat_rows n step size (drop step data)
  end.

Section Images.
Context `{OpenCV}.
Definition image_to_bgr (m : RosImage) : option Frame :=
  if (width m =? 0) || (height m =? 0) || (List.length (image_data m) =? 0)%nat then None
  else match image_format (image_encoding m) with
       | None => None
       | Some (channels, conversion) =>
           if negb (fits m channels) then None
           else
             let source := MakeFrame (swrap32 (width m)) (swrap32 (height m))
               (mat_rows (Z.to_nat (height m)) (Z.to_nat (step m)) (Z.to_nat (width m * channels)) (image_data m)) in
             Some (match conversion with None => source | Some c => cvt_color c source end)
       end.
End Images.

(** ** State *)
Record Sample := MakeSample {
  corners : list Point;
  center_x : double;
  center_y : double;
  area_ratio : double;
  angle_degrees : double;
  reprojection_error : double }.

Record Session := MakeSession {
  active : bool;
  camera_name : string;
  camera_id : string;
  board_columns : Z;
  board_rows : Z;
  square_size_m : double;
  minimum_samples : Z;
  image_width : Z;
  image_height : Z;
  samples : list Sample;
  result_ready : bool;
  camera_matrix : list double;
  distortion_coefficients : list double;
  rms_error : double;
  mean_reprojection_error : double;
  session_message : string }.
#[export] Instance eta_calibration_session : Eta Session := fun a =>
  MakeSession (active a) (camera_name a) (camera_id a) (board_columns a) (board_rows a) (square_size_m a)
    (minimum_samples a) (image_width a) (image_height a) (samples a) (result_ready a) (camera_matrix a)
    (distortion_coefficients a) (rms_error a) (mean_reprojection_error a) (session_message a).
Definition fresh_session : Session :=
  MakeSession false "front_camera" "" 6 8 (lit 25 3) 12 0 0 [] false [] [] dzero dzero "尚未创建标定会话".

Record CameraInfo := MakeCameraInfo { info_width : Z; info_height : Z; info_fx : double; info_fy : double }.

Record CameraCalibrationManager := MakeManager {
  session_ : Session;
  latest_frame_ : option Frame;
  preview_frame_ : option Frame;
  undistorted_frame_ : option Frame;
  latest_frame_time_ : Z;
  preview_frame_time_ : Z;
  latest_frame_sequence_ : Z;
  camera_info_sequence_ : Z;
  verification_start_sequence_ : Z;
  camera_info_width_ : Z;
  camera_info_height_ : Z;
  camera_info_fx_ : double;
  camera_info_fy_ : double;
  camera_info_calibrated_ : bool;
  verification_pending_ : bool;
  verified_ : bool }.
#[export] Instance eta_calibration_manager : Eta CameraCalibrationManager := fun s =>
  MakeManager (session_ s) (latest_frame_ s) (preview_frame_ s) (undistorted_frame_ s) (latest_frame_time_ s)
    (preview_frame_time_ s) (latest_frame_sequence_ s) (camera_info_sequence_ s)
    (verification_start_sequence_ s) (camera_info_width_ s) (camera_info_height_ s) (camera_info_fx_ s)
    (camera_info_fy_ s) (camera_info_calibrated_ s) (verification_pending_ s) (verified_ s).
Definition initial_manager : CameraCalibrationManager :=
  MakeManager fresh_session None None None 0 0 0 0 0 0 0 dzero dzero false false false.

Definition with_message (text : string) (s : CameraCalibrationManager) : CameraCalibrationManager :=
  s <| session_ := (session_ s) <| session_message := text |> |>.
Definition message_json (text : string) : JsonValue := J_object [("message", J_string text)]%string.

(** ** Topics *)
Section Topics.
Context `{OpenCV}.
Definition update_frame (m : RosImage) (now : Z) (s : CameraCalibrationManager) : CameraCalibrationManager :=
  match image_to_bgr m with
  | None => s
  | Some frame =>
      s <| latest_frame_ := Some frame |> <| latest_frame_time_ := now |>
        <| latest_frame_sequence_ := wrap64 (latest_frame_sequence_ s + 1) |>
  end.
End Topics.

Definition verification_passed : string := "标定文件已应用，CameraInfo 验证通过".
Definition update_camera_info (m : CameraInfo) (s : CameraCalibrationManager) : CameraCalibrationManager :=
  let calibrated := dlt dzero (info_fx m) && dlt dzero (info_fy m) in
  let s := s <| camera_info_width_ := swrap32 (info_width m) |> <| camera_info_height_ := swrap32 (info_height m) |>
    <| camera_info_fx_ := info_fx m |> <| camera_info_fy_ := info_fy m |> <| camera_info_calibrated_ := calibrated |>
    <| camera_info_sequence_ := wrap64 (camera_info_sequence_ s + 1) |> in
  if verification_pending_ s && (verification_start_sequence_ s <? camera_info_sequence_ s) && calibrated &&
     (camera_info_width_ s =? image_width (session_ s)) && (camera_info_height_ s =? image_height (session_ s))
  then with_message verification_passed (s <| verified_ := true |> <| verification_pending_ := false |>)
  else s.

(** ** start and reset *)
Section Start.
Context `{Nlohmann}.

Definition requested_session (input : JsonValue) : Outcome Session :=
  (let! name := value_string "camera_name" "front_camera" input in
   let! id := value_string "camera_id" "" input in
   let! columns := value get_int "board_columns" 6 input in
   let! rows := value get_int "board_rows" 8 input in
   let! square := value get_double "square_size_m" dzero input in
   let! minimum := value get_int "minimum_samples" 12 input in
   Returns (fresh_session <| camera_name := name |> <| camera_id := id |> <| board_columns := columns |>
     <| board_rows := rows |> <| square_size_m := square |> <| minimum_samples := minimum |>))%outcome.

Definition valid_name (a : Session) : bool :=
  negb (str_empty (camera_name a)) && (String.length (camera_name a) <=? 64)%nat.
Definition in_range (lo hi v : Z) : bool := (lo <=? v) && (v <=? hi).
Definition valid_square (x : double) : bool :=
  isfinite x && negb (dlt x (lit 1 3)) && negb (dlt (of_int 1) x).

Definition validate (a : Session) : Result unit :=
  let? _ := check (valid_name a) (InvalidArgument "相机名称不能为空且不能超过 64 个字符") in
  let? _ := check (in_range 3 20 (board_columns a) && in_range 3 20 (board_rows a))
    (InvalidArgument "内部角点行列数必须在 3 到 20 之间") in
  let? _ := check (valid_square (square_size_m a))
    (InvalidArgument "请填写实测单格边长，单位米，范围 0.001 到 1.0") in
  check (in_range 8 60 (minimum_samples a)) (InvalidArgument "最小样本数必须在 8 到 60 之间").

Definition session_created : string := "标定会话已创建，请从不同位置、距离和倾角采集棋盘格".
Definition start (input : JsonValue) (s : CameraCalibrationManager) : CameraCalibrationManager * Result JsonValue :=
  match (let? a := json (requested_session input) in let? _ := validate a in Done a) with
  | Raised e => (s, Raised e)
  | Done a =>
      match latest_frame_ s with
      | None => (s, Raised (RuntimeError "尚未收到 /camera/image_raw，请先启动前视相机组件"))
      | Some frame =>
          let a := a <| active := true |> <| image_width := cols frame |> <| image_height := rows frame |>
            <| session_message := session_created |> in
          (s <| session_ := a |> <| preview_frame_ := None |> <| preview_frame_time_ := 0 |>
             <| undistorted_frame_ := None |> <| verification_pending_ := false |> <| verified_ := false |>,
           Done (message_json (session_message a)))
      end
  end.
End Start.

Definition reset (s : CameraCalibrationManager) : CameraCalibrationManager * JsonValue :=
  (s <| session_ := fresh_session |> <| preview_frame_ := None |> <| preview_frame_time_ := 0 |>
     <| undistorted_frame_ := None |> <| verification_pending_ := false |> <| verified_ := false |>,
   message_json "标定会话已重置").

(** ** Coverage *)

(** the third of the image a normalized coordinate lies in *)
Definition third (x : double) : Z := Z.min 2 (Z.max 0 (trunc_int (dmul x (of_int 3)))).
Definition covers (coordinate : Sample -> double) (l : list Sample) (k : Z) : bool :=
  existsb (fun x => third (coordinate x) =? k) l.
Definition is_near (x : Sample) : bool := dle (lit 22 2) (area_ratio x).
Definition is_far (x : Sample) : bool := dle (area_ratio x) (lit 10 2).
Definition is_tilted (x : Sample) : bool := dle (of_int 12) (dabs (angle_degrees x)).
Definition one_if (b : bool) : Z := if b then 1 else 0.
Definition coverage_score (l : list Sample) : Z :=
  one_if (covers center_x l 0) + one_if (covers center_x l 1) + one_if (covers center_x l 2) +
  (one_if (covers center_y l 0) + one_if (covers center_y l 1) + one_if (covers center_y l 2)) +
  one_if (existsb is_near l) + one_if (existsb is_far l) + one_if (existsb is_tilted l).

Definition coverage_json (l : list Sample) : JsonValue :=
  let thirds coordinate := J_array (map (fun k => J_bool (covers coordinate l k)) [0; 1; 2]) in
  J_object
    [("horizontal", thirds center_x); ("vertical", thirds center_y);
     ("near", J_bool (existsb is_near l)); ("far", J_bool (existsb is_far l));
     ("tilted", J_bool (existsb is_tilted l)); ("score", J_integer (coverage_score l));
     ("maximum_score", J_integer 9); ("sufficient", J_bool (Z.leb 7 (coverage_score l)))]%string.

Definition sample_json (x : Sample) : JsonValue :=
  J_object
    [("center_x", J_number (center_x x)); ("center_y", J_number (center_y x));
     ("area_ratio", J_number (area_ratio x)); ("angle_degrees", J_number (angle_degrees x));
     ("reprojection_error", J_number (reprojection_error x))]%string.

Fixpoint indexed_samples (index : Z) (l : list Sample) : list JsonValue :=
  match l with
  | [] => []
  | x :: r => set "index" (J_integer index) (sample_json x) :: indexed_samples (index + 1) r
  end.
Definition numbers_json (l : list double) : JsonValue := J_array (map J_number l).
Definition result_json (a : Session) : JsonValue :=
  let all := J_array (indexed_samples 1 (samples a)) in
  if negb (result_ready a) then J_object [("ready", J_bool false); ("samples", all)]%string
  else J_object
    [("ready", J_bool true); ("rms_error", J_number (rms_error a));
     ("mean_reprojection_error", J_number (mean_reprojection_error a));
     ("camera_matrix", numbers_json (camera_matrix a));
     ("distortion_coefficients", numbers_json (distortion_coefficients a)); ("samples", all)]%string.

(** ** capture *)
Definition kPi : double := quotient false 314159265358979323846 (10 ^ 20).

(** the sum of the points, from the left *)
Definition add_point (a b : Point) : Point := MakePoint (fadd (px a) (px b)) (fadd (py a) (py b)).
Definition point_zero : Point := MakePoint fzero fzero.
Definition mean_point (l : list Point) : Point :=
  let sum := fold_left add_point l point_zero in
  let n := of_intf (Z.of_nat (List.length l)) in
  MakePoint (fdiv (px sum) n) (fdiv (py sum) n).

Definition incomplete_board : string := "未检测到完整棋盘格，请检查角点行列、光照和棋盘是否完整入镜".
Definition duplicate_pose : string := "该姿态与已有样本过于接近，请移动棋盘位置、改变距离或增加倾角".

Section Capture.
Context `{OpenCV} `{Libm}.

(** what [capture] takes out of the first critical section *)
Record Snapshot := MakeSnapshot { shot : Frame; columns : Z; board_rows_ : Z }.

Definition capture_begin (s : CameraCalibrationManager) : Result Snapshot :=
  let a := session_ s in
  if negb (active a) then Raised (RuntimeError "请先创建标定会话")
  else match latest_frame_ s with
       | None => Raised (RuntimeError "当前没有可用相机图像")
       | Some frame =>
           if negb (cols frame =? image_width a) || negb (rows frame =? image_height a) then
             Raised (RuntimeError "相机分辨率在标定过程中发生变化，请重置会话后重新采集")
           else Done (MakeSnapshot frame (board_columns a) (board_rows a))
       end.

(** outside the mutex: whether the board is found, its corners, and the frame
    with the corners drawn *)
Definition detect (k : Snapshot) : bool * list Point * Frame :=
  let gray := cvt_color BgrToGray (shot k) in
  let '(found, points) := find_chessboard_sb gray (columns k) (board_rows_ k) in
  let '(found, points) :=
    if found then (found, points)
    else
      let '(found, points) := find_chessboard gray (columns k) (board_rows_ k) in
      (found, if found then corner_sub_pix gray points else points) in
  (found, points, draw_corners (shot k) (columns k) (board_rows_ k) points found).
Definition complete (k : Snapshot) (found : bool) (points : list Point) : bool :=
  found && (Z.of_nat (List.length points) =? columns k * board_rows_ k).

Definition candidate_of (k : Snapshot) (points : list Point) : Sample :=
  let center := mean_point points in
  let first := default point_zero (points !! 0%nat) in
  let last := default point_zero (points !! Z.to_nat (columns k - 1)) in
  let dx := fsub (px last) (px first) in
  let dy := fsub (py last) (py first) in
  MakeSample points
    (ddiv (to_double (px center)) (of_int (cols (shot k)))) (ddiv (to_double (py center)) (of_int (rows (shot k))))
    (ddiv (of_int (bounding_area points)) (of_int (swrap32 (cols (shot k) * rows (shot k)))))
    (ddiv (dmul (to_double (atan2f dy dx)) (of_int 180)) kPi) dzero.

Definition close_to (candidate x : Sample) : bool :=
  dlt (hypot (dsub (center_x x) (center_x candidate)) (dsub (center_y x) (center_y candidate))) (lit 75 3) &&
  dlt (dabs (dsub (area_ratio x) (area_ratio candidate))) (lit 25 3) &&
  dlt (dabs (dsub (angle_degrees x) (angle_degrees candidate))) (of_int 8).
Definition is_duplicate (candidate : Sample) (a : Session) : bool := existsb (close_to candidate) (samples a).

Definition clear_result (s : CameraCalibrationManager) : CameraCalibrationManager :=
  s <| session_ := (session_ s) <| result_ready := false |> <| camera_matrix := [] |>
      <| distortion_coefficients := [] |> <| rms_error := dzero |> <| mean_reprojection_error := dzero |> |>
    <| undistorted_frame_ := None |>.

Definition captured_json (a : Session) (x : Sample) : JsonValue :=
  J_object
    [("message", J_string (session_message a)); ("sample_count", J_integer (Z.of_nat (List.length (samples a))));
     ("coverage", coverage_json (samples a)); ("sample", sample_json x)]%string.

Definition capture_end (k : Snapshot) (now : Z) (s : CameraCalibrationManager)
  : CameraCalibrationManager * Result JsonValue :=
  let '(found, points, drawn) := detect k in
  let s := s <| preview_frame_ := Some drawn |> <| preview_frame_time_ := now |> in
  if negb (complete k found points) then
    (with_message incomplete_board s, Raised (RuntimeError incomplete_board))
  else
    let candidate := candidate_of k points in
    if is_duplicate candidate (session_ s) then
      (with_message duplicate_pose s, Raised (RuntimeError duplicate_pose))
    else
      let s := s <| session_ := (session_ s) <| samples := samples (session_ s) ++ [candidate] |> |> in
      let s := with_message "样本采集成功" (clear_result s) in
      (s, Done (captured_json (session_ s) candidate)).

(** [capture], when nothing comes between its two critical sections *)
Definition capture (now : Z) (s : CameraCalibrationManager) : CameraCalibrationManager * Result JsonValue :=
  match capture_begin s with
  | Raised e => (s, Raised e)
  | Done k => capture_end k now s
  end.
End Capture.

(** ** compute *)
Section Compute.
Context `{OpenCV}.

Definition board_points (a : Session) : list Point3 :=
  let coordinate (i : nat) := to_float (dmul (of_int (Z.of_nat i)) (square_size_m a)) in
  flat_map (fun row => map (fun column => MakePoint3 (coordinate column) (coordinate row) fzero)
                           (seq 0 (Z.to_nat (board_columns a))))
           (seq 0 (Z.to_nat (board_rows a))).

(** the call of [cv::calibrateCamera] for the samples of a session *)
Definition calibration_of (a : Session) : Outcome Calibration :=
  calibrate_camera (replicate (List.length (samples a)) (board_points a)) (map corners (samples a))
    (image_width a) (image_height a).

(** the loop over the samples: their errors, the total and the number of points *)
Fixpoint reproject (object_points : list Point3) (c : Calibration) (l : list Sample) (poses : list (list double))
    (total : double) (count : Z) : list Sample * double * Z :=
  match l with
  | [] => ([], total, count)
  | x :: r =>
      let projected := project_points object_points (default [] (head poses)) (matrix c) (distortion c) in
      let error := norm_l2 (corners x) projected in
      let n := Z.of_nat (List.length projected) in
      let x := MakeSample (corners x) (center_x x) (center_y x) (area_ratio x) (angle_degrees x)
        (dsqrt (ddiv (dmul error error) (of_int n))) in
      let '(r, total, count) :=
        reproject object_points c r (tail poses) (dadd total (dmul error error)) (count + n) in
      (x :: r, total, count)
  end.
Definition mean_error (total : double) (count : Z) : double := dsqrt (ddiv total (of_int count)).

Definition entry (l : list double) (i : nat) : double := default dzero (l !! i).
Definition valid_calibration (c : Calibration) : bool :=
  isfinite (rms c) && dlt dzero (entry (matrix c) 0) && dlt dzero (entry (matrix c) 4).

Definition identity : list double :=
  let one := of_int 1 in [one; dzero; dzero; dzero; one; dzero; dzero; dzero; one].
Definition good_result : string := "标定计算完成，请检查误差和去畸变预览后再应用".
Definition poor_result : string := "标定计算完成，但重投影误差偏高，建议补充样本或重新标定".
Definition computed_json (a : Session) : JsonValue :=
  J_object [("message", J_string (session_message a)); ("result", result_json a)]%string.

(** the session with the result of [c] *)
Definition with_calibration (c : Calibration) (a : Session) : Session :=
  let '(l, total, count) := reproject (board_points a) c (samples a) (poses c) dzero 0 in
  a <| camera_matrix := matrix c |> <| distortion_coefficients := distortion c |> <| rms_error := rms c |>
    <| samples := l |> <| mean_reprojection_error := mean_error total count |>
    <| result_ready := valid_calibration c |>.

Definition compute (s : CameraCalibrationManager) : CameraCalibrationManager * Result JsonValue :=
  let a := session_ s in
  if negb (active a) then (s, Raised (RuntimeError "请先创建标定会话"))
  else if Z.of_nat (List.length (samples a)) <? minimum_samples a then
    (s, Raised (RuntimeError ("有效样本不足，至少需要 " ++ to_string (minimum_samples a) ++ " 组")))
  else match calibration_of a with
       | Throws e =>
           (s <| session_ := a <| camera_matrix := identity |>
                <| distortion_coefficients := replicate 8 dzero |> |>, Raised (RuntimeError e))
       | Returns c =>
           let a := with_calibration c a in
           if negb (result_ready a) then
             (s <| session_ := a |>,
              Raised (RuntimeError "OpenCV 未能得到有效内参，请重置后重新采集覆盖更充分的样本"))
           else
             let a := a <| session_message := if dle (mean_reprojection_error a) (of_int 1)
                                              then good_result else poor_result |> in
             (s <| session_ := a |> <| undistorted_frame_ :=
                match latest_frame_ s with
                | Some frame => Some (undistort frame (matrix c) (distortion c))
                | None => undistorted_frame_ s
                end |>, Done (computed_json a))
       end.
End Compute.

(** ** The calibration file *)
Definition yaml_number (x : double) : string := number 15 x.
Definition newline_ : string := newline.

Definition calibration_yaml (a : Session) : string :=
  let value row column := yaml_number (entry (camera_matrix a) (row * 3 + column)) in
  let coefficient i := yaml_number (entry (distortion_coefficients a) i) in
  ("image_width: " ++ to_string (image_width a) ++ newline ++
   "image_height: " ++ to_string (image_height a) ++ newline ++
   "camera_name: " ++ camera_name a ++ newline ++
   "camera_matrix:" ++ newline ++ "  rows: 3" ++ newline ++ "  cols: 3" ++ newline ++ "  data: [" ++
   value 0%nat 0%nat ++ ", 0.0, " ++ value 0%nat 2%nat ++ ", 0.0, " ++ value 1%nat 1%nat ++
   ", " ++ value 1%nat 2%nat ++ ", 0.0, 0.0, 1.0]" ++ newline ++
   "distortion_model: plumb_bob" ++ newline ++
   "distortion_coefficients:" ++ newline ++ "  rows: 1" ++ newline ++ "  cols: 5" ++ newline ++ "  data: [" ++
   coefficient 0%nat ++ ", " ++ coefficient 1%nat ++ ", " ++ coefficient 2%nat ++ ", " ++ coefficient 3%nat ++
   ", " ++ coefficient 4%nat ++ "]" ++ newline ++
   "rectification_matrix:" ++ newline ++ "  rows: 3" ++ newline ++ "  cols: 3" ++ newline ++
   "  data: [1.0, 0.0, 0.0, 0.0, 1.0, 0.0, 0.0, 0.0, 1.0]" ++ newline ++
   "projection_matrix:" ++ newline ++ "  rows: 3" ++ newline ++ "  cols: 4" ++ newline ++ "  data: [" ++
   value 0%nat 0%nat ++ ", 0.0, " ++ value 0%nat 2%nat ++ ", 0.0, 0.0, " ++
   value 1%nat 1%nat ++ ", " ++ value 1%nat 2%nat ++ ", 0.0, 0.0, 0.0, 1.0, 0.0]" ++ newline)%string.

Definition metadata_json (a : Session) (calibrated_at : string) : JsonValue :=
  J_object
    [("schema_version", J_string "chitu.camera-calibration-metadata.v1");
     ("calibrated_at", J_string calibrated_at); ("camera_name", J_string (camera_name a));
     ("camera_id", J_string (camera_id a)); ("image_width", J_integer (image_width a));
     ("image_height", J_integer (image_height a)); ("board_columns", J_integer (board_columns a));
     ("board_rows", J_integer (board_rows a)); ("square_size_m", J_number (square_size_m a));
     ("sample_count", J_integer (Z.of_nat (List.length (samples a)))); ("rms_error", J_number (rms_error a));
     ("mean_reprojection_error", J_number (mean_reprojection_error a));
     ("distortion_model", J_string "plumb_bob")]%string.

(** [std::stod] of a token: white space, a sign, then a decimal number, [inf],
    [nan] or a hexadecimal number *)
Fixpoint hex_digits (s : string) (value count : Z) : Z * Z * string :=
  match s with
  | String c r => match hex_digit_value c with
                  | Some v => hex_digits r (value * 16 + v) (count + 1)
                  | None => (value, count, s)
                  end
  | EmptyString => (value, count, s)
  end.
Definition binary_exponent (s : string) : Z :=
  match s with
  | String c r => if Ascii.eqb (to_lower c) "p" then exponent_of (String "e" r) else 0
  | EmptyString => 0
  end.
Definition stod_hex (negative : bool) (s : string) : option double :=
  let '(whole, n, r) := hex_digits s 0 0 in
  let '(value, f, r) :=
    match r with
    | String c t => if Ascii.eqb c "." then
                      let '(v, k, t) := hex_digits t whole 0 in (v, k, t) else (whole, 0, r)
    | EmptyString => (whole, 0, r)
    end in
  if n + f =? 0 then Some (S754_zero negative)   (* the [0] of [0x] *)
  else
    let k := binary_exponent r - 4 * f in
    match value with
    | Zpos m =>
        let x := binary_normalize 53 1024 (Zpos m) k false in
        let x := if negative then dneg x else x in
        if isfinite x && dle smallest_normal (dabs x) then Some x else None
    | _ => Some (S754_zero negative)
    end.
Definition stod_token (s : string) : option double :=
  let s := skip_spaces s in
  let '(negative, r) := strip_sign s in
  let low := map_chars to_lower r in
  if str_prefix "nan" low then Some S754_nan
  else if str_prefix "inf" low then Some (S754_infinity negative)
  else if str_prefix "0x" low then stod_hex negative (str_drop 2 r)
  else stod s.

(** [find] from a position, as an absolute position *)
Definition find_from (needle : string) (position : nat) (s : string) : option nat :=
  if (String.length s <? position)%nat then None
  else option_map (Nat.add position) (str_find needle (str_drop position s)).

Fixpoint all_tokens (tokens : list string) : option (list double) :=
  match tokens with
  | [] => Some []
  | t :: r => match stod_token t, all_tokens r with Some x, Some l => Some (x :: l) | _, _ => None end
  end.
(** the nested searches of the code start at [npos] when an outer one fails, and
    then fail too *)
Definition parse_yaml_data (content section : string) : list double :=
  match str_find (section ++ ":") content with
  | None => []
  | Some section_start =>
      match find_from "data:" section_start content with
      | None => []
      | Some data_start =>
          match find_from "[" data_start content with
          | None => []
          | Some open =>
              match find_from "]" open content with
              | None => []
              | Some close =>
                  default [] (all_tokens (getlines "," (str_take (close - open - 1) (str_drop (open + 1) content))))
              end
          end
      end
  end.

Abbreviation files := (gmap string string).
Record Paths := MakePaths { calibration_path : string; metadata_path : string }.

Definition existing_calibration_valid (paths : Paths) (disk : files) : bool :=
  match disk !! calibration_path paths with
  | None => false
  | Some content =>
      let values := parse_yaml_data content "camera_matrix" in
      (List.length values =? 9)%nat && dlt dzero (entry values 0) && dlt dzero (entry values 4)
  end.

(** ** apply *)

(** What one [apply] meets: what the clock reads when it names the backup and the two
    temporary files, and what fails.  A copy or a write that
    fails may leave part of the text behind; [None] leaves no file. *)
Record World := MakeWorld {
  backup_time : Z;
  calibration_time : Z;
  metadata_time : Z;
  session_time : Z;
  utc_offset : Z -> Z;                  (* of the local time zone *)
  directory_failure : option string;
  copy_failure : option (string * option string);
  write_failure : string -> option (option string);
  rename_failure : string -> option string }.

Definition backup_token (w : World) : string := timestamp_token (utc_offset w) (backup_time w).
Definition calibration_token (w : World) : string := timestamp_token (utc_offset w) (calibration_time w).
Definition metadata_token (w : World) : string := timestamp_token (utc_offset w) (metadata_time w).

Definition leave (path : string) (text : option string) (disk : files) : files :=
  match text with Some t => <[path := t]> disk | None => disk end.

Definition temporary_name (path token : string) : string := (path ++ ".tmp-" ++ token)%string.
Definition atomic_write (w : World) (token path content : string) (disk : files) : files * Result unit :=
  let temporary := temporary_name path token in
  match write_failure w temporary with
  | Some None => (disk, Raised (RuntimeError ("无法创建临时标定文件: " ++ temporary)%string))
  | Some (Some partial) =>
      (<[temporary := partial]> disk, Raised (RuntimeError ("写入临时标定文件失败: " ++ temporary)%string))
  | None =>
      match rename_failure w path with
      | Some e => (<[temporary := content]> disk, Raised (RuntimeError e))
      | None => (<[path := content]> (delete temporary disk), Done tt)
      end
  end.

Definition backup_name (paths : Paths) (w : World) : string :=
  (calibration_path paths ++ ".backup-" ++ backup_token w)%string.

(** the backup of an existing calibration: its path, empty without one *)
Definition make_backup (paths : Paths) (w : World) (disk : files) : files * Result string :=
  match disk !! calibration_path paths with
  | None => (disk, Done ""%string)
  | Some old =>
      match copy_failure w with
      | Some (e, left_behind) => (leave (backup_name paths w) left_behind disk, Raised (RuntimeError e))
      | None => (<[backup_name paths w := old]> disk, Done (backup_name paths w))
      end
  end.

Section Apply.
Context `{Nlohmann}.

(** the files of an [apply], in order; the path of the backup *)
Definition save (paths : Paths) (w : World) (a : Session) (disk : files) : files * Result string :=
  match directory_failure w with
  | Some e => (disk, Raised (RuntimeError e))
  | None =>
      let '(disk, backup) := make_backup paths w disk in
      match backup with
      | Raised e => (disk, Raised e)
      | Done backup_path =>
          let '(disk, written) := atomic_write w (calibration_token w) (calibration_path paths) (calibration_yaml a) disk in
          match written with
          | Raised e => (disk, Raised e)
          | Done _ =>
              match dump_indent 2 (metadata_json a (iso_timestamp (session_time w))) with
              | Throws e => (disk, Raised (JsonError e))
              | Returns text =>
                  let '(disk, written) := atomic_write w (metadata_token w) (metadata_path paths) (text ++ newline) disk in
                  match written with
                  | Raised e => (disk, Raised e)
                  | Done _ => (disk, Done backup_path)
                  end
              end
          end
      end
  end.

Definition may_apply (input : JsonValue) (a : Session) : Result unit :=
  let? _ := check (result_ready a) (RuntimeError "请先完成标定计算") in
  let? confirmed := json (value_bool "confirmed" false input) in
  let? _ := check confirmed (InvalidArgument "应用标定前必须确认已检查误差和去畸变预览") in
  check (str_eqb (camera_name a) "front_camera")
    (InvalidArgument "当前前视相机配置要求 camera_name 为 front_camera").

Definition saved_message : string := "标定文件已保存，等待重启相机并验证 CameraInfo".
Definition applied_json (paths : Paths) (backup_path : string) : JsonValue :=
  J_object
    [("message", J_string saved_message); ("calibration_path", J_string (calibration_path paths));
     ("metadata_path", J_string (metadata_path paths)); ("backup_path", J_string backup_path);
     ("verification_pending", J_bool true)]%string.

Definition apply_calibration (paths : Paths) (w : World) (input : JsonValue) (s : CameraCalibrationManager) (disk : files)
  : CameraCalibrationManager * files * Result JsonValue :=
  match may_apply input (session_ s) with
  | Raised e => (s, disk, Raised e)
  | Done _ =>
      let '(disk, saved) := save paths w (session_ s) disk in
      match saved with
      | Raised e => (s, disk, Raised e)
      | Done backup_path =>
          (with_message saved_message (s <| verification_pending_ := true |> <| verified_ := false |>
             <| verification_start_sequence_ := camera_info_sequence_ s |>),
           disk, Done (applied_json paths backup_path))
      end
  end.
End Apply.

(** ** Previews *)
Section Previews.
Context `{OpenCV}.
Definition encode_jpeg (image : option Frame) : list Z :=
  match image with Some frame => imencode frame | None => [] end.
Definition preview_jpeg (now : Z) (s : CameraCalibrationManager) : list Z :=
  let overlay_fresh := bool_decide (is_Some (preview_frame_ s)) && negb (preview_frame_time_ s =? 0) &&
    (now - preview_frame_time_ s <? 1500 * 1000000) in
  encode_jpeg (if overlay_fresh then preview_frame_ s else latest_frame_ s).
Definition undistorted_jpeg (s : CameraCalibrationManager) : list Z := encode_jpeg (undistorted_frame_ s).
End Previews.

Definition frame_cols (f : option Frame) : Z := match f with Some f => cols f | None => 0 end.
Definition frame_rows (f : option Frame) : Z := match f with Some f => rows f | None => 0 end.
Definition status_json (paths : Paths) (disk : files) (now : Z) (s : CameraCalibrationManager) : JsonValue :=
  let a := session_ s in
  let frame_age_ms := if latest_frame_time_ s =? 0 then of_int (-1) else chrono_millis (now - latest_frame_time_ s) in
  J_object
    [("schema_version", J_string "chitu.camera-calibration.v1");
     ("session", J_object
       [("active", J_bool (active a)); ("camera_name", J_string (camera_name a)); ("camera_id", J_string (camera_id a));
        ("board_columns", J_integer (board_columns a)); ("board_rows", J_integer (board_rows a));
        ("square_size_m", J_number (square_size_m a)); ("minimum_samples", J_integer (minimum_samples a));
        ("sample_count", J_integer (Z.of_nat (List.length (samples a))));
        ("image_width", J_integer (image_width a)); ("image_height", J_integer (image_height a));
        ("result_ready", J_bool (result_ready a)); ("message", J_string (session_message a))]);
     ("camera", J_object
       [("frame_available", J_bool (bool_decide (is_Some (latest_frame_ s))));
        ("frame_sequence", J_integer (latest_frame_sequence_ s)); ("frame_age_ms", J_number frame_age_ms);
        ("width", J_integer (frame_cols (latest_frame_ s))); ("height", J_integer (frame_rows (latest_frame_ s)));
        ("camera_info_received", J_bool (Z.ltb 0 (camera_info_sequence_ s)));
        ("camera_info_calibrated", J_bool (camera_info_calibrated_ s));
        ("camera_info_width", J_integer (camera_info_width_ s)); ("camera_info_height", J_integer (camera_info_height_ s));
        ("fx", J_number (camera_info_fx_ s)); ("fy", J_number (camera_info_fy_ s))]);
     ("storage", J_object
       [("calibration_path", J_string (calibration_path paths)); ("metadata_path", J_string (metadata_path paths));
        ("calibration_file_valid", J_bool (existing_calibration_valid paths disk))]);
     ("coverage", coverage_json (samples a)); ("result", result_json a);
     ("verification", J_object [("pending", J_bool (verification_pending_ s)); ("verified", J_bool (verified_ s))])]%string.

(** ** The handlers *)
Section Handlers.
Context `{Nlohmann} `{OpenCV} `{Libm}.

Definition respond (default : string) (result : JsonValue) : Result HttpResponse :=
  let? text := json (value_string "message" default result) in
  success_with text "calibration" result.
Definition conflict (m : Result HttpResponse) : Result HttpResponse :=
  match m with Done r => Done r | Raised e => Done (error 409 (what e)) end.

Definition camera_calibration_status (paths : Paths) (disk : files) (now : Z) (s : CameraCalibrationManager)
  : Result HttpResponse := document (status_json paths disk now s).

Definition camera_calibration_start (body : string) (s : CameraCalibrationManager)
  : CameraCalibrationManager * Result HttpResponse :=
  match parse body with
  | Throws _ => (s, Done invalid_body)
  | Returns input =>
      let '(s, result) := start input s in
      (s, match rbind result (respond "Calibration session started") with
          | Done r => Done r
          | Raised (JsonError _) => Done invalid_body
          | Raised (InvalidArgument text) => Done (error 400 text)
          | Raised e => Done (error 409 (what e))
          end)
  end.
Definition camera_calibration_capture (now : Z) (s : CameraCalibrationManager)
  : CameraCalibrationManager * Result HttpResponse :=
  let '(s, result) := capture now s in (s, conflict (rbind result (respond "Calibration sample captured"))).
Definition camera_calibration_compute (s : CameraCalibrationManager) : CameraCalibrationManager * Result HttpResponse :=
  let '(s, result) := compute s in (s, conflict (rbind result (respond "Calibration computed"))).
Definition camera_calibration_reset (s : CameraCalibrationManager) : CameraCalibrationManager * Result HttpResponse :=
  let '(s, result) := reset s in (s, respond "Calibration session reset" result).

Definition camera_calibration_image (undistorted : bool) (now : Z) (s : CameraCalibrationManager) : HttpResponse :=
  match (if undistorted then undistorted_jpeg s else preview_jpeg now s) with
  | [] => error 404 (if undistorted then "Undistorted preview is not ready" else "Camera frame is unavailable")
  | data => MakeResponse 200 "image/jpeg" (bytes_text data) no_store
  end.

(** the restart of the camera: whether accepted, with the message *)
Definition request_restart (svc : Service (string * string * bool) (bool * string * ComponentState.ComponentStateMsg))
    (component_id : string) : bool * string :=
  if negb (available svc) then (false, "Operation Orchestrator is unavailable"%string)
  else match answer svc (component_id, "restart"%string, false) with
       | None => (false, "Camera restart timed out"%string)
       | Some (accepted, text, _) => (accepted, text)
       end.
Definition restart_json (accepted : bool) (text : string) : JsonValue :=
  J_object [("requested", J_bool true); ("accepted", J_bool accepted); ("message", J_string text)]%string.
Definition apply_verified : string := "标定已保存、相机已重启，CameraInfo 验证通过".
Definition apply_unverified : string := "标定文件已保存，但相机重启或 CameraInfo 验证未通过".

(** [verified_later] is [verified_] when the wait for the verification ends *)
Definition camera_calibration_apply (paths : Paths) (w : World) (component_id : string)
    (svc : Service (string * string * bool) (bool * string * ComponentState.ComponentStateMsg))
    (verified_later : bool) (body : string) (s : CameraCalibrationManager) (disk : files)
  : CameraCalibrationManager * files * Result HttpResponse :=
  match parse body with
  | Throws _ => (s, disk, Done invalid_body)
  | Returns input =>
      let '(s, disk, result) := apply_calibration paths w input s disk in
      (s, disk,
       match result with
       | Raised (InvalidArgument text) => Done (error 400 text)
       | Raised e => Done (error 409 (what e))
       | Done result =>
           let '(accepted, text) := request_restart svc component_id in
           let verified := accepted && verified_later in
           success_with (if verified then apply_verified else apply_unverified) "calibration"
             (set "verified" (J_bool verified) (set "restart" (restart_json accepted text) result))
       end)
  end.
End Handlers.

(** ** The manager as a machine

    A capture is two events, with any others between them: the number of the
    snapshot tells which capture ends. *)
Inductive Event :=
| FrameReceived (m : RosImage) (now : Z)
| InfoReceived (m : CameraInfo)
| Started (input : JsonValue)
| CaptureBegun
| CaptureEnded (i : nat) (now : Z)
| Computed
| Applied (w : World) (input : JsonValue)
| WasReset.

Record System := MakeSystem { manager : CameraCalibrationManager; disk : files; in_flight : list Snapshot }.
#[export] Instance eta_system : Eta System := fun y => MakeSystem (manager y) (disk y) (in_flight y).

Section Machine.
Context `{Nlohmann} `{OpenCV} `{Libm}.
Variable paths : Paths.

Definition advance (y : System) (e : Event) : System :=
  let s := manager y in
  match e with
  | FrameReceived m now => y <| manager := update_frame m now s |>
  | InfoReceived m => y <| manager := update_camera_info m s |>
  | Started input => y <| manager := fst (start input s) |>
  | CaptureBegun =>
      match capture_begin s with
      | Done k => y <| in_flight := in_flight y ++ [k] |>
      | Raised _ => y
      end
  | CaptureEnded i now =>
      match in_flight y !! i with
      | Some k => y <| manager := fst (capture_end k now s) |> <| in_flight := list_delete i (in_flight y) |>
      | None => y
      end
  | Computed => y <| manager := fst (compute s) |>
  | Applied w input =>
      let '(s, d, _) := apply_calibration paths w input s (disk y) in y <| manager := s |> <| disk := d |>
  | WasReset => y <| manager := fst (reset s) |>
  end.
Definition perform (y : System) (es : list Event) : System := fold_left advance es y.
Definition powered (d : files) : System := MakeSystem initial_manager d [].
End Machine.
