(* ===== verification/DecimalText.v ===== *)
(** * Decimal texts of floating-point numbers are read back

    What [Numbers.number] prints with [p] significant digits is read by
    [std::stod] ([VlaDebug.stod], [Calibration.stod_token]) as a decimal number
    that is rounded once.  [number_reads_back] says which decimal: one that
    differs from the printed number by at most half a unit in its last
    significant digit. *)
From S2P Require Import Prelude Floats JsonData Json Text Numbers VlaDebug Calibration.
Local Open Scope Z_scope.

(** ** Positive fractions *)

(** [n1 / d1 = n2 / d2] and the like, cross-multiplied *)
Definition fraction (m : positive) (e : Z) : Z * Z :=
  if 0 <=? e then (Zpos m * 2 ^ e, 1) else (Zpos m, 2 ^ (- e)).
Definition power_fraction (n x : Z) : Z * Z := if 0 <=? x then (n * 10 ^ x, 1) else (n, 10 ^ (- x)).

Lemma round_half_even_near n d : 0 <= n -> 0 < d -> Z.abs (2 * (round_half_even n d * d - n)) <= d.
Proof.
  intros Hn Hd. unfold round_half_even. pose proof (Z.div_mod n d ltac:(lia)) as E.
  pose proof (Z.mod_pos_bound n d Hd). set (q := n / d) in *. set (r := n mod d) in *. clearbody q r. subst n.
  destruct (Z.ltb_spec (2 * r) d); [lia|]. destruct (Z.ltb_spec d (2 * r)); [lia|]. destruct (Z.even q); lia.
Qed.

(** ** The decimal exponent *)
Lemma tens_to_reach_spec fuel n d : 0 < n -> n < d -> d < 2 ^ Z.of_nat fuel * n ->
  exists k, tens_to_reach fuel n d = k /\ 0 < k /\ 10 ^ (k - 1) * n < d <= 10 ^ k * n.
Proof.
  revert n. induction fuel as [|f IH]; intros n Hn Hd Hf; [simpl in Hf; lia|].
  cbn [tens_to_reach]. rewrite (proj2 (Z.leb_gt _ _)) by lia. eexists. split; [reflexivity|].
  destruct (Z.ltb_spec (10 * n) d) as [Hlt|Hge].
  - destruct (IH (10 * n)) as (k & -> & Hk & Hlo & Hhi); [lia|lia| |].
    + rewrite Nat2Z.inj_succ, Z.pow_succ_r in Hf by lia. lia.
    + split; [lia|]. replace (1 + k - 1) with (Z.succ (k - 1)) by lia. replace (1 + k) with (Z.succ k) by lia.
      rewrite !Z.pow_succ_r by lia. lia.
  - assert (tens_to_reach f (10 * n) d = 0) as ->.
    { destruct f; [done|]. cbn [tens_to_reach]. by rewrite (proj2 (Z.leb_le _ _)) by lia. }
    cbn. lia.
Qed.

Lemma digits_minus_one_spec fuel z : 0 < z < 2 ^ Z.of_nat fuel ->
  0 <= digits_minus_one fuel z /\ 10 ^ digits_minus_one fuel z <= z < 10 ^ (digits_minus_one fuel z + 1).
Proof.
  revert z. induction fuel as [|f IH]; intros z Hz; [simpl in Hz; lia|].
  cbn [digits_minus_one]. destruct (Z.ltb_spec z 10); [cbn; lia|].
  rewrite Nat2Z.inj_succ, Z.pow_succ_r in Hz by lia.
  pose proof (Z.div_mod z 10 ltac:(lia)) as E. pose proof (Z.mod_pos_bound z 10 ltac:(lia)).
  destruct (IH (z / 10)) as (Hk & Hlo & Hhi); [split; [apply Z.div_str_pos; lia|apply Z.div_lt_upper_bound; lia]|].
  set (k := digits_minus_one f (z / 10)) in *. split; [lia|].
  replace (1 + k) with (Z.succ k) by lia. replace (Z.succ k + 1) with (Z.succ (k + 1)) by lia.
  rewrite !Z.pow_succ_r by lia. lia.
Qed.

(** [10^x <= n / d < 10^(x+1)] *)
Lemma decimal_exponent_spec n d : 0 < n -> 0 < d ->
  let x := decimal_exponent n d in
  (0 <= x /\ 10 ^ x * d <= n < 10 ^ (x + 1) * d) \/ (x < 0 /\ d <= 10 ^ (- x) * n /\ 10 ^ (- x - 1) * n < d).
Proof.
  intros Hn Hd. unfold decimal_exponent. destruct (Z.leb_spec d n) as [Hle|Hlt]; [left|right].
  - assert (0 < n / d) by (apply Z.div_str_pos; lia).
    destruct (digits_minus_one_spec (S (Z.to_nat (Z.log2 (n / d)))) (n / d)) as (Hk & Hlo & Hhi).
    { split; [done|]. rewrite Nat2Z.inj_succ, Z2Nat.id by apply Z.log2_nonneg. by apply Z.log2_spec. }
    split; [done|]. pose proof (Z.div_mod n d ltac:(lia)). pose proof (Z.mod_pos_bound n d ltac:(lia)). nia.
  - destruct (tens_to_reach_spec (S (Z.to_nat (Z.log2 d))) n d) as (k & -> & Hk & Hlo & Hhi); [done|done| |].
    { rewrite Nat2Z.inj_succ, Z2Nat.id by apply Z.log2_nonneg. pose proof (Z.log2_spec d ltac:(lia)) as [_ Hl]. nia. }
    replace (- - k) with k by lia. lia.
Qed.

(** ** The digits that are printed *)

(** [N * 10^K] differs from [n / d] by at most half a unit in the last of [p]
    significant digits *)
Definition near (p n d N K : Z) : Prop :=
  let '(vn, vd) := power_fraction N K in 2 * 10 ^ (p - 1) * Z.abs (vn * d - n * vd) <= vn * d.

Lemma near_shift p n d N K : near p n d (N * 10) K <-> near p n d N (K + 1).
Proof.
  unfold near, power_fraction. destruct (Z.leb_spec 0 K), (Z.leb_spec 0 (K + 1)); try lia.
  - rewrite Z.pow_add_r by lia. replace (N * 10 * 10 ^ K) with (N * (10 ^ K * 10 ^ 1)) by lia. done.
  - replace K with (-1) by lia. change (10 ^ (- -1)) with 10. change (10 ^ (-1 + 1)) with 1.
    replace (N * 10 * d - n * 10) with (10 * (N * d - n)) by lia. rewrite Z.abs_mul.
    replace (N * 1 * d - n * 1) with (N * d - n) by lia. change (Z.abs 10) with 10. lia.
  - replace (- K) with (Z.succ (- (K + 1))) by lia. rewrite Z.pow_succ_r by lia.
    replace (N * 10 * d - n * (10 * 10 ^ (- (K + 1)))) with (10 * (N * d - n * 10 ^ (- (K + 1)))) by lia.
    rewrite Z.abs_mul. change (Z.abs 10) with 10. lia.
Qed.
Lemma near_shifts p n d N K z : near p n d (N * 10 ^ Z.of_nat z) K <-> near p n d N (K + Z.of_nat z).
Proof.
  revert N K. induction z as [|z IH]; intros N K; [by rewrite Z.mul_1_r, Z.add_0_r|].
  rewrite Nat2Z.inj_succ, Z.pow_succ_r by lia. replace (N * (10 * 10 ^ Z.of_nat z)) with (N * 10 * 10 ^ Z.of_nat z) by lia.
  rewrite IH, near_shift. by replace (K + Z.of_nat z + 1) with (K + Z.succ (Z.of_nat z)) by lia.
Qed.

Lemma rounded_near p a b : 0 < p -> 0 < b -> 10 ^ (p - 1) * b <= a < 10 ^ p * b ->
  10 ^ (p - 1) <= round_half_even a b <= 10 ^ p /\
  2 * 10 ^ (p - 1) * Z.abs (round_half_even a b * b - a) <= round_half_even a b * b.
Proof.
  intros Hp Hb [Hlo Hhi]. assert (0 < 10 ^ (p - 1)) by (apply Z.pow_pos_nonneg; lia).
  pose proof (round_half_even_near a b ltac:(nia) Hb) as Hr. set (D := round_half_even a b) in *. clearbody D.
  set (P := 10 ^ (p - 1)) in *. set (Q := 10 ^ p) in *. clearbody P Q.
  assert (P <= D) by (destruct (Z.le_gt_cases P D); [done|]; pose proof (Z.mul_le_mono_nonneg_r D (P - 1) b ltac:(lia) ltac:(lia)); lia).
  assert (D <= Q) by (destruct (Z.le_gt_cases D Q); [done|]; pose proof (Z.mul_le_mono_nonneg_r (Q + 1) D b ltac:(lia) ltac:(lia)); lia).
  split; [done|]. pose proof (Z.mul_le_mono_nonneg_r P D b ltac:(lia) ltac:(lia)). nia.
Qed.

Lemma significant_spec p n d : 0 < p -> 0 < n -> 0 < d ->
  let '(D, x) := significant p n d in 10 ^ (p - 1) <= D < 10 ^ p /\ near p n d D (x - (p - 1)).
Proof.
  intros Hp Hn Hd. unfold significant. pose proof (decimal_exponent_spec n d Hn Hd) as Hx. cbv zeta in Hx.
  set (x := decimal_exponent n d) in *. clearbody x. set (k := p - 1 - x).
  set (a := if 0 <=? k then n * 10 ^ k else n). set (b := if 0 <=? k then d else d * 10 ^ (- k)).
  assert ((if 0 <=? k then round_half_even (n * 10 ^ k) d else round_half_even n (d * 10 ^ (- k))) = round_half_even a b) as ->
    by (unfold a, b; by destruct (0 <=? k)).
  assert (0 < b) as Hb by (unfold b; destruct (Z.leb_spec 0 k); [done|]; assert (0 < 10 ^ (- k)) by (apply Z.pow_pos_nonneg; lia); nia).
  assert (10 ^ (p - 1) * b <= a < 10 ^ p * b) as Hab.
  { unfold a, b. destruct (Z.leb_spec 0 k) as [Hk|Hk]; destruct Hx as [(H0 & Hlo & Hhi)|(H0 & Hlo & Hhi)]; try lia.
    - replace (p - 1) with (x + k) by lia. replace p with (x + 1 + k) by lia. rewrite !Z.pow_add_r in * by lia.
      assert (0 < 10 ^ k) by (apply Z.pow_pos_nonneg; lia). nia.
    - assert (10 ^ k = 10 ^ (p - 1) * 10 ^ (- x)) as -> by (rewrite <- Z.pow_add_r by lia; f_equal; lia).
      assert (10 ^ p = 10 ^ (p - 1) * 10) as ->
        by (rewrite <- (Z.pow_1_r 10) at 3; rewrite <- Z.pow_add_r by lia; f_equal; lia).
      assert (10 ^ (- x) = 10 * 10 ^ (- x - 1)) as EY by (rewrite <- Z.pow_succ_r by lia; f_equal; lia).
      rewrite EY in *. assert (0 < 10 ^ (p - 1)) by (apply Z.pow_pos_nonneg; lia).
      set (P := 10 ^ (p - 1)) in *. set (Y := 10 ^ (- x - 1)) in *. clearbody P Y.
      replace (n * (P * (10 * Y))) with (P * (10 * Y * n)) by ring. replace (P * 10 * d) with (P * (10 * d)) by ring.
      split; [apply Z.mul_le_mono_nonneg_l|apply Z.mul_lt_mono_pos_l]; lia.
    - replace (x + 1) with (p + - k) in Hhi by lia. replace x with (p - 1 + - k) in Hlo by lia.
      rewrite !Z.pow_add_r in * by lia. lia. }
  destruct (rounded_near p a b Hp Hb Hab) as [[Hlo Hhi] Hnear]. set (D := round_half_even a b) in *. clearbody D.
  assert (near p n d D (x - (p - 1))) as HD.
  { unfold near, power_fraction. replace (x - (p - 1)) with (- k) by lia. unfold a, b in Hnear.
    destruct (Z.leb_spec 0 k), (Z.leb_spec 0 (- k)); try lia.
    - replace k with 0 in * by lia. change (10 ^ (- 0)) with 1. change (10 ^ 0) with 1 in Hnear. by rewrite !Z.mul_1_r in *.
    - by rewrite Z.opp_involutive.
  }
  destruct (Z.eqb_spec D (10 ^ p)) as [->|]; [|split; [lia|done]].
  split; [split; [lia|]; apply Z.pow_lt_mono_r; lia|].
  replace (10 ^ p) with (10 ^ (p - 1) * 10) in HD by (rewrite <- (Z.pow_1_r 10) at 2; rewrite <- Z.pow_add_r by lia; f_equal; lia).
  apply near_shift in HD. by replace (x + 1 - (p - 1)) with (x - (p - 1) + 1) by lia.
Qed.

(** ** Texts of digits *)
Abbreviation digits := (all_chars is_digit).
Lemma digits_value_app a b acc : digits_value (a ++ b) acc = digits_value b (digits_value a acc).
Proof. revert acc. induction a as [|c a IH]; intros acc; [done|]. rewrite append_cons. apply IH. Qed.
Lemma digits_value_zeros n acc : digits_value (zeros n) acc = acc * 10 ^ Z.of_nat n.
Proof.
  revert acc. induction n as [|n IH]; intros acc; [by rewrite Z.mul_1_r|].
  cbn [zeros digits_value]. rewrite IH, Nat2Z.inj_succ, Z.pow_succ_r by lia.
  change (code "0" - 48) with 0. lia.
Qed.
Lemma digits_value_leading n s : digits_value (zeros n ++ s) 0 = digits_value s 0.
Proof. by rewrite digits_value_app, digits_value_zeros, Z.mul_0_l. Qed.
Lemma digits_value_base s acc : digits s = true -> digits_value s acc = parse_base 10 s acc.
Proof.
  revert acc. induction s as [|c s IH]; intros acc; [done|]. cbn [all_chars digits_value parse_base].
  intros [Hc Hs]%andb_true_iff. unfold is_digit in Hc. apply andb_true_iff in Hc as [Hlo%Z.leb_le Hhi%Z.leb_le].
  rewrite IH by done. f_equal. f_equal. unfold digit_value. fold (code c).
  rewrite (proj2 (Z.ltb_lt _ _)) by lia. done.
Qed.
Lemma digits_zeros n : digits (zeros n) = true.
Proof. by induction n. Qed.
Lemma length_zeros n : String.length (zeros n) = n.
Proof. induction n as [|n IH]; [done|]. cbn. by rewrite IH. Qed.

Lemma base_digits_digits fuel z acc : digits acc = true -> digits (base_digits 10 fuel z acc) = true.
Proof.
  revert z acc. induction fuel as [|f IH]; intros z acc Ha; [done|]. cbn [base_digits].
  assert (digits (String (digit_char (z mod 10)) acc) = true) as Hs.
  { cbn [all_chars]. rewrite Ha, andb_true_r. pose proof (Z.mod_pos_bound z 10 ltac:(lia)) as Hd.
    assert (forallb (fun d => is_digit (digit_char (Z.of_nat d))) (seq 0 10) = true) as H by (vm_compute; reflexivity).
    rewrite <- (Z2Nat.id (z mod 10)) by lia. apply (proj1 (forallb_forall _ _) H). apply in_seq. lia. }
  destruct (z <? 10); [done|by apply IH].
Qed.
Lemma to_string_digits z : 0 <= z -> digits (to_string z) = true.
Proof. intros Hz. unfold to_string. rewrite (proj2 (Z.ltb_ge _ _) Hz). by apply base_digits_digits. Qed.
Lemma to_string_value z : 0 <= z -> digits_value (to_string z) 0 = z.
Proof.
  intros Hz. rewrite digits_value_base by by apply to_string_digits. unfold to_string.
  rewrite (proj2 (Z.ltb_ge _ _) Hz). by apply parse_base_string.
Qed.
Lemma length_base_digits fuel z acc :
  Z.of_nat (String.length (base_digits 10 (S fuel) z acc)) = Z.of_nat (String.length acc) + 1 + digits_minus_one (S fuel) z \/
  2 ^ Z.of_nat (S fuel) <= z.
Proof.
  revert z acc. induction fuel as [|f IH]; intros z acc.
  - cbn [base_digits digits_minus_one]. destruct (Z.ltb_spec z 10); [left; cbn; lia|right; cbn; lia].
  - rewrite Nat2Z.inj_succ, Z.pow_succ_r by lia. cbn [base_digits digits_minus_one].
    destruct (Z.ltb_spec z 10); [left; cbn; lia|].
    destruct (IH (z / 10) (String (digit_char (z mod 10)) acc)) as [E|E].
    + left. cbn [base_digits digits_minus_one] in E. rewrite E. cbn. lia.
    + right. pose proof (Z.div_mod z 10 ltac:(lia)). pose proof (Z.mod_pos_bound z 10 ltac:(lia)). lia.
Qed.
(** [p] digits *)
Lemma length_to_string p z : 0 < p -> 10 ^ (p - 1) <= z < 10 ^ p -> Z.of_nat (String.length (to_string z)) = p.
Proof.
  intros Hp Hz. assert (0 < 10 ^ (p - 1)) by (apply Z.pow_pos_nonneg; lia).
  unfold to_string. rewrite (proj2 (Z.ltb_ge _ _)) by lia. unfold base_string.
  pose proof (Z.log2_spec z ltac:(lia)) as [_ Hl].
  assert (z < 2 ^ Z.of_nat (S (Z.to_nat (Z.log2 z)))) as Hz2
    by (rewrite Nat2Z.inj_succ, Z2Nat.id by apply Z.log2_nonneg; done).
  destruct (length_base_digits (Z.to_nat (Z.log2 z)) z "") as [->|]; [|lia].
  destruct (digits_minus_one_spec (S (Z.to_nat (Z.log2 z))) z ltac:(lia)) as (Hk & Hlo & Hhi).
  set (k := digits_minus_one _ z) in *. clearbody k. cbn.
  assert (k < p) by (apply (Z.pow_lt_mono_r_iff 10); lia).
  assert (p - 1 < k + 1) by (apply (Z.pow_lt_mono_r_iff 10); lia). lia.
Qed.

Lemma strip_zeros_zeros s : exists z, s = (strip_zeros s ++ zeros z)%string.
Proof.
  induction s as [|c s [z IH]]; [by exists 0%nat|]. cbn [strip_zeros].
  destruct (strip_zeros s) as [|c' s'] eqn:E.
  - destruct (Ascii.eqb_spec c "0") as [->|].
    + exists (S z). change (String "0" s = String "0" (zeros z)). f_equal. exact IH.
    + exists z. rewrite append_cons. f_equal. exact IH.
  - exists z. rewrite append_cons. f_equal. exact IH.
Qed.
Lemma digits_strip s : digits s = true -> digits (strip_zeros s) = true.
Proof. apply strip_zeros_chars. Qed.

Lemma substring_take k s : substring 0 k s = str_take k s.
Proof. revert k. induction s as [|c s IH]; intros [|k]; try done. cbn. by rewrite IH. Qed.
Lemma substring_drop k n s : (String.length s <= k + n)%nat -> substring k n s = str_drop k s.
Proof.
  revert k n. induction s as [|c s IH]; intros k n Hn; [by destruct k, n|]. destruct k as [|k].
  - cbn in *. destruct n as [|n]; [lia|]. f_equal. apply (IH 0%nat). lia.
  - cbn in *. apply IH. lia.
Qed.
Lemma take_drop_text k s : (str_take k s ++ str_drop k s)%string = s.
Proof. revert k. induction s as [|c s IH]; intros [|k]; try done. cbn [str_take str_drop]. by rewrite append_cons, IH. Qed.
Lemma digits_take k s : digits s = true -> digits (str_take k s) = true.
Proof.
  intros Hs. rewrite <- (take_drop_text k s), all_chars_app in Hs. by apply andb_true_iff in Hs as [? _].
Qed.
Lemma digits_drop k s : digits s = true -> digits (str_drop k s) = true.
Proof.
  intros Hs. rewrite <- (take_drop_text k s), all_chars_app in Hs. by apply andb_true_iff in Hs as [_ ?].
Qed.

(** ** [std::stod] of a text in parts *)
Lemma take_while_app f s rest : match rest with String c _ => f c = false | EmptyString => True end ->
  take_while f (s ++ rest) = take_while f s.
Proof.
  intros Hr. induction s as [|c s IH].
  - destruct rest as [|c r]; [done|]. cbn [take_while]. change ("" ++ String c r)%string with (String c r). cbn [take_while]. by rewrite Hr.
  - rewrite append_cons. cbn [take_while]. by rewrite IH.
Qed.
Lemma take_while_all f s : all_chars f s = true -> take_while f s = s.
Proof.
  induction s as [|c s IH]; [done|]. cbn [all_chars take_while]. intros [-> Hs]%andb_true_iff. by rewrite IH.
Qed.
Lemma str_drop_all s : str_drop (String.length s) s = ""%string.
Proof. induction s; [done|]. done. Qed.
Lemma str_drop_length_app s t : str_drop (String.length s) (s ++ t) = t.
Proof. rewrite str_drop_app by done. by rewrite str_drop_all. Qed.
Lemma take_digits s rest : digits s = true -> match rest with String c _ => is_digit c = false | EmptyString => True end ->
  take_while is_digit (s ++ rest) = s.
Proof. intros Hs Hr. by rewrite take_while_app, take_while_all. Qed.

(** an optional fraction *)
Definition point (frac : string) : string := if str_empty frac then ""%string else String "." frac.
Lemma with_fraction_point int frac : with_fraction int frac = (int ++ point (strip_zeros frac))%string.
Proof. unfold with_fraction, point. destruct (strip_zeros frac); [by rewrite str_app_nil|done]. Qed.

(** what may follow the digits of a printed number: nothing or its exponent *)
Definition exponent_follows (rest : string) : bool :=
  match rest with String c _ => Ascii.eqb c "e" | EmptyString => true end.
Lemma exponent_follows_stops rest : exponent_follows rest = true ->
  match rest with String c _ => is_digit c = false | EmptyString => True end.
Proof. destruct rest as [|c r]; [done|]. cbn. intros ->%Ascii.eqb_eq. done. Qed.

Definition checked (n : Z) (x : double) : option double :=
  if n =? 0 then Some x else if isfinite x && dle smallest_normal (dabs x) then Some x else None.

Lemma digit_not_sign c : is_digit c = true -> Ascii.eqb c "-" = false /\ Ascii.eqb c "+" = false /\ Ascii.eqb c "." = false.
Proof.
  intros Hc. split_and!; apply Ascii.eqb_neq; intros ->; vm_compute in Hc; discriminate Hc.
Qed.

Lemma stod_parts (negative : bool) whole frac rest :
  str_empty whole = false -> digits whole = true -> digits frac = true -> exponent_follows rest = true ->
  stod ((if negative then "-" else "") ++ whole ++ point frac ++ rest) =
  checked (digits_value (whole ++ frac) 0)
    (decimal negative (digits_value (whole ++ frac) 0) (exponent_of rest - Z.of_nat (String.length frac))).
Proof.
  intros Hw Hd Hf Hr. unfold stod.
  assert (strip_sign ((if negative then "-" else "") ++ whole ++ point frac ++ rest) = (negative, (whole ++ point frac ++ rest)%string)) as ->.
  { destruct negative; [done|]. change ("" ++ whole ++ point frac ++ rest)%string with (whole ++ point frac ++ rest)%string.
    destruct whole as [|c w]; [done|]. rewrite append_cons. cbn [all_chars] in Hd. apply andb_true_iff in Hd as [Hc _].
    cbn [strip_sign]. destruct (digit_not_sign c Hc) as (-> & -> & _). done. }
  assert (take_while is_digit (whole ++ point frac ++ rest) = whole) as ->.
  { apply take_digits; [done|]. unfold point. destruct (str_empty frac) eqn:E; [|done].
    change ("" ++ rest)%string with rest. by apply exponent_follows_stops. }
  rewrite str_drop_length_app. unfold point. destruct (str_empty frac) eqn:E.
  - destruct frac; [|done]. change ("" ++ rest)%string with rest. rewrite str_app_nil.
    assert (match rest with
      | String c t => if Ascii.eqb c "." then (take_while is_digit t, str_drop (String.length (take_while is_digit t)) t) else (""%string, rest)
      | EmptyString => (""%string, rest) end = (""%string, rest)) as ->.
    { destruct rest as [|c r]; [done|]. cbn in Hr. apply Ascii.eqb_eq in Hr as ->. done. }
    rewrite Hw, str_app_nil. done.
  - rewrite append_cons, Ascii.eqb_refl. rewrite take_digits, str_drop_length_app by (done || by apply exponent_follows_stops).
    by rewrite Hw.
Qed.

Lemma exponent_of_text x : exponent_of (exponent_text x) = x /\ exponent_follows (exponent_text x) = true.
Proof.
  split; [|done]. unfold exponent_text. change ("e" ++ ?s)%string with (String "e" s). cbn [exponent_of].
  replace (Ascii.eqb "e" "e" || Ascii.eqb "e" "E") with true by done.
  assert (strip_sign ((if x <? 0 then "-" else "+") ++ (if Z.abs x <? 10 then "0" else "") ++ to_string (Z.abs x)) =
    (x <? 0, ((if (Z.abs x <? 10)%Z then "0" else "") ++ to_string (Z.abs x))%string)) as -> by (by destruct (x <? 0)).
  assert (digits ((if Z.abs x <? 10 then "0" else "") ++ to_string (Z.abs x)) = true) as Hd.
  { rewrite all_chars_app, to_string_digits by lia. by destruct (Z.abs x <? 10). }
  rewrite take_while_all by done. rewrite digits_value_app.
  replace (digits_value (if Z.abs x <? 10 then "0" else "") 0) with 0 by (by destruct (Z.abs x <? 10)).
  rewrite to_string_value by lia. destruct (Z.ltb_spec x 0); lia.
Qed.

(** ** A printed number is read back *)

(** the decimal a text in parts denotes, before trailing zeros are removed *)
Lemma stripped_value whole digits_after z : 
  digits_value (whole ++ strip_zeros digits_after) 0 * 10 ^ Z.of_nat z =
  digits_value (whole ++ strip_zeros digits_after ++ zeros z) 0.
Proof. by rewrite <- string_app_assoc, (digits_value_app _ (zeros z)), digits_value_zeros. Qed.
Lemma length_stripped frac z s : s = (frac ++ zeros z)%string ->
  Z.of_nat (String.length frac) = Z.of_nat (String.length s) - Z.of_nat z.
Proof. intros ->. rewrite length_append, length_zeros. lia. Qed.

Lemma magnitude_parts p m e : 0 < p ->
  exists whole frac rest z, magnitude p m e = (whole ++ point frac ++ rest)%string /\
    str_empty whole = false /\ digits whole = true /\ digits frac = true /\ exponent_follows rest = true /\
    let '(n, d) := fraction m e in let '(D, x) := significant p n d in
    0 < D /\ near p n d D (x - (p - 1)) /\ digits_value (whole ++ frac) 0 * 10 ^ Z.of_nat z = D /\
    exponent_of rest - Z.of_nat (String.length frac) = x - (p - 1) + Z.of_nat z.
Proof.
  intros Hp. unfold magnitude. fold (fraction m e).
  assert (0 < fst (fraction m e) /\ 0 < snd (fraction m e)) as [Hn Hd].
  { unfold fraction. destruct (Z.leb_spec 0 e); cbn [fst snd]; (split; [|]); try lia; apply Z.pow_pos_nonneg || assert (0 < 2 ^ e) by (apply Z.pow_pos_nonneg; lia); lia. }
  destruct (fraction m e) as [n d]. cbn [fst snd] in *. pose proof (significant_spec p n d Hp Hn Hd) as Hs.
  destruct (significant p n d) as [D x]. destruct Hs as [HD Hnear]. cbv zeta.
  assert (0 < 10 ^ (p - 1)) by (apply Z.pow_pos_nonneg; lia). assert (0 < D) as HD0 by lia.
  pose proof (length_to_string p D Hp HD) as Hlen. pose proof (to_string_digits D ltac:(lia)) as Hdig.
  pose proof (to_string_value D ltac:(lia)) as Hval. set (text := to_string D) in *. clearbody text.
  destruct ((-4 <=? x) && (x <? p)) eqn:Hx.
  - apply andb_true_iff in Hx as [_ Hxp%Z.ltb_lt]. destruct (Z.leb_spec 0 x) as [H0|H0].
    + rewrite substring_take, substring_drop by lia. rewrite with_fraction_point.
      set (k := Z.to_nat (x + 1)). destruct (strip_zeros_zeros (str_drop k text)) as [z Ez].
      exists (str_take k text), (strip_zeros (str_drop k text)), ""%string, z. split_and!; try done.
      * by rewrite str_app_nil.
      * unfold k. destruct text; [cbn in Hlen; lia|]. by replace (Z.to_nat (x + 1)) with (S (Z.to_nat x)) by lia.
      * by apply digits_take.
      * by apply digits_strip, digits_drop.
      * by rewrite stripped_value, <- Ez, take_drop_text.
      * rewrite (length_stripped _ _ _ Ez), length_drop_text. cbn. lia.
    + rewrite with_fraction_point. destruct (strip_zeros_zeros (zeros (Z.to_nat (- x - 1)) ++ text)) as [z Ez].
      exists "0"%string, (strip_zeros (zeros (Z.to_nat (- x - 1)) ++ text)), ""%string, z. split_and!; try done.
      * by rewrite str_app_nil.
      * apply digits_strip. by rewrite all_chars_app, digits_zeros, Hdig.
      * rewrite stripped_value, <- Ez. change "0"%string with (zeros 1). by rewrite !digits_value_leading.
      * rewrite (length_stripped _ _ _ Ez), length_append, length_zeros. cbn. lia.
  - rewrite substring_take, substring_drop by lia. rewrite with_fraction_point.
    destruct (strip_zeros_zeros (str_drop 1 text)) as [z Ez]. destruct (exponent_of_text x) as [Hex Hfx].
    exists (str_take 1 text), (strip_zeros (str_drop 1 text)), (exponent_text x), z. split_and!; try done.
    * by rewrite string_app_assoc.
    * by destruct text; [cbn in Hlen; lia|].
    * by apply digits_take.
    * by apply digits_strip, digits_drop.
    * by rewrite stripped_value, <- Ez, take_drop_text.
    * rewrite Hex, (length_stripped _ _ _ Ez), length_drop_text. lia.
Qed.

(** a printed number is none of the special texts of [std::stod] *)
Lemma stod_token_plain (negative : bool) c r : is_digit c = true -> all_chars Numbers.number_char r = true ->
  stod_token ((if negative then "-" else "") ++ String c r) = stod ((if negative then "-" else "") ++ String c r).
Proof.
  intros Hc Hr. unfold stod_token.
  assert (skip_spaces ((if negative then "-" else "") ++ String c r) = ((if negative then "-" else "") ++ String c r)%string) as ->.
  { destruct negative; [done|]. change ("" ++ String c r)%string with (String c r). cbn [skip_spaces].
    unfold is_space, is_digit in *. apply andb_true_iff in Hc as [H1%Z.leb_le H2%Z.leb_le].
    rewrite (proj2 (Z.eqb_neq _ _)), (proj2 (Z.leb_gt (code c) 13)), andb_false_r by lia. done. }
  assert (strip_sign ((if negative then "-" else "") ++ String c r) = (negative, String c r)) as ->.
  { destruct negative; [done|]. change ("" ++ String c r)%string with (String c r). cbn [strip_sign].
    destruct (digit_not_sign c Hc) as (-> & -> & _). done. }
  cbn [map_chars]. assert (to_lower c = c) as ->.
  { unfold to_lower, is_digit in *. apply andb_true_iff in Hc as [H1%Z.leb_le H2%Z.leb_le].
    by rewrite (proj2 (Z.leb_gt 65 _)) by lia. }
  assert (forall x t, is_digit x = false -> str_prefix (String x t) (String c (map_chars to_lower r)) = false) as Hp.
  { intros x t Hx. cbn [str_prefix]. rewrite (proj2 (Ascii.eqb_neq x c)); [done|]. intros ->. congruence. }
  rewrite !Hp by done. replace (str_prefix "0x" (String c (map_chars to_lower r))) with false; [done|].
  symmetry. destruct r as [|x r]; [cbn; by rewrite andb_false_r|]. cbn [map_chars str_prefix].
  rewrite (proj2 (Ascii.eqb_neq "x" (to_lower x))); [by rewrite andb_false_r|]. intros Ex.
  cbn [all_chars] in Hr. apply andb_true_iff in Hr as [Hx _]. unfold Numbers.number_char in Hx.
  apply orb_true_iff in Hx as [Hx|Hx].
  - apply andb_true_iff in Hx as [H1%Z.leb_le H2%Z.leb_le]. unfold to_lower in Ex.
    rewrite (proj2 (Z.leb_gt 65 _)) in Ex by lia. cbn [andb] in Ex; subst x. vm_compute in H2. by apply H2.
  - apply existsb_exists in Hx as (y & Hy & ->%Ascii.eqb_eq). clear -Hy Ex.
    repeat destruct Hy as [<-|Hy]; try (vm_compute in Ex; discriminate Ex). destruct Hy.
Qed.

(** What [std::stod] reads from a number printed with [p] significant digits is
    the number rounded once from a decimal that differs from the printed number
    by at most half a unit in the last of these digits. *)
Lemma number_reads_back p s m e y : 0 < p -> stod_token (number p (S754_finite s m e)) = Some y ->
  exists N K, 0 < N /\ y = decimal s N K /\ near p (fst (fraction m e)) (snd (fraction m e)) N K.
Proof.
  intros Hp. cbn [number]. pose proof (magnitude_chars p m e) as Hchars.
  destruct (magnitude_parts p m e Hp) as (whole & frac & rest & z & Et & Hw & Hwd & Hfd & Hrest & Hval).
  rewrite Et in *. destruct whole as [|c whole]; [done|]. cbn [all_chars] in Hwd.
  apply andb_true_iff in Hwd as [Hc Hwd]. rewrite append_cons in Hchars |- *. cbn [all_chars] in Hchars.
  apply andb_true_iff in Hchars as [_ Hr]. rewrite stod_token_plain by done. rewrite <- append_cons.
  rewrite stod_parts; [|done|by cbn [all_chars]; rewrite Hc|done|done].
  destruct (fraction m e) as [n d]. cbn [fst snd]. destruct (significant p n d) as [D x].
  destruct Hval as (HD & Hnear & HN & HK). rewrite HK. set (N := digits_value _ 0) in *. clearbody N.
  assert (0 < 10 ^ Z.of_nat z) by (apply Z.pow_pos_nonneg; lia). assert (0 < N) as HN0 by nia.
  unfold checked. rewrite (proj2 (Z.eqb_neq _ _)) by lia. destruct (_ && _); [|done]. intros [= <-].
  eexists N, _. split; [done|]. split; [reflexivity|]. apply near_shifts. by rewrite HN.
Qed.

(** [y] is what is read of [x] printed with [p] significant digits: [x] itself
    when it is zero or not finite *)
Definition reads_as (p : Z) (x y : double) : Prop :=
  y = x \/ exists s m e N K, x = S754_finite s m e /\ 0 < N /\ y = decimal s N K /\
    near p (fst (fraction m e)) (snd (fraction m e)) N K.

Lemma number_reads_as p x y : 0 < p -> stod_token (number p x) = Some y -> reads_as p x y.
Proof.
  intros Hp. destruct x as [[]|[]| |s m e]; only 1-5: (intros E; left; vm_compute in E; by injection E as <-).
  intros (N & K & HN & -> & Hnear)%number_reads_back; [|done]. right. by exists s, m, e, N, K.
Qed.
