(* ===== verification/CalibrationProperties.v ===== *)
(** * What camera calibration promises

    The properties of [Calibration]: which samples a result was computed from,
    which files an [apply] may replace, what the text written to the calibration
    file is read back as, and what a verification shows. *)
From S2P Require Import Prelude Calendar Floats Messages VlaDebug JsonData Json Text Numbers DecimalText Http OpsApi OpsServices Calibration.
Local Open Scope Z_scope.
Local Open Scope result_scope.

(** ** Lists whose later elements are related to the earlier ones *)
Lemma ordered_snoc {A} (R : A -> A -> Prop) l x :
  ForallOrdPairs R l -> Forall (fun y => R y x) l -> ForallOrdPairs R (l ++ [x]).
Proof.
  induction 1 as [|y l Hy _ IH]; intros Hx; simpl; [by repeat constructor|].
  apply Forall_cons in Hx as [Hyx Hx]. constructor; [|by apply IH].
  apply Forall_app. split; [done|by constructor].
Qed.

(** ** The samples and the result *)
Section Results.
Context `{Nlohmann} `{OpenCV} `{Libm}.

(** no sample is as close to an earlier one as a duplicate is *)
Definition distinct (l : list Sample) : Prop := ForallOrdPairs (fun x y => close_to y x = false) l.

(** the result is that of [cv::calibrateCamera] for the samples the session has *)
Definition result_of (a : Session) : Prop :=
  exists c, calibration_of a = Returns c /\ with_calibration c a = a.

Record sound (a : Session) : Prop := {
  sound_settings : active a = true -> validate a = Done tt;
  sound_samples : distinct (samples a);
  sound_result : result_ready a = true ->
    active a = true /\ minimum_samples a <= Z.of_nat (List.length (samples a)) /\ result_of a }.

(** what a sample keeps when its error is computed *)
Definition pose_of (x : Sample) : list Point * double * double * double * double :=
  (corners x, center_x x, center_y x, area_ratio x, angle_degrees x).

Lemma close_pose x y x' y' :
  pose_of x = pose_of x' -> pose_of y = pose_of y' -> close_to x y = close_to x' y'.
Proof. intros [= ? Ex Ey Ea En] [= ? Fx Fy Fa Fn]. unfold close_to. congruence. Qed.

Lemma reproject_poses board c l poses total count :
  map pose_of (fst (fst (reproject board c l poses total count))) = map pose_of l.
Proof.
  revert poses total count; induction l as [|x l IH]; intros poses total count; [done|]. cbn [reproject].
  specialize (IH (tail poses)).
  match goal with |- context [reproject board c l ?p ?t ?n] => specialize (IH t n); destruct (reproject board c l p t n) as [[l' t'] n'] end.
  cbn [map fst] in *. by rewrite IH.
Qed.

(** computing the errors again gives the same errors *)
Lemma reproject_again board c l poses total count :
  reproject board c (fst (fst (reproject board c l poses total count))) poses total count
  = reproject board c l poses total count.
Proof.
  revert poses total count; induction l as [|x l IH]; intros poses total count; [done|]. cbn [reproject].
  specialize (IH (tail poses)).
  match goal with |- context [reproject board c l ?p ?t ?n] => specialize (IH t n); destruct (reproject board c l p t n) as [[l' t'] n'] eqn:E end.
  cbn [fst reproject corners center_x center_y area_ratio angle_degrees] in *. by rewrite IH.
Qed.

Lemma distinct_poses l l' : map pose_of l = map pose_of l' -> distinct l -> distinct l'.
Proof.
  intros E Hl. revert l' E; induction Hl as [|x l Hx _ IH]; intros [|x' l']; try done; [constructor|].
  intros [= E1 E2 E3 E4 E5 E]. constructor; [|by apply IH].
  assert (pose_of x = pose_of x') as Ex by (unfold pose_of; congruence).
  clear IH. revert l' E. induction Hx as [|y l Hy _ IHy]; intros [|y' l']; try done.
  intros [= F1 F2 F3 F4 F5 E]. constructor; [|by apply IHy].
  rewrite <- Hy. symmetry. apply close_pose; [unfold pose_of; congruence|done].
Qed.

Lemma poses_length l l' : map pose_of l = map pose_of l' -> List.length l = List.length l'.
Proof. intros E. apply (f_equal (@List.length _)) in E. by rewrite !length_map in E. Qed.
Lemma poses_corners l l' : map pose_of l = map pose_of l' -> map corners l = map corners l'.
Proof.
  intros E. apply (f_equal (map (fun p : list Point * double * double * double * double => fst (fst (fst (fst p)))))) in E.
  by rewrite !map_map in E.
Qed.

Lemma with_calibration_samples c a : map pose_of (samples (with_calibration c a)) = map pose_of (samples a).
Proof.
  pose proof (reproject_poses (board_points a) c (samples a) (poses c) dzero 0) as E.
  unfold with_calibration. by destruct (reproject _ _ _ _ _ _) as [[l total] count].
Qed.

Lemma with_calibration_again c a : with_calibration c (with_calibration c a) = with_calibration c a.
Proof.
  pose proof (reproject_again (board_points a) c (samples a) (poses c) dzero 0) as E.
  assert (forall l total count, reproject (board_points a) c (samples a) (poses c) dzero 0 = (l, total, count) ->
    with_calibration c a = a <| camera_matrix := matrix c |> <| distortion_coefficients := distortion c |>
      <| rms_error := rms c |> <| samples := l |> <| mean_reprojection_error := mean_error total count |>
      <| result_ready := valid_calibration c |>) as Hw by (intros l total count El; unfold with_calibration; by rewrite El).
  destruct (reproject (board_points a) c (samples a) (poses c) dzero 0) as [[l total] count]. cbn [fst] in E.
  rewrite (Hw l total count eq_refl). unfold with_calibration.
  match goal with |- context [reproject ?b c ?l' _ _ _] =>
    change b with (board_points a); change l' with l end.
  by rewrite E.
Qed.
(** the fields a session is judged by *)
Lemma validate_same a b :
  camera_name a = camera_name b -> board_columns a = board_columns b -> board_rows a = board_rows b ->
  square_size_m a = square_size_m b -> minimum_samples a = minimum_samples b -> validate a = validate b.
Proof. intros E1 E2 E3 E4 E5. unfold validate, valid_name. by rewrite E1, E2, E3, E4, E5. Qed.

Lemma with_message_sound text s : sound (session_ s) -> sound (session_ (with_message text s)).
Proof.
  intros [Hs Hd Hr]. constructor; [done|done|]. intros R. destruct (Hr R) as (Ha & Hm & c & Hc & Ew).
  split; [done|split; [done|]]. exists c. split; [done|].
  unfold with_calibration in *. cbn in *.
  match goal with |- context [reproject ?b c ?l ?p ?t ?n] => change (reproject b c l p t n) with
    (reproject (board_points (session_ s)) c (samples (session_ s)) (poses c) dzero 0) end.
  destruct (reproject _ c _ _ _ _) as [[l total] count].
  destruct (session_ s); cbn in *. injection Ew as -> -> -> -> -> ->. done.
Qed.

Lemma fresh_sound : sound fresh_session.
Proof. constructor; [done|constructor|done]. Qed.

Lemma frame_sound m now s : sound (session_ s) -> sound (session_ (update_frame m now s)).
Proof. unfold update_frame. by destruct (image_to_bgr m). Qed.

Lemma info_sound m s : sound (session_ s) -> sound (session_ (update_camera_info m s)).
Proof. intros Hs. unfold update_camera_info. cbv zeta. destruct (_ && _); [|done]. by apply with_message_sound. Qed.

Lemma requested_idle input a : requested_session input = Returns a ->
  samples a = [] /\ result_ready a = false.
Proof.
  unfold requested_session. intros E.
  repeat (apply obind_returns in E as (? & _ & E)). by injection E as <-.
Qed.

Lemma started_session_sound input s : sound (session_ s) -> sound (session_ (fst (start input s))).
Proof.
  intros Hs. unfold start. destruct (requested_session input) as [a|e] eqn:Eq; cbn [json rbind fst]; [|done].
  destruct (validate a) as [[]|e] eqn:Ev; cbn [rbind fst]; [|done].
  destruct (latest_frame_ s) as [frame|]; [|done].
  apply requested_idle in Eq as [El Er].
  constructor; cbn; [|by rewrite El; constructor|by rewrite Er].
  intros _. by rewrite <- Ev.
Qed.

Lemma distinct_snoc l x : distinct l -> existsb (close_to x) l = false -> distinct (l ++ [x]).
Proof.
  intros Hl Hx. apply ordered_snoc; [done|]. apply Forall_forall. intros y Hy.
  apply not_true_is_false. intros Hc. apply not_true_iff_false in Hx. apply Hx, existsb_exists.
  exists y. split; [by apply list_elem_of_In|done].
Qed.

Lemma capture_sound k now s : sound (session_ s) -> sound (session_ (fst (capture_end k now s))).
Proof.
  intros Hs. unfold capture_end. destruct (detect k) as [[found points] drawn]. cbv zeta.
  destruct (negb (complete _ _ _)); cbn [fst]; [by apply with_message_sound|].
  cbn [session_]. change (session_ (s <| preview_frame_ := Some drawn |> <| preview_frame_time_ := now |>)) with (session_ s).
  destruct (is_duplicate _ _) eqn:Ed; cbn [fst]; [by apply with_message_sound|].
  destruct Hs as [Hv Hd Hr]. constructor; cbn; [done| |done]. by apply distinct_snoc.
Qed.

Lemma computed_sound a c :
  sound a -> active a = true -> minimum_samples a <= Z.of_nat (List.length (samples a)) ->
  calibration_of a = Returns c -> sound (with_calibration c a).
Proof.
  intros [Hv Hd Hr] Ha Hm Hc.
  pose proof (with_calibration_samples c a) as Hp. pose proof (with_calibration_again c a) as Hw.
  assert (active (with_calibration c a) = active a /\ minimum_samples (with_calibration c a) = minimum_samples a /\
    validate (with_calibration c a) = validate a /\
    board_points (with_calibration c a) = board_points a /\ image_width (with_calibration c a) = image_width a /\
    image_height (with_calibration c a) = image_height a) as (Ea & Em & Ev & Eb & Ew & Eh).
  { unfold with_calibration. by destruct (reproject _ _ _ _ _ _) as [[l total] count]. }
  constructor.
  - intros _. rewrite Ev. auto.
  - by apply (distinct_poses (samples a)).
  - intros _. rewrite Ea, Em, (poses_length _ _ Hp). split; [done|split; [done|]].
    exists c. split; [|done]. unfold calibration_of. rewrite (poses_length _ _ Hp), (poses_corners _ _ Hp), Eb, Ew, Eh.
    exact Hc.
Qed.

Lemma compute_sound s : sound (session_ s) -> sound (session_ (fst (compute s))).
Proof.
  intros Hs. unfold compute. cbv zeta.
  destruct (active (session_ s)) eqn:Ea; cbn [negb fst]; [|done].
  destruct (Z.of_nat _ <? _) eqn:El; cbn [fst]; [done|]. apply Z.ltb_ge in El.
  destruct (calibration_of (session_ s)) as [c|e] eqn:Ec.
  - pose proof (computed_sound _ c Hs Ea El Ec) as Hw.
    destruct (negb (result_ready _)); cbn [fst]; [done|].
    pose proof (with_message_sound (if dle (mean_reprojection_error (with_calibration c (session_ s))) (of_int 1)
      then good_result else poor_result) (s <| session_ := with_calibration c (session_ s) |>) Hw) as Hm.
    exact Hm.
  - destruct Hs as [Hv Hd Hr]. constructor; cbn; [done|done|].
    intros R. destruct (Hr R) as (_ & _ & c & Hc & _). congruence.
Qed.

Lemma apply_session paths w input s d :
  session_ (fst (fst (apply_calibration paths w input s d))) = session_ s \/
  session_ (fst (fst (apply_calibration paths w input s d))) = session_ (with_message saved_message s).
Proof.
  unfold apply_calibration. destruct (may_apply _ _); [|by left].
  destruct (save _ _ _ _) as [d' [backup|e]]; [by right|by left].
Qed.

Variable paths : Paths.
Lemma advance_sound y e : sound (session_ (manager y)) -> sound (session_ (manager (advance paths y e))).
Proof.
  intros Hs. destruct e as [m now|m|input| |i now| |w input| ]; cbn [advance].
  - by apply frame_sound.
  - by apply info_sound.
  - by apply started_session_sound.
  - by destruct (capture_begin _).
  - destruct (in_flight y !! i); [|done]. by apply capture_sound.
  - by apply compute_sound.
  - pose proof (apply_session paths w input (manager y) (disk y)) as Ha.
    destruct (apply_calibration _ _ _ _ _) as [[s d] r]. cbn [fst] in Ha.
    change (sound (session_ s)). destruct Ha as [-> | ->]; [done|]. by apply with_message_sound.
  - apply fresh_sound.
Qed.

Lemma system_invariant (I : System -> Prop) :
  (forall y e, I y -> I (advance paths y e)) -> forall es y, I y -> I (perform paths y es).
Proof. intros Hstep. induction es as [|e es IH]; intros y Hy; [done|]. by apply IH, Hstep. Qed.

Lemma perform_sound d es : sound (session_ (manager (perform paths (powered d) es))).
Proof.
  apply (system_invariant (fun y => sound (session_ (manager y)))); [apply advance_sound|apply fresh_sound].
Qed.

(** C15: Whatever frames, [CameraInfo], starts, captures, computations, applications
    and resets come in whatever order, a result that is ready belongs to the
    samples the session has: the matrix, the distortion, the errors of the
    samples and the mean are what [cv::calibrateCamera] and the reprojection give for exactly
    these samples, there are at least [minimum_samples] of them, no two of them
    close enough to be duplicates, and the settings passed the checks of [start]. *)
Theorem results_belong_to_the_samples d es :
  let a := session_ (manager (perform paths (powered d) es)) in
  result_ready a = true ->
  active a = true /\ validate a = Done tt /\ distinct (samples a) /\
  minimum_samples a <= Z.of_nat (List.length (samples a)) /\
  exists c, calibration_of a = Returns c /\ valid_calibration c = true /\ with_calibration c a = a.
Proof.
  intros a R. destruct (perform_sound d es) as [Hv Hd Hr]. fold a in Hv, Hd, Hr.
  destruct (Hr R) as (Ha & Hm & c & Hc & Ew). do 4 (split; [auto|]).
  exists c. split; [done|split; [|done]]. rewrite <- R, <- Ew. unfold with_calibration.
  by destruct (reproject _ _ _ _ _ _) as [[l total] count].
Qed.
End Results.

(** ** The files of an [apply] *)
Section Files.
Context `{Nlohmann}.
Variable paths : Paths.
Variable w : World.

(** neither path continues the other *)
Definition apart : Prop :=
  str_prefix (calibration_path paths) (metadata_path paths) = false /\
  str_prefix (metadata_path paths) (calibration_path paths) = false.

(** every path an [apply] may write *)
Definition touched : list string :=
  [calibration_path paths; backup_name paths w; temporary_name (calibration_path paths) (calibration_token w);
   metadata_path paths; temporary_name (metadata_path paths) (metadata_token w)].

Lemma prefix_of_app n s : str_prefix n (n ++ s) = true.
Proof.
  induction n as [|c n IH]; [by destruct s|]. rewrite append_cons. cbn [str_prefix]. by rewrite Ascii.eqb_refl.
Qed.

(** of two texts that begin the same text one begins the other *)
Lemma prefixes_comparable a b s t : (a ++ s)%string = (b ++ t)%string ->
  str_prefix a b = true \/ str_prefix b a = true.
Proof.
  revert b; induction a as [|x a IH]; intros [|y b] E; [by left|by left|by right|].
  injection E as -> E. cbn [str_prefix]. rewrite Ascii.eqb_refl. by apply IH.
Qed.

Lemma append_more s c t : s <> (s ++ String c t)%string.
Proof. induction s as [|x s IH]; [done|]. intros [= E]. by apply IH. Qed.

Lemma append_same s t u : (s ++ t)%string = (s ++ u)%string -> t = u.
Proof. induction s as [|x s IH]; [done|]. intros [= E]. by apply IH. Qed.

Lemma apart_neq s t : apart ->
  (calibration_path paths ++ s)%string <> (metadata_path paths ++ t)%string.
Proof. intros [H1' H2'] E. apply prefixes_comparable in E. destruct E; congruence. Qed.

Lemma own_names_differ : backup_name paths w <> calibration_path paths /\
  (forall t, temporary_name (calibration_path paths) t <> calibration_path paths) /\
  (forall t, temporary_name (calibration_path paths) t <> backup_name paths w).
Proof.
  unfold backup_name, temporary_name. split; [|split].
  - intros E. symmetry in E. by apply append_more in E.
  - intros t E. symmetry in E. by apply append_more in E.
  - intros t E. by apply append_same in E.
Qed.

Lemma other_names_differ : apart -> metadata_path paths <> calibration_path paths /\
  metadata_path paths <> backup_name paths w /\
  (forall t, temporary_name (metadata_path paths) t <> calibration_path paths) /\
  (forall t, temporary_name (metadata_path paths) t <> backup_name paths w).
Proof.
  intros Ha. pose proof (apart_neq "" "" Ha) as E1. pose proof (fun s => apart_neq s "" Ha) as E2.
  pose proof (fun t => apart_neq "" t Ha) as E3. rewrite !str_app_nil in E1.
  unfold backup_name, temporary_name. repeat split.
  - intros E. by apply E1.
  - intros E. apply (E2 (".backup-" ++ backup_token w)%string). by rewrite str_app_nil.
  - intros t E. apply (E3 (".tmp-" ++ t)%string). by rewrite str_app_nil.
  - intros t E. by apply (apart_neq (".backup-" ++ backup_token w) (".tmp-" ++ t) Ha).
Qed.

(** what one write does, at its path and elsewhere *)
Lemma atomic_write_at token path content d :
  temporary_name path token <> path ->
  (forall d', atomic_write w token path content d = (d', Done tt) -> d' !! path = Some content) /\
  (forall e, snd (atomic_write w token path content d) = Raised e ->
     fst (atomic_write w token path content d) !! path = d !! path).
Proof.
  intros Hn. unfold atomic_write. split; intros d'.
  - destruct (write_failure w _) as [[|]|]; [done|done|]. destruct (rename_failure w _); [done|].
    intros [= <-]. apply lookup_insert_eq.
  - destruct (write_failure w _) as [[|]|]; cbn [fst snd]; [|done|].
    + intros _. by rewrite lookup_insert_ne.
    + destruct (rename_failure w _); [|done]. cbn [fst]. intros _. by rewrite lookup_insert_ne.
Qed.

Lemma atomic_write_elsewhere token path content d p :
  p <> path -> p <> temporary_name path token -> fst (atomic_write w token path content d) !! p = d !! p.
Proof.
  intros H1' H2'. unfold atomic_write.
  destruct (write_failure w _) as [[|]|]; cbn [fst]; [by rewrite lookup_insert_ne|done|].
  destruct (rename_failure w _); cbn [fst]; [by rewrite lookup_insert_ne|].
  by rewrite lookup_insert_ne, lookup_delete_ne.
Qed.

Lemma make_backup_elsewhere d p : p <> backup_name paths w -> fst (make_backup paths w d) !! p = d !! p.
Proof.
  intros Hp. unfold make_backup. destruct (d !! calibration_path paths); [|done].
  destruct (copy_failure w) as [[e [t|]]|]; cbn [fst leave]; [|done|]; by rewrite lookup_insert_ne.
Qed.

Lemma make_backup_keeps d old : d !! calibration_path paths = Some old ->
  forall b, snd (make_backup paths w d) = Done b ->
  b = backup_name paths w /\ fst (make_backup paths w d) !! backup_name paths w = Some old.
Proof.
  intros Ho b. unfold make_backup. rewrite Ho. destruct (copy_failure w) as [[e t]|]; [done|].
  intros [= <-]. split; [done|]. apply lookup_insert_eq.
Qed.

Lemma temporary_name_differs t p : temporary_name p t <> p.
Proof. unfold temporary_name. intros E. symmetry in E. by apply append_more in E. Qed.

(** what [save] does to the files of a calibration that exists *)
Record saved (old new : string) (before after : files) (r : Result string) : Prop := {
  saved_old : after !! calibration_path paths = Some old \/
    (after !! calibration_path paths = Some new /\ after !! backup_name paths w = Some old);
  saved_done : forall b, r = Done b ->
    b = backup_name paths w /\ after !! calibration_path paths = Some new /\
    after !! backup_name paths w = Some old;
  saved_other : forall p, p ∉ touched -> after !! p = before !! p }.

Lemma save_is_saved a d old : apart -> d !! calibration_path paths = Some old ->
  saved old (calibration_yaml a) d (fst (save paths w a d)) (snd (save paths w a d)).
Proof.
  intros Hap Ho. pose proof own_names_differ as (Nb & Nt & Ntb).
  pose proof (other_names_differ Hap) as (Mc & Mb & Mtc & Mtb).
  pose proof (fun p => make_backup_elsewhere d p) as Hbe.
  pose proof (make_backup_keeps d old Ho) as Hbk. unfold save.
  assert (forall p, p ∉ touched -> p <> calibration_path paths /\ p <> backup_name paths w /\
    p <> temporary_name (calibration_path paths) (calibration_token w) /\
    p <> metadata_path paths /\ p <> temporary_name (metadata_path paths) (metadata_token w)) as Ht.
  { intros p. unfold touched. rewrite !elem_of_cons. intros Hp. repeat split; intros E; apply Hp; tauto. }
  destruct (directory_failure w) as [e|]; cbn [fst snd]; [by constructor; [left|..]|].
  destruct (make_backup paths w d) as [d1 [b|e]]; cbn [fst snd] in Hbe, Hbk.
  2: { constructor; [|done|]; cbn [fst].
       - left. rewrite Hbe by done. exact Ho.
       - intros p Hp. apply Ht in Hp. apply Hbe. tauto. }
  destruct (Hbk b eq_refl) as [-> Hb].
  pose proof (fun p => atomic_write_elsewhere (calibration_token w) (calibration_path paths) (calibration_yaml a) d1 p) as Hce.
  destruct (atomic_write_at (calibration_token w) (calibration_path paths) (calibration_yaml a) d1 (Nt _)) as [Hcd Hcr].
  destruct (atomic_write _ (calibration_token w) _ _ _) as [d2 [[]|e]]; cbn [fst snd] in Hce, Hcd, Hcr.
  2: { constructor; [|done|]; cbn [fst].
       - left. rewrite (Hcr e eq_refl), Hbe by done. exact Ho.
       - intros p Hp. apply Ht in Hp as (P1 & P2 & P3 & _). by rewrite Hce, Hbe. }
  specialize (Hcd d2 eq_refl). rewrite <- (Hce (backup_name paths w)) in Hb by done.
  destruct (dump_indent 2 _) as [text|e]; cbn [fst snd].
  2: { constructor; [by right|done|]. intros p Hp. apply Ht in Hp as (P1 & P2 & P3 & _). by rewrite Hce, Hbe. }
  pose proof (fun p => atomic_write_elsewhere (metadata_token w) (metadata_path paths) (text ++ newline) d2 p) as Hme.
  destruct (atomic_write _ (metadata_token w) _ _ _) as [d3 [[]|e]]; cbn [fst snd] in Hme |- *;
    rewrite <- (Hme (calibration_path paths)) in Hcd by auto; rewrite <- (Hme (backup_name paths w)) in Hb by auto.
  - constructor; [by right|by intros b [= <-]|].
    intros p Hp. apply Ht in Hp as (P1 & P2 & P3 & P4 & P5). by rewrite Hme, Hce, Hbe.
  - constructor; [by right|done|].
    intros p Hp. apply Ht in Hp as (P1 & P2 & P3 & P4 & P5). by rewrite Hme, Hce, Hbe.
Qed.
End Files.

Section Applying.
Context `{Nlohmann}.
Variable paths : Paths.

(** an [apply] that returns has passed its checks and saved every file *)
Lemma apply_done w input s d s' d' j : apply_calibration paths w input s d = (s', d', Done j) ->
  may_apply input (session_ s) = Done tt /\ calibration_yaml (session_ s') = calibration_yaml (session_ s) /\
  result_ready (session_ s') = result_ready (session_ s) /\
  verification_pending_ s' = true /\ verification_start_sequence_ s' = camera_info_sequence_ s /\
  exists b, save paths w (session_ s) d = (d', Done b) /\ j = applied_json paths b.
Proof.
  unfold apply_calibration. destruct (may_apply _ _) as [[]|e]; [|done].
  destruct (save _ _ _ _) as [d1 [b|e]]; [|done].
  intros [= <- <- <-]. do 5 (split; [done|]). by exists b.
Qed.

Lemma apply_disk w input s d :
  snd (fst (apply_calibration paths w input s d)) = d \/
  snd (fst (apply_calibration paths w input s d)) = fst (save paths w (session_ s) d).
Proof.
  unfold apply_calibration. destruct (may_apply _ _); [right|by left].
  by destruct (save _ _ _ _) as [d' [backup|e]].
Qed.

(** C17: Saving a new calibration never loses the one that exists, whatever fails on
    the way: afterwards the calibration path holds the old text, or the complete
    new one and the backup the old one; a success says that the second holds and names
    the backup; and no file is touched but the calibration, its backup, the
    metadata and the two temporary files. *)
Theorem old_calibration_survives w input s d old :
  apart paths -> d !! calibration_path paths = Some old ->
  let '(s', d', r) := apply_calibration paths w input s d in
  let new := calibration_yaml (session_ s) in
  (d' !! calibration_path paths = Some old \/
   (d' !! calibration_path paths = Some new /\ d' !! backup_name paths w = Some old)) /\
  (forall j, r = Done j ->
     j = applied_json paths (backup_name paths w) /\
     d' !! calibration_path paths = Some new /\ d' !! backup_name paths w = Some old) /\
  (forall p, p ∉ touched paths w -> d' !! p = d !! p).
Proof.
  intros Ha Ho. destruct (save_is_saved paths w (session_ s) d old Ha Ho) as [So Sd Se].
  pose proof (apply_disk w input s d) as Hd.
  destruct (apply_calibration paths w input s d) as [[s' d'] r] eqn:E. cbn [fst snd] in Hd. cbv zeta.
  split; [|split].
  - destruct Hd as [-> | ->]; [by left|exact So].
  - intros j ->. apply apply_done in E as (_ & _ & _ & _ & _ & b & Es & ->). rewrite Es in Sd.
    by destruct (Sd b eq_refl) as (-> & Hc & Hb).
  - destruct Hd as [-> | ->]; [done|exact Se].
Qed.

(** The backup is named by the second: when the same result is applied twice
    within one second, the second application overwrites the backup with the
    calibration the first one has just written, and the original is neither at
    the calibration path nor at the path both answers call the backup. *)
Theorem applying_twice_loses_the_backup w1 w2 input1 input2 s d old s1 d1 j1 s2 d2 j2 :
  apart paths -> backup_token w1 = backup_token w2 -> d !! calibration_path paths = Some old ->
  apply_calibration paths w1 input1 s d = (s1, d1, Done j1) ->
  apply_calibration paths w2 input2 s1 d1 = (s2, d2, Done j2) ->
  j1 = j2 /\
  d2 !! calibration_path paths = Some (calibration_yaml (session_ s)) /\
  d2 !! backup_name paths w1 = Some (calibration_yaml (session_ s)).
Proof.
  intros Ha Ht Ho E1 E2.
  assert (backup_name paths w1 = backup_name paths w2) as Hb by (unfold backup_name; by rewrite Ht).
  apply apply_done in E1 as (_ & Ey & _ & _ & _ & b1 & S1 & ->).
  apply apply_done in E2 as (_ & _ & _ & _ & _ & b2 & S2 & ->).
  destruct (save_is_saved paths w1 (session_ s) d old Ha Ho) as [_ D1 _]. rewrite S1 in D1.
  destruct (D1 b1 eq_refl) as (-> & C1 & _). cbn [fst] in C1.
  destruct (save_is_saved paths w2 (session_ s1) d1 _ Ha C1) as [_ D2 _]. rewrite S2 in D2.
  destruct (D2 b2 eq_refl) as (-> & C2 & B2). cbn [fst] in C2, B2.
  by rewrite Hb, C2, B2, Ey.
Qed.
End Applying.

(** ** Captures that end in another session *)
Section Races.
Context `{Nlohmann} `{OpenCV} `{Libm}.
Variable paths : Paths.

Definition fits_board (a : Session) (x : Sample) : Prop :=
  Z.of_nat (List.length (corners x)) = board_columns a * board_rows a.
Definition of_session (a : Session) (k : Snapshot) : Prop :=
  columns k = board_columns a /\ board_rows_ k = board_rows a.
Definition restarts (e : Event) : bool := match e with Started _ | WasReset => true | _ => false end.
(** no session is started or reset while a capture looks for the board *)
Fixpoint undisturbed (y : System) (es : list Event) : bool :=
  match es with
  | [] => true
  | e :: r => (negb (restarts e) || (List.length (in_flight y) =? 0)%nat) && undisturbed (advance paths y e) r
  end.
Definition fitting (y : System) : Prop :=
  Forall (fits_board (session_ (manager y))) (samples (session_ (manager y))) /\
  Forall (of_session (session_ (manager y))) (in_flight y).

(** what does not change the board keeps what fits it *)
Lemma fitting_same y y' :
  board_columns (session_ (manager y')) = board_columns (session_ (manager y)) ->
  board_rows (session_ (manager y')) = board_rows (session_ (manager y)) ->
  map corners (samples (session_ (manager y'))) = map corners (samples (session_ (manager y))) ->
  in_flight y' = in_flight y -> fitting y -> fitting y'.
Proof.
  intros Ec Er Es Ef [Hs Hf]. split.
  - apply (Forall_map corners (fun l => Z.of_nat (List.length l) = _)). rewrite Es, Ec, Er.
    by apply (Forall_map corners (fun l => Z.of_nat (List.length l) = _)).
  - rewrite Ef. eapply Forall_impl; [exact Hf|]. unfold of_session. by rewrite Ec, Er.
Qed.

Lemma compute_board s : board_columns (session_ (fst (compute s))) = board_columns (session_ s) /\
  board_rows (session_ (fst (compute s))) = board_rows (session_ s) /\
  map corners (samples (session_ (fst (compute s)))) = map corners (samples (session_ s)).
Proof.
  unfold compute. cbv zeta. destruct (negb _); [done|]. destruct (_ <? _); [done|].
  destruct (calibration_of _) as [c|e]; [|done].
  pose proof (poses_corners _ _ (with_calibration_samples c (session_ s))) as Ep.
  assert (board_columns (with_calibration c (session_ s)) = board_columns (session_ s) /\
    board_rows (with_calibration c (session_ s)) = board_rows (session_ s)) as [Ec Er].
  { unfold with_calibration. by destruct (reproject _ _ _ _ _ _) as [[l total] count]. }
  destruct (negb (result_ready _)); done.
Qed.

Lemma capture_end_fits k now s :
  of_session (session_ s) k -> Forall (fits_board (session_ s)) (samples (session_ s)) ->
  let s' := fst (capture_end k now s) in
  board_columns (session_ s') = board_columns (session_ s) /\ board_rows (session_ s') = board_rows (session_ s) /\
  Forall (fits_board (session_ s)) (samples (session_ s')).
Proof.
  intros [Kc Kr] Hs. unfold capture_end. destruct (detect k) as [[found points] drawn]. cbv zeta.
  destruct (complete k found points) eqn:Ec; cbn [negb fst]; [|done].
  destruct (is_duplicate _ _); cbn [fst]; [done|]. split; [done|split; [done|]].
  cbn. apply Forall_app. split; [done|]. constructor; [|done].
  apply andb_true_iff in Ec as [_ Ec%Z.eqb_eq]. unfold fits_board. cbn. by rewrite Ec, Kc, Kr.
Qed.

Lemma advance_fitting y e : (restarts e = true -> in_flight y = []) -> fitting y -> fitting (advance paths y e).
Proof.
  intros Hr Hy. destruct e as [m now|m|input| |i now| |w input| ]; cbn [advance].
  - apply (fitting_same y); try done; cbn; unfold update_frame; by destruct (image_to_bgr m).
  - apply (fitting_same y); try done; cbn; unfold update_camera_info; cbv zeta; by destruct (_ && _).
  - specialize (Hr eq_refl).
    unfold start. destruct (requested_session input) as [a|e] eqn:Eq; cbn [json rbind fst]; [|exact Hy].
    destruct (validate a) as [[]|e]; cbn [rbind fst]; [|exact Hy].
    destruct (latest_frame_ (manager y)); [|exact Hy]. apply requested_idle in Eq as [El _].
    split; cbn; [by rewrite El|by rewrite Hr].
  - unfold capture_begin. cbv zeta. destruct (negb _); [done|]. destruct (latest_frame_ _); [|done].
    destruct (_ || _); [done|]. destruct Hy as [Hs Hf]. split; [done|]. cbn.
    apply Forall_app. split; [done|]. by constructor.
  - destruct (in_flight y !! i) as [k|] eqn:Ek; [|done]. destruct Hy as [Hs Hf].
    assert (of_session (session_ (manager y)) k) as Hk by (rewrite Forall_forall in Hf; eapply Hf, list_elem_of_lookup_2, Ek).
    destruct (capture_end_fits k now (manager y) Hk Hs) as (Ec & Er & Hs').
    unfold fitting. cbn. split.
    + eapply Forall_impl; [exact Hs'|]. intros x. unfold fits_board. by rewrite Ec, Er.
    + apply Forall_delete. eapply Forall_impl; [exact Hf|]. unfold of_session. by rewrite Ec, Er.
  - destruct (compute_board (manager y)) as (Ec & Er & Es). by apply (fitting_same y).
  - pose proof (apply_session paths w input (manager y) (disk y)) as Ha.
    destruct (apply_calibration _ _ _ _ _) as [[s d] r]. cbn [fst] in Ha.
    apply (fitting_same y); try done; change (manager (y <| manager := s |> <| disk := d |>)) with s;
      by destruct Ha as [-> | ->].
  - specialize (Hr eq_refl). split; cbn; [done|by rewrite Hr].
Qed.

Lemma perform_fitting es y : undisturbed y es = true -> fitting y -> fitting (perform paths y es).
Proof.
  revert y; induction es as [|e es IH]; intros y Hu Hy; [done|].
  apply andb_true_iff in Hu as [Hu Hr]. apply (IH (advance paths y e)); [done|].
  apply advance_fitting; [|done]. intros Re. rewrite Re in Hu. by apply Nat.eqb_eq, nil_length_inv in Hu.
Qed.

(** As long as no session is started or reset while a capture looks for the board,
    every sample of the session has one corner for every corner of the
    session's board, as [cv::calibrateCamera] needs it. *)
Theorem samples_fit_the_board d es : undisturbed (powered d) es = true ->
  let a := session_ (manager (perform paths (powered d) es)) in Forall (fits_board a) (samples a).
Proof. intros Hu. by apply perform_fitting. Qed.

(** The two critical sections of [capture] do not check that the session is
    still the same: a board found while another session is started, or the
    session reset, becomes a sample of what is then the session, active or not
    and whatever its board. *)
Theorem captures_can_join_another_session y e k now :
  in_flight y = [k] -> restarts e = true ->
  session_ (manager (advance paths y e)) <> session_ (manager y) ->
  (let '(found, points, _) := detect k in complete k found points) = true ->
  let y' := perform paths y [e; CaptureEnded 0 now] in
  samples (session_ (manager y')) = [candidate_of k (snd (fst (detect k)))] /\
  board_columns (session_ (manager y')) = board_columns (session_ (manager (advance paths y e))) /\
  board_rows (session_ (manager y')) = board_rows (session_ (manager (advance paths y e))).
Proof.
  intros Hf Hr Hn Hc.
  assert (in_flight (advance paths y e) = [k] /\ samples (session_ (manager (advance paths y e))) = []) as [Hf' Hs'].
  { destruct e; try done; cbn [advance] in *.
    unfold start in *. destruct (requested_session input) as [a|?] eqn:Eq; cbn [json rbind fst] in *; [|done].
    destruct (validate a) as [[]|?]; cbn [rbind fst] in *; [|done].
    destruct (latest_frame_ (manager y)); [|done]. apply requested_idle in Eq as [El _].
    by split. }
  cbv zeta. unfold perform. cbn [fold_left]. set (y1 := advance paths y e) in *. cbn [advance]. rewrite Hf'. cbn.
  unfold capture_end. destruct (detect k) as [[found points] drawn]. rewrite Hc. cbn.
  unfold is_duplicate. cbn. rewrite Hs'. done.
Qed.
End Races.

(** ** Verification *)
Section Verification.
Context `{Nlohmann} `{OpenCV} `{Libm}.
Variable paths : Paths.

(** the [CameraInfo] passes for the session *)
Definition passes (m : CameraInfo) (a : Session) : bool :=
  dlt dzero (info_fx m) && dlt dzero (info_fy m) &&
  (swrap32 (info_width m) =? image_width a) && (swrap32 (info_height m) =? image_height a).
Definition applied (y : System) (e : Event) : Prop :=
  exists w input j, e = Applied w input /\ snd (apply_calibration paths w input (manager y) (disk y)) = Done j.
(** events that leave the size of the images and the verification alone *)
Definition keeps_verification (y : System) (e : Event) : Prop :=
  restarts e = false /\ ~ applied y e.

(** after [es] an [apply] has been made, and only events that keep it came since *)
Definition pending_after (d : files) (es : list Event) : Prop :=
  exists before e mid, es = before ++ e :: mid /\ applied (perform paths (powered d) before) e.
Definition verified_after (d : files) (es : list Event) : Prop :=
  exists before m after, es = before ++ InfoReceived m :: after /\ pending_after d before /\
    passes m (session_ (manager (perform paths (powered d) es))) = true.

Lemma perform_snoc y es e : perform paths y (es ++ [e]) = advance paths (perform paths y es) e.
Proof. apply fold_left_app. Qed.

Lemma pending_snoc d es e : pending_after d es -> pending_after d (es ++ [e]).
Proof.
  intros (b & x & mid & -> & Ha). exists b, x, (mid ++ [e]). by rewrite <- app_assoc.
Qed.

Lemma verified_snoc d es e :
  image_width (session_ (manager (perform paths (powered d) (es ++ [e])))) = image_width (session_ (manager (perform paths (powered d) es))) ->
  image_height (session_ (manager (perform paths (powered d) (es ++ [e])))) = image_height (session_ (manager (perform paths (powered d) es))) ->
  verified_after d es -> verified_after d (es ++ [e]).
Proof.
  intros Ew Eh (b & m & after & -> & Hp & Hm). exists b, m, (after ++ [e]). rewrite <- app_assoc.
  split; [done|split; [done|]]. unfold passes in *.
  change (b ++ (InfoReceived m :: after) ++ [e]) with (b ++ InfoReceived m :: after ++ [e]) in *.
  rewrite <- app_assoc in Ew, Eh. cbn [app] in Ew, Eh. by rewrite Ew, Eh.
Qed.

(** what one event does to the verification *)
Lemma advance_verification y e :
  let s := manager y in let s' := manager (advance paths y e) in
  (verification_pending_ s' = true -> verification_pending_ s = true \/ applied y e) /\
  (verified_ s' = true ->
     (verified_ s = true /\ image_width (session_ s') = image_width (session_ s) /\
      image_height (session_ s') = image_height (session_ s)) \/
     (verification_pending_ s = true /\ exists m, e = InfoReceived m /\ passes m (session_ s') = true)).
Proof.
  cbv zeta. destruct e as [m now|m|input| |i now| |w input| ]; cbn [advance].
  - unfold update_frame. destruct (image_to_bgr m); cbn; auto.
  - cbn. unfold update_camera_info. cbv zeta. cbn.
    destruct (verification_pending_ (manager y)) eqn:Ep; cbn; [|auto].
    destruct (_ && _) eqn:Ec; cbn; [|rewrite ?Ep; auto]. split; [done|]. intros _. right. split; [done|].
    exists m. split; [done|]. unfold passes. cbn.
    apply andb_true_iff in Ec as [Ec Eh]. apply andb_true_iff in Ec as [Ec Ew]. apply andb_true_iff in Ec as [_ Ec].
    by rewrite Ec, Ew, Eh.
  - cbn. unfold start. destruct (rbind _ _); [|by auto]. destruct (latest_frame_ _); [|by auto]. done.
  - destruct (capture_begin _); auto.
  - destruct (in_flight y !! i) as [k|]; [|by auto]. cbn.
    unfold capture_end. destruct (detect k) as [[found points] drawn]. cbv zeta.
    destruct (negb _); cbn; [by auto|]. destruct (is_duplicate _ _); cbn; by auto.
  - cbn. unfold compute. cbv zeta. destruct (negb _); [by auto|]. destruct (_ <? _); [by auto|].
    destruct (calibration_of _) as [c|x]; cbn; [|by auto].
    assert (image_width (with_calibration c (session_ (manager y))) = image_width (session_ (manager y)) /\
      image_height (with_calibration c (session_ (manager y))) = image_height (session_ (manager y))) as [Ew Eh].
    { unfold with_calibration. by destruct (reproject _ _ _ _ _ _) as [[l total] count]. }
    destruct (negb (result_ready _)); cbn; rewrite Ew, Eh; auto.
  - assert (forall s d j, apply_calibration paths w input (manager y) (disk y) = (s, d, Done j) -> applied y (Applied w input)) as Hap.
    { intros s d j E. exists w, input, j. by rewrite E. }
    unfold apply_calibration in *. destruct (may_apply _ _); cbn; [|by auto].
    destruct (save _ _ _ _) as [d' [b|e]]; cbn; [|by auto]. split; [|done]. intros _. right. by eapply Hap.
  - done.
Qed.

(** The calibration counts as verified only when, after an application that
    succeeded, a [CameraInfo] has come with two positive focal lengths and the size of
    the session's images. *)
Theorem verification_needs_a_camera_info d es :
  let s := manager (perform paths (powered d) es) in
  verified_ s = true ->
  exists before w input j mid m after,
    es = before ++ Applied w input :: mid ++ InfoReceived m :: after /\
    snd (apply_calibration paths w input (manager (perform paths (powered d) before))
           (disk (perform paths (powered d) before))) = Done j /\
    passes m (session_ s) = true.
Proof.
  cbv zeta.
  assert (forall es, (verification_pending_ (manager (perform paths (powered d) es)) = true -> pending_after d es) /\
    (verified_ (manager (perform paths (powered d) es)) = true -> verified_after d es)) as Hall.
  { clear es. intros es. induction es as [|e es [IHp IHv]] using rev_ind; [done|].
    pose proof (perform_snoc (powered d) es e) as Es.
    destruct (advance_verification (perform paths (powered d) es) e) as [Ap Av]. rewrite <- Es in Ap, Av. split.
    - intros Hp. destruct (Ap Hp) as [Hq|Ha]; [by apply pending_snoc, IHp|]. by exists es, e, [].
    - intros Hv. destruct (Av Hv) as [(Hq & Ew & Eh)|(Hq & m & -> & Hm)]; [by apply verified_snoc; [..|apply IHv]|].
      exists es, m, []. split; [done|]. by split; [apply IHp|]. }
  intros Hv. apply Hall in Hv as (b & m & after & E & (b' & e & mid & E' & w & input & j & -> & Ha) & Hm).
  exists b', w, input, j, mid, m, after. split; [|done]. rewrite E, E', <- app_assoc. done.
Qed.

Lemma next_info_verifies s m :
  verification_pending_ s = true -> verification_start_sequence_ s = camera_info_sequence_ s ->
  0 <= camera_info_sequence_ s < 2 ^ 64 - 1 -> passes m (session_ s) = true ->
  verified_ (update_camera_info m s) = true.
Proof.
  intros Hp Hq Hs Hm. pose proof (wrap64_succ _ Hs) as Hw.
  assert ((camera_info_sequence_ s <? camera_info_sequence_ s + 1) = true) as Hl by (apply Z.ltb_lt; lia).
  clear Hs. unfold update_camera_info. cbv zeta. cbn. rewrite Hp, Hq, Hw, Hl. cbn [andb].
  unfold passes in Hm. by rewrite Hm.
Qed.

Lemma apply_sequence w input s d :
  camera_info_sequence_ (fst (fst (apply_calibration paths w input s d))) = camera_info_sequence_ s.
Proof.
  unfold apply_calibration. destruct (may_apply _ _); [|done]. by destruct (save _ _ _ _) as [d' [b|e]].
Qed.
Lemma applied_info_verifies y w input m j :
  0 <= camera_info_sequence_ (manager y) < 2 ^ 64 - 1 -> passes m (session_ (manager y)) = true ->
  snd (apply_calibration paths w input (manager y) (disk y)) = Done j ->
  verified_ (manager (perform paths y [Applied w input; InfoReceived m])) = true.
Proof.
  intros Hs Hm Hj. unfold perform. cbn [fold_left]. cbn [advance].
  pose proof (apply_session paths w input (manager y) (disk y)) as Hse.
  pose proof (apply_sequence w input (manager y) (disk y)) as Hseq.
  destruct (apply_calibration paths w input (manager y) (disk y)) as [[s d] r] eqn:E. cbn [fst snd] in *. subst r.
  apply apply_done in E as (_ & _ & _ & Hp & Hq & _).
  apply (next_info_verifies s); [done|by rewrite Hseq|by rewrite Hseq|].
  unfold passes in *. by destruct Hse as [-> | ->].
Qed.

(** The message is not compared with the calibration that was saved: after a successful
    application any [CameraInfo] that passes verifies it, also one that the camera
    sent before, from the old file, such as the next one of a camera that has not yet restarted. *)
Theorem old_camera_info_verifies y0 y w input m j :
  y = advance paths y0 (InfoReceived m) -> 0 <= camera_info_sequence_ (manager y) < 2 ^ 64 - 1 ->
  passes m (session_ (manager y)) = true ->
  snd (apply_calibration paths w input (manager y) (disk y)) = Done j ->
  verified_ (manager (perform paths y [Applied w input; InfoReceived m])) = true.
Proof. intros _. apply applied_info_verifies. Qed.
End Verification.

(** ** Images *)
Section ImageBounds.
Context `{OpenCV}.

Lemma mat_rows_length n size step data :
  (size <= step)%nat -> n = 0%nat \/ ((n - 1) * step + size <= List.length data)%nat ->
  List.length (mat_rows n step size data) = (n * size)%nat.
Proof.
  intros Hs. revert data; induction n as [|n IH]; intros data Hn; [done|]. cbn [mat_rows].
  destruct Hn as [?|Hn]; [lia|]. replace (S n - 1)%nat with n in Hn by lia.
  rewrite length_app, length_take, IH.
  - lia.
  - destruct n as [|n]; [by left|]. right. rewrite length_drop. lia.
Qed.

(** the channels of an accepted image *)
Definition channels_of (m : RosImage) : Z :=
  match image_format (image_encoding m) with Some (c, _) => c | None => 0 end.
Lemma channels_positive m : 0 <= channels_of m.
Proof. unfold channels_of, image_format. repeat case_match; simplify_eq; lia. Qed.

Lemma accepted_fits m frame : image_to_bgr m = Some frame ->
  width m <> 0 /\ height m <> 0 /\ fits m (channels_of m) = true.
Proof.
  unfold image_to_bgr, channels_of. destruct (_ || _) eqn:E; [done|].
  apply orb_false_iff in E as [E _]. apply orb_false_iff in E as [Ew%Z.eqb_neq Eh%Z.eqb_neq].
  destruct (image_format _) as [[c conversion]|]; [|done]. by destruct (fits m c).
Qed.

(** An image that is accepted has all its rows in the data, so the pixels
    handed to OpenCV are inside it, as long as [step * height] fits the 32 bits
    the product has. *)
Theorem accepted_images_hold_their_rows m frame :
  0 <= width m < 2 ^ 32 -> 0 <= height m < 2 ^ 32 -> 0 <= step m < 2 ^ 32 ->
  step m * height m < 2 ^ 32 -> image_to_bgr m = Some frame ->
  (height m - 1) * step m + width m * channels_of m <= Z.of_nat (List.length (image_data m)) /\
  Z.of_nat (List.length (mat_rows (Z.to_nat (height m)) (Z.to_nat (step m)) (Z.to_nat (width m * channels_of m))
    (image_data m))) = height m * (width m * channels_of m).
Proof.
  intros Hw Hh Hst Hp Hi. apply accepted_fits in Hi as (Nw & Nh & Hf).
  apply andb_true_iff in Hf as [Hf1%Z.leb_le Hf2%Z.leb_le].
  unfold wrap32 in Hf2. rewrite wrap_small in Hf2 by nia.
  pose proof (channels_positive m) as Hc. set (size := width m * channels_of m) in *.
  assert (0 <= size) as Hs by (unfold size; nia). clearbody size.
  assert ((height m - 1) * step m + size <= Z.of_nat (List.length (image_data m))) as Hb by nia.
  split; [done|]. rewrite mat_rows_length.
  - rewrite Nat2Z.inj_mul, !Z2Nat.id; lia.
  - lia.
  - right. apply Nat2Z.inj_le. rewrite Nat2Z.inj_add, Nat2Z.inj_mul, Nat2Z.inj_sub, !Z2Nat.id by lia. lia.
Qed.

(** The product of [step] and [height] wraps around at 32 bits: an image whose
    rows need four gigabytes is accepted with any data that is not empty, and OpenCV reads
    beyond the end of it. *)
Theorem short_images_are_accepted byte rest :
  Z.of_nat (List.length (byte :: rest)) < 2 ^ 32 - 2 ^ 16 ->
  let m := MakeRosImage 1 (2 ^ 16) (2 ^ 16) "mono8" (byte :: rest) in
  image_to_bgr m <> None /\
  Z.of_nat (List.length (image_data m)) < (height m - 1) * step m + width m * channels_of m.
Proof.
  intros Hl m. split.
  - unfold image_to_bgr. replace (fits m 1) with true; [done|]. symmetry. unfold fits.
    replace (wrap32 (step m * height m)) with 0 by (vm_compute; reflexivity). done.
  - unfold m. cbn [image_data]. change ((2 ^ 16 - 1) * 2 ^ 16 + 1 * 1) with 4294901761.
    change (2 ^ 32 - 2 ^ 16) with 4294901760 in Hl. cbn [height step width]. 
    change (channels_of _) with 1. lia.
Qed.
End ImageBounds.

(** ** Coverage *)
Lemma covers_snoc coordinate l x k : covers coordinate l k = true -> covers coordinate (l ++ [x]) k = true.
Proof. unfold covers. rewrite existsb_app. by intros ->. Qed.
Lemma one_if_mono a b : (a = true -> b = true) -> 0 <= one_if a <= one_if b /\ one_if b <= 1.
Proof. intros Hab. destruct a, b; cbn; lia. Qed.

(** The coverage score is between 0 and the 9 that is announced, and another
    sample never lowers it. *)
Theorem coverage_grows l x :
  0 <= coverage_score l <= coverage_score (l ++ [x]) /\ coverage_score (l ++ [x]) <= 9.
Proof.
  pose proof (fun coordinate k => one_if_mono _ _ (covers_snoc coordinate l x k)) as Hc.
  pose proof (fun test => one_if_mono (existsb test l) (existsb test (l ++ [x]))) as Ht.
  assert (forall test : Sample -> bool, existsb test l = true -> existsb test (l ++ [x]) = true) as Hs
    by (intros test; rewrite existsb_app; by intros ->).
  unfold coverage_score.
  pose proof (Hc center_x 0). pose proof (Hc center_x 1). pose proof (Hc center_x 2).
  pose proof (Hc center_y 0). pose proof (Hc center_y 1). pose proof (Hc center_y 2).
  pose proof (Ht is_near (Hs _)). pose proof (Ht is_far (Hs _)). pose proof (Ht is_tilted (Hs _)). lia.
Qed.

(** ** Reading the calibration file back *)
Section Yaml.
Context `{Nlohmann}.

(** the lines up to the camera's name, the part that is the same in every file
    of the front camera, and what follows the numbers of the matrix *)
Definition yaml_start (a : Session) : string :=
  ("image_width: " ++ to_string (image_width a) ++ newline ++
   "image_height: " ++ to_string (image_height a) ++ newline)%string.
Definition yaml_middle : string :=
  ("camera_name: front_camera" ++ newline ++ "camera_matrix:" ++ newline ++ "  rows: 3" ++ newline ++
   "  cols: 3" ++ newline ++ "  data: [")%string.
Definition matrix_tokens (a : Session) : list string :=
  let value i := yaml_number (entry (camera_matrix a) i) in
  [value 0%nat; " 0.0"; " " ++ value 2%nat; " 0.0"; " " ++ value 4%nat; " " ++ value 5%nat; " 0.0"; " 0.0"; " 1.0"]%string.
Fixpoint comma_joined (l : list string) : string :=
  match l with [] => "" | [t] => t | t :: r => (t ++ "," ++ comma_joined r)%string end.

Lemma yaml_parts a : camera_name a = "front_camera"%string ->
  exists rest, calibration_yaml a = (yaml_start a ++ yaml_middle ++ comma_joined (matrix_tokens a) ++ "]" ++ rest)%string.
Proof.
  intros Hn. unfold calibration_yaml, yaml_start, yaml_middle, matrix_tokens. rewrite Hn.
  cbn [comma_joined Nat.mul Nat.add].
  generalize (to_string (image_width a)) (to_string (image_height a)) (yaml_number (entry (camera_matrix a) 0))
    (yaml_number (entry (camera_matrix a) 2)) (yaml_number (entry (camera_matrix a) 4))
    (yaml_number (entry (camera_matrix a) 5)).
  intros w h x0 x2 x4 x5. eexists. rewrite !string_app_assoc. cbv [String.append newline]. reflexivity.
Qed.

Lemma yaml_number_without c x : number_char c = false -> without c (yaml_number x) = true.
Proof. intros Hc. apply without_number_char; [done|]. apply number_chars. Qed.
Lemma yaml_start_without a : without "c" (yaml_start a) = true.
Proof.
  unfold yaml_start, without. rewrite !all_chars_app.
  rewrite !(without_number_char "c" (to_string _)) by (done || apply to_string_chars). by vm_compute.
Qed.

Lemma comma_joined_without c l : Ascii.eqb c "," = false ->
  Forall (fun t => without c t = true) l -> without c (comma_joined l) = true.
Proof.
  intros Hc. induction 1 as [|t [|u r] Ht _ IH]; [done|done|].
  unfold without in *. cbn [comma_joined] in *. rewrite !all_chars_app.
  rewrite Ht, IH. cbn [all_chars]. by rewrite Hc.
Qed.
Lemma getlines_joined l : Forall (fun t => without "," t = true /\ str_empty t = false) l ->
  getlines "," (comma_joined l) = l.
Proof.
  induction 1 as [|t [|u r] [Ht He] _ IH]; [done|by apply getlines_last|].
  change (getlines "," (t ++ String "," (comma_joined (u :: r))) = t :: u :: r).
  by rewrite getlines_token, IH.
Qed.

Lemma stod_token_some t x : stod_token t = Some x -> str_empty t = false.
Proof. by destruct t. Qed.
Lemma stod_token_space t : stod_token (" " ++ t) = stod_token t.
Proof. done. Qed.

Lemma matrix_tokens_plain a x : stod_token (yaml_number (entry (camera_matrix a) 0)) = Some x ->
  Forall (fun t => without "," t = true /\ str_empty t = false) (matrix_tokens a) /\
  Forall (fun t => without "]" t = true) (matrix_tokens a).
Proof.
  intros Hx%stod_token_some.
  assert (forall i, without "," (yaml_number (entry (camera_matrix a) i)) = true) as Hc
    by (intros i; by apply yaml_number_without).
  assert (forall i, without "]" (yaml_number (entry (camera_matrix a) i)) = true) as Hb
    by (intros i; by apply yaml_number_without).
  unfold without in *. unfold matrix_tokens.
  split; repeat constructor; rewrite ?all_chars_app, ?Hc, ?Hb; done.
Qed.

Lemma find_from_skip needle p n t :
  find_from needle (String.length p + n) (p ++ t) = option_map (Nat.add (String.length p)) (find_from needle n t).
Proof.
  unfold find_from. rewrite length_append.
  replace (String.length p + String.length t <? String.length p + n)%nat with (String.length t <? n)%nat
    by (apply eq_true_iff_eq; rewrite !Nat.ltb_lt; lia).
  destruct (_ <? _)%nat; [done|]. rewrite str_drop_beyond.
  destruct (str_find _ _); [|done]. cbn [option_map]. f_equal. lia.
Qed.
Lemma find_from_app needle n t u i : find_from needle n t = Some i -> find_from needle n (t ++ u) = Some i.
Proof.
  unfold find_from. rewrite length_append. destruct (Nat.ltb_spec (String.length t) n); [done|].
  rewrite (proj2 (Nat.ltb_ge _ _)) by lia. rewrite str_drop_app by done.
  destruct (str_find _ _) as [k|] eqn:E; [|done]. cbn [option_map]. intros [= <-].
  by rewrite (find_app _ _ u _ E).
Qed.

(** the list of numbers is cut out of the file exactly *)
Lemma matrix_data_found a (l : list string) rest : without "]" (comma_joined l) = true ->
  parse_yaml_data (yaml_start a ++ yaml_middle ++ comma_joined l ++ "]" ++ rest) "camera_matrix"
  = default [] (all_tokens (getlines "," (comma_joined l))).
Proof.
  intros Hl. set (T := comma_joined l) in *. clearbody T. unfold parse_yaml_data.
  change ("camera_matrix" ++ ":")%string with (String "c" "amera_matrix:").
  rewrite find_skip by apply yaml_start_without.
  assert (str_find (String "c" "amera_matrix:") yaml_middle = Some 26%nat) as F1 by (vm_compute; reflexivity).
  rewrite (find_app _ _ _ _ F1). cbn [option_map]. rewrite find_from_skip.
  assert (find_from "data:" 26 yaml_middle = Some 63%nat) as F2 by (vm_compute; reflexivity).
  rewrite (find_from_app _ _ _ _ _ F2). cbn [option_map]. rewrite find_from_skip.
  assert (find_from "[" 63 yaml_middle = Some 69%nat) as F3 by (vm_compute; reflexivity).
  rewrite (find_from_app _ _ _ _ _ F3). cbn [option_map]. rewrite find_from_skip.
  assert (find_from "]" 69 (yaml_middle ++ T ++ "]" ++ rest) = Some (70 + String.length T)%nat) as ->.
  { unfold find_from. rewrite length_append. rewrite (proj2 (Nat.ltb_ge _ _)) by (change (String.length yaml_middle) with 70%nat; lia).
    rewrite str_drop_app by (vm_compute; lia).
    change (str_drop 69 yaml_middle) with "["%string. rewrite <- string_app_assoc.
    rewrite find_skip by (unfold without in *; rewrite all_chars_app, Hl; done).
    change (str_find "]" ("]" ++ rest)) with (if str_prefix "" rest then Some 0%nat else str_find "]" ("]" ++ rest)).
    assert (str_prefix "" rest = true) as -> by (by destruct rest).
    rewrite length_append. change (String.length "[") with 1%nat. cbn [option_map]. f_equal. lia. }
  cbn [option_map].
  replace (String.length (yaml_start a) + (70 + String.length T) - (String.length (yaml_start a) + 69) - 1)%nat
    with (String.length T) by lia.
  replace (String.length (yaml_start a) + 69 + 1)%nat with (String.length (yaml_start a) + (String.length yaml_middle + 0))%nat
    by (change (String.length yaml_middle) with 70%nat; lia).
  rewrite !str_drop_beyond. cbn [str_drop]. by rewrite str_take_app_length.
Qed.

(** the matrix of a pinhole camera, which [calibrateCamera] gives: the five other
    entries are constants *)
Definition pinhole (matrix : list double) : Prop :=
  entry matrix 1 = dzero /\ entry matrix 3 = dzero /\ entry matrix 6 = dzero /\ entry matrix 7 = dzero /\
  entry matrix 8 = of_int 1.

(** C32: The calibration file of the front camera is read back as the matrix that was
    written to it, to 15 significant digits: the search of [parse_yaml_data] cuts
    out exactly nine numbers, the five constants of a pinhole matrix are what they were,
    and each of the four others is the correctly rounded value of a decimal number
    that differs from the entry by at most half a unit in its 15th digit, if
    [std::stod] accepts what was printed. *)
Theorem calibration_roundtrip a : camera_name a = "front_camera"%string -> pinhole (camera_matrix a) ->
  Forall (fun i => is_Some (stod_token (yaml_number (entry (camera_matrix a) i)))) [0; 2; 4; 5]%nat ->
  Forall2 (reads_as 15) (entry (camera_matrix a) <$> [0; 1; 2; 3; 4; 5; 6; 7; 8]%nat)
    (parse_yaml_data (calibration_yaml a) "camera_matrix").
Proof.
  intros Hn (E1 & E3 & E6 & E7 & E8) Hs. rewrite !list.Forall_cons in Hs.
  destruct Hs as ([x0 H0] & [x2 H2] & [x4 H4] & [x5 H5] & _). destruct (yaml_parts a Hn) as [rest ->].
  destruct (matrix_tokens_plain a x0 H0) as [Hc Hb].
  rewrite matrix_data_found by (by apply comma_joined_without). rewrite getlines_joined by done.
  unfold matrix_tokens. cbn [all_tokens].
  assert (stod_token " 0.0" = Some dzero) as -> by (vm_compute; reflexivity).
  assert (stod_token " 1.0" = Some (of_int 1)) as -> by (vm_compute; reflexivity).
  rewrite !stod_token_space, H0, H2, H4, H5. cbv [default from_option id]. cbn [fmap list_fmap]. rewrite E1, E3, E6, E7, E8.
  assert (forall i x, stod_token (yaml_number (entry (camera_matrix a) i)) = Some x ->
    reads_as 15 (entry (camera_matrix a) i) x) as Hr by (intros i x; by apply number_reads_as).
  repeat (apply List.Forall2_cons; [first [by apply Hr | by left]|]). apply List.Forall2_nil.
Qed.
End Yaml.

(** ** A calibration that runs *)
Module Bench.
#[local] Instance nlohmann_bench : Nlohmann := {|
  dump _ := Returns "{}"%string; dump_indent _ _ := Returns "{}"%string; parse _ := Throws "parse_error";
  get_int v := match v with J_integer z => Returns z | _ => type_error end;
  get_uint32 _ := type_error; get_uint64 _ := type_error; get_float _ := type_error;
  get_double v := match v with J_number x => Returns x | _ => type_error end |}.

(** a board of nine corners, all at the column the first pixel names *)
Definition board_at (f : Frame) : list Point :=
  replicate 9 (MakePoint (of_intf (default 0 (samples_of f !! 0%nat))) fzero).
Definition bench_calibration : Calibration :=
  MakeCalibration (lit 5 1) [of_int 600; dzero; of_int 320; dzero; of_int 600; of_int 240; dzero; dzero; of_int 1]
    (replicate 5 dzero) [].
#[local] Instance opencv_bench : OpenCV := {|
  cvt_color _ f := f; find_chessboard_sb f _ _ := (true, board_at f); find_chessboard f _ _ := (false, []);
  corner_sub_pix _ l := l; draw_corners f _ _ _ _ := f; bounding_area _ := 1;
  calibrate_camera _ _ _ _ := Returns bench_calibration;
  project_points _ _ _ _ := replicate 9 (MakePoint fzero fzero); norm_l2 _ _ := of_int 3;
  undistort f _ _ := f; imencode f := samples_of f |}.
#[local] Instance libm_bench : Libm := {| hypot x y := dadd (dabs x) (dabs y); atan2f _ _ := fzero |}.

Definition image (b : Z) : RosImage := MakeRosImage 8 1 8 "mono8" (b :: replicate 7 0).
Definition request : JsonValue :=
  J_object [("board_columns", J_integer 3); ("board_rows", J_integer 3); ("square_size_m", J_number (lit 25 3));
    ("minimum_samples", J_integer 8)]%string.
Definition captures : list Event :=
  flat_map (fun b => [FrameReceived (image b) b; CaptureBegun; CaptureEnded 0 b]) [0; 1; 2; 3; 4; 5; 6; 7].
Definition calibrating : list Event := FrameReceived (image 0) 0 :: Started request :: captures ++ [Computed].
Definition paths : Paths := MakePaths "/c/front.yaml" "/c/front.json".
Definition world : World :=
  MakeWorld 1735689600 1735689600 1735689601 1735689601 (fun _ => 0%Z) None None (fun _ => None) (fun _ => None).
Definition confirmed : JsonValue := J_object [("confirmed", J_bool true)]%string.
Definition disk0 : files := {["/c/front.yaml"%string := "old"%string]}.
Definition info : CameraInfo := MakeCameraInfo 8 1 (of_int 590) (of_int 590).
Abbreviation calibrated := (perform paths (powered disk0) calibrating).

Lemma results_belong_to_the_samples_witness :
  result_ready (session_ (manager calibrated)) = true /\ List.length (samples (session_ (manager calibrated))) = 8%nat /\
  exists c, calibration_of (session_ (manager calibrated)) = Returns c.
Proof.
  assert (result_ready (session_ (manager calibrated)) = true) as Hr by (vm_compute; reflexivity).
  split; [exact Hr|]. split; [vm_compute; reflexivity|].
  destruct (results_belong_to_the_samples paths disk0 calibrating Hr) as (_ & _ & _ & _ & c & Hc & _). by exists c.
Defined.

Lemma samples_fit_the_board_witness :
  undisturbed paths (powered disk0) calibrating = true /\
  Forall (fits_board (session_ (manager calibrated))) (samples (session_ (manager calibrated))).
Proof.
  assert (undisturbed paths (powered disk0) calibrating = true) as Hu by (vm_compute; reflexivity).
  split; [exact Hu|exact (samples_fit_the_board paths disk0 calibrating Hu)].
Defined.

(** a capture that began in one session and ends in the next *)
Definition other_request : JsonValue :=
  J_object [("board_columns", J_integer 7); ("square_size_m", J_number (lit 25 3))]%string.
Abbreviation capturing :=
  (perform paths (powered disk0) [FrameReceived (image 0) 0; Started request; CaptureBegun]).
Definition shot_taken : Snapshot := MakeSnapshot (MakeFrame 8 1 (0 :: replicate 7 0)) 3 3.
Lemma captures_can_join_another_session_witness :
  let y := perform paths capturing [Started other_request; CaptureEnded 0 5] in
  List.length (samples (session_ (manager y))) = 1%nat /\ board_columns (session_ (manager y)) = 7.
Proof.
  intros y.
  destruct (captures_can_join_another_session paths capturing (Started other_request) shot_taken 5) as (Es & Ec & _).
  - reflexivity.
  - reflexivity.
  - intros E. apply (f_equal board_columns) in E. vm_compute in E. discriminate E.
  - vm_compute. reflexivity.
  - unfold y. rewrite Es, Ec. split; reflexivity.
Defined.

Lemma bench_apart : apart paths.
Proof. split; reflexivity. Qed.

Lemma old_calibration_survives_witness :
  let '(s', d', r) := apply_calibration paths world confirmed (manager calibrated) disk0 in
  d' !! "/c/front.yaml.backup-20250101-000000"%string = Some "old"%string.
Proof.
  pose proof (old_calibration_survives paths world confirmed (manager calibrated) disk0 "old" bench_apart eq_refl) as Ho.
  assert (snd (apply_calibration paths world confirmed (manager calibrated) disk0)
          = Done (applied_json paths "/c/front.yaml.backup-20250101-000000")) as Hd by (vm_compute; reflexivity).
  destruct (apply_calibration _ _ _ _ _) as [[s' d'] r]. destruct Ho as (_ & Hd' & _).
  by destruct (Hd' _ Hd) as (_ & _ & Hb).
Defined.

Lemma applying_twice_loses_the_backup_witness :
  exists (d : files) new, d !! "/c/front.yaml"%string = Some new /\ d !! "/c/front.yaml.backup-20250101-000000"%string = Some new /\
    new <> "old"%string.
Proof.
  set (first := apply_calibration paths world confirmed (manager calibrated) disk0).
  set (second := apply_calibration paths world confirmed (fst (fst first)) (snd (fst first))).
  assert (exists j, snd first = Done j) as [j1 E1] by (eexists; vm_compute; reflexivity).
  assert (exists j, snd second = Done j) as [j2 E2] by (eexists; vm_compute; reflexivity).
  destruct (applying_twice_loses_the_backup paths world world confirmed confirmed (manager calibrated) disk0 "old"
    (fst (fst first)) (snd (fst first)) j1 (fst (fst second)) (snd (fst second)) j2
    bench_apart eq_refl eq_refl) as (_ & Hc & Hb).
  - fold first. rewrite <- E1. by destruct first as [[? ?] ?].
  - fold second. rewrite <- E2. by destruct second as [[? ?] ?].
  - exists (snd (fst second)), (calibration_yaml (session_ (manager calibrated))).
    split; [exact Hc|split; [exact Hb|]]. by destruct (session_ (manager calibrated)).
Defined.

Definition verifying : list Event := calibrating ++ [Applied world confirmed; InfoReceived info].
Lemma verification_needs_a_camera_info_witness :
  verified_ (manager (perform paths (powered disk0) verifying)) = true /\
  exists m, passes m (session_ (manager (perform paths (powered disk0) verifying))) = true.
Proof.
  assert (verified_ (manager (perform paths (powered disk0) verifying)) = true) as Hv by (vm_compute; reflexivity).
  split; [exact Hv|].
  destruct (verification_needs_a_camera_info paths disk0 verifying Hv) as (? & ? & ? & ? & ? & m & ? & ? & ? & Hm).
  by exists m.
Defined.

Lemma old_camera_info_verifies_witness :
  verified_ (manager (perform paths (advance paths calibrated (InfoReceived info)) [Applied world confirmed; InfoReceived info])) = true.
Proof.
  apply (old_camera_info_verifies paths calibrated _ world confirmed info (applied_json paths "/c/front.yaml.backup-20250101-000000")).
  - reflexivity.
  - assert (camera_info_sequence_ (manager (advance paths calibrated (InfoReceived info))) = 1) as -> by (vm_compute; reflexivity).
    done.
  - vm_compute. reflexivity.
  - vm_compute. reflexivity.
Defined.

Lemma accepted_images_hold_their_rows_witness :
  is_Some (image_to_bgr (image 3)) /\ (1 - 1) * 8 + 8 * channels_of (image 3) <= 8.
Proof.
  split; [by eexists|].
  exact (proj1 (accepted_images_hold_their_rows (image 3) _ ltac:(cbn; lia) ltac:(cbn; lia) ltac:(cbn; lia) ltac:(cbn; lia) eq_refl)).
Defined.

Lemma short_images_are_accepted_witness :
  image_to_bgr (MakeRosImage 1 (2 ^ 16) (2 ^ 16) "mono8" [7]) <> None.
Proof. apply (short_images_are_accepted 7 []). cbn. lia. Defined.

Definition printed : Session := fresh_session <| image_width := 8 |> <| image_height := 1 |>.
Definition printed_matrix : Session := printed <| camera_matrix := matrix bench_calibration |>.
Lemma calibration_roundtrip_witness :
  parse_yaml_data (calibration_yaml printed_matrix) "camera_matrix"
  = [of_int 600; dzero; of_int 320; dzero; of_int 600; of_int 240; dzero; dzero; of_int 1] /\
  Forall2 (reads_as 15) (entry (camera_matrix printed_matrix) <$> [0; 1; 2; 3; 4; 5; 6; 7; 8]%nat)
    (parse_yaml_data (calibration_yaml printed_matrix) "camera_matrix").
Proof.
  split; [vm_compute; reflexivity|]. apply calibration_roundtrip.
  - reflexivity.
  - vm_compute. auto.
  - repeat constructor; apply is_Some_alt; vm_compute; exact I.
Defined.
End Bench.
