(* ===== verification/OpsData.v ===== *)
(** * Datasets and models of the operations service

    Models the handlers of [vehicle_ops_api_node.cpp] that list and describe what
    lies on the disk: [dataset_catalog], [dataset_detail], [dataset_download],
    [dataset_review], [mobility_plugins] and [models_catalog], with the functions
    they call.

    The disk is a tree.  A symbolic link holds what it points to: the
    operations of [std::filesystem] the sources use follow links, except that a
    recursive walk does not descend into one.  A file that cannot be opened has
    no content, a directory that may not be read is empty, which is what
    [skip_permission_denied] makes of it.  [weakly_canonical] is a parameter;
    the clock is an argument. *)
From S2P Require Import Prelude Calendar Floats Messages FileSystem JsonData Json Text Numbers Http OpsApi OpsServices.
Local Open Scope Z_scope.
Local Open Scope result_scope.

(** ** The disk *)

(** times are in nanoseconds since the epoch of the file clock *)
Inductive Tree :=
| RegularFile (mtime size : Z) (text : option string)
| Folder (mtime : Z) (entries : list (string * Tree))
| Link (target : option Tree)
| Special.

Fixpoint follow (t : Tree) : option Tree :=
  match t with
  | Link (Some target) => follow target
  | Link None => None
  | _ => Some t
  end.
Definition is_directory (t : Tree) : bool := match follow t with Some (Folder _ _) => true | _ => false end.
Definition is_regular_file (t : Tree) : bool := match follow t with Some (RegularFile _ _ _) => true | _ => false end.
Definition file_size (t : Tree) : Z := match follow t with Some (RegularFile _ size _) => size | _ => 0 end.
Definition last_write_time (t : Tree) : option Z :=
  match follow t with
  | Some (RegularFile m _ _) | Some (Folder m _) => Some m
  | _ => None
  end.
(** what [std::ifstream] reads: nothing when the file cannot be opened *)
Definition text_of (t : Tree) : option string :=
  match follow t with Some (RegularFile _ _ text) => text | _ => None end.

Fixpoint assoc (name : string) (entries : list (string * Tree)) : option Tree :=
  match entries with
  | [] => None
  | (n, t) :: r => if str_eqb n name then Some t else assoc name r
  end.
Fixpoint find_path (p : path) (t : Tree) : option Tree :=
  match p with
  | [] => follow t
  | name :: r => match follow t with
                 | Some (Folder _ entries) =>
                     match assoc name entries with Some u => find_path r u | None => None end
                 | _ => None
                 end
  end.

(** [directory_iterator] *)
Definition entries_of (t : Tree) : Result (list (string * Tree)) :=
  match follow t with
  | Some (Folder _ entries) => Done entries
  | _ => Raised (RuntimeError "filesystem error: directory iterator cannot open directory")
  end.
(** [recursive_directory_iterator]: every entry before what is below it *)
Fixpoint walk (below : path) (t : Tree) : list (path * Tree) :=
  match t with
  | Folder _ entries =>
      (fix each (l : list (string * Tree)) : list (path * Tree) :=
         match l with
         | [] => []
         | (name, u) :: r => (below ++ [name], u) :: walk (below ++ [name]) u ++ each r
         end) entries
  | _ => []
  end.
Definition recursive_entries (t : Tree) : list (path * Tree) :=
  match follow t with Some u => walk [] u | None => [] end.
Definition regular_entries (t : Tree) : list (path * Tree) :=
  filter (fun e => is_regular_file (snd e) = true) (recursive_entries t).

(** *** [directory_bytes], [count_lines], [file_time_string] *)
Definition directory_bytes (t : Tree) : Z * Z :=
  fold_left (fun '(total, files) e => (wrap64 (total + file_size (snd e)), wrap64 (files + 1)))
    (regular_entries t) (0, 0).
Definition count_lines (t : option Tree) : Z :=
  match t with
  | Some t => match text_of t with
              | Some text => wrap64 (Z.of_nat (List.length (getlines (ascii_of_nat 10) text)))
              | None => 0
              end
  | None => 0
  end.
Definition file_time_string (t : Tree) : string :=
  match last_write_time t with Some ns => to_string (Z.quot ns 1000000000) | None => "" end.

(** ** What a handler sees *)
Record Host := MakeHost {
  root : Tree;                                 (* of the file system *)
  project_root_ : path;
  weakly_canonical : string -> Result path }.

Section Handlers.
Context `{Nlohmann}.
Variable h : Host.

Definition on_disk (p : path) : option Tree := find_path p (root h).
Definition in_project (names : path) : option Tree := on_disk (project_root_ h ++ names).
Definition project_text (relative : string) : string := path_join (path_text (project_root_ h)) relative.

(** [nlohmann::json::parse(std::ifstream(path))] *)
Definition parse_file (t : Tree) : Outcome JsonValue :=
  match text_of t with Some text => parse text | None => Throws "parse_error" end.
(** [read_json_file] *)
Definition read_json_file (t : Tree) : Result JsonValue :=
  match follow t with
  | Some (RegularFile _ _ None) | None => Raised (RuntimeError "Unable to read JSON file")
  | Some _ => json (parse_file t)
  end.

(** ** [dataset_catalog] *)
Definition manifest_member (t : option Tree) (item : JsonValue) : JsonValue :=
  match t with
  | None => item
  | Some t => match parse_file t with
              | Returns manifest => set "manifest" manifest item
              | Throws _ => set "manifest_error" (J_bool true) item
              end
  end.

Definition dataset_item (category active_episode_id name : string) (t : Tree) : JsonValue :=
  let '(bytes, files) := directory_bytes t in
  let inside names := find_path names t in
  let episodes := str_eqb category "episodes" in
  let item := J_object
    [("id", J_string name); ("path", J_string ("datasets/" ++ category ++ "/" ++ name)); ("name", J_string name);
     ("bytes", J_integer bytes); ("file_count", J_integer files); ("modified_at", J_string (file_time_string t));
     ("protected", J_bool (episodes && str_eqb name active_episode_id))]%string in
  let item := manifest_member (inside [if episodes then "episode_manifest.json" else "dataset_manifest.json"]%string) item in
  let frames := J_integer (count_lines (inside ["frames.jsonl"%string])) in
  if episodes then set "format" (J_string "vehicle.episode.v1 / rosbag2") (set "frame_count" frames item)
  else if str_eqb category "exports" then set "format" (J_string "vehicle.dataset.v1") (set "frame_count" frames item)
  else set "training_ready" (J_bool (bool_decide (is_Some (inside ["meta"; "info.json"]%string))))
         (set "frame_count" (J_integer (if bool_decide (is_Some (inside ["data"%string])) then files else 0))
            (set "format" (J_string "LeRobot") item)).

Definition directories (l : list (string * Tree)) : list (string * Tree) :=
  filter (fun e => is_directory (snd e) = true) l.
Definition scan (active_episode_id category : string) : Result (list JsonValue) :=
  match in_project ["datasets"%string; category] with
  | None => Done []
  | Some t =>
      let? entries := entries_of t in
      Done (map (fun e => dataset_item category active_episode_id (fst e) (snd e)) (directories entries))
  end.

Definition archive_item (name : string) (t : Tree) : JsonValue :=
  J_object
    [("name", J_string name); ("path", J_string ("run/ops/exports/" ++ name)); ("bytes", J_integer (file_size t));
     ("modified_at", J_string (file_time_string t))]%string.
Definition archives : Result (list JsonValue) :=
  match in_project ["run"; "ops"; "exports"]%string with
  | None => Done []
  | Some t =>
      let? entries := entries_of t in
      Done (map (fun e => archive_item (fst e) (snd e))
        (filter (fun e => is_regular_file (snd e) && str_eqb (extension (fst e)) ".zip" = true) entries))
  end.

(** the episode that is being recorded *)
Definition active_episode (s : VehicleOpsApi) : string :=
  match message (episode_ s) with
  | Some m => if EpisodeState.state m =? EpisodeState.STATE_RECORDING then EpisodeState.episode_id m else ""
  | None => ""
  end.
Definition catalog_json (s : VehicleOpsApi) : Result JsonValue :=
  let scan := scan (active_episode s) in
  let? episodes := scan "episodes"%string in
  let? exports := scan "exports"%string in
  let? lerobot := scan "lerobot"%string in
  let? archives := archives in
  Done (J_object
    [("schema_version", J_string "vehicle.ops.dataset-catalog.v1"); ("episodes", J_array episodes);
     ("exports", J_array exports); ("lerobot", J_array lerobot); ("archives", J_array archives)]%string).
Definition dataset_catalog (s : VehicleOpsApi) : Result HttpResponse :=
  let? result := catalog_json s in document result.

(** ** Paths a request names *)

(** no [..] and no backslash; a path the request may name *)
Definition plain_path (relative : string) : bool :=
  negb (str_empty relative) && negb (str_contains ".." relative) && negb (str_has backslash relative).
(** [child] lies below [parent]: its text begins with that of [parent / ""] *)
Definition below_root (parent child : path) : bool := str_prefix (path_text parent ++ "/") (path_text child).

(** ** [dataset_detail] *)
Definition underscored (relative : string) : string :=
  map_chars (fun c => if Ascii.eqb c "/" then "_"%char else c) relative.
Definition reviews : path := ["run"; "ops"; "dataset-reviews"]%string.
(** what follows the directory of the reviews, for [review_key + ".json"] *)
Definition review_name (relative : string) : string := (underscored relative ++ ".json")%string.

Definition generic_string (p : path) : string := String.concat "/" p.
(** [lexically_relative] of two absolute paths *)
Fixpoint lexically_relative (p base : path) : path :=
  match p, base with
  | [], [] => ["."%string]
  | x :: p', y :: base' => if str_eqb x y then lexically_relative p' base' else map (fun _ => ".."%string) base ++ p
  | _, _ => map (fun _ => ".."%string) base ++ p
  end.
(** [std::filesystem::relative]: both paths are made canonical, so a link is
    listed as what it resolves to *)
Definition relative (p base : path) : Result path :=
  let? p := weakly_canonical h (path_text p) in
  let? base := weakly_canonical h (path_text base) in
  Done (lexically_relative p base).
Definition file_item (dataset : path) (e : path * Tree) : Result JsonValue :=
  let? shown := relative (dataset ++ fst e) dataset in
  Done (J_object [("path", J_string (generic_string shown)); ("bytes", J_integer (file_size (snd e)))]%string).

Definition source_name : string := "vehicle_ops_source.json".
Definition report_name : string := "dataset_quality_report.json".
(** the report next to a source that names the data set *)
Definition report_of (dataset : path) (quality : Tree) (e : path * Tree) : option (Tree * Z) :=
  if negb (is_regular_file (snd e)) || negb (str_eqb (List.last (fst e) ""%string) source_name) then None
  else match parse_file (snd e) with
       | Throws _ => None
       | Returns source =>
           match value_string "dataset_path" "" source with
           | Throws _ => None
           | Returns text =>
               match weakly_canonical h text with
               | Raised _ => None
               | Done p =>
                   if negb (bool_decide (p = dataset)) then None
                   else match find_path (removelast (fst e) ++ [report_name]) quality with
                        | Some report =>
                            if is_regular_file report then option_map (pair report) (last_write_time report) else None
                        | None => None
                        end
               end
           end
       end.
(** the latest of the reports, the first of those of one time *)
Definition latest (found : option (Tree * Z)) (report : option (Tree * Z)) : option (Tree * Z) :=
  match report, found with
  | Some (t, modified), Some (_, time) => if time <? modified then Some (t, modified) else found
  | Some r, None => Some r
  | None, _ => found
  end.
Definition latest_report (dataset : path) : option Tree :=
  match in_project ["run"; "test"; "dataset-quality"]%string with
  | Some quality =>
      if is_directory quality then
        option_map fst (fold_left (fun found e => latest found (report_of dataset quality e)) (recursive_entries quality) None)
      else None
  | None => None
  end.

Definition with_document (key failed : string) (t : option Tree) (result : JsonValue) : JsonValue :=
  match t with
  | None => result
  | Some t => match parse_file t with
              | Returns v => set key v result
              | Throws _ => set failed (J_bool true) result
              end
  end.

Definition detail_json (relative : string) (dataset : path) (t : Tree) : Result JsonValue :=
  let '(bytes, files) := directory_bytes t in
  let? listed := rmap (file_item dataset) (regular_entries t) in
  let result := J_object
    [("path", J_string relative); ("name", J_string (List.last dataset ""%string)); ("bytes", J_integer bytes);
     ("file_count", J_integer files); ("modified_at", J_string (file_time_string t));
     ("files", J_array listed)]%string in
  let result := with_document "review" "review_error" (in_project (reviews ++ [review_name relative])) result in
  Done (with_document "quality_report" "quality_report_error" (latest_report dataset) result).

Definition dataset_detail (relative : string) : Result HttpResponse :=
  if negb (plain_path relative) then Done (error 400 "Invalid dataset path")
  else
    let? root := weakly_canonical h (project_text "datasets") in
    let? path := weakly_canonical h (project_text relative) in
    match on_disk path with
    | Some t =>
        if negb (is_directory t) || (negb (bool_decide (path = root)) && negb (below_root root path))
        then Done (error 404 "Dataset not found under datasets/")
        else let? result := detail_json relative path t in document result
    | None => Done (error 404 "Dataset not found under datasets/")
    end.

(** ** [dataset_download] *)
Definition valid_archive (name : string) : bool :=
  negb (str_empty name) && negb (str_contains ".." name) && negb (str_has "/" name) &&
  negb (str_has backslash name) && (String.length name <=? 160)%nat.
Definition disposition (name : string) : string :=
  ("attachment; filename=" ++ String dquote (name ++ String dquote ""))%string.
Definition largest_download : Z := 512 * 1024 * 1024.

Definition dataset_download (archive_name : string) : Result HttpResponse :=
  if negb (valid_archive archive_name) then Done (error 400 "Invalid archive name")
  else
    let? root := weakly_canonical h (project_text "run/ops/exports") in
    let? archive := weakly_canonical h (path_join (path_text root) archive_name) in
    let name := List.last archive ""%string in
    match on_disk archive with
    | Some t =>
        if negb (is_regular_file t) || negb (str_eqb (extension name) ".zip") || negb (below_root root archive)
        then Done (error 404 "Export archive not found")
        else if largest_download <? file_size t
        then Done (error 413 "Export archive is too large for the current download endpoint")
        else match text_of t with
             | None => Raised (RuntimeError ("Unable to read " ++ path_text archive))
             | Some text =>
                 Done (MakeResponse 200 "application/zip" text
                   (("Content-Disposition"%string, disposition name) :: no_store))
             end
    | None => Done (error 404 "Export archive not found")
    end.

(** ** [dataset_review] *)
Definition review_statuses : list string := ["pending"; "accepted"; "rejected"]%string.
Definition frame_index (v : JsonValue) : bool := match v with J_integer z => 0 <=? z | _ => false end.
Definition review_json (relative status note : string) (excluded_frames : JsonValue) (updated_at : string) : JsonValue :=
  J_object
    [("schema_version", J_string "vehicle.dataset.review.v1"); ("path", J_string relative); ("status", J_string status);
     ("note", J_string note); ("excluded_frames", excluded_frames); ("updated_at", J_string updated_at)]%string.

(** the checks, in order: the answer to a refused review, or the review *)
Definition reviewed (input : JsonValue) (now : Z) : Result (HttpResponse + string * JsonValue) :=
  let? relative := json (value_string "path" "" input) in
  let? status := json (value_string "status" "" input) in
  let? note := json (value_string "note" "" input) in
  if negb (plain_path relative) then Done (inl (error 400 "Invalid dataset path"))
  else if negb (str_in status review_statuses)
  then Done (inl (error 400 "Review status must be pending, accepted or rejected"))
  else if (2000 <? String.length note)%nat then Done (inl (error 400 "Review note is too long"))
  else
    let? root := weakly_canonical h (project_text "datasets") in
    let? dataset := weakly_canonical h (project_text relative) in
    match on_disk dataset with
    | Some t =>
        if negb (is_directory t) || negb (below_root root dataset)
        then Done (inl (error 404 "Dataset not found under datasets/"))
        else
          let? excluded := json (value_json "excluded_frames" (J_array []) input) in
          match excluded with
          | J_array frames =>
              if 10000 <? Z.of_nat (List.length frames)
              then Done (inl (error 400 "excluded_frames must be an array with at most 10000 items"))
              else if negb (forallb frame_index frames)
              then Done (inl (error 400 "excluded_frames must contain non-negative frame indexes"))
              else Done (inr (relative, review_json relative status note excluded (utc_timestamp now)))
          | _ => Done (inl (error 400 "excluded_frames must be an array with at most 10000 items"))
          end
    | None => Done (inl (error 404 "Dataset not found under datasets/"))
    end.

(** What the handler asks the disk to do; a file that cannot be opened is not
    written, and the [rename] then throws. *)
Inductive Effect :=
| CreateDirectories (p : path)
| WriteFile (p : path) (text : string)
| Rename (from to : path).
(** whether directories can be created, and the temporary file written and renamed *)
Record Disk := MakeDisk { creates : bool; renames : bool }.

Definition dataset_review (d : Disk) (now : Z) (body : string) : Result HttpResponse * list Effect :=
  match parse body with
  | Throws _ => (Done invalid_body, [])
  | Returns input =>
      if negb (is_object input) then (Done invalid_body, [])
      else match reviewed input now with
           | Raised e => (Raised e, [])
           | Done (inl refusal) => (Done refusal, [])
           | Done (inr (relative, review)) =>
               let directory := project_root_ h ++ reviews in
               let target := directory ++ [review_name relative] in
               let temporary := directory ++ [(review_name relative ++ ".partial")%string] in
               if negb (creates d) then (Raised (RuntimeError "filesystem error: cannot create directories"), [])
               else match dump_indent 2 review with
                    | Throws e => (Raised (JsonError e), [CreateDirectories directory; WriteFile temporary ""])
                    | Returns text =>
                        let written := [CreateDirectories directory; WriteFile temporary (text ++ newline)] in
                        if negb (renames d) then (Raised (RuntimeError "filesystem error: cannot rename"), written)
                        else (document review, written ++ [Rename temporary target])
                    end
           end
  end.

(** ** Mobility plugins *)

(** [std::sort] by [value("id", "")]: which order plugins of one id get is not
    specified, so the sorting is a parameter *)
Definition plugin_id (plugin : JsonValue) : string :=
  match value_string "id" "" plugin with Returns id => id | Throws _ => "" end.
Variable std_sort : list JsonValue -> list JsonValue.

Definition plugin_entry (name : string) (t : Tree) : PluginFile :=
  MakePlugin name (is_regular_file t) (extension name) (read_json_file t).
Definition load_mobility_plugins : Result (list JsonValue) :=
  match in_project ["config"; "mobility"; "plugins"]%string with
  | Some t =>
      if is_directory t then
        let? entries := entries_of t in
        let plugins := load_plugins (map (fun e => plugin_entry (fst e) (snd e)) entries) in
        (* every element of two or more is compared, and an identifier that is not a text throws *)
        let? _ := (if (List.length plugins <=? 1)%nat then Done [] else json (omap_list (value_string "id" "") plugins)) in
        Done (std_sort plugins)
      else Done []
  | None => Done []
  end.
Definition mobility_plugins : Result HttpResponse :=
  let? plugins := load_mobility_plugins in
  let? text := json (dump (J_array plugins)) in
  Done (MakeResponse 200 json_type text no_store).

(** ** [models_catalog] *)
Definition mobility_json : Result JsonValue :=
  match in_project ["run"; "config"; "mobility.json"]%string with
  | Some t =>
      if is_regular_file t then
        match read_json_file t with
        | Done v => Done v
        | Raised _ => Done (J_object [("manifest_error", J_bool true)]%string)
        end
      else Done (J_object [])
  | None => Done (J_object [])
  end.

(** the last lines of the environment that name the model *)
Definition env_value (key : string) (default : string) (lines : list string) : string :=
  fold_left (fun found line => if str_prefix key line then str_drop (String.length key) line else found) lines default.
Definition environment : list string :=
  match in_project ["run"; "config"; "smolvla-runtime.env"]%string with
  | Some t => match text_of t with Some text => getlines (ascii_of_nat 10) text | None => [] end
  | None => []
  end.
Definition canonical_or_none (text : string) : option path :=
  match weakly_canonical h text with Done p => Some p | Raised _ => None end.
Definition active_root : option path :=
  let named := env_value "SMOLVLA_MODEL_ROOT=" "" environment in
  let root := if str_empty named then project_text "run/models/smolvla_base" else named in
  canonical_or_none root.
Definition active_model_id : string := env_value "SMOLVLA_MODEL_ID=" "" environment.

(** the two reports on a model, as they are filled in *)
Record Draft := MakeDraft { manifest_of : option JsonValue; compatibility : JsonValue; runtime_compatibility : JsonValue }.
Definition Filling (A : Type) : Type := Draft -> Draft * Result A.
Definition fill_bind {A B} (m : Filling A) (k : A -> Filling B) : Filling B := fun d =>
  match m d with (d, Done a) => k a d | (d, Raised e) => (d, Raised e) end.
Definition get {A} (r : Result A) : Filling A := fun d => (d, r).
Definition compatible (key : string) (v : JsonValue) : Filling unit := fun d =>
  (MakeDraft (manifest_of d) (set key v (compatibility d)) (runtime_compatibility d), Done tt).
Definition runtime (key : string) (v : JsonValue) : Filling unit := fun d =>
  (MakeDraft (manifest_of d) (compatibility d) (set key v (runtime_compatibility d)), Done tt).
Notation "'let<' x ':=' m 'in' k" := (fill_bind m (fun x => k)) (at level 10, x pattern, m at level 100, k at level 200).
Notation "m ;; k" := (fill_bind m (fun _ => k)) (at level 100, k at level 200, right associativity).

Definition object_member (key : string) (v : JsonValue) : JsonValue :=
  match member key v with Some (J_object m) => J_object m | _ => J_object [] end.

Definition runtime_message (status : option string) (allowed : bool) (text : string) : Filling unit :=
  match status with Some s => runtime "status" (J_string s) | None => get (Done tt) end ;;
  (if allowed then get (Done tt) else runtime "activation_allowed" (J_bool false)) ;;
  runtime "message" (J_string text).

Definition fill_runtime (manifest : JsonValue) : Filling unit :=
  let inference := object_member "inference" manifest in
  let< backend := get (json (value_string "backend" "pytorch" inference)) in
  let< precision := get (json (value_string "precision" "mixed" inference)) in
  let< weight_precision := get (json (value_string "weight_precision" precision inference)) in
  runtime "backend" (J_string backend) ;;
  runtime "weight_precision" (J_string weight_precision) ;;
  let< activation := get (json (value_string "activation_precision" "bfloat16" inference)) in
  runtime "activation_precision" (J_string activation) ;;
  if negb (str_eqb backend "pytorch") then
    runtime_message (Some "unsupported_backend"%string) false "Current platform build does not provide this inference backend"
  else if str_eqb weight_precision "int8" then
    let< engine := get (json (value_string "engine" "pytorch-native" (object_member "quantization" inference))) in
    if negb (str_eqb engine "torchao") && negb (str_eqb engine "pytorch-native") then
      runtime_message (Some "unsupported_quantization"%string) false
        "INT8 requires the native PyTorch or TorchAO weight-only backend"
    else if str_eqb engine "torchao" then
      runtime_message (Some "requires_runtime_check"%string) true "Activation will verify TorchAO in the selected runtime image"
    else runtime_message None true "Portable PyTorch INT8 reference backend is available"
  else runtime_message None true "Model precision is supported by the PyTorch backend".

Definition refuse_action : Filling unit :=
  compatible "status" (J_string "invalid_action_descriptor") ;;
  compatible "active_plugin_compatible" (J_bool false) ;;
  compatible "activation_allowed" (J_bool false).
Definition fill_action (plugins : list JsonValue) (active : JsonValue) (active_plugin_id : string) (manifest : JsonValue)
  : Filling unit :=
  match member "action" manifest with
  | None | Some J_null => get (Done tt)
  | Some (J_object _ as action) =>
      let< schema := get (json (value_string "schema" "" action)) in
      compatible "action_schema" (J_string schema) ;;
      compatible "uses_zero_adapter" (J_bool false) ;;
      if str_empty schema then refuse_action
      else
        let< recommended := get (json (recommended_mobility_plugins plugins schema)) in
        compatible "recommended_plugin_ids" (J_array (map J_string recommended)) ;;
        let< accepts := get (if str_empty active_plugin_id then Done false else json (mobility_plugin_accepts active schema)) in
        compatible "active_plugin_compatible" (J_bool accepts) ;;
        compatible "activation_allowed" (J_bool accepts) ;;
        compatible "status" (J_string
          (match recommended with
           | [] => "unsupported_schema"
           | _ => if str_empty active_plugin_id then "no_active_plugin" else if accepts then "compatible" else "incompatible"
           end))
  | Some _ => refuse_action
  end.

Definition initial_draft (active_plugin_id : string) : Draft :=
  MakeDraft None
    (J_object
      [("status", J_string "missing_action_descriptor"); ("action_schema", J_string "");
       ("recommended_plugin_ids", J_array []); ("active_plugin_id", J_string active_plugin_id);
       ("active_plugin_compatible", J_bool true); ("activation_allowed", J_bool true); ("uses_zero_adapter", J_bool true)]%string)
    (J_object
      [("status", J_string "compatible"); ("backend", J_string "pytorch"); ("weight_precision", J_string "mixed");
       ("activation_precision", J_string "bfloat16"); ("activation_allowed", J_bool true);
       ("message", J_string "Legacy model uses the PyTorch mixed-precision runtime")]%string).
(** the [catch]: whatever was filled in stays, and both reports say so *)
Definition manifest_failed (d : Draft) : Draft :=
  MakeDraft (manifest_of d)
    (set "activation_allowed" (J_bool false) (set "active_plugin_compatible" (J_bool false)
      (set "status" (J_string "manifest_error") (compatibility d))))
    (set "message" (J_string "Model runtime manifest cannot be parsed") (set "activation_allowed" (J_bool false)
      (set "status" (J_string "manifest_error") (runtime_compatibility d)))).

(** the reports on the model in [t]; the flag is [manifest_error] *)
Definition draft_of (plugins : list JsonValue) (active : JsonValue) (active_plugin_id : string) (t : Tree) : Draft * bool :=
  let d := initial_draft active_plugin_id in
  match find_path ["vehicle_model_manifest.json"%string] t with
  | None => (d, false)
  | Some file =>
      match read_json_file file with
      | Raised _ => (manifest_failed d, true)
      | Done manifest =>
          let d := MakeDraft (Some manifest) (compatibility d) (runtime_compatibility d) in
          match (fill_runtime manifest ;; fill_action plugins active active_plugin_id manifest) d with
          | (d, Done _) => (d, false)
          | (d, Raised _) => (manifest_failed d, true)
          end
      end
  end.

(** the last line of both reports: the activation needs the two of them *)
Definition allowed_in (report : JsonValue) : Outcome bool := value_bool "activation_allowed" true report.
Definition model_files : list string :=
  ["config.json"; "model.safetensors"; "policy_preprocessor.json"; "policy_postprocessor.json"]%string.

Definition model_item (plugins : list JsonValue) (active : JsonValue) (active_plugin_id : string)
    (model_path : path) (version : string) (activatable : bool) (t : Tree) : Result JsonValue :=
  let '(bytes, files) := directory_bytes t in
  let canonical := canonical_or_none (path_text model_path) in
  let '(d, failed) := draft_of plugins active active_plugin_id t in
  let? in_mobility := json (allowed_in (compatibility d)) in
  let? in_runtime := (if in_mobility then json (allowed_in (runtime_compatibility d)) else Done false) in
  let item := J_object
    [("provider", J_string "smolvla"); ("version", J_string version); ("path", J_string (path_text model_path));
     ("bytes", J_integer bytes); ("file_count", J_integer files); ("modified_at", J_string (file_time_string t));
     ("activatable", J_bool activatable);
     ("valid", J_bool (forallb (fun name => bool_decide (is_Some (find_path [name] t))) model_files));
     ("active", J_bool (bool_decide (canonical = active_root)))]%string in
  let item := match manifest_of d with Some m => set "manifest" m item | None => item end in
  let item := if failed then set "manifest_error" (J_bool true) item else item in
  Done (set "runtime_compatibility" (runtime_compatibility d)
    (set "compatibility" (set "activation_allowed" (J_bool (in_mobility && in_runtime)) (compatibility d)) item)).

Definition registry : path := ["run"; "models"; "providers"; "smolvla"]%string.
(** the directories [append_model] is called with: path, version, activatable *)
Definition candidates : Result (list (path * string * bool * Tree)) :=
  let base := ["run"; "models"; "smolvla_base"]%string in
  let legacy := match in_project base with
                | Some t => if is_directory t then [(project_root_ h ++ base, "legacy-base"%string, false, t)] else []
                | None => []
                end in
  match in_project registry with
  | Some t =>
      if is_directory t then
        let? entries := entries_of t in
        Done (legacy ++ map (fun e => (project_root_ h ++ registry ++ [fst e], fst e, true, snd e))
          (filter (fun e => is_directory (snd e) && negb (str_eqb (extension (fst e)) ".partial") = true) entries))
      else Done legacy
  | None => Done legacy
  end.

Definition providers_json : JsonValue :=
  J_array [J_object
    [("provider_id", J_string "smolvla"); ("display_name", J_string "SmolVLA"); ("install_supported", J_bool true);
     ("activate_supported", J_bool true)]%string].
Definition models_json : Result JsonValue :=
  let? plugins := load_mobility_plugins in
  let? active := mobility_json in
  let? active_plugin_id := json (value_string "plugin_id" "" active) in
  let? found := candidates in
  let? models := rmap (fun m => let '(model_path, version, activatable, t) := m in
    model_item plugins active active_plugin_id model_path version activatable t) found in
  Done (J_object
    [("schema_version", J_string "vehicle.ops.model-catalog.v1"); ("providers", providers_json);
     ("models", J_array models);
     ("mobility", J_object [("active_plugin_id", J_string active_plugin_id); ("active", active); ("plugins", J_array plugins)]);
     ("active_model_id", J_string active_model_id)]%string).
Definition models_catalog : Result HttpResponse :=
  let? result := models_json in document result.
End Handlers.

(** ** Members *)
Lemma member_set key x v : member key (set key x v) = Some x.
Proof. destruct v; cbn; rewrite ?str_eqb_refl; try done. apply find_set_member. Qed.
Lemma member_set_other key key' x v : key <> key' -> is_object v = true -> member key (set key' x v) = member key v.
Proof. intros Hn. destruct v; try done. intros _. cbn. apply find_set_other. congruence. Qed.
Lemma value_set_other {A} (get : JsonValue -> Outcome A) key key' default x v :
  key <> key' -> is_object v = true -> value get key default (set key' x v) = value get key default v.
Proof. intros Hn. destruct v; try done. intros _. cbn. rewrite find_set_other by congruence. done. Qed.
Lemma value_set {A} (get : JsonValue -> Outcome A) key default x v :
  is_object v = true -> value get key default (set key x v) = get x.
Proof. destruct v; try done. intros _. cbn. by rewrite find_set_member. Qed.
Lemma is_object_set key x v : is_object (set key x v) = true.
Proof. by destruct v. Qed.
