(* ===== verification/OpsDataProperties.v ===== *)
(** * What the catalogues and the reviews promise

    The properties of [OpsData]: the model catalogue against the gate that
    guards the activation of a model ([OpsApi.activation_gate]), the files a
    review writes and what the next description of the data set shows, what a
    download may answer, and the sizes that are reported. *)
From S2P Require Import Prelude Calendar Floats Messages FileSystem JsonData Json Text Numbers Http OpsApi OpsServices OpsData.
Local Open Scope Z_scope.
Local Open Scope result_scope.

(** ** The catalogue and the gate *)
Section Models.
Context `{Nlohmann}.
Variable h : Host.
Variable std_sort : list JsonValue -> list JsonValue.

(** what the gate reads is what lies on the disk of [h] *)
Record agrees (f : ModelFiles) : Prop := {
  agrees_manifest v : manifest f v =
    match in_project h (registry ++ [v; "vehicle_model_manifest.json"%string]) with
    | Some t => if is_regular_file t then Some (read_json_file t) else None
    | None => None
    end;
  agrees_mobility : active_mobility f =
    match in_project h ["run"; "config"; "mobility.json"]%string with
    | Some t => if is_regular_file t then Some (read_json_file t) else None
    | None => None
    end;
  agrees_plugins : OpsApi.plugins f = load_mobility_plugins h std_sort }.

(** a filling that leaves one of the two reports, and the manifest, alone *)
Definition keeps {A B} (part : Draft -> B) (m : Filling A) : Prop := forall d, part (fst (m d)) = part d.
Lemma filling_keeps_get {A B} (part : Draft -> B) (r : Result A) : keeps part (get r).
Proof. done. Qed.
Lemma filling_keeps_bind {A B C} (part : Draft -> C) (m : Filling A) (k : A -> Filling B) :
  keeps part m -> (forall a, keeps part (k a)) -> keeps part (fill_bind m k).
Proof.
  intros Hm Hk d. unfold fill_bind. specialize (Hm d). destruct (m d) as [d' [a|e]]; cbn [fst] in *; [|done].
  by rewrite Hk.
Qed.
Lemma runtime_keeps key v : keeps compatibility (runtime key v).
Proof. done. Qed.
#[local] Hint Resolve filling_keeps_get filling_keeps_bind runtime_keeps : core.

Lemma fill_runtime_keeps m : keeps compatibility (fill_runtime m).
Proof.
  unfold fill_runtime, runtime_message.
  repeat (apply filling_keeps_bind; [auto|intros ?]).
  repeat case_match; auto; repeat (apply filling_keeps_bind; [auto|intros ?]);
    repeat case_match; auto; repeat (apply filling_keeps_bind; [auto|intros ?]); auto;
    repeat case_match; auto.
Qed.

Lemma bind_done {A B} (m : Filling A) (k : A -> Filling B) d d' b :
  fill_bind m k d = (d', Done b) <-> exists d1 a, m d = (d1, Done a) /\ k a d1 = (d', Done b).
Proof.
  unfold fill_bind. split.
  - destruct (m d) as [d1 [a|e]]; [|done]. intros E. by exists d1, a.
  - by intros (d1 & a & -> & E).
Qed.

Lemma done_inj {A} (a b : A) : Done a = Done b -> a = b.
Proof. by intros [= ->]. Qed.
Lemma get_done {A} (r : Result A) d d' a : get r d = (d', Done a) <-> d' = d /\ r = Done a.
Proof. unfold get. split; [by intros [= -> ->]|by intros [-> ->]]. Qed.
Lemma json_done {A} (m : Outcome A) a : json m = Done a <-> m = Returns a.
Proof. destruct m; cbn [json]; split; by intros [= ->]. Qed.

(** the action descriptor passes the gate *)
Definition action_fits (active manifest : JsonValue) : Prop :=
  match member "action" manifest with
  | None | Some J_null => True
  | Some (J_object m) => exists schema, value_string "schema" "" (J_object m) = Returns schema /\
      schema <> ""%string /\ mobility_plugin_accepts active schema = Returns true
  | Some _ => False
  end.

Lemma set_allowed_false v : allowed_in (set "activation_allowed" (J_bool false) v) <> Returns true.
Proof. unfold allowed_in, value_bool. destruct v; cbn; try done. by rewrite find_set_member. Qed.

Lemma refuse_action_refuses d : allowed_in (compatibility (fst (refuse_action d))) <> Returns true.
Proof. unfold refuse_action, compatible, fill_bind. cbn [fst compatibility]. apply set_allowed_false. Qed.

Lemma allowed_set_other key x v : "activation_allowed"%string <> key -> is_object v = true ->
  allowed_in (set key x v) = allowed_in v.
Proof. intros Hk Hv. unfold allowed_in, value_bool. by rewrite value_set_other. Qed.
Lemma failed_not_allowed d : allowed_in (compatibility (manifest_failed d)) <> Returns true /\
  allowed_in (runtime_compatibility (manifest_failed d)) <> Returns true.
Proof.
  unfold manifest_failed. cbn [compatibility runtime_compatibility]. split; [apply set_allowed_false|].
  rewrite allowed_set_other; [apply set_allowed_false|done|apply is_object_set].
Qed.

(** when it is filled in and the activation is allowed, the descriptor fits *)
Lemma fill_action_fits plugins active id m d d' :
  fill_action plugins active id m d = (d', Done tt) -> allowed_in (compatibility d') = Returns true ->
  action_fits active m.
Proof.
  unfold fill_action, action_fits. intros E Ha. pose proof (refuse_action_refuses d) as Hr.
  destruct (member "action" m) as [[]|]; try done; try (rewrite E in Hr; by apply Hr).
  apply bind_done in E as (d1 & schema & [-> Es%json_done]%get_done & E).
  apply bind_done in E as (d2 & [] & _ & E). apply bind_done in E as (d3 & [] & _ & E).
  destruct (str_empty schema) eqn:Ee.
  { pose proof (refuse_action_refuses d3) as Hr'. rewrite E in Hr'. by apply Hr' in Ha. }
  exists schema. split; [done|]. split; [by intros ->|].
  apply bind_done in E as (d4 & recommended & _ & E). apply bind_done in E as (d5 & [] & _ & E).
  apply bind_done in E as (d6 & accepts & [-> Eac]%get_done & E).
  apply bind_done in E as (d7 & [] & _ & E). apply bind_done in E as (d8 & [] & E8 & E).
  injection E as <-. injection E8 as <-. cbn [compatibility] in Ha.
  rewrite allowed_set_other in Ha; [|done|apply is_object_set].
  destruct accepts; [|by apply set_allowed_false in Ha].
  destruct (str_empty id); [done|]. by apply json_done.
Qed.

(** a model whose reports allow its activation *)
Lemma draft_allowed plugins active id t :
  allowed_in (compatibility (fst (draft_of plugins active id t))) = Returns true ->
  match find_path ["vehicle_model_manifest.json"%string] t with
  | None => True
  | Some file => exists m, read_json_file file = Done m /\ action_fits active m
  end.
Proof.
  unfold draft_of. cbv zeta. destruct (find_path _ _) as [file|]; [|done].
  assert (forall d, allowed_in (compatibility (manifest_failed d)) <> Returns true) as Hf
    by (intros d; apply failed_not_allowed).
  destruct (read_json_file file) as [m|e]; cbn [fst]; [|by intros Ha%Hf].
  destruct (fill_bind _ _ _) as [d [[]|e]] eqn:E; cbn [fst]; [|by intros Ha%Hf].
  intros Ha. exists m. split; [done|]. apply bind_done in E as (d1 & [] & _ & E).
  by eapply fill_action_fits.
Qed.

(** what the catalogue says of a model's activation *)
Definition allowed (item : JsonValue) : Prop :=
  exists report, member "compatibility" item = Some report /\ member "activation_allowed" report = Some (J_bool true).

Lemma model_item_allowed plugins active id p v activatable t item :
  model_item h plugins active id p v activatable t = Done item -> allowed item ->
  allowed_in (compatibility (fst (draft_of plugins active id t))) = Returns true /\
  allowed_in (runtime_compatibility (fst (draft_of plugins active id t))) = Returns true.
Proof.
  unfold model_item. destruct (directory_bytes t) as [bytes files]. cbv zeta.
  destruct (draft_of plugins active id t) as [d failed]. cbn [fst].
  intros E (report & Hm & Ha).
  apply rbind_done in E as (m & Em%json_done & E). apply rbind_done in E as (r & Er & E). apply done_inj in E. subst item.
  rewrite member_set_other in Hm; [|done|apply is_object_set].
  rewrite member_set in Hm. injection Hm as <-. rewrite member_set in Ha. injection Ha as Ha. apply andb_true_iff in Ha as [-> ->].
  by apply json_done in Er.
Qed.

Fixpoint follow_again (t u : Tree) {struct t} : follow t = Some u -> follow u = Some u.
Proof.
  destruct t as [| |[t|]|]; cbn [follow]; intros E; [by injection E as <-|by injection E as <-| |done|by injection E as <-].
  by apply (follow_again t).
Qed.
(** finding a path in two parts *)
Lemma find_path_app p q t u : find_path p t = Some u -> find_path (p ++ q) t = find_path q u.
Proof.
  revert t; induction p as [|name p IH]; intros t E; cbn [find_path app] in *.
  - destruct q; cbn [find_path]; [by rewrite E; symmetry; apply (follow_again t)|].
    by rewrite E, (follow_again t u E).
  - destruct (follow t) as [[| ? entries| |]|]; try done. destruct (assoc name entries); [|done]. by apply IH.
Qed.
Lemma in_project_app names q t : in_project h names = Some t -> in_project h (names ++ q) = find_path q t.
Proof. intros E. unfold in_project, on_disk in *. rewrite app_assoc. by apply find_path_app. Qed.

Definition activation_request (version : string) : JsonValue :=
  J_object [("parameters", J_object [("provider", J_string "smolvla"); ("version", J_string version)])]%string.

Lemma gate_open_without_action f v :
  v <> ""%string -> str_has "/" v = false -> str_has backslash v = false ->
  match manifest f v with
  | None => True
  | Some (Raised _) => False
  | Some (Done m) => match member "action" m with
                     | None | Some J_null => True
                     | Some (J_object action) => exists schema, value_string "schema" "" (J_object action) = Returns schema /\
                         schema <> ""%string /\ mobility_gate f schema = Done None
                     | _ => False
                     end
  end -> activation_gate f (activation_request v) = Done None.
Proof.
  intros Hv Hs Hb Hm. unfold activation_gate, activation_request.
  assert (str_empty v = false) as He by (by destruct v).
  cbn -[str_empty str_has manifest mobility_gate member value_string backslash]. cbn [value_string value find_member str_eqb get_string json rbind].
  cbn -[str_empty str_has manifest mobility_gate member backslash]. rewrite He, Hs, Hb. cbn [negb orb].
  destruct (manifest f v) as [[m|e]|]; [|done..].
  destruct (member "action" m) as [[]|]; try done.
  destruct Hm as (schema & Es & Hn & Hg). unfold value_string in Es. cbn in Es |- *. rewrite Es. cbn [json rbind].
  assert (str_empty schema = false) as -> by (by destruct schema). done.
Qed.

Lemma mobility_open f active schema : agrees f -> mobility_json h = Done active ->
  mobility_plugin_accepts active schema = Returns true -> mobility_gate f schema = Done None.
Proof.
  intros Hf. unfold mobility_json, mobility_gate. rewrite (agrees_mobility f Hf).
  destruct (in_project h _) as [t|]; [|by intros [= <-]].
  destruct (is_regular_file t); [|by intros [= <-]].
  destruct (read_json_file t) as [x|e]; [|by intros [= <-]].
  intros [= ->] Ha. by rewrite Ha.
Qed.

(** C19: What the catalogue says is honoured: when it lists a model of the registry as one
    that may be activated, and the disk does not change, the gate before
    [JobManager::create] lets the request pass. *)
Theorem catalogue_promises_hold f v t p plugins active id item :
  agrees f -> in_project h (registry ++ [v]) = Some t ->
  v <> ""%string -> str_has "/" v = false -> str_has backslash v = false ->
  mobility_json h = Done active ->
  model_item h plugins active id p v true t = Done item -> allowed item ->
  activation_gate f (activation_request v) = Done None.
Proof.
  intros Hf Ht Hv Hs Hb Hm Hi Ha.
  destruct (model_item_allowed _ _ _ _ _ _ _ _ Hi Ha) as [Hc _]. apply draft_allowed in Hc.
  apply gate_open_without_action; [done..|]. rewrite (agrees_manifest f Hf).
  change (registry ++ [v; "vehicle_model_manifest.json"%string]) with (registry ++ [v] ++ ["vehicle_model_manifest.json"%string]).
  rewrite app_assoc, (in_project_app _ _ _ Ht).
  destruct (find_path _ t) as [file|]; [|done]. destruct (is_regular_file file); [|done].
  destruct Hc as (m & -> & Hm'). unfold action_fits in Hm'.
  destruct (member "action" m) as [[]|]; try done.
  destruct Hm' as (schema & Es & Hn & Hacc). exists schema. do 2 (split; [done|]). by eapply mobility_open.
Qed.

(** The gate does not look at the inference backend: a model of the registry whose
    manifest names another one than [pytorch], and no action descriptor, is
    listed as one that may not be activated, yet the request to activate it passes. *)
Theorem gate_ignores_the_backend f v t p plugins active id item file m backend :
  agrees f -> in_project h (registry ++ [v]) = Some t ->
  v <> ""%string -> str_has "/" v = false -> str_has backslash v = false ->
  find_path ["vehicle_model_manifest.json"%string] t = Some file -> read_json_file file = Done m ->
  member "action" m = None -> value_string "backend" "pytorch" (object_member "inference" m) = Returns backend ->
  backend <> "pytorch"%string -> model_item h plugins active id p v true t = Done item ->
  ~ allowed item /\ activation_gate f (activation_request v) = Done None.
Proof.
  intros Hf Ht Hv Hs Hb Hfile Hm Hact Hback Hn Hi. split.
  - intros Ha. destruct (model_item_allowed _ _ _ _ _ _ _ _ Hi Ha) as [_ Hr]. revert Hr.
    unfold draft_of. rewrite Hfile, Hm. cbv zeta.
    destruct (fill_bind _ _ _) as [d [[]|e]] eqn:E; cbn [fst]; [|by apply failed_not_allowed].
    apply bind_done in E as (d1 & [] & E & E'). unfold fill_action in E'. rewrite Hact in E'. injection E' as <-.
    unfold fill_runtime in E. rewrite Hback in E.
    apply bind_done in E as (d2 & b & [-> [= <-]%json_done]%get_done & E).
    do 2 (apply bind_done in E as (? & ? & [-> _]%get_done & E)).
    do 2 (apply bind_done in E as (? & [] & _ & E)).
    apply bind_done in E as (? & ? & [-> _]%get_done & E). apply bind_done in E as (? & [] & _ & E).
    assert (str_eqb backend "pytorch" = false) as Hne by (by apply str_eqb_neq).
    rewrite Hne in E. cbn [negb] in E. unfold runtime_message in E.
    apply bind_done in E as (? & [] & _ & E). apply bind_done in E as (? & [] & E1 & E).
    injection E1 as <-. injection E as <-. cbn [runtime_compatibility].
    rewrite allowed_set_other; [apply set_allowed_false|done|apply is_object_set].
  - apply gate_open_without_action; [done..|]. rewrite (agrees_manifest f Hf).
    change (registry ++ [v; "vehicle_model_manifest.json"%string]) with (registry ++ [v] ++ ["vehicle_model_manifest.json"%string]).
    rewrite app_assoc, (in_project_app _ _ _ Ht), Hfile. destruct (is_regular_file file); [|done].
    by rewrite Hm, Hact.
Qed.
End Models.

(** ** Reviews *)
Section Reviews.
Context `{Nlohmann}.
Variable h : Host.

(** the status, the note and the excluded frames a request gives *)
Definition gives (input : JsonValue) (status note : string) (frames : list JsonValue) : Prop :=
  value_string "status" "" input = Returns status /\ value_string "note" "" input = Returns note /\
  value_json "excluded_frames" (J_array []) input = Returns (J_array frames).

(** a review that passed every check, and is the one the request gives *)
Record accepted (input : JsonValue) (now : Z) (relative : string) (review : JsonValue) : Prop := {
  accepted_path : value_string "path" "" input = Returns relative /\ plain_path relative = true;
  accepted_dataset : exists root dataset t, weakly_canonical h (project_text h "datasets") = Done root /\
    weakly_canonical h (project_text h relative) = Done dataset /\ on_disk h dataset = Some t /\
    is_directory t = true /\ below_root root dataset = true;
  accepted_review : exists status note frames, review = review_json relative status note (J_array frames) (utc_timestamp now) /\
    status ∈ review_statuses /\ (String.length note <= 2000)%nat /\ Z.of_nat (List.length frames) <= 10000 /\
    forallb frame_index frames = true /\ gives input status note frames }.

Lemma reviewed_accepted input now relative review :
  reviewed h input now = Done (inr (relative, review)) -> accepted input now relative review.
Proof.
  unfold reviewed. intros E. apply rbind_done in E as (p & Ep%json_done & E).
  apply rbind_done in E as (status & Es%json_done & E). apply rbind_done in E as (note & En%json_done & E).
  destruct (plain_path p) eqn:Hp; cbn [negb] in E; [|done].
  destruct (str_in status review_statuses) eqn:Hst; cbn [negb] in E; [|done]. apply str_in_spec in Hst.
  destruct (Nat.ltb_spec 2000 (String.length note)) as [|Hn]; [done|].
  apply rbind_done in E as (root & Hr & E). apply rbind_done in E as (dataset & Hd & E).
  destruct (on_disk h dataset) as [t|] eqn:Ht; [|done].
  destruct (is_directory t) eqn:Hdir; cbn [negb orb] in E; [|done].
  destruct (below_root root dataset) eqn:Hb; cbn [negb] in E; [|done].
  apply rbind_done in E as (frames & Ef%json_done & E). destruct frames as [| | | | |frames|]; try done.
  destruct (10000 <? _) eqn:Hl; [done|]. apply Z.ltb_ge in Hl.
  destruct (forallb frame_index frames) eqn:Hi; cbn [negb] in E; [|done].
  injection E as <- <-. constructor; [done|by exists root, dataset, t|].
  by exists status, note, frames.
Qed.

Lemma underscored_no_slash s : str_has "/" (underscored s) = false.
Proof.
  unfold underscored. induction s as [|c s IH]; [done|]. cbn [map_chars str_has].
  rewrite IH, orb_false_r. destruct (Ascii.eqb c "/") eqn:E; [done|]. by rewrite Ascii.eqb_sym.
Qed.
Lemma review_name_no_slash s : str_has "/" (review_name s) = false.
Proof.
  unfold review_name. pose proof (underscored_no_slash s) as Hs. revert Hs.
  generalize (underscored s). intros t. induction t as [|c t IH]; [done|].
  rewrite append_cons. cbn [str_has]. intros [Hc Ht]%orb_false_iff. by rewrite Hc, IH.
Qed.

(** the answers to a review, by what was done *)
Lemma dataset_review_cases d now body :
  (snd (dataset_review h d now body) = [] /\
   forall r, fst (dataset_review h d now body) = Done r -> Http.status r <> 200) \/
  exists input relative review, parse body = Returns input /\ accepted input now relative review /\
    exists text written, let directory := project_root_ h ++ reviews in
      snd (dataset_review h d now body) =
        CreateDirectories directory :: WriteFile (directory ++ [(review_name relative ++ ".partial")%string]) text :: written /\
      ((written = [] /\ exists e, fst (dataset_review h d now body) = Raised e) \/
       (written = [Rename (directory ++ [(review_name relative ++ ".partial")%string]) (directory ++ [review_name relative])] /\
        fst (dataset_review h d now body) = document review /\
        exists printed, dump_indent 2 review = Returns printed /\ text = (printed ++ newline)%string)).
Proof.
  unfold dataset_review. destruct (parse body) as [input|e] eqn:Ep; [|left; split; [done|by intros r [= <-]]].
  destruct (negb (is_object input)); [left; split; [done|by intros r [= <-]]|].
  destruct (reviewed h input now) as [[refusal|[relative review]]|e] eqn:Er; [| |by left].
  - left. split; [done|]. intros r [= <-]. revert Er. unfold reviewed.
    intros E. apply rbind_done in E as (p & _ & E). apply rbind_done in E as (? & _ & E).
    apply rbind_done in E as (? & _ & E).
    destruct (negb (plain_path _)); [by injection E as <-|]. destruct (negb (str_in _ _)); [by injection E as <-|].
    destruct (_ <? _)%nat; [by injection E as <-|].
    apply rbind_done in E as (? & _ & E). apply rbind_done in E as (? & _ & E).
    destruct (on_disk h _); [|by injection E as <-]. destruct (_ || _); [by injection E as <-|].
    apply rbind_done in E as (frames & _ & E).
    destruct frames; try (by injection E as <-). destruct (_ <? _); [by injection E as <-|].
    destruct (negb _); [by injection E as <-|done].
  - destruct (creates d); cbn [negb fst snd]; [|by left].
    right. exists input, relative, review. split; [done|]. split; [by apply reviewed_accepted|].
    destruct (dump_indent 2 review) as [text|e] eqn:Ed; cbn [fst snd].
    + exists (text ++ newline)%string.
      destruct (renames d); cbn [negb fst snd].
      * eexists. split; [reflexivity|]. right. split; [done|]. split; [done|]. by exists text.
      * exists []. split; [done|]. left. split; [done|]. by eexists.
    + exists ""%string, []. split; [done|]. left. split; [done|]. by eexists.
Qed.

(** C35: A review writes only to its own file below [run/ops/dataset-reviews], through a
    temporary file next to it, and only when it names a directory below
    [datasets/], with a known status, a note of at most 2000 bytes and at most
    10000 non-negative frame indexes. *)
Theorem reviews_stay_in_their_directory d now body e :
  e ∈ snd (dataset_review h d now body) ->
  exists input relative review, parse body = Returns input /\ accepted input now relative review /\
    let directory := project_root_ h ++ reviews in
    let target := directory ++ [review_name relative] in
    let temporary := directory ++ [(review_name relative ++ ".partial")%string] in
    str_has "/" (review_name relative) = false /\
    (e = CreateDirectories directory \/ (exists text, e = WriteFile temporary text) \/ e = Rename temporary target).
Proof.
  intros He. destruct (dataset_review_cases d now body) as [[E _]|(input & relative & review & Hp & Ha & text & written & E & Hw)].
  { rewrite E in He. by apply elem_of_nil in He. }
  exists input, relative, review. do 2 (split; [done|]). split; [apply review_name_no_slash|].
  rewrite E in He. apply elem_of_cons in He as [->|He]; [by left|].
  apply elem_of_cons in He as [->|He]; [right; left; by eexists|].
  destruct Hw as [[-> _]|[-> _]]; [by apply elem_of_nil in He|]. apply list_elem_of_singleton in He as ->. by right; right.
Qed.
End Reviews.

(** *** What the description of a data set shows of a review *)
Section Descriptions.
Context `{NlohmannRoundTrip}.

Lemma well_formed_member key v x : well_formed v = true -> member key v = Some x -> well_formed x = true.
Proof.
  destruct v as [| | | | | |members]; try done. cbn [well_formed member]. intros [_ Hm]%andb_true_iff.
  revert Hm. induction members as [|[k y] r IH]; [done|]. cbn [forallb find_member snd].
  intros [Hy Hr]%andb_true_iff. destruct (str_eqb k key); [by intros [= <-]|]. by apply IH.
Qed.

Lemma accepted_well_formed h input now relative review :
  accepted h input now relative review -> well_formed input = true -> well_formed review = true.
Proof.
  intros [_ _ (status & note & frames & -> & _ & _ & _ & _ & _ & _ & Hm)] Hw.
  assert (well_formed (J_array frames) = true) as Hf.
  { unfold value_json, value, get_json in Hm. destruct input as [| | | | | |members]; try done.
    destruct (find_member _ members) eqn:E; [injection Hm as ->|by injection Hm as <-]. by eapply well_formed_member. }
  unfold review_json. cbn [well_formed] in *. rewrite andb_true_iff. split; [by vm_compute|].
  cbn [forallb snd well_formed]. by rewrite Hf.
Qed.

Lemma member_with_document key key' failed t v : key <> key' -> key <> failed -> is_object v = true ->
  member key (with_document key' failed t v) = member key v.
Proof.
  intros H1' H2' Hv. unfold with_document. destruct t as [t|]; [|done].
  destruct (parse_file t); by apply member_set_other.
Qed.
Lemma with_document_object key failed t v : is_object v = true -> is_object (with_document key failed t v) = true.
Proof. intros Hv. unfold with_document. destruct t as [t|]; [|done]. destruct (parse_file t); apply is_object_set. Qed.

(** the review that is shown is what the file holds *)
Lemma detail_shows h relative dataset t file text shown v :
  in_project h (reviews ++ [review_name relative]) = Some file -> text_of file = Some text -> parse text = Returns shown ->
  detail_json h relative dataset t = Done v -> member "review" v = Some shown.
Proof.
  intros Hf Ht Hp. unfold detail_json. destruct (directory_bytes t) as [bytes files].
  intros E. apply rbind_done in E as (listed & _ & E). apply done_inj in E. subst v. cbv zeta.
  rewrite member_with_document; [|done|done|by apply with_document_object].
  rewrite Hf. unfold with_document, parse_file. rewrite Ht, Hp. apply member_set.
Qed.

(** the text a review that succeeded leaves at its path is read back as the review *)
Lemma review_reads_back h d now body input p r directory temporary text target :
  parse body = Returns input -> well_formed input = true -> value_string "path" "" input = Returns p ->
  dataset_review h d now body = (Done r, [CreateDirectories directory; WriteFile temporary text; Rename temporary target]) ->
  target = project_root_ h ++ reviews ++ [review_name p] /\
  exists review shown, accepted h input now p review /\ parse text = Returns shown /\ same review shown.
Proof.
  intros Hp Hw Hpath E.
  destruct (dataset_review_cases h d now body) as [[E' _]|(i & q & review & Hp' & Ha & t & written & E' & Hwr)];
    rewrite E in E'; cbn [fst snd] in E'; [done|]. rewrite E in Hwr. cbn [fst snd] in Hwr.
  rewrite Hp in Hp'. injection Hp' as <-. injection E' as -> -> -> E'.
  destruct (accepted_path _ _ _ _ _ Ha) as [Hq _]. rewrite Hpath in Hq. injection Hq as ->.
  destruct Hwr as [[-> _]|(-> & _ & printed & Hd & ->)]; [done|]. injection E' as ->.
  split; [by rewrite <- app_assoc|].
  destruct (reads_back 2 review printed (accepted_well_formed _ _ _ _ _ Ha Hw) Hd) as (shown & Hs & Hsame).
  by exists review, shown.
Qed.

(** C36: A review is found again: on a disk that has the text that a successful review wrote
    at the path it was renamed to, the description of the data set shows a review
    with the path, the status, the note and the excluded frames that the request
    gave, and the time it was given. *)
Theorem reviews_are_shown h d now body input p r directory temporary text target h' file dataset t v :
  parse body = Returns input -> well_formed input = true -> value_string "path" "" input = Returns p ->
  dataset_review h d now body = (Done r, [CreateDirectories directory; WriteFile temporary text; Rename temporary target]) ->
  project_root_ h' = project_root_ h -> on_disk h' target = Some file -> text_of file = Some text ->
  detail_json h' p dataset t = Done v ->
  exists status note frames shown, gives input status note frames /\ member "review" v = Some shown /\
    same (review_json p status note (J_array frames) (utc_timestamp now)) shown.
Proof.
  intros Hp Hw Hpath E Hr Hf Ht Hv.
  destruct (review_reads_back h d now body input p r _ _ _ _ Hp Hw Hpath E) as (-> & review & shown & Ha & Hs & Hsame).
  destruct (accepted_review _ _ _ _ _ Ha) as (status & note & frames & -> & _ & _ & _ & _ & Hg).
  exists status, note, frames, shown. rewrite <- Hr in Hf. split; [done|split; [|done]].
  by apply (detail_shows h' p dataset t file text shown v Hf Ht Hs Hv).
Qed.

(** The file of a review is named by the path with every slash replaced: a review of
    one data set is shown as that of every other whose path becomes the same
    name, and the next review of the other replaces it. *)
Theorem reviews_of_other_datasets_are_shown h d now body input p q r directory temporary text target h' file dataset t v :
  parse body = Returns input -> well_formed input = true -> value_string "path" "" input = Returns p ->
  dataset_review h d now body = (Done r, [CreateDirectories directory; WriteFile temporary text; Rename temporary target]) ->
  project_root_ h' = project_root_ h -> on_disk h' target = Some file -> text_of file = Some text ->
  p <> q -> underscored q = underscored p -> detail_json h' q dataset t = Done v ->
  exists shown, member "review" v = Some shown /\ member "path" shown = Some (J_string p).
Proof.
  intros Hp Hw Hpath E Hr Hf Ht _ Hq Hv.
  destruct (review_reads_back h d now body input p r _ _ _ _ Hp Hw Hpath E) as (-> & review & shown & Ha & Hs & Hsame).
  exists shown. rewrite <- Hr in Hf. assert (review_name q = review_name p) as Hn by (unfold review_name; by rewrite Hq).
  rewrite <- Hn in Hf. split; [by apply (detail_shows h' q dataset t file text shown v Hf Ht Hs Hv)|].
  apply (same_string _ _ _ _ Hsame).
  destruct (accepted_review _ _ _ _ _ Ha) as (status & note & frames & -> & _). done.
Qed.
End Descriptions.

(** ** Paths below a directory *)
Definition component (name : string) : Prop := name <> ""%string /\ str_has "/" name = false.

Lemma path_text_cons name p : path_text (name :: p) = ("/" ++ name ++ path_text p)%string.
Proof.
  unfold path_text. destruct p as [|x p]; cbn [map String.concat].
  - assert (name ++ "" = name)%string as ->; [|done]. induction name as [|c r IH]; [done|]. by rewrite append_cons, IH.
  - by rewrite string_app_assoc.
Qed.
Lemma path_text_app p q : path_text (p ++ q) = (path_text p ++ path_text q)%string.
Proof.
  induction p as [|name p IH]; [done|]. cbn [app]. by rewrite !path_text_cons, IH, !string_app_assoc.
Qed.

(** names without a slash, each followed by one or by the end *)
Lemma prefix_names x y a b : str_has "/" x = false -> str_has "/" y = false ->
  (b = ""%string \/ exists b', b = String "/" b') ->
  str_prefix (x ++ String "/" a) (y ++ b) = true -> x = y /\ str_prefix (String "/" a) b = true.
Proof.
  revert y; induction x as [|c x IH]; intros [|d y] Hx Hy Hb Hp.
  - done.
  - change (str_prefix (String "/" a) (String d (y ++ b)) = true) in Hp.
    cbn [str_has str_prefix] in *. apply orb_false_iff in Hy as [Hy _]. by rewrite Hy in Hp.
  - change (str_prefix (String c (x ++ String "/" a)) b = true) in Hp. destruct Hb as [->|[b' ->]]; [done|].
    cbn [str_has str_prefix] in *. apply orb_false_iff in Hx as [Hx _]. rewrite Ascii.eqb_sym in Hp. by rewrite Hx in Hp.
  - change (str_prefix (String c (x ++ String "/" a)) (String d (y ++ b)) = true) in Hp.
    cbn [str_has str_prefix] in *. apply orb_false_iff in Hx as [_ Hx], Hy as [_ Hy].
    apply andb_true_iff in Hp as [Hc%Ascii.eqb_eq Hp]. destruct (IH y Hx Hy Hb Hp) as [-> Hr]. by rewrite Hc.
Qed.

Lemma path_text_slash p : path_text p = ""%string \/ exists t, path_text p = String "/" t.
Proof. destruct p as [|name p]; [by left|right]. rewrite path_text_cons. by eexists. Qed.

Lemma below_root_spec parent child : Forall component parent -> Forall component child ->
  below_root parent child = true -> exists rest, rest <> [] /\ child = parent ++ rest.
Proof.
  unfold below_root. intros Hp. revert child; induction Hp as [|x p [_ Hx] _ IH]; intros child Hc Hb.
  - exists child. split; [|done]. intros ->. vm_compute in Hb. done.
  - destruct Hc as [|y q [_ Hy] Hq]; [rewrite path_text_cons in Hb; discriminate Hb|]. rewrite !path_text_cons, !string_app_assoc in Hb.
    change (str_prefix (x ++ (path_text p ++ "/")) (y ++ path_text q) = true) in Hb.
    assert (exists a, path_text p ++ "/" = String "/" a)%string as [a Ea].
    { destruct (path_text_slash p) as [->|[t ->]]; eexists; reflexivity. }
    rewrite Ea in Hb. apply prefix_names in Hb as [-> Hb]; [|done|done|apply path_text_slash].
    rewrite <- Ea in Hb. destruct (IH q Hq Hb) as (rest & Hn & ->). by exists rest.
Qed.

Section Answers.
Context `{Nlohmann}.
Variable h : Host.
(** canonical paths have names without a slash *)
Hypothesis canonical_names : forall text p, weakly_canonical h text = Done p -> Forall component p.

(** A download that succeeds answers the bytes of a regular file of the name
    [.zip], at most 512 MiB, that lies below the canonical [run/ops/exports],
    wherever the links of the requested name lead. *)
Theorem downloads_are_exports name r : dataset_download h name = Done r -> Http.status r = 200 ->
  exists root rest t text, weakly_canonical h (project_text h "run/ops/exports") = Done root /\ rest <> [] /\
    on_disk h (root ++ rest) = Some t /\ is_regular_file t = true /\ text_of t = Some text /\
    extension (List.last (root ++ rest) ""%string) = ".zip"%string /\ file_size t <= largest_download /\
    Http.content r = text.
Proof.
  unfold dataset_download. destruct (valid_archive name); cbn [negb]; [|by intros [= <-]].
  intros E Hs. apply rbind_done in E as (root & Hr & E). apply rbind_done in E as (archive & Ha & E). cbv zeta in E.
  destruct (on_disk h archive) as [t|] eqn:Ht; [|by injection E as <-].
  destruct (is_regular_file t) eqn:Hf; cbn [negb orb] in E; [|by injection E as <-].
  destruct (str_eqb _ ".zip") eqn:Hz; cbn [negb orb] in E; [|by injection E as <-]. apply str_eqb_spec in Hz.
  destruct (below_root root archive) eqn:Hb; cbn [negb] in E; [|by injection E as <-].
  destruct (largest_download <? file_size t) eqn:Hl; [by injection E as <-|]. apply Z.ltb_ge in Hl.
  destruct (text_of t) as [text|] eqn:Hx; [|done]. injection E as <-.
  apply below_root_spec in Hb as (rest & Hn & ->); [|by eapply canonical_names..].
  by exists root, rest, t, text.
Qed.

(** *** Sizes *)
Definition total_of (l : list (path * Tree)) : Z := fold_left (fun total e => total + file_size (snd e)) l 0.

Lemma fold_total l z : fold_left (fun total (e : path * Tree) => total + file_size (snd e)) l z = z + total_of l.
Proof.
  unfold total_of. revert z; induction l as [|e l IH]; intros z; cbn [fold_left]; [lia|].
  rewrite IH, (IH (0 + _)). lia.
Qed.
Lemma total_nonneg l : (forall e, e ∈ l -> 0 <= file_size (snd e)) -> 0 <= total_of l.
Proof.
  unfold total_of. induction l as [|e l IH]; intros Hl; cbn [fold_left]; [done|]. rewrite fold_total.
  pose proof (Hl e ltac:(left)). assert (0 <= total_of l); [|lia]. apply IH. intros x Hx. apply Hl. by right.
Qed.

Lemma fold_wrapped l a n :
  (forall e, e ∈ l -> 0 <= file_size (snd e)) -> 0 <= a -> 0 <= n ->
  a + total_of l < 2 ^ 64 -> n + Z.of_nat (List.length l) < 2 ^ 64 ->
  fold_left (fun '(total, files) (e : path * Tree) => (wrap64 (total + file_size (snd e)), wrap64 (files + 1))) l (a, n)
  = (a + total_of l, n + Z.of_nat (List.length l)).
Proof.
  revert a n; induction l as [|e l IH]; intros a n Hl Ha Hn Ht Hc.
  - unfold total_of. cbn. f_equal; lia.
  - cbn [fold_left List.length] in *. unfold total_of in *. cbn [fold_left] in *. rewrite fold_total in *.
    pose proof (Hl e ltac:(left)) as He.
    assert (forall x, x ∈ l -> 0 <= file_size (snd x)) as Hl' by (intros x Hx; apply Hl; by right).
    pose proof (total_nonneg l Hl') as Hnn.
    unfold wrap64. rewrite !wrap_small by lia. rewrite IH by (done || lia).
    unfold total_of. f_equal; lia.
Qed.

Definition json_bytes (v : JsonValue) : Z := match member "bytes" v with Some (J_integer z) => z | _ => 0 end.
Lemma listed_sizes dataset l listed : rmap (file_item h dataset) l = Done listed ->
  List.length listed = List.length l /\ fold_left (fun total v => total + json_bytes v) listed 0 = total_of l.
Proof.
  intros Hl%rmap_done. unfold total_of. generalize 0.
  induction Hl as [|e v l listed Hv _ IH]; intros z; [done|]. cbn [List.length fold_left].
  unfold file_item in Hv. apply rbind_done in Hv as (shown & _ & Hv). injection Hv as <-.
  destruct (IH (z + json_bytes (J_object [("path", J_string (generic_string shown)); ("bytes", J_integer (file_size (snd e)))]%string)))
    as [-> ->]. done.
Qed.

(** The description of a data set is consistent: [file_count] is the number of the
    files it lists and [bytes] the sum of their sizes, the numbers
    [directory_bytes] computes for the catalogue too, as long as they fit 64 bits. *)
Theorem described_sizes_agree relative dataset t v :
  (forall e, e ∈ regular_entries t -> 0 <= file_size (snd e)) ->
  total_of (regular_entries t) < 2 ^ 64 -> Z.of_nat (List.length (regular_entries t)) < 2 ^ 64 ->
  detail_json h relative dataset t = Done v ->
  exists listed, member "files" v = Some (J_array listed) /\
    member "file_count" v = Some (J_integer (Z.of_nat (List.length listed))) /\
    member "bytes" v = Some (J_integer (fold_left (fun total x => total + json_bytes x) listed 0)) /\
    directory_bytes t = (fold_left (fun total x => total + json_bytes x) listed 0, Z.of_nat (List.length listed)).
Proof.
  intros Hs Ht Hc. unfold detail_json.
  assert (directory_bytes t = (total_of (regular_entries t), Z.of_nat (List.length (regular_entries t)))) as Hd
    by (unfold directory_bytes; rewrite fold_wrapped by (done || lia); f_equal; lia).
  rewrite Hd. intros E. apply rbind_done in E as (listed & Hl & E). apply done_inj in E. subst v.
  destruct (listed_sizes _ _ _ Hl) as [En Et]. exists listed. rewrite Et, En.
  rewrite !member_with_document by (done || by apply with_document_object). done.
Qed.

(** The catalogue protects exactly the episode that is being recorded. *)
Theorem catalogue_protects_the_recording s category name t : name <> ""%string ->
  member "protected" (dataset_item category (active_episode s) name t) = Some (J_bool true) <->
  category = "episodes"%string /\
  exists m, message (episode_ s) = Some m /\ EpisodeState.state m = EpisodeState.STATE_RECORDING /\ EpisodeState.episode_id m = name.
Proof.
  intros Hn. unfold dataset_item. destruct (directory_bytes t) as [bytes files]. cbv zeta.
  assert (forall item f, is_object item = true -> member "protected" (manifest_member f item) = member "protected" item /\
    is_object (manifest_member f item) = true) as Hm.
  { intros item f Hi. unfold manifest_member. destruct f as [f|]; [|done].
    destruct (parse_file f); (split; [by apply member_set_other|apply is_object_set]). }
  match goal with |- context [manifest_member ?f ?x] => destruct (Hm x f eq_refl) as [E1 E2]; set (item := manifest_member f x) in * end.
  assert (forall key x, key <> "protected"%string -> member "protected" (set key x item) = member "protected" item) as Ho
    by (intros key x Hk; apply member_set_other; [by intros <-|done]).
  transitivity (member "protected" item = Some (J_bool true)).
  { destruct (str_eqb category "episodes"); [|destruct (str_eqb category "exports")];
      rewrite !member_set_other by (done || apply is_object_set); done. }
  rewrite E1. transitivity (str_eqb category "episodes" && str_eqb name (active_episode s) = true).
  { cbn [member find_member]. cbn. split; [by intros [= ->]|by intros ->]. }
  rewrite andb_true_iff, !str_eqb_spec. unfold active_episode. split; (intros [Hc Hx]; split; [done|]).
  - destruct (message (episode_ s)) as [m|]; [|done]. exists m.
    destruct (Z.eqb_spec (EpisodeState.state m) EpisodeState.STATE_RECORDING); [done|]. by subst.
  - destruct Hx as (m & -> & Hst & <-). by rewrite Hst, Z.eqb_refl.
Qed.
End Answers.

(** ** A disk to look at *)
Module Shelf.
Definition review_input : JsonValue :=
  J_object [("path", J_string "datasets/a/b"); ("status", J_string "accepted"); ("excluded_frames", J_array [J_integer 4])]%string.
Definition review : JsonValue := review_json "datasets/a/b" "accepted" "" (J_array [J_integer 4]) (utc_timestamp 1735689600).
Definition plain_manifest : JsonValue := J_object [("action", J_object [("schema", J_string "twist")])]%string.
Definition foreign_manifest : JsonValue := J_object [("inference", J_object [("backend", J_string "tensorrt")])]%string.
Definition plugin : JsonValue :=
  J_object [("plugin_id", J_string "diff"); ("accepts", J_array [J_object [("schema", J_string "twist")]])]%string.
#[local] Instance nlohmann_shelf : Nlohmann := {|
  dump _ := Returns "{}"%string;
  dump_indent _ v := if json_eqb v review then Returns "R"%string else Throws "type_error";
  parse t := if str_eqb t ("R" ++ newline) then Returns review
    else if str_eqb t "review" then Returns review_input else if str_eqb t "plain" then Returns plain_manifest
    else if str_eqb t "foreign" then Returns foreign_manifest else if str_eqb t "plugin" then Returns plugin
    else Throws "parse_error";
  get_int v := match v with J_integer z => Returns z | _ => type_error end; get_uint32 _ := type_error; get_uint64 _ := type_error; get_float _ := type_error;
  get_double _ := type_error |}.
#[local] Instance nlohmann_shelf_reads_back : NlohmannRoundTrip.
Proof.
  split; [|done]. intros n v text _ E. cbn [dump_indent nlohmann_shelf] in E.
  destruct (json_eqb v review) eqn:E1; [|discriminate]. injection E as <-. apply json_eqb_eq in E1 as ->.
  exists review. split; [reflexivity|apply same_refl].
Defined.

Definition file (text : string) : Tree := RegularFile 0 (Z.of_nat (String.length text)) (Some text).
Definition folder : list (string * Tree) -> Tree := Folder 0.
Definition model (text : string) : Tree := folder [("vehicle_model_manifest.json"%string, file text)].
Definition episode_b : Tree := folder [("frames.jsonl", file "1"); ("x", folder [("y", file "22")])]%string.
Definition project (reviews_ : list (string * Tree)) : Tree :=
  folder [("datasets", folder [("a", folder [("b", episode_b)]); ("a_b", folder [])]);
    ("run", folder [("ops", folder [("exports", folder [("e.zip", file "zip")]); ("dataset-reviews", folder reviews_)]);
      ("models", folder [("providers", folder [("smolvla", folder [("v1", model "plain"); ("v2", model "foreign")])])]);
      ("config", folder [("mobility.json", file "plugin")])])]%string.
(** the canonical paths of this disk *)
Definition names : list (string * path) :=
  [("/srv/datasets", ["srv"; "datasets"]); ("/srv/datasets/a/b", ["srv"; "datasets"; "a"; "b"]);
   ("/srv/datasets/a/b/frames.jsonl", ["srv"; "datasets"; "a"; "b"; "frames.jsonl"]);
   ("/srv/datasets/a/b/x/y", ["srv"; "datasets"; "a"; "b"; "x"; "y"]); ("/srv/datasets/a_b", ["srv"; "datasets"; "a_b"]);
   ("/srv/run/ops/exports", ["srv"; "run"; "ops"; "exports"]);
   ("/srv/run/ops/exports/e.zip", ["srv"; "run"; "ops"; "exports"; "e.zip"])]%string.
Fixpoint canonical_in (l : list (string * path)) (text : string) : Result path :=
  match l with
  | [] => Raised (RuntimeError "filesystem error")
  | (t, p) :: r => if str_eqb t text then Done p else canonical_in r text
  end.
Definition host (reviews_ : list (string * Tree)) : Host :=
  MakeHost (folder [("srv"%string, project reviews_)]) ["srv"%string] (canonical_in names).
Definition before : Host := host [].
Definition after : Host := host [("datasets_a_b.json"%string, file ("R" ++ newline))].
Definition disk : Disk := MakeDisk true true.

Lemma canonical_in_names l text p : canonical_in l text = Done p -> In p (map snd l).
Proof.
  induction l as [|[t q] l IH]; cbn [canonical_in]; [done|].
  destruct (str_eqb t text); [intros E%done_inj; by left|]. intros E. right. by apply IH.
Qed.
Definition named (name : string) : bool := negb (str_empty name) && negb (str_has "/" name).
Lemma shelf_names text p : weakly_canonical before text = Done p -> Forall component p.
Proof.
  intros Hp. change (canonical_in names text = Done p) in Hp. apply canonical_in_names in Hp.
  assert (forallb (forallb named) (map snd names) = true) as Hn by (vm_compute; reflexivity).
  rewrite forallb_forall in Hn. specialize (Hn p Hp). rewrite forallb_forall in Hn.
  apply Forall_forall. intros name Hi%list_elem_of_In%Hn. apply andb_true_iff in Hi as [He Hs].
  split; [by intros ->|by apply negb_true_iff].
Qed.

Definition files : ModelFiles :=
  MakeFiles (fun v => match in_project before (registry ++ [v; "vehicle_model_manifest.json"%string]) with
                      | Some t => if is_regular_file t then Some (read_json_file t) else None
                      | None => None
                      end)
    (Some (Done plugin)) (Done []).
Lemma files_agree : agrees before (fun l => l) files.
Proof. by split. Qed.

Definition item (v manifest : string) : JsonValue :=
  match model_item before [] plugin "diff" ["srv"; v]%string v true (model manifest) with Done x => x | Raised _ => J_null end.
Lemma catalogue_promises_hold_witness :
  allowed (item "v1" "plain") /\ activation_gate files (activation_request "v1") = Done None.
Proof.
  assert (allowed (item "v1" "plain")) as Ha by (eexists; split; vm_compute; reflexivity).
  split; [exact Ha|].
  exact (catalogue_promises_hold before (fun l => l) files "v1" (model "plain") ["srv"; "v1"]%string [] plugin "diff" _
    files_agree eq_refl ltac:(done) eq_refl eq_refl eq_refl eq_refl Ha).
Defined.

Lemma gate_ignores_the_backend_witness :
  ~ allowed (item "v2" "foreign") /\ activation_gate files (activation_request "v2") = Done None.
Proof.
  exact (gate_ignores_the_backend before (fun l => l) files "v2" (model "foreign") ["srv"; "v2"]%string [] plugin "diff" _
    (file "foreign") foreign_manifest "tensorrt" files_agree eq_refl ltac:(done) eq_refl eq_refl eq_refl eq_refl eq_refl
    eq_refl ltac:(done) eq_refl).
Defined.

Lemma reviews_stay_in_their_directory_witness :
  List.length (snd (dataset_review before disk 1735689600 "review")) = 3%nat /\
  exists relative, str_has "/" (review_name relative) = false.
Proof.
  split; [vm_compute; reflexivity|].
  destruct (reviews_stay_in_their_directory before disk 1735689600 "review" (CreateDirectories ["srv"; "run"; "ops"; "dataset-reviews"]%string))
    as (input & relative & r & _ & _ & Hn & _); [left|]. by exists relative.
Defined.

Definition review_directory : path := ["srv"; "run"; "ops"; "dataset-reviews"]%string.
Lemma shelf_reviewed :
  exists r, dataset_review before disk 1735689600 "review" = (Done r,
    [CreateDirectories review_directory; WriteFile (review_directory ++ ["datasets_a_b.json.partial"%string]) ("R" ++ newline);
     Rename (review_directory ++ ["datasets_a_b.json.partial"%string]) (review_directory ++ ["datasets_a_b.json"%string])]).
Proof. eexists. vm_compute. reflexivity. Qed.

Definition detail (relative : string) (dataset : path) (t : Tree) : JsonValue :=
  match detail_json after relative dataset t with Done v => v | Raised _ => J_null end.
Lemma reviews_are_shown_witness :
  exists shown, member "review" (detail "datasets/a/b" ["srv"; "datasets"; "a"; "b"]%string episode_b) = Some shown /\
    member "status" shown = Some (J_string "accepted").
Proof.
  destruct shelf_reviewed as [r Hr].
  destruct (@reviews_are_shown nlohmann_shelf nlohmann_shelf_reads_back before disk 1735689600 "review" review_input "datasets/a/b" r _ _ _ _ after (file ("R" ++ newline))
    ["srv"; "datasets"; "a"; "b"]%string episode_b (detail "datasets/a/b" ["srv"; "datasets"; "a"; "b"]%string episode_b)
    eq_refl eq_refl eq_refl Hr eq_refl eq_refl eq_refl ltac:(vm_compute; reflexivity)) as (status & note & frames & shown & (Hg & _) & Hs & Hsame).
  exists shown. split; [exact Hs|]. injection Hg as <-. by apply (same_string _ _ _ _ Hsame).
Defined.

Lemma reviews_of_other_datasets_are_shown_witness :
  exists shown, member "review" (detail "datasets/a_b" ["srv"; "datasets"; "a_b"]%string (folder [])) = Some shown /\
    member "path" shown = Some (J_string "datasets/a/b").
Proof.
  destruct shelf_reviewed as [r Hr].
  exact (@reviews_of_other_datasets_are_shown nlohmann_shelf nlohmann_shelf_reads_back before disk 1735689600 "review" review_input "datasets/a/b" "datasets/a_b" r _ _ _ _ after
    (file ("R" ++ newline)) ["srv"; "datasets"; "a_b"]%string (folder [])
    (detail "datasets/a_b" ["srv"; "datasets"; "a_b"]%string (folder []))
    eq_refl eq_refl eq_refl Hr eq_refl eq_refl eq_refl ltac:(done) eq_refl ltac:(vm_compute; reflexivity)).
Defined.

Lemma downloads_are_exports_witness :
  exists t, on_disk before ["srv"; "run"; "ops"; "exports"; "e.zip"]%string = Some t /\ text_of t = Some "zip"%string.
Proof.
  assert (exists r, dataset_download before "e.zip" = Done r /\ Http.status r = 200 /\ Http.content r = "zip"%string) as (r & Hr & Hs & Hc)
    by (eexists; split; [vm_compute; reflexivity|split; reflexivity]).
  destruct (downloads_are_exports before shelf_names "e.zip" r Hr Hs) as (root & rest & t & text & Ht & _ & _ & _ & Hx & _ & _ & <-).
  exists (file "zip"). split; reflexivity.
Defined.

Lemma described_sizes_agree_witness :
  directory_bytes episode_b = (3, 2) /\
  exists listed, member "files" (detail "datasets/a/b" ["srv"; "datasets"; "a"; "b"]%string episode_b) = Some (J_array listed).
Proof.
  split; [vm_compute; reflexivity|].
  destruct (described_sizes_agree after "datasets/a/b" ["srv"; "datasets"; "a"; "b"]%string episode_b
    (detail "datasets/a/b" ["srv"; "datasets"; "a"; "b"]%string episode_b)) as (listed & Hl & _).
  - intros e He. assert (forallb (fun e => 0 <=? file_size (snd e)) (regular_entries episode_b) = true) as Hf by (vm_compute; reflexivity).
    rewrite forallb_forall in Hf. apply Z.leb_le, Hf. by apply list_elem_of_In.
  - reflexivity.
  - reflexivity.
  - vm_compute. reflexivity.
  - by exists listed.
Defined.

Lemma catalogue_protects_the_recording_witness :
  member "protected" (dataset_item "episodes" (active_episode initial) "e1" episode_b) <> Some (J_bool true).
Proof.
  intros Hp. destruct (proj1 (catalogue_protects_the_recording initial "episodes" "e1" episode_b ltac:(done)) Hp)
    as (_ & m & Hm & _). discriminate Hm.
Defined.
End Shelf.
