(* ===== verification/OpsStatus.v ===== *)
(** * The status page and the parameters of the operations service

    Models [status_json], [host_metrics] and the functions they call, and what
    the constructor of [VehicleOpsApi] makes of the parameters
    ([vehicle_ops_api_node.cpp]).

    The files of [/proc] and [/sys] are texts, absent when they cannot be
    opened; what is extracted from them follows the formatted input of the C++
    library.  The page is a text, built piece by piece as the code does. *)
From S2P Require Import Prelude Floats Messages VlaDebug JsonData Json Text Numbers Http OpsApi OpsServices.
Local Open Scope Z_scope.
Local Open Scope result_scope.

(** ** Formatted input *)

(** [operator>>] to a [std::string]: the word and what follows it *)
Definition extract_word (s : string) : string * string :=
  let s := skip_spaces s in
  let word := take_while (fun c => negb (is_space c)) s in (word, str_drop (String.length word) s).

(** [operator>>] to a [std::uint64_t]: the value and what follows it, [None]
    when the extraction fails without a number; one that does not fit gives the
    largest value and fails too *)
Inductive Extracted := Value (n : Z) (rest : string) | Overflow | NoNumber.
Definition extract_uint64 (s : string) : Extracted :=
  let '(negative, r) := strip_sign (skip_spaces s) in
  let digits := take_while is_digit r in
  if str_empty digits then NoNumber
  else
    let n := digits_value digits 0 in
    if n <? 2 ^ 64 then Value (wrap64 (if negative then - n else n)) (str_drop (String.length digits) r) else Overflow.
(** [count] numbers in a row: those after a failure keep their 0 *)
Fixpoint extract_uint64s (count : nat) (s : string) : list Z :=
  match count with
  | O => []
  | S k => match extract_uint64 s with
           | Value n rest => n :: extract_uint64s k rest
           | Overflow => (2 ^ 64 - 1) :: repeat 0 k
           | NoNumber => repeat 0 (S k)
           end
  end.

(** [operator>>] to a [double], 0 when it fails: the characters of a number are
    collected, and all of them have to be one *)
Definition largest_double (negative : bool) : double := S754_finite negative (2 ^ 53 - 1) 971.
Definition extract_double (s : string) : double :=
  let '(negative, r) := strip_sign (skip_spaces s) in
  let whole := take_while is_digit r in
  let r := str_drop (String.length whole) r in
  let '(fraction, r) :=
    match r with
    | String c t => if Ascii.eqb c "." then (take_while is_digit t, str_drop (String.length (take_while is_digit t)) t)
                    else (""%string, r)
    | EmptyString => (""%string, r)
    end in
  let exponent_digits (r : string) := take_while is_digit (snd (strip_sign r)) in
  let exponent_ok := match r with
    | String c t => negb (Ascii.eqb c "e" || Ascii.eqb c "E") || negb (str_empty (exponent_digits t))
    | EmptyString => true
    end in
  if (str_empty whole && str_empty fraction) || negb exponent_ok then dzero
  else
    let x := decimal negative (digits_value (whole ++ fraction) 0) (exponent_of r - Z.of_nat (String.length fraction)) in
    if isfinite x then x else largest_double negative.

Definition numeric_file (text : option string) : double :=
  match text with Some s => extract_double s | None => dzero end.

(** ** The host *)

(** [/proc/stat], after the label: user, nice, system, idle, io_wait, irq,
    soft_irq and steal *)
Definition cpu_ticks (stat : option string) : list Z :=
  match stat with
  | Some s => let '(label, rest) := extract_word s in
              if str_empty label then repeat 0 8 else extract_uint64s 8 rest
  | None => repeat 0 8
  end.
Definition idle_ticks (ticks : list Z) : Z := wrap64 (nth 3 ticks 0 + nth 4 ticks 0).
Definition total_ticks (ticks : list Z) : Z := fold_left (fun total t => wrap64 (total + t)) ticks 0.

(** the static variables of [cpu_usage_percent] *)
Record CpuSample := MakeSample { previous_idle : Z; previous_total : Z }.
Definition no_sample : CpuSample := MakeSample 0 0.

(** the ticks that were not idle, of how many, since the last sample *)
Definition busy_ticks (idle total : Z) (s : CpuSample) : Z * Z :=
  let total_delta := wrap64 (total - previous_total s) in
  let idle_delta := wrap64 (idle - previous_idle s) in
  (total_delta - Z.min idle_delta total_delta, total_delta).
Definition cpu_usage_percent (stat : option string) (s : CpuSample) : CpuSample * double :=
  let ticks := cpu_ticks stat in
  let '(busy, total_delta) := busy_ticks (idle_ticks ticks) (total_ticks ticks) s in
  (MakeSample (idle_ticks ticks) (total_ticks ticks),
   if total_delta =? 0 then dzero else ddiv (dmul (of_int 100) (of_int busy)) (of_int total_delta)).

(** a directory of [/sys/class/thermal]: its files [type] and [temp] *)
Record ThermalZone := MakeZone { type_text : option string; temp_text : option string }.
Definition first_line (text : option string) : string :=
  match text with Some s => nth 0 (getlines (ascii_of_nat 10) s) ""%string | None => "" end.
Fixpoint thermal_temperature (zones : list ThermalZone) (expected_type : string) : double :=
  match zones with
  | [] => dzero
  | z :: r => if str_eqb (trim (first_line (type_text z))) expected_type
              then ddiv (numeric_file (temp_text z)) (of_int 1000) else thermal_temperature r expected_type
  end.
Fixpoint first_thermal_temperature (zones : list ThermalZone) (expected_types : list string) : double :=
  match expected_types with
  | [] => dzero
  | expected :: r => let value := thermal_temperature zones expected in
                     if dlt dzero value then value else first_thermal_temperature zones r
  end.

Record HostMetrics := MakeMetrics {
  load : double; total : double; available_mb : double; swap_total : double; swap_free : double; uptime : double;
  cpu_usage : double; cpu_temperature : double; gpu_usage : double; gpu_temperature : double;
  gpu_frequency_mhz : double; gpu_available : bool; gpu_backend : string; gpu_memory_mode : string; cpu_cores : Z }.
#[export] Instance eta_metrics : Eta HostMetrics := fun m =>
  MakeMetrics (load m) (total m) (available_mb m) (swap_total m) (swap_free m) (uptime m) (cpu_usage m)
    (cpu_temperature m) (gpu_usage m) (gpu_temperature m) (gpu_frequency_mhz m) (gpu_available m) (gpu_backend m)
    (gpu_memory_mode m) (cpu_cores m).
Definition no_metrics : HostMetrics :=
  MakeMetrics dzero dzero dzero dzero dzero dzero dzero dzero dzero dzero dzero false "unavailable" "unknown" 0.

(** what the operating system shows; the GPU of a Jetson is a directory with
    the files [load] and [cur_freq] *)
Record Machine := MakeMachine {
  loadavg : option string; uptime_file : option string; meminfo : option string; stat : option string;
  zones : list ThermalZone; jetson_gpu : option (option string * option string); hardware_concurrency : Z }.

Definition kilobytes (value : double) : double := ddiv value (of_int 1024).
Definition meminfo_line (m : HostMetrics) (line : string) : HostMetrics :=
  let '(key, rest) := extract_word line in
  let value := kilobytes (extract_double rest) in
  if str_eqb key "MemTotal:" then m <| total := value |>
  else if str_eqb key "MemAvailable:" then m <| available_mb := value |>
  else if str_eqb key "SwapTotal:" then m <| swap_total := value |>
  else if str_eqb key "SwapFree:" then m <| swap_free := value |>
  else m.

Definition host_metrics (h : Machine) (s : CpuSample) : CpuSample * HostMetrics :=
  let m := no_metrics <| load := numeric_file (loadavg h) |> <| uptime := numeric_file (uptime_file h) |> in
  let lines := match meminfo h with Some text => getlines (ascii_of_nat 10) text | None => [] end in
  let m := fold_left meminfo_line lines m in
  let '(s, usage) := cpu_usage_percent (stat h) s in
  let m := m <| cpu_usage := usage |> <| cpu_temperature :=
    first_thermal_temperature (zones h) ["cpu-thermal"; "x86_pkg_temp"; "Package id 0"]%string |> in
  let m := match jetson_gpu h with
           | Some (load_text, freq_text) =>
               m <| gpu_available := true |> <| gpu_backend := "jetson-sysfs"%string |> <| gpu_memory_mode := "unified"%string |>
                 <| gpu_temperature := thermal_temperature (zones h) "gpu-thermal" |>
                 <| gpu_usage := ddiv (numeric_file load_text) (of_int 10) |>
                 <| gpu_frequency_mhz := ddiv (numeric_file freq_text) (of_int 1000000) |>
           | None => m
           end in
  (s, m <| cpu_cores := hardware_concurrency h |>).

(** ** Numbers of two decimals

    [std::fixed] with a precision of 2, exactly rounded (half to even) *)
Definition two_digits (n : Z) : string := ((if (n <? 10)%Z then "0" else "") ++ to_string n)%string.
Definition hundredths (m : positive) (e : Z) : Z :=
  if 0 <=? e then Zpos m * 2 ^ e * 100 else round_half_even (Zpos m * 100) (2 ^ (- e)).
Definition fixed2 (x : spec_float) : string :=
  match x with
  | S754_nan => "nan"
  | S754_infinity s => if s then "-inf" else "inf"
  | S754_zero s => if s then "-0.00" else "0.00"
  | S754_finite s m e =>
      let n := hundredths m e in
      ((if s then "-" else "") ++ to_string (n / 100) ++ "." ++ two_digits (n mod 100))%string
  end.
Example fixed2_third : fixed2 (ddiv (of_int 1) (of_int 3)) = "0.33"%string.
Proof. vm_compute. reflexivity. Qed.
Example fixed2_negative : fixed2 (dneg (lit 12996 3)) = "-13.00"%string.
Proof. vm_compute. reflexivity. Qed.

(** ** The page *)
Definition truth (b : bool) : string := if b then "true" else "false".

Section Page.
Variable p : Settings.
Variable operator_token : string.

(** [received], [fresh] and [age_ms], then the fields of the message *)
Definition timed_part {A} (now : Z) (value : Timed A) (fields : A -> string) : string :=
  (quoted "{'received':" ++ truth (bool_decide (is_Some (message value))) ++ quoted ",'fresh':" ++
   truth (fresh p (age value now)) ++ quoted ",'age_ms':" ++ fixed2 (age value now) ++
   match message value with Some m => fields m | None => "" end ++ "}")%string.

Definition host_part (m : HostMetrics) : string :=
  (quoted "{'load_one':" ++ fixed2 (load m) ++ quoted ",'cpu_usage_percent':" ++ fixed2 (cpu_usage m) ++
   quoted ",'cpu_temperature_c':" ++ fixed2 (cpu_temperature m) ++ quoted ",'cpu_cores':" ++ to_string (cpu_cores m) ++
   quoted ",'memory_total_mb':" ++ fixed2 (total m) ++ quoted ",'memory_available_mb':" ++ fixed2 (available_mb m) ++
   quoted ",'swap_total_mb':" ++ fixed2 (swap_total m) ++ quoted ",'swap_free_mb':" ++ fixed2 (swap_free m) ++
   quoted ",'gpu_usage_percent':" ++ fixed2 (gpu_usage m) ++ quoted ",'gpu_temperature_c':" ++ fixed2 (gpu_temperature m) ++
   quoted ",'gpu_frequency_mhz':" ++ fixed2 (gpu_frequency_mhz m) ++ quoted ",'gpu_available':" ++ truth (gpu_available m) ++
   quoted ",'gpu_backend':'" ++ gpu_backend m ++ quoted "','gpu_memory_mode':'" ++ gpu_memory_mode m ++
   quoted "','uptime_seconds':" ++ fixed2 (uptime m) ++ "}")%string.

Definition system_fields (m : SystemState.SystemStateMsg) : string :=
  (quoted ",'mode_name':" ++ json_string (mode_name (SystemState.mode m)) ++ quoted ",'control_source':" ++
   json_string (SystemState.control_source m) ++ quoted ",'active_policy_id':" ++ json_string (SystemState.active_policy_id m) ++
   quoted ",'safe_to_move':" ++ truth (SystemState.safe_to_move m) ++ quoted ",'message':" ++
   json_string (SystemState.status_message m))%string.
Definition observation_fields (m : ObservationStatus.ObservationStatusMsg) : string :=
  (quoted ",'ready':" ++ truth (ObservationStatus.ready m) ++ quoted ",'camera_ready':" ++
   truth (ObservationStatus.camera_ready m) ++ quoted ",'camera_calibrated':" ++ truth (ObservationStatus.camera_calibrated m) ++
   quoted ",'odometry_ready':" ++ truth (ObservationStatus.odometry_ready m) ++ quoted ",'imu_ready':" ++
   truth (ObservationStatus.imu_ready m) ++ quoted ",'image_width':" ++ to_string (ObservationStatus.image_width m) ++
   quoted ",'image_height':" ++ to_string (ObservationStatus.image_height m) ++ quoted ",'message':" ++
   json_string (ObservationStatus.message m))%string.
Definition policy_fields (m : PolicyStatus.PolicyStatusMsg) : string :=
  (quoted ",'state_name':" ++ json_string (policy_name (PolicyStatus.state m)) ++ quoted ",'provider_id':" ++
   json_string (PolicyStatus.provider_id m) ++ quoted ",'model_id':" ++ json_string (PolicyStatus.model_id m) ++
   quoted ",'inference_latency_ms':" ++ fixed2 (PolicyStatus.inference_latency_ms m) ++ quoted ",'message':" ++
   json_string (PolicyStatus.message m))%string.
Definition episode_fields (m : EpisodeState.EpisodeStateMsg) : string :=
  (quoted ",'state_name':" ++ json_string (episode_name (EpisodeState.state m)) ++ quoted ",'episode_id':" ++
   json_string (EpisodeState.episode_id m) ++ quoted ",'task':" ++ json_string (EpisodeState.task m) ++
   quoted ",'directory':" ++ json_string (EpisodeState.directory m) ++ quoted ",'message_count':" ++
   to_string (EpisodeState.message_count m) ++ quoted ",'image_count':" ++ to_string (EpisodeState.image_count m) ++
   quoted ",'elapsed_seconds':" ++ fixed2 (EpisodeState.elapsed_seconds m) ++ quoted ",'message':" ++
   json_string (EpisodeState.message m))%string.
Definition shadow_fields (m : ShadowMetrics.ShadowMetricsMsg) : string :=
  (quoted ",'sample_count':" ++ to_string (ShadowMetrics.sample_count m) ++ quoted ",'linear_mae':" ++
   fixed2 (ShadowMetrics.linear_mean_absolute_error m) ++ quoted ",'angular_mae':" ++
   fixed2 (ShadowMetrics.angular_mean_absolute_error m) ++ quoted ",'prediction_fresh':" ++
   truth (ShadowMetrics.prediction_fresh m))%string.
Definition safety_fields (m : SafetyEvent.SafetyEventMsg) : string :=
  (quoted ",'severity':" ++ to_string (SafetyEvent.severity m) ++ quoted ",'rule_id':" ++
   json_string (SafetyEvent.rule_id m) ++ quoted ",'reason':" ++ json_string (SafetyEvent.reason m) ++
   quoted ",'active':" ++ truth (SafetyEvent.active m))%string.

(** an image is received when its data are not empty *)
Definition camera_age (now : Z) (s : VehicleOpsApi) : double :=
  match camera_data_ s with [] => of_int (-1) | _ => chrono_millis (now - camera_time_ s) end.
Definition camera_received_at_ms (s : VehicleOpsApi) : Z :=
  match camera_data_ s with [] => 0 | _ => Z.quot (camera_wall_time_ s) 1000000 end.
Definition camera_part (now : Z) (s : VehicleOpsApi) : string :=
  (quoted "{'received':" ++ truth (bool_decide (camera_data_ s <> [])) ++ quoted ",'fresh':" ++
   truth (fresh p (camera_age now s)) ++ quoted ",'age_ms':" ++ fixed2 (camera_age now s) ++ quoted ",'bytes':" ++
   to_string (Z.of_nat (List.length (camera_data_ s))) ++ quoted ",'frame_received_at_ms':" ++
   to_string (camera_received_at_ms s) ++ quoted ",'frame_sequence':" ++ to_string (camera_sequence_ s) ++
   quoted ",'content_analyzed':" ++ truth (camera_content_analyzed_ s) ++ quoted ",'content_valid':" ++
   truth (camera_content_valid_ s) ++ quoted ",'mean_intensity':" ++ fixed2 (camera_mean_intensity_ s) ++
   quoted ",'max_intensity':" ++ to_string (camera_max_intensity_ s) ++ "}")%string.

Definition status_json (host : HostMetrics) (now : Z) (s : VehicleOpsApi) : string :=
  (quoted "{'schema_version':'vehicle.ops.status.v1','server':{'write_enabled':" ++
   truth (negb (str_empty operator_token)) ++ quoted "},'host':" ++ host_part host ++
   quoted ",'system':" ++ timed_part now (system_ s) system_fields ++
   quoted ",'observation':" ++ timed_part now (observation_ s) observation_fields ++
   quoted ",'policy':" ++ timed_part now (policy_ s) policy_fields ++
   quoted ",'episode':" ++ timed_part now (episode_ s) episode_fields ++
   quoted ",'shadow':" ++ timed_part now (shadow_ s) shadow_fields ++
   quoted ",'safety':" ++ timed_part now (safety_ s) safety_fields ++
   quoted ",'camera':" ++ camera_part now s ++ "}" ++ newline)%string.
End Page.

(** ** The parameters of the constructor *)
Record Parameters := MakeParameters {
  port_ : Z; web_root_is_directory : bool; project_root_ : string; jobs_root_ : string;
  http_worker_count_ : Z; http_queue_limit_ : Z; http_socket_timeout_seconds_ : double;
  camera_calibration_verify_timeout_seconds_ : double; camera_calibration_path_ : string;
  camera_calibration_metadata_path_ : string }.
#[export] Instance eta_parameters : Eta Parameters := fun q =>
  MakeParameters (port_ q) (web_root_is_directory q) (project_root_ q) (jobs_root_ q) (http_worker_count_ q)
    (http_queue_limit_ q) (http_socket_timeout_seconds_ q) (camera_calibration_verify_timeout_seconds_ q)
    (camera_calibration_path_ q) (camera_calibration_metadata_path_ q).

Definition or_in_project (q : Parameters) (path name : string) : string :=
  if str_empty path then path_join (project_root_ q) name else path.
Definition configure (q : Parameters) : Result Parameters :=
  if (port_ q <? 1) || (65535 <? port_ q) || negb (web_root_is_directory q) || str_empty (project_root_ q) ||
     str_empty (jobs_root_ q)
  then Raised (InvalidArgument "Invalid port, web_root, project_root, or jobs_root")
  else
    let workers := clamp (http_worker_count_ q) 1 32 in
    Done (q <| http_worker_count_ := workers |> <| http_queue_limit_ := clamp (http_queue_limit_ q) workers 256 |>
      <| http_socket_timeout_seconds_ := dclamp (http_socket_timeout_seconds_ q) (lit 5 1) (of_int 30) |>
      <| camera_calibration_verify_timeout_seconds_ :=
           dclamp (camera_calibration_verify_timeout_seconds_ q) (of_int 1) (of_int 30) |>
      <| camera_calibration_path_ :=
           or_in_project q (camera_calibration_path_ q) "ros_ws/src/vehicle_bringup/config/front_camera_info.yaml" |>
      <| camera_calibration_metadata_path_ :=
           or_in_project q (camera_calibration_metadata_path_ q) "ros_ws/src/vehicle_bringup/config/front_camera_info.meta.json" |>).
