(* ===== verification/OpsStatusProperties.v ===== *)
(** * What the status page and the parameters promise

    A reference reader for the JSON texts the page consists of, the round trip
    with a printer of documents, and the theorem that the text [status_json]
    puts together is the printed form of a document with the fields of the
    state: it is JSON exactly when the numbers in it are finite and its texts have
    no control character that [json_escape] copies.  The processor
    usage is bounded, and the parameters are brought into their ranges. *)
From S2P Require Import Prelude Floats Messages VlaDebug JsonData Json Text Numbers DecimalText Http OpsApi OpsServices OpsStatus.
Local Open Scope Z_scope.
Local Open Scope result_scope.

(** ** Documents *)
Inductive Doc :=
| D_number (text : string)
| D_bool (b : bool)
| D_text (s : string)
| D_object (members : list (string * Doc)).

(** the text of a document, followed by [rest] *)
Fixpoint print (d : Doc) (rest : string) : string :=
  match d with
  | D_number text => (text ++ rest)%string
  | D_bool b => (truth b ++ rest)%string
  | D_text s => (json_string s ++ rest)%string
  | D_object members =>
      String "{" ((fix each (l : list (string * Doc)) : string :=
        match l with
        | [] => String "}" rest
        | [(key, v)] => (json_string key ++ String ":" (print v (String "}" rest)))%string
        | (key, v) :: r => (json_string key ++ String ":" (print v (String "," (each r))))%string
        end) members)
  end.
Definition print_members (rest : string) : list (string * Doc) -> string :=
  fix each l :=
    match l with
    | [] => String "}" rest
    | [(key, v)] => (json_string key ++ String ":" (print v (String "}" rest)))%string
    | (key, v) :: r => (json_string key ++ String ":" (print v (String "," (each r))))%string
    end.
Lemma print_object members rest : print (D_object members) rest = String "{" (print_members rest members).
Proof. done. Qed.

(** ** The reader *)

(** a number of RFC 8259, without an exponent: a sign, digits without a leading
    zero, a fraction *)
Definition read_number (s : string) : option (string * string) :=
  let '(sign, r) := match s with String c r => if Ascii.eqb c "-" then ("-"%string, r) else (""%string, s) | _ => (""%string, s) end in
  let whole := take_while is_digit r in
  let r := str_drop (String.length whole) r in
  if str_empty whole || (str_prefix "0" whole && (1 <? String.length whole)%nat) then None
  else match r with
       | String c t =>
           if Ascii.eqb c "." then
             let fraction := take_while is_digit t in
             if str_empty fraction then None
             else Some ((sign ++ whole ++ String "." fraction)%string, str_drop (String.length fraction) t)
           else Some ((sign ++ whole)%string, r)
       | EmptyString => Some ((sign ++ whole)%string, r)
       end.

Fixpoint read (fuel : nat) (s : string) : option (Doc * string) :=
  match fuel, s with
  | S n, String c r =>
      if Ascii.eqb c "{" then
        match read_members n r with Some (members, rest) => Some (D_object members, rest) | None => None end
      else if Ascii.eqb c dquote then
        match scan_string r with Some (text, rest) => Some (D_text text, rest) | None => None end
      else if str_prefix "true" s then Some (D_bool true, str_drop 4 s)
      else if str_prefix "false" s then Some (D_bool false, str_drop 5 s)
      else match read_number s with Some (text, rest) => Some (D_number text, rest) | None => None end
  | _, _ => None
  end
with read_members (fuel : nat) (s : string) : option (list (string * Doc) * string) :=
  match fuel, s with
  | S n, String q r =>
      if negb (Ascii.eqb q dquote) then None
      else match scan_string r with
           | Some (key, String c r) =>
               if negb (Ascii.eqb c ":") then None
               else match read n r with
                    | Some (v, String e r) =>
                        if Ascii.eqb e "}" then Some ([(key, v)], r)
                        else if Ascii.eqb e "," then
                          match read_members n r with Some (l, rest) => Some ((key, v) :: l, rest) | None => None end
                        else None
                    | _ => None
                    end
           | _ => None
           end
  | _, _ => None
  end.

(** ** The round trip *)

(** a text that is a number by itself *)
Definition is_number (text : string) : bool :=
  match read_number text with Some (t, rest) => str_eqb t text && str_empty rest | None => false end.
Fixpoint readable (d : Doc) : bool :=
  match d with
  | D_number text => is_number text
  | D_bool _ => true
  | D_text s => escapable s
  | D_object members =>
      (fix each (l : list (string * Doc)) : bool := match l with [] => true | m :: r => readable (snd m) && each r end) members
  end.

(** what the page consists of: numbers, or the texts the stream writes for those
    that are not finite, and objects with members under plain keys *)
Definition not_finite_texts : list string := ["nan"; "inf"; "-inf"]%string.
Fixpoint well_shaped (d : Doc) : bool :=
  match d with
  | D_number text => is_number text || str_in text not_finite_texts
  | D_object members =>
      negb (List.length members =? 0)%nat &&
      (fix each (l : list (string * Doc)) : bool :=
         match l with [] => true | m :: r => escapable (fst m) && well_shaped (snd m) && each r end) members
  | _ => true
  end.

Definition stops (rest : string) : bool :=
  match rest with String c _ => negb (is_digit c) && negb (Ascii.eqb c ".") | EmptyString => true end.

Lemma take_while_length f s : (String.length (take_while f s) <= String.length s)%nat.
Proof. induction s as [|c s IH]; [done|]. cbn [take_while]. destruct (f c); cbn [String.length]; lia. Qed.

Lemma read_number_app s t rest : stops rest = true -> read_number s = Some (t, ""%string) ->
  read_number (s ++ rest) = Some (t, rest).
Proof.
  intros Hr. unfold stops in Hr.
  assert (match rest with String c _ => is_digit c = false | EmptyString => True end) as Hd.
  { destruct rest; [done|]. apply andb_true_iff in Hr as [Hr _]. by apply negb_true_iff. }
  unfold read_number.
  destruct s as [|c s]; [done|]. rewrite append_cons.
  assert (exists sign r, (if Ascii.eqb c "-" then ("-"%string, s) else (""%string, String c s)) = (sign, r) /\
    (if Ascii.eqb c "-" then ("-"%string, (s ++ rest)%string) else (""%string, String c (s ++ rest))) = (sign, (r ++ rest)%string)) as (sign & r & -> & ->)
    by (destruct (Ascii.eqb c "-"); do 2 eexists; split; reflexivity).
  cbv zeta. rewrite take_while_app by done.
  destruct (_ || _); [done|]. rewrite str_drop_app by apply take_while_length.
  destruct (str_drop (String.length (take_while is_digit r)) r) as [|d u] eqn:Eu.
  - intros [= <-]. change ("" ++ rest)%string with rest. destruct rest as [|e rest]; [done|].
    apply andb_true_iff in Hr as [_ Hr]. apply negb_true_iff in Hr. by rewrite Hr.
  - rewrite append_cons. destruct (Ascii.eqb d "."); [|done]. rewrite take_while_app by done.
    destruct (str_empty _); [done|]. rewrite str_drop_app by apply take_while_length.
    intros [= <- Ee]. by rewrite Ee.
Qed.

Section DocInduction.
Variable P : Doc -> Prop.
Hypothesis Pnumber : forall t, P (D_number t).
Hypothesis Pbool : forall b, P (D_bool b).
Hypothesis Ptext : forall s, P (D_text s).
Hypothesis Pobject : forall l, Forall (fun m => P (snd m)) l -> P (D_object l).
Fixpoint doc_induction (d : Doc) : P d :=
  match d with
  | D_number t => Pnumber t
  | D_bool b => Pbool b
  | D_text s => Ptext s
  | D_object l => Pobject l ((fix each (l : list (string * Doc)) : Forall (fun m => P (snd m)) l :=
      match l with [] => List.Forall_nil _ | m :: r => @List.Forall_cons _ _ _ _ (doc_induction (snd m)) (each r) end) l)
  end.
End DocInduction.

Fixpoint cost (d : Doc) : nat :=
  match d with
  | D_object members => S ((fix each (l : list (string * Doc)) : nat := match l with [] => 0%nat | m :: r => S (cost (snd m) + each r)%nat end) members)
  | _ => 1%nat
  end.
Definition costs (l : list (string * Doc)) : nat := pred (cost (D_object l)).

Lemma scan_json_string s rest : exists r, json_string s = String dquote r /\
  scan_string (r ++ rest) = if escapable s then Some (s, rest) else None.
Proof.
  unfold json_string. eexists. split; [reflexivity|]. rewrite string_app_assoc.
  change (String dquote "" ++ rest)%string with (String dquote rest). apply scan_recorder_escaped.
Qed.

Lemma number_first text : is_number text = true ->
  exists c r, text = String c r /\ (Ascii.eqb c "-" = true \/ is_digit c = true).
Proof.
  unfold is_number, read_number. destruct text as [|c r]; [done|]. intros Hn. exists c, r. split; [done|].
  destruct (Ascii.eqb c "-"); [by left|right]. cbn [take_while] in Hn. by destruct (is_digit c).
Qed.
Lemma is_number_reads text : is_number text = true -> read_number text = Some (text, ""%string).
Proof.
  unfold is_number. destruct (read_number text) as [[t rest]|]; [|done].
  intros [Ht%str_eqb_spec Hr%str_empty_spec]%andb_true_iff. by subst.
Qed.

Definition reads_back (d : Doc) : Prop := forall rest fuel,
  well_shaped d = true -> stops rest = true -> (cost d <= fuel)%nat ->
  read fuel (print d rest) = if readable d then Some (d, rest) else None.

Definition shaped_member (m : string * Doc) : bool := escapable (fst m) && well_shaped (snd m).
Lemma read_members_print l : l <> [] -> Forall (fun m => reads_back (snd m)) l ->
  forall rest fuel, forallb shaped_member l = true -> (costs l <= fuel)%nat ->
  read_members fuel (print_members rest l) = if forallb (fun m => readable (snd m)) l then Some (l, rest) else None.
Proof.
  intros Hn Hl. induction Hl as [|[key v] l Hv Hl IH]; [done|]. intros rest fuel Hr Hf.
  cbn [forallb snd] in *. apply andb_true_iff in Hr as [Hrv Hrl]. unfold shaped_member in Hrv. cbn [fst snd] in Hrv.
  apply andb_true_iff in Hrv as [Hkey Hrv].
  change (costs ((key, v) :: l)) with (S (cost v + costs l)) in Hf.
  destruct fuel as [|fuel]; [lia|].
  destruct (scan_json_string key (String ":" (match l with
    | [] => print v (String "}" rest) | _ => print v (String "," (print_members rest l)) end))) as (r & Ek & Er).
  assert (print_members rest ((key, v) :: l) = String dquote (r ++ String ":" (match l with
    | [] => print v (String "}" rest) | _ => print v (String "," (print_members rest l)) end)))%string as ->.
  { destruct l; cbn [print_members]; by rewrite Ek. }
  cbn [read_members]. rewrite Ascii.eqb_refl. cbn [negb]. rewrite Er, Hkey. rewrite Ascii.eqb_refl. cbn [negb].
  destruct l as [|m l].
  - rewrite Hv by (done || lia). destruct (readable v); [by rewrite Ascii.eqb_refl|done].
  - rewrite Hv by (done || lia). destruct (readable v); [|done]. rewrite Ascii.eqb_refl. cbn [negb].
    assert (Ascii.eqb "," "}" = false) as -> by done. rewrite IH by (done || lia).
    cbn [andb]. by destruct (forallb (fun m => readable (snd m)) (m :: l)).
Qed.

Lemma not_finite_text t : str_in t not_finite_texts = true -> t = "nan"%string \/ t = "inf"%string \/ t = "-inf"%string.
Proof. intros Ht%str_in_spec. unfold not_finite_texts in Ht. rewrite !elem_of_cons, elem_of_nil in Ht. tauto. Qed.

(** the reader on a printed number *)
Lemma printed_number_reads_back t : reads_back (D_number t).
Proof.
  intros rest fuel Hw Hs Hf. cbn [readable well_shaped] in *. destruct fuel as [|fuel]; [cbn [cost] in Hf; lia|].
  destruct (is_number t) eqn:Hr.
  - pose proof (number_first t Hr) as (c & r & -> & Hc). cbn [print]. rewrite append_cons. cbn [read].
    assert (Ascii.eqb c "{" = false /\ Ascii.eqb c dquote = false /\ Ascii.eqb "t" c = false /\ Ascii.eqb "f" c = false) as (E1 & E2 & E3 & E4).
    { destruct Hc as [->%Ascii.eqb_eq|Hc]; [done|].
      split_and!; apply Ascii.eqb_neq; intros E; subst c; vm_compute in Hc; discriminate Hc. }
    rewrite E1, E2.
    assert (forall x, str_prefix "true" (String c x) = false) as -> by (intros x; change (Ascii.eqb "t" c && str_prefix "rue" x = false); by rewrite E3).
    assert (forall x, str_prefix "false" (String c x) = false) as -> by (intros x; change (Ascii.eqb "f" c && str_prefix "alse" x = false); by rewrite E4).
    rewrite <- append_cons. by rewrite (read_number_app _ _ _ Hs (is_number_reads _ Hr)).
  - cbn [orb] in Hw. destruct (not_finite_text t Hw) as [->|[->| ->]]; reflexivity.
Qed.

Lemma print_reads_back d : reads_back d.
Proof.
  induction d as [t|b|s|l Hl] using doc_induction; [apply printed_number_reads_back|..]; intros rest fuel Hw Hs Hf;
    (destruct fuel as [|fuel]; [cbn [cost] in Hf; lia|]).
  - by destruct b.
  - cbn [print readable]. destruct (scan_json_string s rest) as (r & -> & Er). rewrite append_cons. cbn [read].
    assert (Ascii.eqb dquote "{" = false) as -> by done. rewrite Ascii.eqb_refl, Er. by destruct (escapable s).
  - rewrite print_object. cbn [read]. rewrite Ascii.eqb_refl. cbn [well_shaped] in Hw.
    apply andb_true_iff in Hw as [Hn Hw].
    rewrite read_members_print; [|by intros ->|exact Hl| |].
    + assert (readable (D_object l) = forallb (fun m => readable (snd m)) l) as ->; [|by destruct (forallb _ l)].
      cbn [readable]. clear. induction l as [|m l IH]; [done|]. cbn [forallb]. by rewrite IH.
    + revert Hw. clear. unfold shaped_member. induction l as [|m l IH]; [done|]. cbn [forallb]. intros [-> Hl]%andb_true_iff. by apply IH.
    + change (cost (D_object l)) with (S (costs l)) in Hf. lia.
Qed.

(** What the reader makes of a printed document is the document when it is readable,
    and an error otherwise: no value can end or add a member. *)
Theorem printed_documents_read_back d rest fuel :
  well_shaped d = true -> stops rest = true -> (cost d <= fuel)%nat ->
  read fuel (print d rest) = if readable d then Some (d, rest) else None.
Proof. apply print_reads_back. Qed.

(** ** The numbers on the page *)
Definition plain_digits (w : string) : Prop :=
  w <> ""%string /\ all_chars is_digit w = true /\ (str_prefix "0" w && (1 <? String.length w)%nat) = false.

Lemma digit_char_digit d : 0 <= d < 10 -> is_digit (digit_char d) = true.
Proof.
  intros Hd.
  assert (forallb (fun d => is_digit (digit_char (Z.of_nat d))) (seq 0 10) = true) as H by (vm_compute; reflexivity).
  rewrite <- (Z2Nat.id d) by lia. apply (proj1 (forallb_forall _ _) H). apply in_seq. lia.
Qed.
Lemma digit_char_lead d : 1 <= d < 10 -> Ascii.eqb "0" (digit_char d) = false.
Proof.
  intros Hd. apply Ascii.eqb_neq. intros E. apply (f_equal digit_value) in E. rewrite digit_value_char in E by lia.
  vm_compute in E. lia.
Qed.

Lemma base_digits_lead fuel z acc : 0 < z < 2 ^ Z.of_nat fuel ->
  exists d r, 1 <= d < 10 /\ base_digits 10 fuel z acc = String (digit_char d) (r ++ acc)%string /\ all_chars is_digit r = true.
Proof.
  revert z acc; induction fuel as [|f IH]; intros z acc Hz; [change (2 ^ Z.of_nat 0) with 1 in Hz; lia|].
  cbn [base_digits]. assert (0 <= z mod 10 < 10) as Hm by (apply Z.mod_pos_bound; lia).
  destruct (Z.ltb_spec z 10).
  - exists (z mod 10), ""%string. rewrite Z.mod_small by lia. split; [lia|done].
  - rewrite Nat2Z.inj_succ, Z.pow_succ_r in Hz by lia.
    destruct (IH (z / 10) (String (digit_char (z mod 10)) acc)) as (d & r & Hd & -> & Hr).
    { split; [apply Z.div_str_pos; lia|]. apply Z.div_lt_upper_bound; lia. }
    exists d, (r ++ String (digit_char (z mod 10)) "")%string. split; [done|]. split.
    + by rewrite string_app_assoc.
    + rewrite all_chars_app, Hr. cbn [all_chars]. by rewrite digit_char_digit.
Qed.

Lemma to_string_plain z : 0 <= z -> plain_digits (to_string z).
Proof.
  intros Hz. unfold to_string, base_string. destruct (Z.ltb_spec z 0); [lia|].
  destruct (Z.eq_dec z 0) as [->|Hn]; [by vm_compute|].
  assert (0 < z < 2 ^ Z.of_nat (S (Z.to_nat (Z.log2 z)))) as Hb.
  { split; [lia|]. rewrite Nat2Z.inj_succ, Z2Nat.id by apply Z.log2_nonneg. apply Z.log2_spec. lia. }
  destruct (base_digits_lead _ z "" Hb) as (d & r & Hd & -> & Hr). split; [done|]. split.
  - cbn [all_chars]. rewrite digit_char_digit, all_chars_app, Hr by lia. done.
  - change (Ascii.eqb "0" (digit_char d) && str_prefix "" (r ++ "") && (1 <? String.length (String (digit_char d) (r ++ "")))%nat = false).
    by rewrite digit_char_lead.
Qed.

Lemma plain_reads (negative : bool) w tail : plain_digits w ->
  match tail with String c _ => is_digit c = false | EmptyString => True end ->
  read_number ((if negative then "-" else "") ++ w ++ tail) =
  match tail with
  | String c t =>
      if Ascii.eqb c "." then
        let fraction := take_while is_digit t in
        if str_empty fraction then None
        else Some (((if negative then "-" else "") ++ w ++ String "." fraction)%string, str_drop (String.length fraction) t)
      else Some (((if negative then "-" else "") ++ w)%string, tail)
  | EmptyString => Some (((if negative then "-" else "") ++ w)%string, tail)
  end.
Proof.
  intros (Hn & Hd & Hz) Ht. destruct w as [|c w]; [done|].
  assert (Ascii.eqb c "-" = false) as Hc.
  { cbn [all_chars] in Hd. apply andb_true_iff in Hd as [Hd _]. apply Ascii.eqb_neq. intros ->. vm_compute in Hd. discriminate Hd. }
  assert (take_while is_digit (String c w ++ tail) = String c w) as Hw by (by rewrite take_while_app, take_while_all).
  assert (str_drop (String.length (String c w)) (String c w ++ tail) = tail) as Hdrop
    by (rewrite str_drop_app, str_drop_all by done; done).
  unfold read_number. destruct negative.
  - change ("-" ++ String c w ++ tail)%string with (String "-" (String c w ++ tail)). cbv beta iota. rewrite Ascii.eqb_refl.
    cbv zeta. rewrite Hw, Hdrop. cbn [str_empty orb]. rewrite Hz. done.
  - change ("" ++ String c w ++ tail)%string with (String c (w ++ tail)). cbv beta iota. rewrite Hc. rewrite <- append_cons.
    cbv zeta. rewrite Hw, Hdrop. cbn [str_empty orb]. rewrite Hz. done.
Qed.

Lemma to_string_number z : is_number (to_string z) = true.
Proof.
  assert (exists negative w, plain_digits w /\ to_string z = ((if negative : bool then "-" else "") ++ w)%string)
    as (negative & w & Hw & ->).
  { destruct (Z.ltb_spec z 0) as [Hz|Hz].
    - exists true, (to_string (- z)). split; [apply to_string_plain; lia|]. unfold to_string.
      rewrite (proj2 (Z.ltb_lt _ _) Hz), (proj2 (Z.ltb_ge (- z) 0)) by lia. done.
    - exists false, (to_string z). split; [by apply to_string_plain|done]. }
  pose proof (plain_reads negative w "" Hw I) as Hr. rewrite str_app_nil in Hr.
  unfold is_number. by rewrite Hr, str_eqb_refl.
Qed.

Lemma two_digits_digits n : 0 <= n < 100 -> all_chars is_digit (two_digits n) = true /\ str_empty (two_digits n) = false.
Proof.
  intros Hn. destruct (to_string_plain n ltac:(lia)) as (He & Hd & _). unfold two_digits.
  destruct (n <? 10); rewrite all_chars_app, Hd; (split; [done|]); [done|]. by destruct (to_string n).
Qed.

Lemma fixed2_number x : is_number (fixed2 x) = isfinite x.
Proof.
  destruct x as [[]|[]| |s m e]; try done. cbn [fixed2 isfinite].
  assert (0 <= hundredths m e) as Hh.
  { unfold hundredths. destruct (0 <=? e) eqn:He; [apply Z.leb_le in He; pose proof (Z.pow_pos_nonneg 2 e); nia|].
    unfold round_half_even. cbv zeta. apply Z.leb_gt in He. assert (0 < 2 ^ (- e)) by (apply Z.pow_pos_nonneg; lia).
    assert (0 <= Zpos m * 100 / 2 ^ (- e)) by (apply Z.div_pos; lia). repeat case_match; lia. }
  generalize dependent (hundredths m e). intros n Hn.
  assert (0 <= n mod 100 < 100) as Hm by (apply Z.mod_pos_bound; lia).
  destruct (two_digits_digits _ Hm) as [Hd He].
  assert (0 <= n / 100) as Hq by (apply Z.div_pos; lia).
  pose proof (plain_reads s (to_string (n / 100)) (String "." (two_digits (n mod 100)))
    (to_string_plain _ Hq) eq_refl) as Hr.
  cbv beta iota in Hr. rewrite Ascii.eqb_refl in Hr. cbv zeta in Hr. rewrite take_while_all, str_drop_all, He in Hr by done.
  unfold is_number. change ("." ++ two_digits (n mod 100))%string with (String "." (two_digits (n mod 100))).
  by rewrite Hr, str_eqb_refl.
Qed.

(** ** The page is a document *)

(** further members of an object, and what follows *)
Fixpoint print_more (l : list (string * Doc)) (rest : string) : string :=
  match l with
  | [] => rest
  | (key, v) :: r => String "," (json_string key ++ String ":" (print v (print_more r rest)))
  end.
Lemma print_first key v l rest :
  print (D_object ((key, v) :: l)) rest
  = String "{" (json_string key ++ String ":" (print v (print_more l (String "}" rest)))).
Proof.
  rewrite print_object. f_equal. revert key v. induction l as [|[k w] l IH]; intros key v; [done|].
  change (print_members rest ((key, v) :: (k, w) :: l))
    with (json_string key ++ String ":" (print v (String "," (print_members rest ((k, w) :: l)))))%string.
  by rewrite IH.
Qed.
Lemma print_more_app l k rest : print_more (l ++ k) rest = print_more l (print_more k rest).
Proof. induction l as [|[key v] l IH]; [done|]. cbn [app print_more]. by rewrite IH. Qed.

(** compares two texts that are put together from the same values *)
Ltac by_characters :=
  repeat match goal with
    | |- context [quoted (String ?c ?s)] => let v := eval vm_compute in (quoted (String c s)) in change (quoted (String c s)) with v
    | |- context [json_string (String ?c ?s)] =>
        let v := eval vm_compute in (json_string (String c s)) in change (json_string (String c s)) with v
    end;
  rewrite ?string_app_assoc; cbv [String.append]; reflexivity.

Definition number2 (x : spec_float) : Doc := D_number (fixed2 x).
Definition integer (z : Z) : Doc := D_number (to_string z).

Definition system_members (m : SystemState.SystemStateMsg) : list (string * Doc) :=
  [("mode_name", D_text (mode_name (SystemState.mode m))); ("control_source", D_text (SystemState.control_source m));
   ("active_policy_id", D_text (SystemState.active_policy_id m)); ("safe_to_move", D_bool (SystemState.safe_to_move m));
   ("message", D_text (SystemState.status_message m))]%string.
Lemma system_printed m rest : (system_fields m ++ rest = print_more (system_members m) rest)%string.
Proof. unfold system_fields. cbn [system_members print_more print]. by_characters. Qed.

Definition observation_members (m : ObservationStatus.ObservationStatusMsg) : list (string * Doc) :=
  [("ready", D_bool (ObservationStatus.ready m)); ("camera_ready", D_bool (ObservationStatus.camera_ready m));
   ("camera_calibrated", D_bool (ObservationStatus.camera_calibrated m)); ("odometry_ready", D_bool (ObservationStatus.odometry_ready m));
   ("imu_ready", D_bool (ObservationStatus.imu_ready m)); ("image_width", integer (ObservationStatus.image_width m));
   ("image_height", integer (ObservationStatus.image_height m)); ("message", D_text (ObservationStatus.message m))]%string.
Lemma observation_printed m rest : (observation_fields m ++ rest = print_more (observation_members m) rest)%string.
Proof. unfold observation_fields. cbn [observation_members print_more print integer]. by_characters. Qed.

Definition policy_members (m : PolicyStatus.PolicyStatusMsg) : list (string * Doc) :=
  [("state_name", D_text (policy_name (PolicyStatus.state m))); ("provider_id", D_text (PolicyStatus.provider_id m));
   ("model_id", D_text (PolicyStatus.model_id m)); ("inference_latency_ms", number2 (PolicyStatus.inference_latency_ms m));
   ("message", D_text (PolicyStatus.message m))]%string.
Lemma policy_printed m rest : (policy_fields m ++ rest = print_more (policy_members m) rest)%string.
Proof. unfold policy_fields. cbn [policy_members print_more print number2]. by_characters. Qed.

Definition episode_members (m : EpisodeState.EpisodeStateMsg) : list (string * Doc) :=
  [("state_name", D_text (episode_name (EpisodeState.state m))); ("episode_id", D_text (EpisodeState.episode_id m));
   ("task", D_text (EpisodeState.task m)); ("directory", D_text (EpisodeState.directory m));
   ("message_count", integer (EpisodeState.message_count m)); ("image_count", integer (EpisodeState.image_count m));
   ("elapsed_seconds", number2 (EpisodeState.elapsed_seconds m)); ("message", D_text (EpisodeState.message m))]%string.
Lemma episode_printed m rest : (episode_fields m ++ rest = print_more (episode_members m) rest)%string.
Proof. unfold episode_fields. cbn [episode_members print_more print number2 integer]. by_characters. Qed.

Definition shadow_members (m : ShadowMetrics.ShadowMetricsMsg) : list (string * Doc) :=
  [("sample_count", integer (ShadowMetrics.sample_count m)); ("linear_mae", number2 (ShadowMetrics.linear_mean_absolute_error m));
   ("angular_mae", number2 (ShadowMetrics.angular_mean_absolute_error m));
   ("prediction_fresh", D_bool (ShadowMetrics.prediction_fresh m))]%string.
Lemma shadow_printed m rest : (shadow_fields m ++ rest = print_more (shadow_members m) rest)%string.
Proof. unfold shadow_fields. cbn [shadow_members print_more print number2 integer]. by_characters. Qed.

Definition safety_members (m : SafetyEvent.SafetyEventMsg) : list (string * Doc) :=
  [("severity", integer (SafetyEvent.severity m)); ("rule_id", D_text (SafetyEvent.rule_id m));
   ("reason", D_text (SafetyEvent.reason m)); ("active", D_bool (SafetyEvent.active m))]%string.
Lemma safety_printed m rest : (safety_fields m ++ rest = print_more (safety_members m) rest)%string.
Proof. unfold safety_fields. cbn [safety_members print_more print integer]. by_characters. Qed.

Definition host_document (m : HostMetrics) : Doc := D_object
  [("load_one", number2 (load m)); ("cpu_usage_percent", number2 (cpu_usage m));
   ("cpu_temperature_c", number2 (cpu_temperature m)); ("cpu_cores", integer (cpu_cores m));
   ("memory_total_mb", number2 (total m)); ("memory_available_mb", number2 (available_mb m));
   ("swap_total_mb", number2 (swap_total m)); ("swap_free_mb", number2 (swap_free m));
   ("gpu_usage_percent", number2 (gpu_usage m)); ("gpu_temperature_c", number2 (gpu_temperature m));
   ("gpu_frequency_mhz", number2 (gpu_frequency_mhz m)); ("gpu_available", D_bool (gpu_available m));
   ("gpu_backend", D_text (gpu_backend m)); ("gpu_memory_mode", D_text (gpu_memory_mode m));
   ("uptime_seconds", number2 (uptime m))]%string.
(** the texts of the host are written without [json_string]: they are the literals of
    [host_metrics] *)
Definition plain_host (m : HostMetrics) : Prop :=
  json_string (gpu_backend m) = String dquote (gpu_backend m ++ String dquote "") /\
  json_string (gpu_memory_mode m) = String dquote (gpu_memory_mode m ++ String dquote "").
Lemma host_printed m rest : plain_host m -> (host_part m ++ rest = print (host_document m) rest)%string.
Proof.
  intros [Hb Hm]. unfold host_part, host_document. rewrite print_first. cbn [print_more print number2 integer].
  rewrite Hb, Hm, !(append_cons dquote). by_characters.
Qed.
Lemma host_texts h c :
  (gpu_backend (snd (host_metrics h c)) = "jetson-sysfs"%string /\ gpu_memory_mode (snd (host_metrics h c)) = "unified"%string) \/
  (gpu_backend (snd (host_metrics h c)) = "unavailable"%string /\ gpu_memory_mode (snd (host_metrics h c)) = "unknown"%string).
Proof.
  unfold host_metrics. destruct (cpu_usage_percent (stat h) c) as [c' usage]. cbn [snd].
  assert (forall lines m, gpu_backend (fold_left meminfo_line lines m) = gpu_backend m /\
    gpu_memory_mode (fold_left meminfo_line lines m) = gpu_memory_mode m) as Hf.
  { induction lines as [|line lines IH]; intros m; [done|]. cbn [fold_left]. destruct (IH (meminfo_line m line)) as [-> ->].
    unfold meminfo_line. destruct (extract_word line) as [key r]. by repeat destruct (str_eqb key _). }
  destruct (jetson_gpu h) as [[lt ft]|]; cbn; [by left|right].
  match goal with |- context [fold_left meminfo_line ?l ?m] => destruct (Hf l m) as [-> ->] end. done.
Qed.
Lemma host_is_plain h c : plain_host (snd (host_metrics h c)).
Proof. unfold plain_host. destruct (host_texts h c) as [[-> ->]|[-> ->]]; split; by vm_compute. Qed.

Section PageDocument.
Variable p : Settings.
Variable operator_token : string.

Definition timed_document {A} (now : Z) (value : Timed A) (members : A -> list (string * Doc)) : Doc :=
  D_object
    ([("received", D_bool (bool_decide (is_Some (message value)))); ("fresh", D_bool (fresh p (age value now)));
      ("age_ms", number2 (age value now))]%string ++ match message value with Some m => members m | None => [] end).
Lemma timed_printed {A} now (value : Timed A) fields members rest :
  (forall m rest, (fields m ++ rest = print_more (members m) rest)%string) ->
  (timed_part p now value fields ++ rest = print (timed_document now value members) rest)%string.
Proof.
  intros Hf. unfold timed_part, timed_document. cbn [app]. rewrite print_first.
  assert ((match message value with Some m => fields m | None => "" end ++ String "}" rest)%string
    = print_more match message value with Some m => members m | None => [] end (String "}" rest)) as Hm
    by (destruct (message value); [apply Hf|done]).
  cbn [print_more print number2]. rewrite <- Hm.
  generalize (match message value with Some m => fields m | None => "" end). intros f. by_characters.
Qed.

Definition camera_document (now : Z) (s : VehicleOpsApi) : Doc := D_object
  [("received", D_bool (bool_decide (camera_data_ s <> []))); ("fresh", D_bool (fresh p (camera_age now s)));
   ("age_ms", number2 (camera_age now s)); ("bytes", integer (Z.of_nat (List.length (camera_data_ s))));
   ("frame_received_at_ms", integer (camera_received_at_ms s)); ("frame_sequence", integer (camera_sequence_ s));
   ("content_analyzed", D_bool (camera_content_analyzed_ s)); ("content_valid", D_bool (camera_content_valid_ s));
   ("mean_intensity", number2 (camera_mean_intensity_ s)); ("max_intensity", integer (camera_max_intensity_ s))]%string.
Lemma camera_printed now s rest : (camera_part p now s ++ rest = print (camera_document now s) rest)%string.
Proof.
  unfold camera_part, camera_document. rewrite print_first. cbn [print_more print number2 integer]. by_characters.
Qed.

Definition status_document (host : HostMetrics) (now : Z) (s : VehicleOpsApi) : Doc := D_object
  [("schema_version", D_text "vehicle.ops.status.v1");
   ("server", D_object [("write_enabled", D_bool (negb (str_empty operator_token)))]);
   ("host", host_document host); ("system", timed_document now (system_ s) system_members);
   ("observation", timed_document now (observation_ s) observation_members);
   ("policy", timed_document now (policy_ s) policy_members);
   ("episode", timed_document now (episode_ s) episode_members);
   ("shadow", timed_document now (shadow_ s) shadow_members);
   ("safety", timed_document now (safety_ s) safety_members); ("camera", camera_document now s)]%string.

(** the text of the page is the printed document *)
Lemma status_printed host now s : plain_host host ->
  status_json p operator_token host now s = print (status_document host now s) newline.
Proof.
  intros Hh. unfold status_document. rewrite print_first. cbn [print_more].
  rewrite <- (host_printed host _ Hh), <- camera_printed.
  rewrite <- (timed_printed now (system_ s) _ system_members _ system_printed).
  rewrite <- (timed_printed now (observation_ s) _ observation_members _ observation_printed).
  rewrite <- (timed_printed now (policy_ s) _ policy_members _ policy_printed).
  rewrite <- (timed_printed now (episode_ s) _ episode_members _ episode_printed).
  rewrite <- (timed_printed now (shadow_ s) _ shadow_members _ shadow_printed).
  rewrite <- (timed_printed now (safety_ s) _ safety_members _ safety_printed).
  unfold status_json.
  generalize (host_part host) (timed_part p now (system_ s) system_fields) (timed_part p now (observation_ s) observation_fields)
    (timed_part p now (policy_ s) policy_fields) (timed_part p now (episode_ s) episode_fields)
    (timed_part p now (shadow_ s) shadow_fields) (timed_part p now (safety_ s) safety_fields) (camera_part p now s).
  intros. change (print (D_object [("write_enabled"%string, D_bool (negb (str_empty operator_token)))]) ?r)
    with (String "{" (json_string "write_enabled" ++ String ":" (truth (negb (str_empty operator_token)) ++ String "}" r))).
  by_characters.
Qed.
End PageDocument.

(** ** The page is JSON *)

(** the numbers with decimals the page shows, and the others *)
Definition decimals_of {A} (now : Z) (value : Timed A) (of_message : A -> list double) : list double :=
  age value now :: match message value with Some m => of_message m | None => [] end.
Definition host_decimals (m : HostMetrics) : list double :=
  [load m; cpu_usage m; cpu_temperature m; total m; available_mb m; swap_total m; swap_free m; gpu_usage m;
   gpu_temperature m; gpu_frequency_mhz m; uptime m].
Definition shown_decimals (host : HostMetrics) (now : Z) (s : VehicleOpsApi) : list double :=
  host_decimals host ++ decimals_of now (system_ s) (fun _ => []) ++ decimals_of now (observation_ s) (fun _ => []) ++
  decimals_of now (policy_ s) (fun m => [PolicyStatus.inference_latency_ms m]) ++
  decimals_of now (episode_ s) (fun m => [EpisodeState.elapsed_seconds m]) ++
  decimals_of now (shadow_ s) (fun m => [ShadowMetrics.linear_mean_absolute_error m; ShadowMetrics.angular_mean_absolute_error m]) ++
  decimals_of now (safety_ s) (fun _ => []) ++ [camera_age now s; camera_mean_intensity_ s].
(** the texts of the messages it shows *)
Definition texts_of {A} (value : Timed A) (of_message : A -> list string) : list string :=
  match message value with Some m => of_message m | None => [] end.
Definition shown_texts (s : VehicleOpsApi) : list string :=
  texts_of (system_ s) (fun m => [SystemState.control_source m; SystemState.active_policy_id m; SystemState.status_message m]) ++
  texts_of (observation_ s) (fun m => [ObservationStatus.message m]) ++
  texts_of (policy_ s) (fun m => [PolicyStatus.provider_id m; PolicyStatus.model_id m; PolicyStatus.message m]) ++
  texts_of (episode_ s) (fun m => [EpisodeState.episode_id m; EpisodeState.task m; EpisodeState.directory m; EpisodeState.message m]) ++
  texts_of (safety_ s) (fun m => [SafetyEvent.rule_id m; SafetyEvent.reason m]).

Lemma readable_number2 x : readable (number2 x) = isfinite x.
Proof. apply fixed2_number. Qed.
Lemma readable_integer z : readable (integer z) = true.
Proof. apply to_string_number. Qed.
Lemma shaped_number2 x : well_shaped (number2 x) = true.
Proof. cbn [number2 well_shaped]. rewrite fixed2_number. by destruct x as [|[]| |]. Qed.
Lemma shaped_integer z : well_shaped (integer z) = true.
Proof. cbn [integer well_shaped]. by rewrite to_string_number. Qed.

Definition all_readable (l : list (string * Doc)) : bool := forallb (fun m => readable (snd m)) l.
Lemma readable_object l : readable (D_object l) = all_readable l.
Proof. cbn [readable]. induction l as [|m l IH]; [done|]. unfold all_readable in *. cbn [forallb]. by rewrite IH. Qed.
Lemma shaped_object l : l <> [] -> forallb shaped_member l = true -> well_shaped (D_object l) = true.
Proof.
  intros Hn Hl. cbn [well_shaped]. apply andb_true_iff. split; [by destruct l|].
  clear Hn. induction l as [|m l IH]; [done|]. cbn [forallb] in Hl. apply andb_true_iff in Hl as [Hm Hl].
  unfold shaped_member in Hm. rewrite Hm. by apply IH.
Qed.

Lemma mode_name_escapable z : escapable (mode_name z) = true.
Proof. unfold mode_name. by repeat case_match. Qed.
Lemma policy_name_escapable z : escapable (policy_name z) = true.
Proof. unfold policy_name. by repeat case_match. Qed.
Lemma episode_name_escapable z : escapable (episode_name z) = true.
Proof. unfold episode_name. by repeat case_match. Qed.

Lemma readable_timed p {A} now (value : Timed A) members decimals texts :
  (forall m, all_readable (members m) = forallb isfinite (decimals m) && forallb escapable (texts m)) ->
  readable (timed_document p now value members) =
    forallb isfinite (decimals_of now value decimals) && forallb escapable (texts_of value texts).
Proof.
  intros Hm. unfold timed_document. rewrite readable_object. unfold all_readable. rewrite forallb_app.
  cbn [forallb snd readable]. rewrite readable_number2. unfold decimals_of, texts_of. cbn [forallb].
  rewrite andb_true_r, !andb_true_l. destruct (message value) as [m|]; cbn [forallb]; [|by rewrite !andb_true_r].
  change (forallb (fun m => readable (snd m)) (members m)) with (all_readable (members m)). by rewrite Hm, andb_assoc.
Qed.
Lemma shaped_timed p {A} now (value : Timed A) members :
  (forall m, forallb shaped_member (members m) = true) -> well_shaped (timed_document p now value members) = true.
Proof.
  intros Hm. apply shaped_object; [done|]. rewrite forallb_app. cbn [forallb].
  change (shaped_member ("age_ms"%string, number2 (age value now))) with (well_shaped (number2 (age value now))).
  rewrite shaped_number2. destruct (message value); [by rewrite Hm|done].
Qed.

(** evaluates the members of a message *)
Ltac members := unfold system_members, observation_members, policy_members, episode_members, shadow_members, safety_members.
Ltac members_readable := members; unfold all_readable; cbn [forallb snd]; rewrite ?readable_number2, ?readable_integer;
  cbn [readable]; rewrite ?mode_name_escapable, ?policy_name_escapable, ?episode_name_escapable, ?andb_true_r; cbn [andb];
  repeat match goal with |- context [isfinite ?x] => destruct (isfinite x) | |- context [escapable ?x] => destruct (escapable x) end;
  reflexivity.
Ltac members_shaped := members; cbn [forallb]; unfold shaped_member; cbn [fst snd]; rewrite ?shaped_number2, ?shaped_integer; reflexivity.

Lemma status_shaped p operator_token host now s : well_shaped (status_document p operator_token host now s) = true.
Proof.
  apply shaped_object; [done|]. cbn [forallb]. unfold shaped_member; cbn [fst snd].
  rewrite (shaped_timed p now (system_ s)), (shaped_timed p now (observation_ s)), (shaped_timed p now (policy_ s)),
    (shaped_timed p now (episode_ s)), (shaped_timed p now (shadow_ s)), (shaped_timed p now (safety_ s))
    by (intros m; members_shaped).
  assert (well_shaped (host_document host) = true) as -> by (apply shaped_object; [done|members_shaped]).
  assert (well_shaped (camera_document p now s) = true) as -> by (apply shaped_object; [done|members_shaped]).
  reflexivity.
Qed.

Lemma status_readable p operator_token host now s :
  escapable (gpu_backend host) = true -> escapable (gpu_memory_mode host) = true ->
  readable (status_document p operator_token host now s) =
    forallb isfinite (shown_decimals host now s) && forallb escapable (shown_texts s).
Proof.
  intros Hg1 Hg2. unfold status_document. rewrite readable_object. unfold all_readable. cbn [forallb snd].
  rewrite (readable_timed p now (system_ s) system_members (fun _ => [])
    (fun m => [SystemState.control_source m; SystemState.active_policy_id m; SystemState.status_message m])) by (intros m; members_readable).
  rewrite (readable_timed p now (observation_ s) observation_members (fun _ => []) (fun m => [ObservationStatus.message m]))
    by (intros m; members_readable).
  rewrite (readable_timed p now (policy_ s) policy_members (fun m => [PolicyStatus.inference_latency_ms m])
    (fun m => [PolicyStatus.provider_id m; PolicyStatus.model_id m; PolicyStatus.message m])) by (intros m; members_readable).
  rewrite (readable_timed p now (episode_ s) episode_members (fun m => [EpisodeState.elapsed_seconds m])
    (fun m => [EpisodeState.episode_id m; EpisodeState.task m; EpisodeState.directory m; EpisodeState.message m])) by (intros m; members_readable).
  rewrite (readable_timed p now (shadow_ s) shadow_members
    (fun m => [ShadowMetrics.linear_mean_absolute_error m; ShadowMetrics.angular_mean_absolute_error m]) (fun _ => [])) by (intros m; members_readable).
  rewrite (readable_timed p now (safety_ s) safety_members (fun _ => []) (fun m => [SafetyEvent.rule_id m; SafetyEvent.reason m]))
    by (intros m; members_readable).
  assert (readable (host_document host) = forallb isfinite (host_decimals host)) as ->.
  { unfold host_document. rewrite readable_object. unfold all_readable, host_decimals. cbn [forallb snd].
    rewrite !readable_number2, readable_integer. cbn [readable]. by rewrite Hg1, Hg2. }
  assert (readable (camera_document p now s) = isfinite (camera_age now s) && isfinite (camera_mean_intensity_ s)) as ->.
  { unfold camera_document. rewrite readable_object. unfold all_readable. cbn [forallb snd].
    rewrite !readable_number2, !readable_integer. cbn [readable]. by rewrite andb_true_r. }
  unfold shown_decimals, shown_texts. rewrite !forallb_app.
  assert (texts_of (shadow_ s) (fun _ => []) = []) as -> by (unfold texts_of; by destruct (message (shadow_ s))).
  cbn [forallb readable]. rewrite !andb_true_r.
  repeat match goal with |- context [forallb isfinite ?l] => destruct (forallb isfinite l)
    | |- context [forallb escapable ?l] => destruct (forallb escapable l)
    | |- context [isfinite ?x] => destruct (isfinite x) end; reflexivity.
Qed.

Lemma host_texts_escapable h c :
  escapable (gpu_backend (snd (host_metrics h c))) = true /\ escapable (gpu_memory_mode (snd (host_metrics h c))) = true.
Proof.
  destruct (host_texts h c) as [[-> ->]|[-> ->]]; done.
Qed.

Lemma page_reads p operator_token machine sample now s fuel :
  let host := snd (host_metrics machine sample) in
  (cost (status_document p operator_token host now s) <= fuel)%nat ->
  read fuel (status_json p operator_token host now s) =
    if forallb isfinite (shown_decimals host now s) && forallb escapable (shown_texts s)
    then Some (status_document p operator_token host now s, newline) else None.
Proof.
  intros host Hf. rewrite (status_printed p operator_token host now s (host_is_plain machine sample)).
  rewrite print_reads_back; [|apply status_shaped|done|done].
  destruct (host_texts_escapable machine sample) as [H1 H2]. by rewrite status_readable.
Qed.

(** C21: The status page is JSON, for every state of the vehicle, exactly when the
    numbers it shows are finite and the texts of the messages have no control
    character other than tab, newline and carriage return: reading the text then
    gives back exactly the document of the fields, and nothing but the final
    newline is left; otherwise it is an error, because the stream writes [nan] or
    [inf] and [json_escape] copies the control character. *)
Theorem status_page_is_json p operator_token machine sample now s fuel :
  let host := snd (host_metrics machine sample) in
  (cost (status_document p operator_token host now s) <= fuel)%nat ->
  read fuel (status_json p operator_token host now s) =
    if forallb isfinite (shown_decimals host now s) && forallb escapable (shown_texts s)
    then Some (status_document p operator_token host now s, newline) else None.
Proof. apply page_reads. Qed.

(** A latency that is not a number spoils the whole page: a policy status with a NaN makes
    the text unreadable as JSON, whatever the rest of the vehicle reports. *)
Theorem nan_latency_breaks_the_page p operator_token machine sample now s m fuel :
  let host := snd (host_metrics machine sample) in
  message (policy_ s) = Some m -> is_nan (PolicyStatus.inference_latency_ms m) = true ->
  (cost (status_document p operator_token host now s) <= fuel)%nat ->
  read fuel (status_json p operator_token host now s) = None.
Proof.
  intros host Hm Hn Hf. subst host. rewrite page_reads by done.
  set (host := snd (host_metrics machine sample)).
  assert (forallb isfinite (shown_decimals host now s) = false) as ->; [|done].
  unfold shown_decimals, decimals_of. rewrite !forallb_app, Hm. cbn [forallb].
  destruct (PolicyStatus.inference_latency_ms m); try done. cbn [isfinite]. by rewrite !andb_false_r.
Qed.

(** So does one control character: a task with a backspace, for example, which the
    operator can type, makes the page unreadable while the episode is shown. *)
Theorem control_character_breaks_the_page p operator_token machine sample now s m fuel :
  let host := snd (host_metrics machine sample) in
  message (episode_ s) = Some m -> escapable (EpisodeState.task m) = false ->
  (cost (status_document p operator_token host now s) <= fuel)%nat ->
  read fuel (status_json p operator_token host now s) = None.
Proof.
  intros host Hm Hn Hf. subst host. rewrite page_reads by done.
  set (host := snd (host_metrics machine sample)).
  assert (forallb escapable (shown_texts s) = false) as ->; [|by rewrite andb_false_r].
  unfold shown_texts, texts_of. rewrite !forallb_app, Hm. cbn [forallb]. rewrite Hn.
  by rewrite !andb_false_l, !andb_false_r.
Qed.

(** ** The processor usage *)

(** The usage is the share of the ticks since the last sample that were not idle: with
    counters that have grown it is their difference, and it is 0 when the idle counters
    went backwards; the busy ticks are never negative nor more than all of them. *)
Theorem usage_is_the_busy_share idle total s :
  0 <= idle < 2 ^ 64 -> 0 <= total < 2 ^ 64 -> 0 <= previous_idle s < 2 ^ 64 -> 0 <= previous_total s < 2 ^ 64 ->
  let '(busy, all) := busy_ticks idle total s in
  0 <= busy <= all /\ all < 2 ^ 64 /\
  (previous_total s <= total -> previous_idle s <= idle -> idle - previous_idle s <= total - previous_total s ->
     all = total - previous_total s /\ busy = all - (idle - previous_idle s)) /\
  (previous_total s <= total -> idle < previous_idle s -> total - previous_total s <= 2 ^ 64 - (previous_idle s - idle) -> busy = 0).
Proof.
  intros Hi Ht Hpi Hpt. unfold busy_ticks. cbv zeta.
  pose proof (wrap_range 64 (total - previous_total s)) as Hr1. pose proof (wrap_range 64 (idle - previous_idle s)) as Hr2.
  assert (forall z, - 2 ^ 64 < z < 0 -> wrap64 z = z + 2 ^ 64) as Hneg.
  { intros z Hz. unfold wrap64, wrap. rewrite <- (Z_mod_plus_full z 1). rewrite Z.mod_small; lia. }
  unfold wrap64 in *. split; [lia|split; [lia|split]].
  - intros. rewrite !wrap_small by lia. lia.
  - intros. rewrite (wrap_small 64 (total - _)) by lia. rewrite Hneg by lia. lia.
Qed.

(** ** The parameters *)

(** A configuration that is accepted has a port, a web root and both roots; the workers are
    1 to 32 and the queue has room for one client each, at most 256; the time
    limits are in their intervals unless they are NaN; the calibration has two paths. *)
Theorem configured_parameters_are_in_range q r : configure q = Done r ->
  1 <= port_ r <= 65535 /\ web_root_is_directory r = true /\ project_root_ r <> ""%string /\ jobs_root_ r <> ""%string /\
  1 <= http_worker_count_ r <= 32 /\ http_worker_count_ r <= http_queue_limit_ r <= 256 /\
  (is_nan (http_socket_timeout_seconds_ q) = false ->
     dle (lit 5 1) (http_socket_timeout_seconds_ r) = true /\ dle (http_socket_timeout_seconds_ r) (of_int 30) = true) /\
  (is_nan (camera_calibration_verify_timeout_seconds_ q) = false ->
     dle (of_int 1) (camera_calibration_verify_timeout_seconds_ r) = true /\
     dle (camera_calibration_verify_timeout_seconds_ r) (of_int 30) = true) /\
  camera_calibration_path_ r <> ""%string /\ camera_calibration_metadata_path_ r <> ""%string.
Proof.
  unfold configure. destruct (_ || _) eqn:E; [done|]. cbv zeta. intros E'%(f_equal (fun r => match r with Done x => x | Raised _ => q end)).
  rewrite !orb_false_iff in E. destruct E as ((((Ep1%Z.ltb_ge & Ep2%Z.ltb_ge) & Ew%negb_false_iff) & Epr) & Ej).
  assert (forall path name, name <> ""%string -> or_in_project q path name <> ""%string) as Ho.
  { intros path name Hn. unfold or_in_project. destruct (str_empty path) eqn:Hp; [|by intros ->].
    unfold path_join. rewrite Epr. destruct (starts_with_slash name); [done|]. cbn [orb].
    destruct (project_root_ q) as [|c t]; [done|]. by destruct (ends_with_slash _). }
  assert (forall v lo hi, lo <= hi -> lo <= clamp v lo hi <= hi) as Hcl.
  { intros v lo hi Hlh. unfold clamp. destruct (Z.ltb_spec v lo); [lia|]. destruct (Z.ltb_spec hi v); lia. }
  subst r. cbn. pose proof (Hcl (http_worker_count_ q) 1 32 ltac:(lia)) as Hw.
  pose proof (Hcl (http_queue_limit_ q) (clamp (http_worker_count_ q) 1 32) 256 ltac:(lia)) as Hq.
  split_and!; try lia; try done; try (by intros E'; rewrite E' in *); try (by apply Ho).
  - intros Hn. apply dclamp_bounds; [done|by vm_compute].
  - intros Hn. apply dclamp_bounds; [done|by vm_compute].
Qed.

(** ** A page *)
Module Panel.
Definition machine : Machine :=
  MakeMachine (Some "0.52 0.40 1/200 7") (Some "12345.67 1.0")
    (Some (String.concat newline ["MemTotal:       16384 kB"; "MemAvailable:    8192 kB"; "SwapTotal: 0 kB"]%string))
    (Some "cpu  100 0 50 800 50 0 0 0 0 0") [MakeZone (Some "cpu-thermal") (Some "45500")] None 8.
Definition settings : Settings := MakeSettings (of_int 3) (of_int 2) (lit 5 1) (lit 5 1) (lit 2 2) (lit 5 2).
Definition policy (latency : float32) : PolicyStatus.PolicyStatusMsg :=
  PolicyStatus.Make Header.zero 2 "smolvla" "model" "1" "o" "a" latency (String dquote "ready").
Definition state (latency : float32) : VehicleOpsApi := initial <| policy_ := update (policy latency) 1000 |>.
Definition host : HostMetrics := snd (host_metrics machine no_sample).
Definition page (latency : float32) : string := status_json settings "token" host 2000000 (state latency).

Example host_load : fixed2 (load host) = "0.52"%string /\ fixed2 (total host) = "16.00"%string /\
  fixed2 (cpu_temperature host) = "45.50"%string /\ fixed2 (cpu_usage host) = "15.00"%string.
Proof. vm_compute. repeat split. Qed.

Lemma printed_documents_read_back_witness :
  read 5 (print (D_object [("a", D_text (String dquote "")); ("b", D_number "-1.50")]%string) newline)
  = Some (D_object [("a", D_text (String dquote "")); ("b", D_number "-1.50")]%string, newline).
Proof.
  rewrite (printed_documents_read_back _ newline 5); [reflexivity|reflexivity|reflexivity|].
  apply Nat.leb_le. vm_compute. reflexivity.
Defined.

(** a page with a latency of 0.50 ms and a quotation mark in a message is read; one with a
    latency that is not finite, or a backspace in a message, is not *)
Definition unprintable : PolicyStatus.PolicyStatusMsg :=
  PolicyStatus.Make Header.zero 2 "smolvla" "model" "1" "o" "a" (litf 5 1) (String (ascii_of_nat 8) "").
Definition spoiled : VehicleOpsApi := initial <| policy_ := update unprintable 1000 |>.
Lemma status_page_is_json_witness :
  (exists members, read 200 (page (litf 5 1)) = Some (D_object members, newline) /\ List.length members = 10%nat) /\
  read 200 (page (S754_infinity true)) = None /\ read 200 (status_json settings "token" host 2000000 spoiled) = None.
Proof.
  split; [|split].
  - eexists. split.
    + etransitivity; [apply (status_page_is_json settings "token" machine no_sample 2000000 (state (litf 5 1)) 200)|vm_compute; reflexivity].
      apply Nat.leb_le. vm_compute. reflexivity.
    + reflexivity.
  - etransitivity; [apply (status_page_is_json settings "token" machine no_sample 2000000 (state (S754_infinity true)) 200)|vm_compute; reflexivity].
    apply Nat.leb_le. vm_compute. reflexivity.
  - etransitivity; [apply (status_page_is_json settings "token" machine no_sample 2000000 spoiled 200)|vm_compute; reflexivity].
    apply Nat.leb_le. vm_compute. reflexivity.
Defined.

Lemma nan_latency_breaks_the_page_witness : read 200 (page S754_nan) = None.
Proof.
  apply (nan_latency_breaks_the_page settings "token" machine no_sample 2000000 (state S754_nan) (policy S754_nan) 200);
    [vm_compute; reflexivity|vm_compute; reflexivity|].
  apply Nat.leb_le. vm_compute. reflexivity.
Defined.

Definition typed_task : EpisodeState.EpisodeStateMsg :=
  EpisodeState.Make Header.zero 1 "episode" (String (ascii_of_nat 8) "") "" 0 0 S754_nan "".
Definition recording : VehicleOpsApi := initial <| episode_ := update typed_task 1000 |>.
Lemma control_character_breaks_the_page_witness : read 200 (status_json settings "token" host 2000000 recording) = None.
Proof.
  apply (control_character_breaks_the_page settings "token" machine no_sample 2000000 recording typed_task 200);
    [vm_compute; reflexivity|vm_compute; reflexivity|].
  apply Nat.leb_le. vm_compute. reflexivity.
Defined.

Lemma usage_is_the_busy_share_witness :
  let '(busy, all) := busy_ticks 1100 2200 (MakeSample 1000 2000) in all = 200 /\ busy = 100.
Proof.
  destruct (usage_is_the_busy_share 1100 2200 (MakeSample 1000 2000)) as (_ & _ & Hb & _); try (cbn; lia).
  destruct (Hb ltac:(cbn; lia) ltac:(cbn; lia) ltac:(cbn; lia)) as [Ha Hc]. split; [rewrite Ha|rewrite Hc, Ha]; reflexivity.
Defined.

Definition parameters : Parameters := MakeParameters 8088 true "/srv" "/srv/run/ops/jobs" 99 1 (of_int 3) (of_int 8) "" "".
Lemma configured_parameters_are_in_range_witness :
  exists r, configure parameters = Done r /\ 1 <= http_worker_count_ r <= 32 /\ http_worker_count_ r <= http_queue_limit_ r.
Proof.
  eexists. split; [reflexivity|].
  destruct (configured_parameters_are_in_range parameters _ eq_refl) as (_ & _ & _ & _ & Hw & Hq & _).
  split; [exact Hw|exact (proj1 Hq)].
Defined.
End Panel.
