(* ===== verification/Storage.v ===== *)
(** * The storage manager

    Models [vehicle_storage/src/storage_manager_node.cpp]: listing and selective
    cleanup of the configured storage categories.  The services run on one
    executor thread over the file system of [FileSystem], which other processes
    change between them; which entries the operating system refuses to remove is
    the [World] of a cleanup, the times of writing and the readings of the two
    clocks are the [Times] of a listing.  The rendering of relative paths is a
    parameter. *)
From S2P Require Import Prelude Floats Messages FileSystem.
From stdpp Require Import sorting.
Local Open Scope Z_scope.

Record CategoryDefinition := MakeCategory {
  id : string;
  display_name : string;
  root : path;
  cleanup_allowed : bool }.

Record StorageManager := MakeManager {
  warning_used_percent_ : double;
  critical_used_percent_ : double;
  category_order_ : list string;
  categories_ : gmap string CategoryDefinition;
  active_episode_id_ : string }.
#[export] Instance eta_manager : Eta StorageManager := fun s =>
  MakeManager (warning_used_percent_ s) (critical_used_percent_ s) (category_order_ s)
    (categories_ s) (active_episode_id_ s).

(** one configured category: id, display name, path below the project, flag *)
Record CategoryParameters := MakeParameters {
  p_id : string; p_display_name : string; p_path : path; p_cleanup_allowed : bool }.

(** the constructor: [emplace] keeps the first definition of an id *)
Definition add_category (project_root : path) (s : StorageManager) (p : CategoryParameters)
  : StorageManager :=
  let definition := MakeCategory (p_id p) (p_display_name p) (project_root ++ p_path p)
    (p_cleanup_allowed p) in
  s <| categories_ := match categories_ s !! p_id p with
                      | Some _ => categories_ s
                      | None => <[p_id p := definition]> (categories_ s)
                      end |>
    <| category_order_ := category_order_ s ++ [p_id p] |>.

Definition constructor (project_root : path) (warning critical : double)
    (parameters : list CategoryParameters) : Outcome StorageManager :=
  match project_root with
  | [] => Throws "project_root must be configured"
  | _ => Returns (fold_left (add_category project_root) parameters
           (MakeManager warning critical [] ∅ ""))
  end.

Definition on_episode (m : EpisodeState.EpisodeStateMsg) (s : StorageManager) : StorageManager :=
  s <| active_episode_id_ :=
    if (EpisodeState.state m =? EpisodeState.STATE_RECORDING) ||
       (EpisodeState.state m =? EpisodeState.STATE_FINALIZING)
    then EpisodeState.episode_id m else ""%string |>.

(** ** Sizes and names *)
Definition path_size (fs : filesystem) (p : path) : Z :=
  match fs !! p with
  | Some (File size _) => size
  | Some Directory => wrap64 (bytes_below fs p)
  | _ => 0
  end.

(** A POSIX path without a slash has no parent path and is its own file name,
    one with a slash has a parent path. *)
Definition valid_item_id (value : string) : bool :=
  if str_empty value || str_eqb value "." || str_eqb value ".." then false
  else negb (str_has "/" value).

Definition is_protected_item (fs : filesystem) (s : StorageManager) (c : CategoryDefinition)
    (item_id : string) : bool :=
  if negb (cleanup_allowed c) then true
  else if str_eqb (id c) "episodes" then
    negb (str_empty (active_episode_id_ s)) && str_eqb item_id (active_episode_id_ s)
  else if str_eqb (id c) "jobs" then
    match fs !! (root c ++ [item_id; "status.json"]%string) with
    | Some (File _ content) =>
        str_contains (quoted "'state': 'running'") content ||
        str_contains (quoted "'state': 'queued'") content
    | _ => false
    end
  else false.

(** The times of a listing, in nanoseconds: when an entry was written, on the
    clock of the file system ([None]: [last_write_time] fails), and what the two
    clocks read when its time is converted. *)
Record Times := MakeTimes {
  last_write_time : path -> option Z;
  file_clock : path -> Z;
  system_clock : path -> Z }.

Definition time_of_nanoseconds (nanoseconds : Z) : Time :=
  MakeTime (swrap32 (Z.quot nanoseconds 1000000000)) (wrap32 (Z.rem nanoseconds 1000000000)).
Definition modified_time (times : Times) (p : path) : Time :=
  match last_write_time times p with
  | None => time_zero
  | Some file_time => time_of_nanoseconds (swrap64 (file_time - file_clock times p + system_clock times p))
  end.

Section Listing.
Variable times : Times.
Variable display_path : path -> string.

Definition make_item (fs : filesystem) (s : StorageManager) (c : CategoryDefinition)
    (name : string) : StorageItem.StorageItemMsg :=
  let p := root c ++ [name] in
  let is_protected := is_protected_item fs s c name in
  StorageItem.Make name name (display_path p) (path_size fs p) (modified_time times p) is_protected
    (if is_protected then
       (if cleanup_allowed c then "正在使用，禁止删除" else "该分类只读") else "可清理").

(** the comparator: later modification first *)
Definition newer (a b : StorageItem.StorageItemMsg) : bool :=
  let ta := StorageItem.modified_at a in let tb := StorageItem.modified_at b in
  if negb (sec ta =? sec tb) then sec tb <? sec ta else nanosec tb <? nanosec ta.
(** [std::sort] may put equivalent items in any order; the model sorts stably *)
Definition not_older (a b : StorageItem.StorageItemMsg) : Prop := newer b a = false.
#[export] Instance not_older_dec a b : Decision (not_older a b) := decide (newer b a = false).

Definition items_for (fs : filesystem) (s : StorageManager) (c : CategoryDefinition)
  : list StorageItem.StorageItemMsg :=
  if negb (is_directory (fs !! root c)) then []
  else merge_sort not_older (omap (fun name =>
    if is_symlink (fs !! (root c ++ [name])) then None else Some (make_item fs s c name))
    (children fs (root c))).

(** ** Status *)
Record StatusResponse := MakeStatus {
  total_bytes : Z; available_bytes : Z; used_bytes : Z; used_percent : float32;
  level : string; status_message : string; categories : list StorageCategory.StorageCategoryMsg }.

Definition category_status (fs : filesystem) (s : StorageManager) (name : string)
  : option StorageCategory.StorageCategoryMsg :=
  match categories_ s !! name with
  | None => None                        (* [at] cannot fail: [category_order_] holds keys *)
  | Some c =>
      let items := items_for fs s c in
      Some (StorageCategory.Make name (display_name c) (display_path (root c))
        (fold_left (fun acc i => wrap64 (acc + StorageItem.bytes i)) items 0)
        (Z.of_nat (List.length items)) (cleanup_allowed c) false
        (if cleanup_allowed c then "支持选择性清理" else "只读保护"))
  end.

(** [space] is [None] when [fs::space] reports an error *)
Definition on_status (space : option (Z * Z)) (fs : filesystem) (s : StorageManager)
  : StatusResponse :=
  let '(capacity, available, used, percent) :=
    match space with
    | None => (0, 0, 0, fzero)
    | Some (capacity, available) =>
        let used := wrap64 (capacity - available) in
        (capacity, available, used,
         if 0 <? capacity
         then to_float (ddiv (dmul (of_int 100) (of_int used)) (of_int capacity)) else fzero)
    end in
  let level' :=
    if dle (critical_used_percent_ s) (to_double percent) then "critical"%string
    else if dle (warning_used_percent_ s) (to_double percent) then "warning"%string
    else "normal"%string in
  MakeStatus capacity available used percent level'
    (if str_eqb level' "normal" then "存储空间正常"
     else if str_eqb level' "warning" then "存储空间接近告警阈值" else "存储空间严重不足")
    (omap (category_status fs s) (category_order_ s)).

(** ** Listing *)
Record ListResponse := MakeList {
  list_accepted : bool; items : list StorageItem.StorageItemMsg; list_message : string }.

Definition on_list (fs : filesystem) (s : StorageManager) (category_id : string) : ListResponse :=
  match categories_ s !! category_id with
  | None => MakeList false [] "未知存储分类"
  | Some c => MakeList true (items_for fs s c) "存储明细已加载"
  end.
End Listing.

(** ** Cleanup *)
Record CleanupRequest := MakeCleanup {
  category_id : string; item_ids : list string; dry_run : bool }.
Record CleanupResponse := MakeCleaned {
  accepted : bool; message : string; bytes : Z; item_count : Z }.

Record World := MakeWorld {
  survives : path -> bool;              (* entries that cannot be removed *)
  truncate_fails : path -> bool }.

(** the validation loop: the first bad item ends it with a message; [bytes]
    has been summed up to that item *)
Fixpoint validate_items (fs : filesystem) (s : StorageManager) (c : CategoryDefinition)
    (item_ids : list string) (bytes : Z) : Z * Outcome (list string) :=
  match item_ids with
  | [] => (bytes, Returns [])
  | item_id :: r =>
      if negb (valid_item_id item_id) then (bytes, Throws "非法项目 ID")
      else
        let status := fs !! (root c ++ [item_id]) in
        if negb (exists_ status) || is_symlink status then
          (bytes, Throws ("项目不存在或不允许清理: " ++ item_id))
        else if is_protected_item fs s c item_id then
          (bytes, Throws ("项目正在使用或受保护: " ++ item_id))
        else
          let '(total, outcome) := validate_items fs s c r
            (wrap64 (bytes + path_size fs (root c ++ [item_id]))) in
          (total, obind outcome (fun targets => Returns (item_id :: targets)))
  end.

Definition clean_one (w : World) (c : CategoryDefinition) (item_id : string) (fs : filesystem)
  : filesystem * bool :=
  let target := root c ++ [item_id] in
  if str_eqb (id c) "component_logs" && is_regular_file (fs !! target) then
    truncate (truncate_fails w) target fs
  else remove_all (survives w) target fs.

Fixpoint clean_items (w : World) (c : CategoryDefinition) (targets : list string) (fs : filesystem)
  : filesystem * option string :=
  match targets with
  | [] => (fs, None)
  | item_id :: r =>
      let '(fs', error) := clean_one w c item_id fs in
      if error then (fs', Some item_id) else clean_items w c r fs'
  end.

Definition on_cleanup (w : World) (fs : filesystem) (s : StorageManager) (request : CleanupRequest)
  : filesystem * CleanupResponse :=
  let refuse m := (fs, MakeCleaned false m 0 0) in
  match categories_ s !! category_id request with
  | None => refuse "未知存储分类"%string
  | Some c =>
      if negb (cleanup_allowed c) then refuse "该存储分类禁止清理"%string
      else if (List.length (item_ids request) =? 0)%nat || (100 <? List.length (item_ids request))%nat
      then refuse "请选择 1 到 100 个项目"%string
      else
        let '(total, outcome) := validate_items fs s c (item_ids request) 0 in
        match outcome with
        | Throws m => (fs, MakeCleaned false m total 0)
        | Returns targets =>
            let n := Z.of_nat (List.length targets) in
            if dry_run request then (fs, MakeCleaned true "清理预览已生成" total n)
            else
              let '(fs', failed) := clean_items w c targets fs in
              match failed with
              | Some item_id => (fs', MakeCleaned false ("清理失败: " ++ item_id) total n)
              | None => (fs', MakeCleaned true "选中项目已清理" total n)
              end
        end
  end.

(** ** Validation *)
Definition cleanable (fs : filesystem) (s : StorageManager) (c : CategoryDefinition)
    (item_id : string) : Prop :=
  valid_item_id item_id = true /\ is_Some (fs !! (root c ++ [item_id])) /\
  is_symlink (fs !! (root c ++ [item_id])) = false /\
  is_protected_item fs s c item_id = false.

Lemma validate_items_spec fs s c ids bytes total targets :
  validate_items fs s c ids bytes = (total, Returns targets) ->
  targets = ids /\ Forall (cleanable fs s c) ids.
Proof.
  revert bytes total targets. induction ids as [|i r IH]; intros bytes total targets; simpl.
  { intros [= <- <-]. split; [done|constructor]. }
  destruct (valid_item_id i) eqn:Hv; simpl; [|done].
  destruct (negb (exists_ _) || _) eqn:He; [done|].
  destruct (is_protected_item fs s c i) eqn:Hp; [done|].
  destruct (validate_items fs s c r _) as [t o] eqn:E. intros [= <- Ho].
  apply obind_returns in Ho as (ts & -> & [= <-]). apply IH in E as [-> Hf].
  split; [done|]. constructor; [|done]. apply orb_false_iff in He as [He Hs].
  split; [done|]. split; [|done]. apply negb_false_iff in He.
  destruct (fs !! (root c ++ [i])) eqn:E; [by eexists|done].
Qed.

(** ** What a cleanup can touch *)
Lemma clean_one_outside w c i fs q :
  under (root c ++ [i]) q = false -> fst (clean_one w c i fs) !! q = fs !! q.
Proof.
  intros Hq. unfold clean_one. destruct (_ && _);
    [by apply truncate_outside|by apply remove_all_outside].
Qed.

Lemma clean_items_outside w c ids fs q :
  Forall (fun i => under (root c ++ [i]) q = false) ids ->
  fst (clean_items w c ids fs) !! q = fs !! q.
Proof.
  intros Hids. revert fs. induction Hids as [|i r Hi _ IH]; intros fs; [done|]. simpl.
  pose proof (clean_one_outside w c i fs q Hi) as H1.
  destruct (clean_one w c i fs) as [fs1 []]; simpl in *; [done|]. by rewrite IH.
Qed.

Lemma on_cleanup_cases w fs s request fs' response :
  on_cleanup w fs s request = (fs', response) ->
  fs' = fs \/
  exists c, categories_ s !! category_id request = Some c /\ cleanup_allowed c = true /\
    dry_run request = false /\ Forall (cleanable fs s c) (item_ids request) /\
    (1 <= List.length (item_ids request) <= 100)%nat /\
    fs' = fst (clean_items w c (item_ids request) fs) /\
    accepted response = match snd (clean_items w c (item_ids request) fs) with
                        | None => true | Some _ => false end.
Proof.
  unfold on_cleanup. destruct (categories_ s !! category_id request) as [c|];
    [|intros [= <- _]; by left].
  destruct (cleanup_allowed c) eqn:Ha; simpl; [|intros [= <- _]; by left].
  destruct (_ || _) eqn:Hn; [intros [= <- _]; by left|].
  destruct (validate_items fs s c (item_ids request) 0) as [total [targets|m]] eqn:Hv;
    [|intros [= <- _]; by left].
  apply validate_items_spec in Hv as [-> Hf]. destruct (dry_run request) eqn:Hd;
    [intros [= <- _]; by left|].
  destruct (clean_items w c (item_ids request) fs) as [fs1 failed] eqn:Hc. intros E. right.
  exists c. rewrite Hc. apply orb_false_iff in Hn as [Hn1%Nat.eqb_neq Hn2%Nat.ltb_ge].
  destruct failed; simplify_eq/=; (split_and!; try done; lia).
Qed.

Lemma cleanup_effect w fs s request fs' response :
  on_cleanup w fs s request = (fs', response) ->
  (dry_run request = true -> fs' = fs) /\
  forall q, fs' !! q <> fs !! q ->
    exists c item_id, categories_ s !! category_id request = Some c /\ cleanup_allowed c = true /\
      item_id ∈ item_ids request /\ cleanable fs s c item_id /\
      under (root c ++ [item_id]) q = true.
Proof.
  intros E. apply on_cleanup_cases in E as [->|(c & Hc & Ha & Hd & Hf & _ & -> & _)]; [by split|].
  split; [congruence|]. intros q Hq.
  destruct (decide (Forall (fun i => under (root c ++ [i]) q = false) (item_ids request))) as [Hall|Hnot].
  - by rewrite clean_items_outside in Hq.
  - apply not_Forall_Exists in Hnot; [|intros i; apply _].
    apply Exists_exists in Hnot as (i & Hi & Hu). apply not_false_iff_true in Hu.
    exists c, i. split_and!; try done. by eapply Forall_forall in Hf.
Qed.

(** one protected item refuses the whole cleanup *)
Lemma cleanup_refused w fs s request fs' response c item_id :
  categories_ s !! category_id request = Some c -> item_id ∈ item_ids request ->
  is_protected_item fs s c item_id = true -> on_cleanup w fs s request = (fs', response) ->
  fs' = fs /\ accepted response = false.
Proof.
  intros Hc Hin Hp. unfold on_cleanup. rewrite Hc.
  destruct (negb (cleanup_allowed c)); [by intros [= <- <-]|]. destruct (_ || _); [by intros [= <- <-]|].
  destruct (validate_items fs s c (item_ids request) 0) as [total [targets|m]] eqn:Hv; [|by intros [= <- <-]].
  apply validate_items_spec in Hv as [_ Hf]. rewrite List.Forall_forall in Hf.
  destruct (Hf item_id) as (_ & _ & _ & Hnot); [by apply list_elem_of_In|congruence].
Qed.

(** A cleanup touches nothing but the selected items: refused and dry-run
    requests leave the file system as it is, and a cleanup that runs, even one
    that fails half way, only changes paths below the requested items of a
    category that allows it, each of which existed, was no symbolic link, had
    a plain name and was not protected. *)
Theorem cleanup_touches_only_selected_items w fs s request fs' response :
  on_cleanup w fs s request = (fs', response) ->
  (dry_run request = true -> fs' = fs) /\
  forall q, fs' !! q <> fs !! q ->
    exists c item_id, categories_ s !! category_id request = Some c /\ cleanup_allowed c = true /\
      item_id ∈ item_ids request /\ cleanable fs s c item_id /\
      under (root c ++ [item_id]) q = true.
Proof. apply cleanup_effect. Qed.

(** after an announced recording, nothing in that episode's directory changes *)
Lemma active_episode_untouched w fs s m request fs' response c q :
  EpisodeState.state m = EpisodeState.STATE_RECORDING \/
    EpisodeState.state m = EpisodeState.STATE_FINALIZING ->
  EpisodeState.episode_id m <> ""%string ->
  categories_ s !! "episodes"%string = Some c -> id c = "episodes"%string ->
  category_id request = "episodes"%string ->
  on_cleanup w fs (on_episode m s) request = (fs', response) ->
  under (root c ++ [EpisodeState.episode_id m]) q = true ->
  fs' !! q = fs !! q.
Proof.
  intros Hm Hne Hc Hid Hcat E Hq.
  assert (active_episode_id_ (on_episode m s) = EpisodeState.episode_id m) as Hact.
  { unfold on_episode; simpl. destruct Hm as [-> | ->]; done. }
  destruct (decide (fs' !! q = fs !! q)) as [|Hneq]; [done|]. exfalso.
  apply cleanup_effect in E as [_ E].
  destruct (E q Hneq) as (c' & i & Hc' & _ & _ & (_ & _ & _ & Hp) & Hu).
  rewrite Hcat in Hc'. simpl in Hc'. rewrite Hc in Hc'. injection Hc' as <-.
  destruct (decide (i = EpisodeState.episode_id m)) as [->|Hi].
  - unfold is_protected_item in Hp. rewrite Hid, Hact in Hp.
    destruct (cleanup_allowed c); [|done]. simpl in Hp. rewrite str_eqb_refl in Hp.
    destruct (EpisodeState.episode_id m); done.
  - by eapply under_sibling.
Qed.

Lemma clean_one_done w c i fs q :
  snd (clean_one w c i fs) = false -> under (root c ++ [i]) q = true ->
  str_eqb (id c) "component_logs" = false ->
  fst (clean_one w c i fs) !! q = None.
Proof.
  unfold clean_one. intros Hs Hu Hl. rewrite Hl in *. simpl in *. by apply remove_all_inside.
Qed.

Lemma clean_one_none w c i fs q :
  str_eqb (id c) "component_logs" = false -> fs !! q = None ->
  fst (clean_one w c i fs) !! q = None.
Proof. unfold clean_one. intros -> Hq. by apply remove_all_none. Qed.

Lemma clean_items_none w c ids fs q :
  str_eqb (id c) "component_logs" = false -> fs !! q = None ->
  fst (clean_items w c ids fs) !! q = None.
Proof.
  intros Hl. revert fs. induction ids as [|i r IH]; intros fs Hq; [done|]. simpl.
  pose proof (clean_one_none w c i fs q Hl Hq) as H1.
  destruct (clean_one w c i fs) as [fs1 []]; simpl in *; auto.
Qed.

(** When a cleanup that is no dry run is reported as accepted, every selected
    item is gone with everything below it (component logs, which are truncated
    instead, apart). *)
Theorem accepted_cleanup_removes_items w fs s request fs' response c :
  on_cleanup w fs s request = (fs', response) -> accepted response = true ->
  dry_run request = false -> categories_ s !! category_id request = Some c ->
  id c <> "component_logs"%string ->
  forall item_id q, item_id ∈ item_ids request -> under (root c ++ [item_id]) q = true ->
  fs' !! q = None.
Proof.
  intros E Hacc Hd Hc Hl i q Hi Hu. unfold on_cleanup in E. rewrite Hc in E.
  destruct (negb (cleanup_allowed c)); [by simplify_eq|].
  destruct (_ || _); [by simplify_eq|].
  destruct (validate_items fs s c (item_ids request) 0) as [total [targets|m]] eqn:Hv;
    [|by simplify_eq]. apply validate_items_spec in Hv as [-> _]. rewrite Hd in E.
  destruct (clean_items w c (item_ids request) fs) as [fs1 [x|]] eqn:Hcl; [by simplify_eq|].
  injection E as <- _. clear Hacc Hd Hc. apply str_eqb_neq in Hl. revert fs Hcl.
  induction (item_ids request) as [|j r IH]; [by apply elem_of_nil in Hi|]. intros fs Hcl.
  simpl in Hcl. destruct (clean_one w c j fs) as [fs2 []] eqn:H1; [done|].
  apply elem_of_cons in Hi as [->|Hi]; [|by eapply IH].
  pose proof (clean_one_done w c j fs q) as Hdone. rewrite H1 in Hdone.
  pose proof (clean_items_none w c r fs2 q Hl) as Hnone. rewrite Hcl in Hnone. simpl in *. auto.
Qed.

(** ** The node: one callback at a time *)
Inductive Event :=
| EpisodeStateReceived (m : EpisodeState.EpisodeStateMsg)
| StatusRequested (times : Times) (space : option (Z * Z))
| ListRequested (times : Times) (category_id : string)
| CleanupRequested (w : World) (request : CleanupRequest)
| DiskChanged (fs : filesystem).                (* by another process *)
Inductive Output :=
| StatusAnswered (r : StatusResponse)
| ListAnswered (r : ListResponse)
| CleanupAnswered (r : CleanupResponse).

Definition next (display_path : path -> string) (sf : StorageManager * filesystem) (e : Event)
  : (StorageManager * filesystem) * list Output :=
  let '(s, fs) := sf in
  match e with
  | EpisodeStateReceived m => ((on_episode m s, fs), [])
  | StatusRequested times space => (sf, [StatusAnswered (on_status times display_path space fs s)])
  | ListRequested times category_id => (sf, [ListAnswered (on_list times display_path fs s category_id)])
  | CleanupRequested w request =>
      let '(fs', response) := on_cleanup w fs s request in ((s, fs'), [CleanupAnswered response])
  | DiskChanged fs' => ((s, fs'), [])
  end.

(** ** Listing *)

(** nanoseconds since 1970 that a [Time] can hold *)
Lemma time_of_nanoseconds_exact n : 0 <= n < 2 ^ 31 * 1000000000 ->
  sec (time_of_nanoseconds n) * 1000000000 + nanosec (time_of_nanoseconds n) = n /\
  0 <= nanosec (time_of_nanoseconds n) < 1000000000.
Proof.
  intros Hn. unfold time_of_nanoseconds, swrap32, wrap32; cbn [sec nanosec].
  assert (0 <= Z.quot n 1000000000 < 2 ^ 31) by (Z.to_euclidean_division_equations; lia).
  assert (0 <= Z.rem n 1000000000 < 1000000000) by (Z.to_euclidean_division_equations; lia).
  rewrite swrap_small, wrap_small by lia. pose proof (Z.quot_rem' n 1000000000). lia.
Qed.

(** the comparator goes by time, as long as the times fit *)
Lemma newer_is_later a b n m :
  0 <= n < 2 ^ 31 * 1000000000 -> 0 <= m < 2 ^ 31 * 1000000000 ->
  StorageItem.modified_at a = time_of_nanoseconds n -> StorageItem.modified_at b = time_of_nanoseconds m ->
  newer a b = (m <? n).
Proof.
  intros Hn Hm Ha Hb. unfold newer. rewrite Ha, Hb. clear Ha Hb.
  destruct (time_of_nanoseconds_exact n Hn) as [En Rn], (time_of_nanoseconds_exact m Hm) as [Em Rm].
  destruct (Z.eqb_spec (sec (time_of_nanoseconds n)) (sec (time_of_nanoseconds m))) as [E|E];
    apply eq_bool_prop_intro; rewrite !Is_true_true; cbn [negb]; rewrite !Z.ltb_lt; nia.
Qed.

(** what is written after January 2038 is listed as the oldest *)
Example after_2038 : sec (time_of_nanoseconds (2 ^ 31 * 1000000000)) = - 2 ^ 31.
Proof. reflexivity. Qed.

Lemma not_older_total a b : not_older a b \/ not_older b a.
Proof.
  unfold not_older, newer.
  destruct (Z.eqb_spec (sec (StorageItem.modified_at a)) (sec (StorageItem.modified_at b)))
    as [E|E], (Z.eqb_spec (sec (StorageItem.modified_at b)) (sec (StorageItem.modified_at a)))
    as [E'|E']; try congruence; simpl; rewrite !Z.ltb_ge; lia.
Qed.
#[export] Instance not_older_total_instance : Total not_older := not_older_total.

(** A listing is complete and ordered: it contains exactly the entries
    directly inside the category's directory that are not symbolic links, each
    once for every entry, newest first, and marks as protected exactly what a
    cleanup would refuse as protected. *)
Theorem listing_is_complete_and_sorted times display fs s c :
  is_directory (fs !! root c) = true ->
  let l := items_for times display fs s c in
  Sorted not_older l /\
  l ≡ₚ omap (fun name => if is_symlink (fs !! (root c ++ [name])) then None
                        else Some (make_item times display fs s c name)) (children fs (root c)) /\
  (forall name, (exists i, i ∈ l /\ StorageItem.item_id i = name) <->
     is_Some (fs !! (root c ++ [name])) /\ is_symlink (fs !! (root c ++ [name])) = false) /\
  Forall (fun i => StorageItem.is_protected i =
                   is_protected_item fs s c (StorageItem.item_id i)) l.
Proof.
  intros Hd l. unfold l, items_for. rewrite Hd. simpl. set (entries := omap _ (children fs (root c))).
  pose proof (merge_sort_Permutation not_older entries) as Hp.
  split; [apply Sorted_merge_sort, _|]. split; [done|]. split.
  - intros name. rewrite <- children_spec, <- list_elem_of_In. split.
    + intros (i & Hi & Hn). rewrite Hp in Hi. unfold entries in Hi.
      apply list_elem_of_omap in Hi as (x & Hx & He).
      destruct (is_symlink (fs !! (root c ++ [x]))) eqn:Hs; [done|]. injection He as <-.
      simpl in Hn. by subst.
    + intros [Hn Hs]. exists (make_item times display fs s c name). split; [|done].
      rewrite Hp. unfold entries. apply list_elem_of_omap. exists name. split; [done|]. by rewrite Hs.
  - rewrite Hp. unfold entries. apply Forall_forall. intros i Hi.
    apply list_elem_of_omap in Hi as (x & _ & He).
    destruct (is_symlink _); [done|]. by injection He as <-.
Qed.

(** ** Witnesses *)
Section Witnesses.
Definition demo_category : CategoryDefinition :=
  MakeCategory "episodes" "Episodes" ["data"; "episodes"]%string true.
Definition demo_manager : StorageManager :=
  MakeManager (of_int 80) (of_int 90) ["episodes"]%string
    {["episodes"%string := demo_category]} "".
Definition demo_fs : filesystem :=
  list_to_map [(["data"; "episodes"]%string, Directory);
    (["data"; "episodes"; "a"]%string, Directory);
    (["data"; "episodes"; "a"; "bag.db3"]%string, File 10 "x");
    (["data"; "episodes"; "b"]%string, Directory)].
Definition demo_cleanup_world : World := MakeWorld (fun _ => false) (fun _ => false).
Definition demo_cleanup (ids : list string) : CleanupRequest := MakeCleanup "episodes" ids false.
Definition demo_recording : EpisodeState.EpisodeStateMsg :=
  EpisodeState.zero <| EpisodeState.state := EpisodeState.STATE_RECORDING |>
    <| EpisodeState.episode_id := "b" |>.

Definition demo_result (ids : list string) : filesystem * CleanupResponse :=
  on_cleanup demo_cleanup_world demo_fs demo_manager (demo_cleanup ids).
Definition demo_bag : path := ["data"; "episodes"; "a"; "bag.db3"]%string.

Lemma cleanup_touches_only_selected_items_witness :
  exists c item_id, categories_ demo_manager !! "episodes"%string = Some c /\
    item_id ∈ ["a"%string] /\ under (root c ++ [item_id]) demo_bag = true.
Proof.
  destruct (proj2 (cleanup_touches_only_selected_items demo_cleanup_world demo_fs demo_manager
    (demo_cleanup ["a"%string]) (fst (demo_result ["a"%string])) (snd (demo_result ["a"%string]))
    (surjective_pairing _)) demo_bag) as (c & i & Hc & _ & Hi & _ & Hu).
  - vm_compute. discriminate.
  - exists c, i. split; [exact Hc|]. split; [exact Hi|exact Hu].
Defined.

Lemma accepted_cleanup_removes_items_witness :
  fst (demo_result ["a"%string]) !! demo_bag = None.
Proof.
  apply (accepted_cleanup_removes_items demo_cleanup_world demo_fs demo_manager
    (demo_cleanup ["a"]%string) _ (snd (demo_result ["a"%string])) demo_category)
    with (item_id := "a"%string).
  - apply surjective_pairing.
  - vm_compute. reflexivity.
  - reflexivity.
  - vm_compute. reflexivity.
  - vm_compute. discriminate.
  - apply elem_of_cons. left. reflexivity.
  - vm_compute. reflexivity.
Defined.

Lemma listing_is_complete_and_sorted_witness :
  Sorted not_older (items_for (MakeTimes (fun _ => None) (fun _ => 0) (fun _ => 0)) (fun _ => ""%string) demo_fs demo_manager
    demo_category).
Proof.
  apply (listing_is_complete_and_sorted (MakeTimes (fun _ => None) (fun _ => 0) (fun _ => 0)) (fun _ => ""%string) demo_fs
    demo_manager demo_category). vm_compute. reflexivity.
Defined.
End Witnesses.
