(* ===== verification/DatasetExporter.v ===== *)
(** * The dataset exporter

    Models [vehicle_data/src/dataset_exporter.cpp], a command-line program that
    reads one recorded bag and writes a dataset directory: [frames.jsonl], one
    image file per recorded image and a manifest.  The bag reader and the
    deserialisation of its messages are third-party code, given by
    [Rosbag2]; what the operating system answers is the [World] of a run. *)
From S2P Require Import Prelude Calendar Floats Messages Json Text Numbers FileSystem.
Local Open Scope Z_scope.
Local Open Scope outcome_scope.

(** ** Paths of the command line *)

(** an absolute path in lexical normal form: its components, and whether it is
    written with a slash at the end (the file name is then empty) *)
Record NormalPath := MakeNormal { parts : path; trailing_slash : bool }.
#[export] Instance normal_path_eq_dec : EqDecision NormalPath.
Proof. solve_decision. Defined.

Definition normal_text (p : NormalPath) : string :=
  (path_text (parts p) ++ (if trailing_slash p then "/" else ""))%string.

(** the components between slashes *)
Fixpoint split_slashes (s acc : string) : list string :=
  match s with
  | EmptyString => [acc]
  | String c r => if Ascii.eqb c "/" then acc :: split_slashes r "" else split_slashes r (acc ++ String c "")
  end.

(** one component of a lexically normalised path; [..] at the root stays there *)
Definition normal_step (done : path) (component : string) : path :=
  if str_eqb component "" || str_eqb component "." then done
  else if str_eqb component ".." then removelast done
  else done ++ [component].

(** [absolute(p).lexically_normal()] with the current directory [cwd]: [a/.]
    and [a/b/..] keep the slash *)
Definition absolute_normal (cwd : path) (s : string) : NormalPath :=
  let components := split_slashes s "" in
  let start := if starts_with_slash s then [] else cwd in
  let final := List.last components "" in
  let p := fold_left normal_step components start in
  MakeNormal p (str_in final [""; "."; ".."]%string || bool_decide (p = [])).

(** [output_path.string() + ".partial"] as a path *)
Definition partial_path (p : NormalPath) : path :=
  if trailing_slash p then parts p ++ [".partial"%string]
  else match List.last (map Some (parts p)) None with
       | Some name => removelast (parts p) ++ [(name ++ ".partial")%string]
       | None => [".partial"%string]
       end.

(** ** The operating system's answers *)
Record World := MakeWorld {
  cwd : path;
  weakly_canonical : string -> path;    (* symbolic links resolved *)
  link_target : path -> option node;    (* what a symbolic link leads to *)
  create_directory_error : path -> option string;
  open_fails : path -> bool;            (* opening a file for writing *)
  write_fails : path -> bool;           (* [!stream] after [write] *)
  on_disk : path -> string -> string;   (* what is in the file once it is closed *)
  rename_error : option string;
  survives : path -> bool;              (* entries that cannot be removed *)
  remove_error : string;
  clock : Z }.

(** [std::filesystem::status]: links are followed *)
Definition status (w : World) (fs : filesystem) (p : path) : option node :=
  match p with
  | [] => Some Directory                (* the root *)
  | _ => match fs !! p with Some Symlink => link_target w p | n => n end
  end.
(** of a path with a slash at the end only a directory exists *)
Definition exists_path (w : World) (fs : filesystem) (p : NormalPath) : bool :=
  if trailing_slash p then is_directory (status w fs (parts p)) else exists_ (status w fs (parts p)).

(** [create_directories]: every missing directory from the root on; the
    first refusal ends it *)
Fixpoint create_below (w : World) (fs : filesystem) (done rest : path) : filesystem * option string :=
  match rest with
  | [] => (fs, None)
  | component :: r =>
      let p := done ++ [component] in
      match status w fs p with
      | Some Directory => create_below w fs p r
      | Some _ => (fs, Some "cannot create directories: Not a directory"%string)
      | None =>
          if exists_ (fs !! p) then     (* a link that leads nowhere *)
            (fs, Some "cannot create directories: File exists"%string)
          else match create_directory_error w p with
          | Some e => (fs, Some e)
          | None => create_below w (<[p := Directory]> fs) p r
          end
      end
  end.
Definition create_directories (w : World) (p : path) (fs : filesystem) : filesystem * option string :=
  create_below w fs [] p.

(** [rename] of a directory: the new name must be free or an empty directory,
    and not below the old one *)
Definition rename (w : World) (a b : path) (fs : filesystem) : filesystem * option string :=
  match rename_error w with
  | Some e => (fs, Some e)
  | None =>
      if under a b then (fs, Some "cannot rename: Invalid argument"%string)
      else match fs !! b with
      | None => (move_tree a b fs, None)
      | Some Directory =>
          if bool_decide (children fs b = []) then (move_tree a b fs, None)
          else (fs, Some "cannot rename: Directory not empty"%string)
      | Some _ => (fs, Some "cannot rename: Not a directory"%string)
      end
  end.

(** ** Arguments *)
Record Arguments := MakeArguments {
  episode_path : path; output_path : NormalPath; include_incomplete : bool }.
#[export] Instance eta_arguments : Eta Arguments := fun a =>
  MakeArguments (episode_path a) (output_path a) (include_incomplete a).

(** the option loop over [argv[1..]], with the two paths still as written *)
Inductive Options :=
| Accepted (episode output : string) (incomplete : bool)
| HelpRequested
| Rejected (what : string).

Fixpoint parse_options (args : list string) (episode output : string) (incomplete : bool) : Options :=
  match args with
  | [] => Accepted episode output incomplete
  | option :: r =>
      let otherwise :=
        if str_eqb option "--include-incomplete" then parse_options r episode output true
        else if str_eqb option "-h" || str_eqb option "--help" then HelpRequested
        else Rejected ("Unknown or incomplete option: " ++ option) in
      match r with
      | value :: r' =>
          if str_eqb option "--episode" then parse_options r' value output incomplete
          else if str_eqb option "--output" then parse_options r' episode value incomplete
          else otherwise
      | [] => otherwise
      end
  end.

(** [None] is the help request, which exits with code 0 *)
Definition parse_arguments (w : World) (fs : filesystem) (args : list string)
  : option (Outcome Arguments) :=
  match parse_options args "" "" false with
  | HelpRequested => None
  | Rejected what => Some (Throws what)
  | Accepted episode output incomplete =>
      Some (
        if str_empty episode || str_empty output then Throws "--episode and --output are required"
        else
          let episode_path := weakly_canonical w episode in
          let output_path := absolute_normal (cwd w) output in
          if negb (is_directory (status w fs episode_path)) then
            Throws ("Episode directory does not exist: " ++ path_text episode_path)
          else if exists_path w fs output_path then
            Throws ("Output path already exists: " ++ normal_text output_path)
          else if bool_decide (output_path = MakeNormal episode_path false) then
            Throws "Unsafe output path"
          else Returns (MakeArguments episode_path output_path incomplete))
  end.

(** ** Collecting the messages of the bag *)
Record BagMessage := MakeBagMessage {
  topic_name : string; time_stamp : Z; serialized_data : string }.

(** What [rosbag2_cpp::Reader] yields: the messages it reads, and the
    exception that ends the reading, if any. *)
Record Bag := MakeBag { messages : list BagMessage; reader_error : option string }.

(** [deserialize_message] for the four message types *)
Class Rosbag2 := {
  read_observation : string -> Outcome PolicyObservation.PolicyObservationMsg;
  read_policy_action : string -> Outcome PolicyAction.PolicyActionMsg;
  read_training_action : string -> Outcome TrainingAction.TrainingActionMsg;
  read_comparison : string -> Outcome ShadowComparison.ShadowComparisonMsg }.

Record ObservationRecord := MakeRecord {
  observation : PolicyObservation.PolicyObservationMsg; bag_timestamp_ns : Z }.

(** the local maps of [main] *)
Record Collected := MakeCollected {
  observations : gmap string ObservationRecord;
  actions : gmap string PolicyAction.PolicyActionMsg;
  target_actions : gmap string TrainingAction.TrainingActionMsg;
  executed_actions : gmap string TrainingAction.TrainingActionMsg;
  comparisons : gmap string ShadowComparison.ShadowComparisonMsg;
  observation_order : list string }.
#[export] Instance eta_collected : Eta Collected := fun c =>
  MakeCollected (observations c) (actions c) (target_actions c) (executed_actions c)
    (comparisons c) (observation_order c).
Definition nothing_collected : Collected := MakeCollected ∅ ∅ ∅ ∅ ∅ [].

(** [map[id] = message], skipped for an empty id *)
Definition put {A} (id : string) (x : A) (m : gmap string A) : gmap string A :=
  if str_empty id then m else <[id := x]> m.

Section Reading.
Context `{Rosbag2}.

Definition collect_observation (o : PolicyObservation.PolicyObservationMsg) (time : Z) (c : Collected)
  : Collected :=
  let id := PolicyObservation.observation_id o in
  if str_empty id then c
  else
    c <| observation_order := match observations c !! id with
                              | None => observation_order c ++ [id]
                              | Some _ => observation_order c
                              end |>
      <| observations := <[id := MakeRecord o time]> (observations c) |>.

Definition collect_message (m : BagMessage) (c : Collected) : Outcome Collected :=
  let data := serialized_data m in
  if str_eqb (topic_name m) "/vla/observation" then
    let! o := read_observation data in Returns (collect_observation o (time_stamp m) c)
  else if str_eqb (topic_name m) "/vla/policy_action" then
    let! a := read_policy_action data in
    Returns (c <| actions := put (PolicyAction.observation_id a) a (actions c) |>)
  else if str_eqb (topic_name m) "/chitu/action/target" then
    let! a := read_training_action data in
    Returns (c <| target_actions := put (TrainingAction.observation_id a) a (target_actions c) |>)
  else if str_eqb (topic_name m) "/chitu/action/executed" then
    let! a := read_training_action data in
    Returns (c <| executed_actions := put (TrainingAction.observation_id a) a (executed_actions c) |>)
  else if str_eqb (topic_name m) "/vla/shadow_comparison" then
    let! a := read_comparison data in
    Returns (c <| comparisons := put (ShadowComparison.observation_id a) a (comparisons c) |>)
  else Returns c.

Fixpoint collect (l : list BagMessage) (c : Collected) : Outcome Collected :=
  match l with
  | [] => Returns c
  | m :: r => let! c' := collect_message m c in collect r c'
  end.

Definition read_bag (bag : Bag) : Outcome Collected :=
  let! c := collect (messages bag) nothing_collected in
  match reader_error bag with Some e => Throws e | None => Returns c end.
End Reading.

(** ** Names of image files *)
Definition is_alnum (c : ascii) : bool :=
  let n := code c in
  ((48 <=? n) && (n <=? 57)) || ((65 <=? n) && (n <=? 90)) || ((97 <=? n) && (n <=? 122)).
Definition sanitize_char (c : ascii) : ascii :=
  if is_alnum c || Ascii.eqb c "-" || Ascii.eqb c "_" then c else "_"%char.
Definition sanitize_component (value : string) : string :=
  let result := map_chars sanitize_char value in
  if str_empty result then "unnamed" else substring 0 96 result.

Definition image_extension (format : string) : string :=
  let lower := map_chars to_lower format in
  if str_contains "jpeg" lower || str_contains "jpg" lower then ".jpg"
  else if str_contains "png" lower then ".png" else ".bin".

(** [std::setw(6) << std::setfill('0')] *)
Definition frame_prefix (frame_index : Z) : string :=
  let s := to_string frame_index in (zeros (6 - String.length s) ++ s)%string.

(** ** The text of a frame *)
Fixpoint text (l : list string) : string :=
  match l with [] => "" | s :: r => (s ++ text r)%string end.

(** the stream of [frames.jsonl] has precision 10 *)
Definition double_text (x : double) : string := number 10 x.
Definition float_text (x : float32) : string := double_text (to_double x).
Definition bool_text (b : bool) : string := if b then "true" else "false".
#[local] Abbreviation q := quoted.
(** an escaped string between quotes *)
Definition string_text (s : string) : string := text [q "'"; Exporter.json_escape s; q "'"]%string.

Definition time_to_nanoseconds (t : Time) : Z := sec t * 1000000000 + nanosec t.

Definition write_twist (twist : Twist) : string :=
  text [q "{'linear_x':"; double_text (Vector3.x (Twist.linear twist));
        q ",'linear_y':"; double_text (Vector3.y (Twist.linear twist));
        q ",'linear_z':"; double_text (Vector3.z (Twist.linear twist));
        q ",'angular_x':"; double_text (Vector3.x (Twist.angular twist));
        q ",'angular_y':"; double_text (Vector3.y (Twist.angular twist));
        q ",'angular_z':"; double_text (Vector3.z (Twist.angular twist)); "}"]%string.

(** the loops that write a separator before every element but the first *)
Fixpoint separated (l : list string) : string :=
  match l with
  | [] => ""
  | s :: [] => s
  | s :: (_ :: _) as r => text [s; ","; separated r]%string
  end.

Definition write_string_array (values : list string) : string :=
  text ["["; separated (map string_text values); "]"]%string.
Definition write_float_array (values : list float32) : string :=
  text ["["; separated (map float_text values); "]"]%string.

Definition has_safety_reason (a : TrainingAction.TrainingActionMsg) (reason : string) : bool :=
  str_in reason (TrainingAction.safety_reasons a).
Definition obstacle_override (a : TrainingAction.TrainingActionMsg) : bool :=
  has_safety_reason a "obstacle_override" || has_safety_reason a "manual_obstacle_override".
Definition safety_mode (a : TrainingAction.TrainingActionMsg) : string :=
  if obstacle_override a then "manual_obstacle_override" else "normal".

Definition write_training_action (a : TrainingAction.TrainingActionMsg) : string :=
  text [q "{'schema':"; string_text (TrainingAction.action_schema a);
        q ",'schema_hash':"; string_text (TrainingAction.schema_hash a);
        q ",'feature_names':"; write_string_array (TrainingAction.feature_names a);
        q ",'feature_units':"; write_string_array (TrainingAction.feature_units a);
        q ",'values':"; write_float_array (TrainingAction.values a);
        q ",'source':"; string_text (TrainingAction.source a);
        q ",'safety_mode':'"; safety_mode a;
        q "','obstacle_override':"; bool_text (obstacle_override a);
        q ",'safety_intervened':"; bool_text (TrainingAction.safety_intervened a);
        q ",'safety_reasons':"; write_string_array (TrainingAction.safety_reasons a); "}"]%string.

(** the beginning of a line, up to the images *)
Definition frame_head (episode_id : string) (frame_index : Z) (record : ObservationRecord) : string :=
  let o := observation record in
  text [q "{'schema_version':'vehicle.dataset.frame.v1'";
        q ",'frame_index':"; to_string frame_index;
        q ",'episode_id':"; string_text episode_id;
        q ",'observation_id':"; string_text (PolicyObservation.observation_id o);
        q ",'bag_timestamp_ns':"; to_string (bag_timestamp_ns record);
        q ",'generated_at_ns':"; to_string (time_to_nanoseconds (PolicyObservation.generated_at o));
        q ",'task':"; string_text (PolicyObservation.task o); q ",'images':["]%string.

Fixpoint state_entries (keys : list string) (values : list float32) (valid : list bool) : list string :=
  match keys, values, valid with
  | k :: ks, x :: xs, b :: bs =>
      text [q "{'key':"; string_text k; q ",'value':"; float_text x;
            q ",'valid':"; bool_text b; "}"]%string :: state_entries ks xs bs
  | _, _, _ => []                       (* [std::min] of the three sizes *)
  end.

Definition policy_text (action : option PolicyAction.PolicyActionMsg) : string :=
  match action with
  | Some a =>
      text [q "'available':true,'request_id':"; string_text (PolicyAction.request_id a);
            q ",'model_id':"; string_text (PolicyAction.model_id a);
            q ",'schema_version':"; string_text (PolicyAction.schema_version a);
            q ",'control_period_ns':"; to_string (time_to_nanoseconds (PolicyAction.control_period a));
            q ",'actions':["; separated (map write_twist (PolicyAction.actions a)); "]"]%string
  | None => q "'available':false"
  end.

Definition legacy_shadow_text (c : ShadowComparison.ShadowComparisonMsg) : string :=
  text [q ",'legacy_shadow':{'executed_twist':"; write_twist (ShadowComparison.executed c);
        q ",'predicted_twist':"; write_twist (ShadowComparison.predicted c);
        q ",'linear_absolute_error':"; float_text (ShadowComparison.linear_absolute_error c);
        q ",'angular_absolute_error':"; float_text (ShadowComparison.angular_absolute_error c);
        q ",'within_threshold':"; bool_text (ShadowComparison.within_threshold c); "}"]%string.

Definition target_text (target executed : option TrainingAction.TrainingActionMsg)
    (comparison : option ShadowComparison.ShadowComparisonMsg) : string :=
  match executed, comparison with
  | Some a, _ =>
      text [q "'available':true,'source':"; string_text (TrainingAction.source a);
            q ",'action':"; write_training_action a;
            match target with
            | Some t => text [q ",'requested_action':"; write_training_action t]
            | None => "" end;
            match comparison with Some c => legacy_shadow_text c | None => "" end]%string
  | None, Some c =>
      text [q "'available':true,'source':'shadow.executed_twist','twist':";
            write_twist (ShadowComparison.executed c);
            q ",'predicted_twist':"; write_twist (ShadowComparison.predicted c)]%string
  | None, None => q "'available':false"
  end.

(** the rest of a line, after the images, without the newline *)
Definition frame_tail (o : PolicyObservation.PolicyObservationMsg)
    (action : option PolicyAction.PolicyActionMsg)
    (target executed : option TrainingAction.TrainingActionMsg)
    (comparison : option ShadowComparison.ShadowComparisonMsg) : string :=
  text [q "],'state':[";
        separated (state_entries (PolicyObservation.state_keys o) (PolicyObservation.state o)
                     (PolicyObservation.state_valid o));
        q "],'policy':{"; policy_text action; q "},'target':{";
        target_text target executed comparison; "}}"]%string.

Definition newline : string := String (char 10) "".

(** ** Writing a frame *)
Record ExportStats := MakeStats {
  observation_count : Z; frame_count : Z; incomplete_count : Z; image_count : Z }.
#[export] Instance eta_stats : Eta ExportStats := fun s =>
  MakeStats (observation_count s) (frame_count s) (incomplete_count s) (image_count s).

(** what writing changes: the files, the text put into [frames], the counters *)
Record Output := MakeOutput { files : filesystem; frames : string; stats : ExportStats }.
#[export] Instance eta_output : Eta Output := fun o => MakeOutput (files o) (frames o) (stats o).

Definition emit (s : string) (o : Output) : Output := o <| frames := (frames o ++ s)%string |>.

Definition bytes_text (data : list Z) : string := text (map (fun b => String (char b) "") data).

(** closing (or truncating) a file with the given content *)
Definition write_file (w : World) (p : path) (content : string) (fs : filesystem) : filesystem :=
  let kept := on_disk w p content in <[p := File (Z.of_nat (String.length kept)) kept]> fs.

Definition image_key (o : PolicyObservation.PolicyObservationMsg) (index : nat) : string :=
  default "observation.images.unknown"%string (PolicyObservation.image_keys o !! index).

Definition image_file (frame_index : Z) (o : PolicyObservation.PolicyObservationMsg) (index : nat)
    (image : CompressedImage.CompressedImageMsg) : string :=
  text [frame_prefix frame_index; "_"; sanitize_component (image_key o index);
        image_extension (CompressedImage.format image)]%string.

Definition image_text (frame_index : Z) (o : PolicyObservation.PolicyObservationMsg) (index : nat)
    (image : CompressedImage.CompressedImageMsg) : string :=
  text [q "{'key':"; string_text (image_key o index);
        q ",'format':"; string_text (CompressedImage.format image);
        q ",'path':"; string_text ("images/" ++ image_file frame_index o index image);
        q ",'bytes':"; to_string (Z.of_nat (List.length (CompressedImage.data image))); "}"]%string.

(** the loop over the images: [None] at the end, or the exception *)
Fixpoint write_images (w : World) (directory : path) (frame_index : Z)
    (o : PolicyObservation.PolicyObservationMsg) (index : nat)
    (images : list CompressedImage.CompressedImageMsg) (out : Output) : Output * option string :=
  match images with
  | [] => (out, None)
  | image :: r =>
      let out := if (0 <? index)%nat then emit "," out else out in
      let p := directory ++ ["images"%string; image_file frame_index o index image] in
      if open_fails w p then (out, Some ("Unable to write image: " ++ path_text p)%string)
      else
        let out := out <| files := write_file w p (bytes_text (CompressedImage.data image)) (files out) |> in
        if write_fails w p then (out, Some ("Failed while writing image: " ++ path_text p)%string)
        else
          let out := out <| stats := (stats out) <| image_count := image_count (stats out) + 1 |> |> in
          write_images w directory frame_index o (S index) r
            (emit (image_text frame_index o index image) out)
  end.

Definition write_frame (w : World) (directory : path) (episode_id : string) (frame_index : Z)
    (record : ObservationRecord) (action : option PolicyAction.PolicyActionMsg)
    (target executed : option TrainingAction.TrainingActionMsg)
    (comparison : option ShadowComparison.ShadowComparisonMsg) (out : Output)
  : Output * option string :=
  let o := observation record in
  let '(out, error) := write_images w directory frame_index o 0 (PolicyObservation.images o)
    (emit (frame_head episode_id frame_index record) out) in
  match error with
  | Some e => (out, Some e)
  | None => (emit (frame_tail o action target executed comparison ++ newline) out, None)
  end.

(** ** The program *)
Definition manifest_text (w : World) (a : Arguments) (episode_id : string) (s : ExportStats) : string :=
  text ["{"; newline;
        q "  'schema_version': 'vehicle.dataset.v1',"; newline;
        q "  'created_at': '"; utc_timestamp (clock w); q "',"; newline;
        q "  'source_episode_id': "; string_text episode_id; ","; newline;
        q "  'source_episode_path': "; string_text (path_text (episode_path a)); ","; newline;
        q "  'frame_file': 'frames.jsonl',"; newline;
        q "  'image_root': 'images',"; newline;
        q "  'target_source': 'chitu.action.executed with shadow fallback',"; newline;
        q "  'include_incomplete': "; bool_text (include_incomplete a); ","; newline;
        q "  'observation_count': "; to_string (observation_count s); ","; newline;
        q "  'frame_count': "; to_string (frame_count s); ","; newline;
        q "  'incomplete_count': "; to_string (incomplete_count s); ","; newline;
        q "  'image_count': "; to_string (image_count s); newline;
        "}"; newline]%string.

Definition write_manifest (w : World) (directory : path) (a : Arguments) (episode_id : string)
    (s : ExportStats) (fs : filesystem) : filesystem * option string :=
  let p := directory ++ ["dataset_manifest.json"%string] in
  if open_fails w p then (fs, Some "Unable to write dataset manifest"%string)
  else (write_file w p (manifest_text w a episode_id s) fs, None).

Definition complete (c : Collected) (id : string) : bool :=
  match executed_actions c !! id, comparisons c !! id with None, None => false | _, _ => true end.

(** one iteration of the export loop *)
Definition export_one (w : World) (a : Arguments) (episode_id : string) (directory : path)
    (c : Collected) (id : string) (out : Output) : Output * option string :=
  let out := if complete c id then out
             else out <| stats := (stats out) <| incomplete_count := incomplete_count (stats out) + 1 |> |> in
  if negb (complete c id) && negb (include_incomplete a) then (out, None)
  else
    match observations c !! id with
    | None => (out, Some "map::at"%string)
    | Some record =>
        let '(out, error) := write_frame w directory episode_id (frame_count (stats out)) record
          (actions c !! id) (target_actions c !! id) (executed_actions c !! id)
          (comparisons c !! id) out in
        match error with
        | Some e => (out, Some e)
        | None => (out <| stats := (stats out) <| frame_count := frame_count (stats out) + 1 |> |>, None)
        end
    end.

Fixpoint export_frames (w : World) (a : Arguments) (episode_id : string) (directory : path)
    (c : Collected) (order : list string) (out : Output) : Output * option string :=
  match order with
  | [] => (out, None)
  | id :: r =>
      let '(out, error) := export_one w a episode_id directory c id out in
      match error with
      | Some e => (out, Some e)
      | None => export_frames w a episode_id directory c r out
      end
  end.

(** how the program ends: exit code 0 for the first two *)
Inductive Exit :=
| Usage
| Passed (s : ExportStats)
| Failed (what : string).

(** the [try] block around the export: frames, manifest, rename *)
Definition export_into (w : World) (a : Arguments) (episode_id : string) (directory : path)
    (c : Collected) (fs : filesystem) : filesystem * ExportStats * option string :=
  let start := MakeOutput fs "" (MakeStats (Z.of_nat (List.length (observation_order c))) 0 0 0) in
  let '(out, error) := export_frames w a episode_id directory c (observation_order c) start in
  let fs := write_file w (directory ++ ["frames.jsonl"%string]) (frames out) (files out) in
  match error with
  | Some e => (fs, stats out, Some e)
  | None =>
      let '(fs, error) := write_manifest w directory a episode_id (stats out) fs in
      match error with
      | Some e => (fs, stats out, Some e)
      | None =>
          let '(fs, error) := rename w directory (parts (output_path a)) fs in
          (fs, stats out, error)
      end
  end.

Definition export_collected (w : World) (a : Arguments) (c : Collected) (fs : filesystem)
  : filesystem * Exit :=
  let episode_id := List.last (episode_path a) ""%string in
  let temporary_path := partial_path (output_path a) in
  if exists_ (status w fs temporary_path) then
    (fs, Failed ("Temporary output path already exists: " ++ path_text temporary_path))
  else
    let '(fs, error) := create_directories w (temporary_path ++ ["images"%string]) fs in
    match error with
    | Some e => (fs, Failed e)
    | None =>
        let frames_path := temporary_path ++ ["frames.jsonl"%string] in
        if open_fails w frames_path then (fs, Failed "Unable to write frames.jsonl")
        else
          let '(fs, s, error) := export_into w a episode_id temporary_path c
            (<[frames_path := File 0 ""]> fs) in
          match error with
          | None => (fs, Passed s)
          | Some e =>
              let '(fs, removal_failed) := remove_all (survives w) temporary_path fs in
              (fs, Failed (if removal_failed then remove_error w else e))
          end
    end.

Definition main `{Rosbag2} (w : World) (bag : path -> Bag) (args : list string) (fs : filesystem)
  : filesystem * Exit :=
  match parse_arguments w fs args with
  | None => (fs, Usage)
  | Some (Throws e) => (fs, Failed e)
  | Some (Returns a) =>
      match read_bag (bag (episode_path a)) with
      | Throws e => (fs, Failed e)
      | Returns c => export_collected w a c fs
      end
  end.

(** ** What is collected *)
Section Collection.
Context `{Rosbag2}.

(** the message of a bag entry recorded on the given topic *)
Definition on_topic {A} (topic : string) (read : string -> Outcome A) (m : BagMessage) : option A :=
  if str_eqb (topic_name m) topic
  then match read (serialized_data m) with Returns a => Some a | Throws _ => None end
  else None.

(** the last message with an identifier *)
Definition latest {A} (select : BagMessage -> option A) (id_of : A -> string) (id : string)
    (l : list BagMessage) : option A :=
  List.last (map Some (List.filter (fun a => str_eqb (id_of a) id) (omap select l))) None.

Definition select_observation (m : BagMessage) : option ObservationRecord :=
  option_map (fun o => MakeRecord o (time_stamp m)) (on_topic "/vla/observation" read_observation m).
Definition record_id (r : ObservationRecord) : string := PolicyObservation.observation_id (observation r).

(** [c] holds, for every identifier, the last message of the bag with it *)
Record describes (l : list BagMessage) (c : Collected) : Prop := {
  d_observations id : id <> ""%string -> observations c !! id = latest select_observation record_id id l;
  d_actions id : id <> ""%string -> actions c !! id =
    latest (on_topic "/vla/policy_action" read_policy_action) PolicyAction.observation_id id l;
  d_targets id : id <> ""%string -> target_actions c !! id =
    latest (on_topic "/chitu/action/target" read_training_action) TrainingAction.observation_id id l;
  d_executed id : id <> ""%string -> executed_actions c !! id =
    latest (on_topic "/chitu/action/executed" read_training_action) TrainingAction.observation_id id l;
  d_comparisons id : id <> ""%string -> comparisons c !! id =
    latest (on_topic "/vla/shadow_comparison" read_comparison) ShadowComparison.observation_id id l;
  d_empty : observations c !! ""%string = None;
  d_order_unique : NoDup (observation_order c);
  d_order id : id ∈ observation_order c <-> is_Some (observations c !! id) }.

Lemma latest_snoc {A} (select : BagMessage -> option A) id_of id l m :
  latest select id_of id (l ++ [m]) =
  match select m with
  | Some a => if str_eqb (id_of a) id then Some a else latest select id_of id l
  | None => latest select id_of id l
  end.
Proof.
  unfold latest. rewrite omap_app, List.filter_app, map_app. cbn [omap list_omap].
  destruct (select m) as [a|]; [|by rewrite app_nil_r]. cbn [List.filter].
  destruct (str_eqb (id_of a) id); cbn [map]; [|by rewrite app_nil_r]. by rewrite List.last_last.
Qed.

Lemma put_lookup {A} (id_of : A -> string) (a : A) m id :
  id <> ""%string ->
  put (id_of a) a m !! id = if str_eqb (id_of a) id then Some a else m !! id.
Proof.
  intros Hid. unfold put. destruct (str_empty (id_of a)) eqn:He.
  - apply str_empty_spec in He. rewrite He. destruct (str_eqb "" id) eqn:E; [|done].
    by apply str_eqb_spec in E as <-.
  - destruct (str_eqb (id_of a) id) eqn:E.
    + apply str_eqb_spec in E as ->. apply lookup_insert_eq.
    + apply lookup_insert_ne. by apply str_eqb_neq.
Qed.

Lemma collect_app l1 l2 c :
  collect (l1 ++ l2) c = obind (collect l1 c) (collect l2).
Proof.
  revert c; induction l1 as [|m r IH]; intros c; [done|]. simpl.
  destruct (collect_message m c); [apply IH|done].
Qed.

(** what [collect_message] does with an entry, whatever its topic: every map
    gets the message [on_topic] selects for it *)
Lemma collect_message_effect m c c' :
  collect_message m c = Returns c' ->
  c' = (match select_observation m with
        | Some r => collect_observation (observation r) (bag_timestamp_ns r) c | None => c end)
    <| actions := match on_topic "/vla/policy_action" read_policy_action m with
                  | Some a => put (PolicyAction.observation_id a) a (actions c) | None => actions c end |>
    <| target_actions := match on_topic "/chitu/action/target" read_training_action m with
                  | Some a => put (TrainingAction.observation_id a) a (target_actions c)
                  | None => target_actions c end |>
    <| executed_actions := match on_topic "/chitu/action/executed" read_training_action m with
                  | Some a => put (TrainingAction.observation_id a) a (executed_actions c)
                  | None => executed_actions c end |>
    <| comparisons := match on_topic "/vla/shadow_comparison" read_comparison m with
                  | Some a => put (ShadowComparison.observation_id a) a (comparisons c)
                  | None => comparisons c end |>.
Proof.
  unfold collect_message, select_observation, on_topic. intros Hc.
  repeat match type of Hc with
  | (if str_eqb (topic_name m) ?t then _ else _) = _ =>
      let E := fresh "E" in
      destruct (str_eqb (topic_name m) t) eqn:E;
      [apply str_eqb_spec in E; rewrite ?E in *; simpl in * |]
  end.
  all: try (apply obind_returns in Hc as (x & -> & [= <-]); simpl; try done).
  - unfold collect_observation. by destruct (str_empty _), c.
  - injection Hc as <-. by destruct c.
Qed.

Lemma nothing_described : describes [] nothing_collected.
Proof.
  split; try done; [constructor|]. intros id. simpl. rewrite lookup_empty. split.
  - by intros ?%elem_of_nil.
  - by intros [? ?].
Qed.

Lemma collect_observation_order o time c :
  exists extra, observation_order (collect_observation o time c) = observation_order c ++ extra.
Proof.
  unfold collect_observation. destruct (str_empty _); [by exists []; rewrite app_nil_r|]. simpl.
  destruct (observations c !! _); [by exists []; rewrite app_nil_r|by eexists].
Qed.

Lemma collect_order l c c' :
  collect l c = Returns c' -> exists extra, observation_order c' = observation_order c ++ extra.
Proof.
  revert c; induction l as [|m r IH]; intros c; simpl.
  - intros [= <-]. exists []. by rewrite app_nil_r.
  - intros (c1 & Hm & Hr)%obind_returns. apply IH in Hr as [e2 ->].
    apply collect_message_effect in Hm as ->. simpl.
    destruct (select_observation m) as [r'|]; [|by eexists].
    destruct (collect_observation_order (observation r') (bag_timestamp_ns r') c) as [e1 ->].
    exists (e1 ++ e2). by rewrite app_assoc.
Qed.

Lemma collect_observation_describes r c :
  observations c !! ""%string = None -> NoDup (observation_order c) ->
  (forall id, id ∈ observation_order c <-> is_Some (observations c !! id)) ->
  let c' := collect_observation (observation r) (bag_timestamp_ns r) c in
  observations c' !! ""%string = None /\ NoDup (observation_order c') /\
  (forall id, id ∈ observation_order c' <-> is_Some (observations c' !! id)) /\
  (forall id, id <> ""%string -> observations c' !! id =
     if str_eqb (record_id r) id then Some r else observations c !! id).
Proof.
  intros He Hu Ho. unfold collect_observation, record_id.
  set (i := PolicyObservation.observation_id (observation r)).
  assert (MakeRecord (observation r) (bag_timestamp_ns r) = r) as -> by by destruct r.
  destruct (str_empty i) eqn:Hi; simpl.
  - apply str_empty_spec in Hi as ->. split_and!; try done. intros id Hid.
    destruct (str_eqb "" id) eqn:E; [|done]. by apply str_eqb_spec in E as <-.
  - assert (i <> ""%string) as Hne by (intros E; by rewrite E in Hi). split_and!.
    + by rewrite lookup_insert_ne.
    + destruct (observations c !! i) eqn:E; [done|]. apply NoDup_app. split_and!; [done| |].
      * intros x Hx. rewrite list_elem_of_singleton. intros ->. apply Ho in Hx as [? ?]. congruence.
      * apply NoDup_singleton.
    + intros id. rewrite lookup_insert_is_Some, <- Ho. destruct (observations c !! i) eqn:E.
      * split; [|intros [->|[_ ?]]; [apply Ho; by eexists|done]].
        intros. destruct (decide (i = id)); [by left|by right].
      * rewrite elem_of_app, list_elem_of_singleton. split; [|naive_solver].
        intros [?|<-]; [|by left]. destruct (decide (i = id)); [by left|by right].
    + intros id Hid. destruct (str_eqb i id) eqn:E.
      * apply str_eqb_spec in E as <-. apply lookup_insert_eq.
      * apply lookup_insert_ne. by apply str_eqb_neq.
Qed.

Lemma collect_describes l c : collect l nothing_collected = Returns c -> describes l c.
Proof.
  revert c; induction l as [|m l IH] using rev_ind; intros c.
  { intros [= <-]. apply nothing_described. }
  rewrite collect_app. intros (c1 & Hl & Hm)%obind_returns. apply IH in Hl as [? ? ? ? ? He Hu Ho].
  cbn [collect] in Hm. apply obind_returns in Hm as (c2 & Hm & [= <-]).
  apply collect_message_effect in Hm as ->.
  assert (let c' := match select_observation m with
          | Some r => collect_observation (observation r) (bag_timestamp_ns r) c1 | None => c1 end in
    observations c' !! ""%string = None /\ NoDup (observation_order c') /\
    (forall id, id ∈ observation_order c' <-> is_Some (observations c' !! id)) /\
    (forall id, id <> ""%string ->
       observations c' !! id = latest select_observation record_id id (l ++ [m])))
    as (H1 & H2 & H3 & H4).
  { cbv zeta. setoid_rewrite latest_snoc. destruct (select_observation m) as [r|]; [|done].
    destruct (collect_observation_describes r c1 He Hu Ho) as (? & ? & ? & H4).
    split_and!; try done. intros id Hid. rewrite H4 by done. by destruct (str_eqb _ _); auto. }
  split; simpl; try done; intros id Hid; rewrite latest_snoc;
    match goal with |- context [on_topic ?t ?r m] => destruct (on_topic t r m) end;
    rewrite ?put_lookup by done; try destruct (str_eqb _ _); auto.
Qed.
End Collection.

(** ** What is written where *)

(** nothing changes but strictly below [d] *)
Definition confined (d : path) (fs fs' : filesystem) : Prop :=
  forall q, (forall x r, q <> d ++ x :: r) -> fs' !! q = fs !! q.

#[export] Instance confined_preorder d : PreOrder (confined d).
Proof.
  split; [done|]. intros fs1 fs2 fs3 H1 H2 q Hq. by rewrite H2, H1.
Qed.

Lemma write_file_confined w d x r content fs : confined d fs (write_file w (d ++ x :: r) content fs).
Proof. intros q Hq. apply lookup_insert_ne. intros E. by apply (Hq x r). Qed.

Lemma write_images_confined w d k o i images out :
  confined d (files out) (files (fst (write_images w d k o i images out))).
Proof.
  revert i out; induction images as [|image r IH]; intros i out; [done|]. simpl.
  destruct (open_fails _ _); [by destruct (0 <? i)%nat|].
  assert (confined d (files out) (files ((if (0 <? i)%nat then emit "," out else out)
    <| files := write_file w (d ++ ["images"%string; image_file k o i image])
         (bytes_text (CompressedImage.data image))
         (files (if (0 <? i)%nat then emit "," out else out)) |>))) as Hc.
  { simpl. destruct (0 <? i)%nat; apply write_file_confined. }
  destruct (write_fails _ _); [done|]. etransitivity; [exact Hc|].
  etransitivity; [|apply IH]. done.
Qed.

Lemma export_one_confined w a e d c id out :
  confined d (files out) (files (fst (export_one w a e d c id out))).
Proof.
  unfold export_one, write_frame.
  assert (forall b out, files (if b : bool then out else out <| stats :=
    (stats out) <| incomplete_count := incomplete_count (stats out) + 1 |> |>) = files out) as Hf
    by by intros [].
  destruct (_ && _); simpl; [by rewrite Hf|].
  destruct (observations c !! id) as [record|]; simpl; [|by rewrite Hf].
  match goal with |- context [write_images ?w ?d ?k ?o ?i ?l ?out] =>
    pose proof (write_images_confined w d k o i l out) as Hc;
    destruct (write_images w d k o i l out) as [out' [err|]] end;
  simpl in *; by rewrite Hf in Hc.
Qed.

Lemma export_frames_confined w a e d c order out :
  confined d (files out) (files (fst (export_frames w a e d c order out))).
Proof.
  revert out; induction order as [|id r IH]; intros out; [done|]. simpl.
  pose proof (export_one_confined w a e d c id out) as Hc.
  destruct (export_one w a e d c id out) as [out' [err|]]; [done|].
  etransitivity; [exact Hc|apply IH].
Qed.

(** directories are created along a path, nothing else changes *)
Lemma create_below_spec w fs done rest fs' error :
  create_below w fs done rest = (fs', error) ->
  (forall q, fs' !! q = fs !! q \/
     fs !! q = None /\ fs' !! q = Some Directory /\ q `prefix_of` done ++ rest) /\
  (error = None -> forall x r1 r2, rest = x :: r1 ++ r2 -> is_Some (fs' !! (done ++ x :: r1))).
Proof.
  revert fs done; induction rest as [|x r IH]; intros fs done; simpl.
  { intros [= <- <-]. split; [by left|done]. }
  assert (done ++ x :: r = (done ++ [x]) ++ r) as Ea by by rewrite <- app_assoc.
  assert (forall fs, status w fs (done ++ [x]) <> None -> is_Some (fs !! (done ++ [x]))) as Hst.
  { intros f. unfold status. destruct (done ++ [x]) eqn:E; [symmetry in E; by apply app_cons_not_nil in E|].
    destruct (f !! _); [by eexists|done]. }
  assert (forall f, create_below w f (done ++ [x]) r = (fs', error) ->
    is_Some (f !! (done ++ [x])) ->
    error = None -> forall y r1 r2, x :: r = y :: r1 ++ r2 -> is_Some (fs' !! (done ++ y :: r1))) as Hstep.
  { intros f [H1 H2]%IH Hf He y r1 r2 [= <- Er]. destruct r1 as [|z r1].
    - destruct (H1 (done ++ [x])) as [->|(?&->&?)]; [done|by eexists].
    - specialize (H2 He z r1 r2 Er). by rewrite <- app_assoc in H2. }
  destruct (status w fs (done ++ [x])) as [[| |]|] eqn:Es; try (intros [= <- <-]; split; [by left|done]).
  - intros Hc. split; [|apply (Hstep _ Hc), Hst; by rewrite Es].
    rewrite Ea. by apply IH in Hc as [? _].
  - destruct (fs !! (done ++ [x])) eqn:Ex; simpl; [intros [= <- <-]; split; [by left|done]|].
    destruct (create_directory_error w _); [intros [= <- <-]; split; [by left|done]|].
    intros Hc. split.
    + apply IH in Hc as [H1 _]. intros q. rewrite Ea. destruct (decide (q = done ++ [x])) as [->|Hq].
      * right. split; [done|]. split; [|by eexists].
        destruct (H1 (done ++ [x])) as [->|(_&->&_)]; [apply lookup_insert_eq|done].
      * destruct (H1 q) as [->|(E&E'&?)]; [left; by apply lookup_insert_ne|right].
        split; [|done]. rewrite <- E. symmetry. by apply lookup_insert_ne.
    + apply (Hstep _ Hc). exists Directory. apply lookup_insert_eq.
Qed.

(** ** All or nothing *)
(** unchanged, or a directory created on the way to [d] *)
Definition untouched (d : path) (fs fs' : filesystem) (q : path) : Prop :=
  fs' !! q = fs !! q \/ fs !! q = None /\ fs' !! q = Some Directory /\ q `prefix_of` d.

Lemma rename_none w a b fs fs' :
  rename w a b fs = (fs', None) ->
  fs' = move_tree a b fs /\ under a b = false /\
  (fs !! b = None \/ fs !! b = Some Directory /\ children fs b = []).
Proof.
  unfold rename. destruct (rename_error w); [done|]. destruct (under a b); [done|].
  destruct (fs !! b) as [[| |]|]; try done.
  - destruct (bool_decide _) eqn:E; [|done]. apply bool_decide_eq_true in E. intros [= <-]. auto.
  - intros [= <-]. auto.
Qed.

Lemma export_into_spec w a e d c fs fs' s error :
  export_into w a e d c fs = (fs', s, error) ->
  exists fs1, confined d fs fs1 /\
    (error <> None -> fs' = fs1) /\
    (error = None -> rename w d (parts (output_path a)) fs1 = (fs', None) /\
       is_Some (fs1 !! (d ++ ["frames.jsonl"%string])) /\
       is_Some (fs1 !! (d ++ ["dataset_manifest.json"%string]))).
Proof.
  unfold export_into.
  match goal with |- context [export_frames w a e d c ?l ?o] =>
    pose proof (export_frames_confined w a e d c l o) as Hc;
    destruct (export_frames w a e d c l o) as [out err] end. simpl in Hc.
  pose proof (write_file_confined w d "frames.jsonl" [] (frames out) (files out)) as Hw.
  destruct err as [x|].
  { intros [= <- <- <-]. eexists. split; [etransitivity; [exact Hc|exact Hw]|]. split; done. }
  unfold write_manifest. destruct (open_fails w (d ++ _)) eqn:Ho.
  { intros [= <- <- <-]. eexists. split; [etransitivity; [exact Hc|exact Hw]|]. split; done. }
  set (fs1 := write_file w (d ++ ["dataset_manifest.json"%string]) _ _).
  assert (confined d fs fs1) as H1.
  { etransitivity; [exact Hc|]. etransitivity; [exact Hw|]. apply write_file_confined. }
  destruct (rename w d _ fs1) as [fs2 err] eqn:Er. intros [= <- <- <-].
  exists fs1. split; [done|]. split.
  - intros Hne. unfold rename in Er. repeat case_match; by simplify_eq.
  - intros ->. split; [done|]. split; [|eexists; apply lookup_insert_eq].
    eexists. unfold fs1, write_file at 1. etransitivity; [apply lookup_insert_ne|apply lookup_insert_eq].
    by intros [=]%app_inv_head.
Qed.




Lemma parsed_output w fs args a :
  parse_arguments w fs args = Some (Returns a) -> parts (output_path a) <> [].
Proof.
  unfold parse_arguments. destruct (parse_options _ _ _ _) as [e o i| |]; try done.
  destruct (_ || _); [done|]. destruct (negb _); [done|].
  destruct (exists_path _ _ _) eqn:He; [done|]. destruct (bool_decide _); [done|]. intros [= <-].
  cbn [output_path]. intros E. unfold exists_path, status in He. rewrite E in He. by destruct (trailing_slash _).
Qed.

(** the directories of the temporary path exist once they are created *)
Lemma created_directories w p fs fs' :
  create_directories w p fs = (fs', None) ->
  forall d r, d <> [] -> p = d ++ r -> is_Some (fs' !! d).
Proof.
  intros [_ H]%create_below_spec [|x d] r Hd ->; [done|].
  exact (H eq_refl x d r eq_refl).
Qed.

(** renaming the temporary directory onto its own parent fails *)
Lemma rename_to_parent w d x fs fs' :
  is_Some (fs !! d) -> is_Some (fs !! (d ++ [x])) -> rename w (d ++ [x]) d fs <> (fs', None).
Proof.
  intros [n Hd] Hx (_ & _ & [E|[_ E]])%rename_none; [exact (is_Some_None (ex_intro _ n (eq_trans (eq_sym E) Hd)))|].
  apply children_spec in Hx. by rewrite E in Hx.
Qed.

Lemma confined_not_below d fs fs' q :
  confined d fs fs' -> under d q = false -> fs' !! q = fs !! q.
Proof.
  intros Hc Hq. apply Hc. intros x r ->.
  assert (under d (d ++ x :: r) = true) by (apply under_spec; by eexists). congruence.
Qed.

Lemma confined_prefix d r fs fs' : confined (d ++ r) fs fs' -> fs' !! d = fs !! d.
Proof.
  intros Hc. apply Hc. intros x s E. rewrite <- app_assoc in E.
  apply (f_equal (@List.length string)) in E. rewrite !length_app in E. simpl in E. lia.
Qed.

Lemma confined_is_Some d e r fs fs' :
  confined e fs fs' -> e = d ++ r -> is_Some (fs !! d) -> is_Some (fs' !! d).
Proof. intros Hc -> [n Hd]. exists n. etransitivity; [by eapply confined_prefix|exact Hd]. Qed.

Lemma prefix_snoc_inv (q d : path) x : q `prefix_of` d ++ [x] -> q `prefix_of` d \/ q = d ++ [x].
Proof.
  intros [k E]. destruct k as [|y k] using rev_ind; [right; by rewrite app_nil_r in E|left].
  rewrite app_assoc in E. apply app_inj_tail in E as [-> _]. by eexists.
Qed.

(** The frame of a run: outside the two directories of the output nothing
    changes, but for directories created on the way. *)
Lemma export_collected_spec w a c fs fs' exit :
  parts (output_path a) <> [] ->
  export_collected w a c fs = (fs', exit) ->
  let temp := partial_path (output_path a) in let out := parts (output_path a) in
  match exit with
  | Passed _ => exists fs1,
      (forall q, under temp q = false -> untouched temp fs fs1 q) /\
      is_Some (fs1 !! temp) /\
      is_Some (fs1 !! (temp ++ ["frames.jsonl"%string])) /\
      is_Some (fs1 !! (temp ++ ["dataset_manifest.json"%string])) /\
      rename w temp out fs1 = (fs', None) /\
      (trailing_slash (output_path a) = true -> is_Some (fs1 !! out))
  | _ => forall q, under temp q = false -> untouched temp fs fs' q
  end.
Proof.
  intros Hparts. unfold export_collected. set (temp := partial_path (output_path a)). cbv zeta.
  destruct (exists_ _); [intros [= <- <-] q _; by left|].
  destruct (create_directories w (temp ++ _) fs) as [fs0 err] eqn:Hd.
  assert (forall q, under temp q = false -> untouched temp fs fs0 q) as H0.
  { intros q Hq. pose proof Hd as [H _]%create_below_spec. destruct (H q) as [E|(E1&E2&Hp)]; [by left|right].
    split_and!; try done. apply prefix_snoc_inv in Hp as [Hp| ->]; [done|].
    assert (under temp (temp ++ ["images"%string]) = true) by (apply under_spec; by eexists). congruence. }
  destruct err as [x|]; [intros [= <- <-]; exact H0|].
  destruct (open_fails w _); [intros [= <- <-]; exact H0|].
  set (fs0' := <[_ := _]> fs0).
  assert (confined temp fs0 fs0') as Hc0.
  { intros q Hq. apply lookup_insert_ne. intros E. by apply (Hq "frames.jsonl"%string []). }
  destruct (export_into w a _ temp c fs0') as [[fs1 s] err] eqn:Hi.
  apply export_into_spec in Hi as (fs2 & Hc & Hf & Hs).
  assert (confined temp fs0 fs2) as Hc2 by (by etransitivity).
  assert (forall q, under temp q = false -> untouched temp fs fs2 q) as H2.
  { intros q Hq. unfold untouched. rewrite (confined_not_below temp fs0 fs2 q) by done. by apply H0. }
  pose proof (created_directories w _ fs fs0 Hd) as Hm.
  destruct err as [x|].
  - specialize (Hf ltac:(done)) as ->. destruct (remove_all _ _ _) as [fs3 failed] eqn:Hr.
    intros [= <- <-] q Hq. unfold untouched.
    replace fs3 with (fst (remove_all (survives w) temp fs2)) by by rewrite Hr.
    rewrite remove_all_outside by done. by apply H2.
  - destruct (Hs eq_refl) as (Hren & Hfr & Hma). intros [= <- <-]. exists fs2. split_and!; try done.
    + apply (confined_is_Some temp temp [] fs0 fs2 Hc2); [by rewrite app_nil_r|].
      apply (Hm temp ["images"%string]); [|done]. unfold temp, partial_path.
      destruct (trailing_slash _); [|destruct (List.last _ _)]; intros E; try done;
        symmetry in E; by apply app_cons_not_nil in E.
    + intros Ht. assert (temp = parts (output_path a) ++ [".partial"%string]) as Et
        by (unfold temp, partial_path; by rewrite Ht).
      apply (confined_is_Some _ temp [".partial"%string] fs0 fs2 Hc2 Et).
      apply (Hm _ [".partial"; "images"]%string); [done|]. by rewrite Et, <- app_assoc.
Qed.

Lemma main_parsed `{Rosbag2} w bag args fs fs' exit a :
  parse_arguments w fs args = Some (Returns a) -> main w bag args fs = (fs', exit) ->
  (exists e, fs' = fs /\ exit = Failed e) \/
  exists c, read_bag (bag (episode_path a)) = Returns c /\ export_collected w a c fs = (fs', exit).
Proof.
  unfold main. intros ->. destruct (read_bag _) as [c|e]; [right; by exists c|].
  intros [= <- <-]. left. by exists e.
Qed.


(** ** The exported frames *)
Fixpoint image_texts (frame_index : Z) (o : PolicyObservation.PolicyObservationMsg) (index : nat)
    (images : list CompressedImage.CompressedImageMsg) : list string :=
  match images with
  | [] => []
  | image :: r => image_text frame_index o index image :: image_texts frame_index o (S index) r
  end.

(** the line of one observation, built from what was collected for it *)
Definition frame_line (episode_id : string) (frame_index : Z) (c : Collected) (id : string) : string :=
  match observations c !! id with
  | None => ""
  | Some record =>
      let o := observation record in
      (frame_head episode_id frame_index record ++
       separated (image_texts frame_index o 0 (PolicyObservation.images o)) ++
       frame_tail o (actions c !! id) (target_actions c !! id) (executed_actions c !! id)
         (comparisons c !! id))%string
  end.

Fixpoint frame_lines (episode_id : string) (frame_index : Z) (c : Collected) (ids : list string) : string :=
  match ids with
  | [] => ""
  | id :: r =>
      (frame_line episode_id frame_index c id ++ newline ++
       frame_lines episode_id (frame_index + 1) c r)%string
  end.

(** the observations an export has a frame for *)
Definition exported (a : Arguments) (c : Collected) (order : list string) : list string :=
  List.filter (fun id => complete c id || include_incomplete a) order.

(** *** Every frame is one line *)
Lemma strict_text l : strict (text l) = forallb strict l.
Proof. induction l as [|s r IH]; [done|]. simpl. by rewrite strict_app, IH. Qed.

Lemma strict_json_escape s : strict (Exporter.json_escape s) = true.
Proof.
  assert (forall c, strict (Exporter.escape_char c) = true) as Hc.
  { apply (by_evaluation (fun c => strict (Exporter.escape_char c))). vm_compute. reflexivity. }
  induction s as [|c r IH]; [done|]. cbn [Exporter.json_escape]. by rewrite strict_app, Hc, IH.
Qed.

Lemma separated_cons s s' r : separated (s :: s' :: r) = text [s; ","%string; separated (s' :: r)].
Proof. done. Qed.

Lemma strict_separated l : Forall (fun s => strict s = true) l -> strict (separated l) = true.
Proof.
  induction 1 as [|s [|s' r] Hs Hr IH]; [done|done|].
  rewrite separated_cons, strict_text. cbn [forallb]. by rewrite Hs, IH.
Qed.

Lemma strict_map_separated {A} (f : A -> string) l :
  (forall x, strict (f x) = true) -> strict (separated (map f l)) = true.
Proof. intros Hf. apply strict_separated, List.Forall_map, List.Forall_forall. auto. Qed.

Lemma strict_string_text s : strict (string_text s) = true.
Proof. unfold string_text. rewrite strict_text. cbn [forallb]. by rewrite strict_json_escape. Qed.

Lemma strict_double_text x : strict (double_text x) = true.
Proof. apply strict_number. Qed.

Lemma strict_float_text x : strict (float_text x) = true.
Proof. apply strict_number. Qed.

Lemma strict_bool_text b : strict (bool_text b) = true.
Proof. by destruct b. Qed.

#[export] Hint Resolve strict_string_text strict_double_text strict_float_text strict_bool_text
  strict_map_separated strict_to_string : vehicle.

(** a [text] of strict pieces is strict *)
Ltac strict_pieces :=
  rewrite strict_text; apply forallb_forall, List.Forall_forall;
  repeat (apply List.Forall_cons; [first [reflexivity | solve [auto with vehicle] | idtac]|]);
  [..|apply List.Forall_nil].

Lemma strict_write_twist t : strict (write_twist t) = true.
Proof. unfold write_twist. strict_pieces. Qed.

Lemma strict_write_string_array l : strict (write_string_array l) = true.
Proof. unfold write_string_array. strict_pieces. Qed.

Lemma strict_write_float_array l : strict (write_float_array l) = true.
Proof. unfold write_float_array. strict_pieces. Qed.

#[export] Hint Resolve strict_write_twist strict_write_string_array strict_write_float_array : vehicle.

Lemma strict_write_training_action a : strict (write_training_action a) = true.
Proof.
  unfold write_training_action. strict_pieces.
  unfold safety_mode. by destruct (obstacle_override a).
Qed.

Lemma strict_frame_head e k r : strict (frame_head e k r) = true.
Proof. unfold frame_head. strict_pieces. Qed.

Lemma strict_image_text k o i image : strict (image_text k o i image) = true.
Proof. unfold image_text. strict_pieces. Qed.

Lemma strict_state_entries ks xs bs : Forall (fun s => strict s = true) (state_entries ks xs bs).
Proof.
  revert xs bs; induction ks as [|k ks IH]; intros [|x xs] [|b bs]; simpl; try constructor; [|done].
  change (strict (text [quoted "{'key':"; string_text k; quoted ",'value':"; float_text x;
    quoted ",'valid':"; bool_text b; "}"]%string) = true). strict_pieces.
Qed.

Lemma strict_frame_tail o action target executed comparison :
  strict (frame_tail o action target executed comparison) = true.
Proof.
  assert (forall c, strict (legacy_shadow_text c) = true) as Hl.
  { intros c. unfold legacy_shadow_text. strict_pieces. }
  unfold frame_tail. strict_pieces; [apply strict_separated, strict_state_entries| |].
  - destruct action as [a|]; [|done]. unfold policy_text. strict_pieces.
  - destruct executed as [a|], comparison as [x|]; unfold target_text; try done; strict_pieces;
      try apply strict_write_training_action; try apply Hl;
      destruct target; try done; strict_pieces; apply strict_write_training_action.
Qed.

Lemma strict_frame_line e k c id : strict (frame_line e k c id) = true.
Proof.
  unfold frame_line. destruct (observations c !! id) as [r|]; [|done]. cbv zeta.
  rewrite !strict_app, strict_frame_head, strict_frame_tail, andb_true_r. apply strict_separated.
  generalize 0%nat. induction (PolicyObservation.images (observation r)) as [|image l IH]; intros i;
    simpl; constructor; [apply strict_image_text|apply IH].
Qed.

(** the lines of a text: what is between newlines, the last one left out when
    it is empty *)
Fixpoint split_lines (s current : string) : list string :=
  match s with
  | EmptyString => if str_empty current then [] else [current]
  | String c r =>
      if code c =? 10 then current :: split_lines r "" else split_lines r (current ++ String c "")
  end.

Lemma split_lines_strict l rest current :
  strict l = true ->
  split_lines (l ++ newline ++ rest) current = (current ++ l)%string :: split_lines rest "".
Proof.
  revert current; induction l as [|c r IH]; intros current Hl.
  - change ("" ++ newline ++ rest)%string with (String (char 10) rest).
    cbn [split_lines]. f_equal. by induction current as [|x y IH]; [|rewrite append_cons, <- IH].
  - cbn [strict] in Hl. apply andb_true_iff in Hl as [Hc Hr]. rewrite append_cons. cbn [split_lines].
    assert ((code c =? 10) = false) as -> by (apply Z.leb_le in Hc; lia).
    rewrite IH by done. by rewrite string_app_assoc, append_cons.
Qed.

Fixpoint lines_of (episode_id : string) (frame_index : Z) (c : Collected) (ids : list string) : list string :=
  match ids with
  | [] => []
  | id :: r => frame_line episode_id frame_index c id :: lines_of episode_id (frame_index + 1) c r
  end.

Lemma frame_lines_split e k c ids : split_lines (frame_lines e k c ids) "" = lines_of e k c ids.
Proof.
  revert k; induction ids as [|id r IH]; intros k; [done|]. cbn [frame_lines lines_of].
  rewrite split_lines_strict by apply strict_frame_line. by rewrite IH.
Qed.

Lemma append_empty_r s : (s ++ "")%string = s.
Proof. induction s as [|c r IH]; [done|]. by rewrite append_cons, IH. Qed.

Lemma separated_commas s l : (s ++ text (map (fun x => "," ++ x)%string l))%string = separated (s :: l).
Proof.
  revert s; induction l as [|x l IH]; intros s; [apply append_empty_r|].
  rewrite separated_cons, <- IH. cbn [map text]. by rewrite append_empty_r, !string_app_assoc.
Qed.

Lemma write_images_text w d k o i images out out' :
  write_images w d k o i images out = (out', None) ->
  frames out' = (frames out ++ (if (0 <? i)%nat then
                                  text (map (fun s => "," ++ s)%string (image_texts k o i images))
                                else separated (image_texts k o i images)))%string /\
  frame_count (stats out') = frame_count (stats out) /\
  incomplete_count (stats out') = incomplete_count (stats out) /\
  observation_count (stats out') = observation_count (stats out) /\
  image_count (stats out') = image_count (stats out) + Z.of_nat (List.length images).
Proof.
  revert i out; induction images as [|image r IH]; intros i out; cbn [write_images image_texts].
  { intros [= <-]. destruct (0 <? i)%nat; cbn [map text separated List.length];
      rewrite append_empty_r; split_and!; lia || done. }
  destruct (open_fails _ _); [done|]. destruct (write_fails _ _); [done|].
  intros (Ht & -> & -> & -> & ->)%IH. change (0 <? S i)%nat with true in Ht. cbv iota in Ht.
  rewrite Ht. cbn [List.length]. destruct (0 <? i)%nat; cbn; split_and!; try done; try lia.
  - by rewrite !string_app_assoc.
  - rewrite string_app_assoc. f_equal. apply separated_commas.
Qed.

Definition images_of (c : Collected) (id : string) : Z :=
  match observations c !! id with
  | Some r => Z.of_nat (List.length (PolicyObservation.images (observation r)))
  | None => 0
  end.

Fixpoint total (f : string -> Z) (l : list string) : Z :=
  match l with [] => 0 | id :: r => f id + total f r end.

(** what a successful iteration adds *)
Lemma export_one_text w a e d c id out out' :
  export_one w a e d c id out = (out', None) ->
  let writes := complete c id || include_incomplete a in
  frames out' = (frames out ++
    (if writes then frame_line e (frame_count (stats out)) c id ++ newline else ""))%string /\
  frame_count (stats out') = frame_count (stats out) + (if writes then 1 else 0) /\
  incomplete_count (stats out') = incomplete_count (stats out) + (if complete c id then 0 else 1) /\
  observation_count (stats out') = observation_count (stats out) /\
  image_count (stats out') = image_count (stats out) + (if writes then images_of c id else 0).
Proof.
  unfold export_one, frame_line, images_of. cbv zeta.
  set (out0 := if complete c id then out else _).
  assert (frames out0 = frames out /\ frame_count (stats out0) = frame_count (stats out) /\
    incomplete_count (stats out0) = incomplete_count (stats out) + (if complete c id then 0 else 1) /\
    observation_count (stats out0) = observation_count (stats out) /\
    image_count (stats out0) = image_count (stats out)) as (E1 & E2 & E3 & E4 & E5).
  { unfold out0. destruct (complete c id); cbn; split_and!; lia || done. }
  rewrite <- negb_orb. destruct (complete c id || include_incomplete a); cbn [negb].
  2:{ intros [= <-]. rewrite append_empty_r. split_and!; try done; lia. }
  destruct (observations c !! id) as [record|]; [|done]. unfold write_frame. cbv zeta.
  destruct (write_images _ _ _ _ _ _ _) as [out1 [err|]] eqn:Hw; [done|].
  apply write_images_text in Hw as (T & S1 & S2 & S3 & S4). change (0 <? 0)%nat with false in T.
  cbv iota in T. intros [= <-]. cbn in *. rewrite T, S1, S2, S3, S4, E1, E2, E3, E4, E5.
  split_and!; try done. by rewrite !string_app_assoc.
Qed.

Lemma export_frames_text w a e d c order out out' :
  export_frames w a e d c order out = (out', None) ->
  frames out' = (frames out ++ frame_lines e (frame_count (stats out)) c (exported a c order))%string /\
  frame_count (stats out') = frame_count (stats out) + Z.of_nat (List.length (exported a c order)) /\
  incomplete_count (stats out') = incomplete_count (stats out) +
    Z.of_nat (List.length (List.filter (fun id => negb (complete c id)) order)) /\
  observation_count (stats out') = observation_count (stats out) /\
  image_count (stats out') = image_count (stats out) + total (images_of c) (exported a c order).
Proof.
  revert out; induction order as [|id r IH]; intros out; cbn [export_frames exported List.filter].
  { intros [= <-]. cbn [frame_lines List.length total]. rewrite append_empty_r.
    split_and!; lia || done. }
  destruct (export_one w a e d c id out) as [out1 [err|]] eqn:H1; [done|].
  apply export_one_text in H1. cbv zeta in H1. destruct H1 as (T & S1 & S2 & S3 & S4).
  intros (-> & -> & -> & -> & ->)%IH. rewrite T, S1, S2, S3, S4.
  fold (exported a c r).
  destruct (complete c id || include_incomplete a) eqn:Hw, (complete c id); cbn [negb] in *; try done;
    cbn [frame_lines List.length total];
    rewrite ?append_empty_r, ?string_app_assoc, ?Z.add_0_r; split_and!; lia || done.
Qed.

(** the steps of a run that passes *)
Lemma passed_run `{Rosbag2} w bag args fs fs' a s :
  parse_arguments w fs args = Some (Returns a) ->
  main w bag args fs = (fs', Passed s) ->
  let e := List.last (episode_path a) ""%string in let temp := partial_path (output_path a) in
  exists c fs0 out,
    read_bag (bag (episode_path a)) = Returns c /\
    export_frames w a e temp c (observation_order c)
      (MakeOutput fs0 "" (MakeStats (Z.of_nat (List.length (observation_order c))) 0 0 0)) = (out, None) /\
    s = stats out /\
    fs' = move_tree temp (parts (output_path a))
      (write_file w (temp ++ ["dataset_manifest.json"%string]) (manifest_text w a e s)
        (write_file w (temp ++ ["frames.jsonl"%string]) (frames out) (files out))).
Proof.
  intros Hp Hm. cbv zeta.
  destruct (main_parsed w bag args fs fs' _ a Hp Hm) as [(? & _ & [=])|(c & Hb & He)].
  revert He. unfold export_collected. destruct (exists_ _); [done|].
  destruct (create_directories _ _ _) as [fs0 [err|]]; [done|].
  destruct (open_fails _ _); [done|].
  match goal with |- context [export_into ?w ?a ?e ?d ?c ?f] =>
    destruct (export_into w a e d c f) as [[fs1 s1] [err|]] eqn:Hi end; [by destruct (remove_all _ _ _)|].
  intros [= <- <-]. revert Hi. unfold export_into.
  destruct (export_frames _ _ _ _ _ _ _) as [out [err|]] eqn:Hx; [done|].
  unfold write_manifest. destruct (open_fails _ _); [done|].
  destruct (rename _ _ _ _) as [fs2 err] eqn:Hr. intros [= <- <- ->].
  apply rename_none in Hr as (-> & _ & _). exists c. do 2 eexists. split_and!; done.
Qed.

(** the exported directory has what was written into the temporary one last *)
Lemma moved_file w a b x content y content' fs r n :
  write_file w (a ++ [y]) content' (write_file w (a ++ [x]) content fs) !! (a ++ r) = Some n ->
  move_tree a b (write_file w (a ++ [y]) content' (write_file w (a ++ [x]) content fs)) !! (b ++ r) = Some n.
Proof. intros E. etransitivity; [apply move_tree_inside; by eexists|exact E]. Qed.

Lemma write_file_ne w p q content fs : p <> q -> write_file w p content fs !! q = fs !! q.
Proof. apply lookup_insert_ne. Qed.

(** What a successful export contains.  [frames.jsonl] is, line by line, one
    frame for every exported observation, in the order in which the
    observations were first recorded; every frame is built from the last
    message each topic carried for that observation; and the counters of the
    manifest are the numbers of observations, frames, incomplete observations
    and images. *)
Theorem exported_frames_join_latest_messages `{Rosbag2} w bag args fs fs' a s :
  (forall p content, on_disk w p content = content) ->
  parse_arguments w fs args = Some (Returns a) ->
  main w bag args fs = (fs', Passed s) ->
  exists c, describes (messages (bag (episode_path a))) c /\
    let ids := exported a c (observation_order c) in
    (exists size content,
       fs' !! (parts (output_path a) ++ ["frames.jsonl"%string]) = Some (File size content) /\
       split_lines content "" = lines_of (List.last (episode_path a) ""%string) 0 c ids) /\
    observation_count s = Z.of_nat (List.length (observation_order c)) /\
    frame_count s = Z.of_nat (List.length ids) /\
    incomplete_count s =
      Z.of_nat (List.length (List.filter (fun id => negb (complete c id)) (observation_order c))) /\
    image_count s = total (images_of c) ids.
Proof.
  intros Hdisk Hp Hm.
  destruct (passed_run w bag args fs fs' a s Hp Hm) as (c & fs0 & out & Hb & Hx & -> & ->).
  exists c. split.
  { unfold read_bag in Hb. apply obind_returns in Hb as (c' & Hl & Hc).
    destruct (reader_error _); [done|]. injection Hc as ->. by apply collect_describes. }
  apply export_frames_text in Hx as (T & S1 & S2 & S3 & S4). cbn in T, S1, S2, S3, S4.
  split_and!; try done. eexists _, (frames out). split.
  - apply moved_file. etransitivity; [apply write_file_ne; by intros [=]%app_inv_head|].
    unfold write_file. rewrite Hdisk. apply lookup_insert_eq.
  - rewrite T. apply frame_lines_split.
Qed.

(** ** Image files *)
Definition image_path (d : path) (k : Z) (o : PolicyObservation.PolicyObservationMsg) (i : nat)
    (image : CompressedImage.CompressedImageMsg) : path :=
  d ++ ["images"%string; image_file k o i image].

Lemma write_images_other w d k o i images out out' q :
  write_images w d k o i images out = (out', None) ->
  (forall j image, images !! j = Some image -> q <> image_path d k o (i + j) image) ->
  files out' !! q = files out !! q.
Proof.
  revert i out; induction images as [|image r IH]; intros i out; cbn [write_images].
  { by intros [= <-]. }
  destruct (open_fails _ _); [done|]. destruct (write_fails _ _); [done|]. intros Hw Hq.
  apply IH in Hw as ->.
  - assert (d ++ ["images"%string; image_file k o i image] <> q) as Hne.
    { intros E. apply (Hq 0%nat image); [done|]. rewrite Nat.add_0_r. exact (eq_sym E). }
    destruct (0 <? i)%nat; apply (lookup_insert_ne _ _ _ _ Hne).
  - intros j x Hj. specialize (Hq (S j) x Hj). by rewrite Nat.add_succ_r in Hq.
Qed.

Lemma write_images_kept w d k o i images out out' j image :
  (forall p content, on_disk w p content = content) ->
  write_images w d k o i images out = (out', None) ->
  images !! j = Some image ->
  (forall j' image', (j < j')%nat -> images !! j' = Some image' ->
     image_file k o (i + j') image' <> image_file k o (i + j) image) ->
  exists size, files out' !! image_path d k o (i + j) image =
    Some (File size (bytes_text (CompressedImage.data image))).
Proof.
  intros Hdisk. revert i j out; induction images as [|x r IH]; intros i j out; [done|].
  cbn [write_images]. destruct (open_fails _ _); [done|]. destruct (write_fails _ _); [done|].
  intros Hw Hj Hu. destruct j as [|j].
  - injection Hj as ->. eexists. rewrite Nat.add_0_r.
    etransitivity; [eapply write_images_other; [exact Hw|]|].
    + intros j' x' Hj' E%app_inv_head. injection E as E.
      apply (Hu (S j') x'); [lia|done|]. by rewrite Nat.add_succ_r, Nat.add_0_r.
    + cbn. etransitivity; [apply lookup_insert_eq|]. by rewrite Hdisk.
  - destruct (IH (S i) j _ Hw Hj) as [size E].
    + intros j' x' Hlt Hj'. specialize (Hu (S j') x' ltac:(lia) Hj').
      by rewrite !Nat.add_succ_r in Hu.
    + exists size. by rewrite Nat.add_succ_r.
Qed.

Lemma digit_char_not_underscore d : 0 <= d < 16 -> Ascii.eqb "_" (digit_char d) = false.
Proof.
  intros Hd.
  assert (forallb (fun d => negb (Ascii.eqb "_" (digit_char (Z.of_nat d)))) (seq 0 16) = true) as H
    by (vm_compute; reflexivity).
  rewrite <- (Z2Nat.id d) by lia. apply negb_true_iff.
  apply (proj1 (forallb_forall _ _) H). apply in_seq. lia.
Qed.

Lemma zeros_has_not n s : str_has "_" (zeros n ++ s) = str_has "_" s.
Proof. by induction n. Qed.

Lemma frame_prefix_no_underscore k : 0 <= k -> str_has "_" (frame_prefix k) = false.
Proof.
  intros Hk. unfold frame_prefix. rewrite zeros_has_not. unfold to_string, base_string.
  rewrite (proj2 (Z.ltb_ge _ _) Hk). apply base_digits_no_char; [lia| |done].
  apply digit_char_not_underscore.
Qed.

Lemma parse_zeros n s : parse_base 10 (zeros n ++ s) 0 = parse_base 10 s 0.
Proof. by induction n. Qed.

Lemma frame_prefix_inj k k' : 0 <= k -> 0 <= k' -> frame_prefix k = frame_prefix k' -> k = k'.
Proof.
  intros Hk Hk' E%(f_equal (fun s => parse_base 10 s 0)). unfold frame_prefix in E.
  rewrite !parse_zeros in E. unfold to_string in E.
  rewrite (proj2 (Z.ltb_ge _ _) Hk), (proj2 (Z.ltb_ge _ _) Hk') in E.
  by rewrite !parse_base_string in E by lia.
Qed.

(** files of different frames have different names *)
Lemma image_file_frame k o i x k' o' i' x' :
  0 <= k -> 0 <= k' -> image_file k o i x = image_file k' o' i' x' -> k = k'.
Proof.
  intros Hk Hk' E. unfold image_file in E. cbn [text] in E. rewrite !append_cons in E.
  apply split_at_char in E as [E _]; [|by apply frame_prefix_no_underscore..].
  by apply frame_prefix_inj in E.
Qed.

Lemma export_one_files w a e d c id out out' :
  export_one w a e d c id out = (out', None) ->
  if complete c id || include_incomplete a then
    exists record out0 out1, observations c !! id = Some record /\ files out0 = files out /\
      write_images w d (frame_count (stats out)) (observation record) 0
        (PolicyObservation.images (observation record)) out0 = (out1, None) /\
      files out' = files out1
  else files out' = files out.
Proof.
  unfold export_one. set (out0 := if complete c id then out else _).
  assert (files out0 = files out /\ frame_count (stats out0) = frame_count (stats out)) as [E1 E2]
    by by unfold out0; destruct (complete c id).
  rewrite <- negb_orb. destruct (complete c id || include_incomplete a); cbn [negb]; [|by intros [= <-]].
  destruct (observations c !! id) as [record|]; [|done]. unfold write_frame. cbv zeta.
  destruct (write_images _ _ _ _ _ _ _) as [out1 [err|]] eqn:Hw; [done|]. intros [= <-].
  eexists record, _, out1. split_and!; [done| |rewrite <- E2; exact Hw|done]. done.
Qed.

Definition image_of_frame (d : path) (n : Z) (q : path) : Prop :=
  exists o i image, q = image_path d n o i image.

(** later frames leave the images of earlier ones alone *)
Lemma export_frames_other w a e d c order out out' k q :
  export_frames w a e d c order out = (out', None) ->
  0 <= k < frame_count (stats out) -> image_of_frame d k q -> files out' !! q = files out !! q.
Proof.
  revert out; induction order as [|id r IH]; intros out; cbn [export_frames]; [by intros [= <-]|].
  destruct (export_one w a e d c id out) as [out1 [err|]] eqn:H1; [done|]. intros Hr Hk Hq.
  pose proof H1 as (_ & Hs & _)%export_one_text. apply export_one_files in H1.
  rewrite (IH out1 Hr); [|destruct (_ || _); lia|done].
  destruct (complete c id || include_incomplete a); [|by rewrite H1].
  destruct H1 as (record & out0 & out2 & _ & <- & Hw & ->).
  apply (write_images_other _ _ _ _ _ _ _ _ q Hw). intros j x _ E.
  destruct Hq as (o & i & image & ->). apply app_inv_head in E. injection E as E.
  apply image_file_frame in E; lia.
Qed.

Definition last_of_its_name (k : Z) (o : PolicyObservation.PolicyObservationMsg) (j : nat)
    (image : CompressedImage.CompressedImageMsg) : Prop :=
  forall j' image', (j < j')%nat -> PolicyObservation.images o !! j' = Some image' ->
    image_file k o j' image' <> image_file k o j image.

Lemma export_frames_images w a e d c order out out' n id record j image :
  (forall p content, on_disk w p content = content) ->
  export_frames w a e d c order out = (out', None) ->
  0 <= frame_count (stats out) ->
  exported a c order !! n = Some id -> observations c !! id = Some record ->
  let k := frame_count (stats out) + Z.of_nat n in let o := observation record in
  PolicyObservation.images o !! j = Some image -> last_of_its_name k o j image ->
  exists size, files out' !! image_path d k o j image =
    Some (File size (bytes_text (CompressedImage.data image))).
Proof.
  intros Hdisk. revert out n; induction order as [|x r IH]; intros out n; cbn [export_frames]; [done|].
  destruct (export_one w a e d c x out) as [out1 [err|]] eqn:H1; [done|]. intros Hr H0.
  pose proof H1 as (_ & Hs & _)%export_one_text. apply export_one_files in H1.
  cbn [exported List.filter]. fold (exported a c r).
  destruct (complete c x || include_incomplete a).
  2:{ rewrite Z.add_0_r in Hs. intros Hn Ho. rewrite <- Hs in *. by apply IH. }
  destruct n as [|n].
  - intros [= ->] Ho Hj Hu. rewrite Z.add_0_r in *.
    destruct H1 as (record' & out0 & out2 & Ho' & _ & Hw & Ef).
    rewrite Ho in Ho'. injection Ho' as <-.
    rewrite (export_frames_other _ _ _ _ _ _ _ _ (frame_count (stats out)) _ Hr); [|lia|by do 3 eexists].
    rewrite Ef. by apply (write_images_kept w d _ _ 0 _ _ _ j image Hdisk Hw).
  - intros Hn Ho. replace (frame_count (stats out) + Z.of_nat (S n))
      with (frame_count (stats out1) + Z.of_nat n) by lia. apply IH; try done. lia.
Qed.

(** No recorded image is lost.  After a successful export, every image of
    every exported frame is in the file its frame line names, with the bytes
    that were recorded; except that of several images of one frame whose
    sanitised keys and formats give the same file name only the last one
    survives, although all of them are counted. *)
Theorem exported_images_are_kept `{Rosbag2} w bag args fs fs' a s c n id record j image :
  (forall p content, on_disk w p content = content) ->
  parse_arguments w fs args = Some (Returns a) ->
  read_bag (bag (episode_path a)) = Returns c ->
  main w bag args fs = (fs', Passed s) ->
  exported a c (observation_order c) !! n = Some id -> observations c !! id = Some record ->
  let k := Z.of_nat n in let o := observation record in
  PolicyObservation.images o !! j = Some image -> last_of_its_name k o j image ->
  exists size, fs' !! (parts (output_path a) ++ ["images"%string; image_file k o j image]) =
    Some (File size (bytes_text (CompressedImage.data image))).
Proof.
  intros Hdisk Hp Hb Hm Hn Ho k o Hj Hu.
  destruct (passed_run w bag args fs fs' a s Hp Hm) as (c' & fs0 & out & Hb' & Hx & -> & ->).
  rewrite Hb in Hb'. injection Hb' as <-.
  apply (export_frames_images _ _ _ _ _ _ _ _ n id record j image Hdisk) in Hx as [size Ef]; try done.
  exists size. apply moved_file.
  etransitivity; [apply write_file_ne|etransitivity; [apply write_file_ne|exact Ef]];
    by intros [=]%app_inv_head.
Qed.

(** An output path written with a slash at the end ([--output out/]) is
    never exported to: the temporary directory [out/.partial] lies inside the
    output directory, which the final [rename] then refuses to replace. *)
Theorem trailing_slash_never_exports `{Rosbag2} w bag args fs fs' exit a :
  parse_arguments w fs args = Some (Returns a) ->
  trailing_slash (output_path a) = true ->
  main w bag args fs = (fs', exit) ->
  exists what, exit = Failed what.
Proof.
  intros Hp Hts Hm. pose proof (parsed_output w fs args a Hp) as Hne.
  destruct (main_parsed w bag args fs fs' exit a Hp Hm) as [(e & _ & ->)|(c & _ & He)]; [by eexists|].
  pose proof He as Hx. apply export_collected_spec in He; [|done]. destruct exit as [|s|e]; [| |by eexists].
  - exfalso. revert Hx. unfold export_collected. destruct (exists_ _); [done|].
    destruct (create_directories _ _ _) as [? [?|]]; [done|]. destruct (open_fails _ _); [done|].
    destruct (export_into _ _ _ _ _ _) as [[? ?] [?|]]; [by destruct (remove_all _ _ _)|done].
  - exfalso. destruct He as (fs1 & _ & Ht & _ & _ & Hr & Htrail).
    unfold partial_path in Hr, Ht. rewrite Hts in Hr, Ht.
    exact (rename_to_parent w _ _ fs1 fs' (Htrail Hts) Ht Hr).
Qed.

(** ** A run *)
Definition demo_world : World := {|
  cwd := ["data"%string]; weakly_canonical s := parts (absolute_normal ["data"%string] s);
  link_target _ := None; create_directory_error _ := None; open_fails _ := false;
  write_fails _ := false; on_disk _ content := content; rename_error := None;
  survives _ := false; remove_error := "remove_all"; clock := 1735689600 |}.

Definition demo_files : filesystem :=
  <[["data"%string] := Directory]> (<[["data"; "ep1"]%string := Directory]> ∅).

(** the serialised form of a demonstration message is its observation id *)
Definition demo_bag_messages : Rosbag2 := {|
  read_observation data := Returns (PolicyObservation.zero
    <| PolicyObservation.observation_id := data |>
    <| PolicyObservation.image_keys := ["front/cam"]%string |>
    <| PolicyObservation.images := [CompressedImage.Make Header.zero "jpeg" [65; 66]] |>);
  read_policy_action data := Throws "not used";
  read_training_action data := Returns (TrainingAction.zero
    <| TrainingAction.observation_id := data |> <| TrainingAction.values := [lit 5 1] |>);
  read_comparison data := Throws "not used" |}.

Definition demo_bag (p : path) : Bag := MakeBag
  [MakeBagMessage "/vla/observation" 1 "a"; MakeBagMessage "/vla/observation" 2 "b";
   MakeBagMessage "/chitu/action/executed" 3 "b"; MakeBagMessage "/vla/observation" 4 ""]%string None.

Definition demo_args : list string := ["--episode"; "ep1"; "--output"; "out"]%string.
Definition demo_arguments : Arguments :=
  MakeArguments ["data"; "ep1"]%string (MakeNormal ["data"; "out"]%string false) false.
Definition demo_stats : ExportStats := MakeStats 2 1 1 1.
Definition demo_run (w : World) (args : list string) := main (H := demo_bag_messages) w demo_bag args demo_files.

Lemma demo_run_passes :
  demo_run demo_world demo_args = (fst (demo_run demo_world demo_args), Passed demo_stats).
Proof.
  assert (snd (demo_run demo_world demo_args) = Passed demo_stats) as <-
    by (vm_compute; reflexivity). apply surjective_pairing.
Qed.

Lemma demo_parsed :
  parse_arguments demo_world demo_files demo_args = Some (Returns demo_arguments).
Proof. vm_compute. reflexivity. Qed.

Lemma demo_collected : exists c, read_bag (H := demo_bag_messages) (demo_bag ["data"; "ep1"]%string) = Returns c /\
  exported demo_arguments c (observation_order c) = ["b"%string] /\
  (observation_order c) = ["a"; "b"]%string.
Proof. eexists. split; [reflexivity|]. split; vm_compute; reflexivity. Qed.


Lemma exported_frames_join_latest_messages_witness :
  exists c, describes (H := demo_bag_messages) (messages (demo_bag ["data"; "ep1"]%string)) c /\
    2 = Z.of_nat (List.length (observation_order c)) /\
    1 = Z.of_nat (List.length (exported demo_arguments c (observation_order c))).
Proof.
  destruct (@exported_frames_join_latest_messages demo_bag_messages demo_world demo_bag demo_args
    demo_files _ demo_arguments demo_stats (fun _ _ => eq_refl) demo_parsed demo_run_passes)
    as (c & Hc & _ & Ho & Hf & _).
  exists c. split; [exact Hc|]. split; [exact Ho|exact Hf].
Defined.

Lemma exported_images_are_kept_witness :
  exists size, fst (demo_run demo_world demo_args) !!
    (["data"; "out"; "images"; "000000_front_cam.jpg"]%string) = Some (File size "AB").
Proof.
  pose (c := match read_bag (H := demo_bag_messages) (demo_bag ["data"; "ep1"]%string) with
             | Returns c => c | Throws _ => nothing_collected end).
  pose (r := match read_observation (Rosbag2 := demo_bag_messages) "b" with
             | Returns o => MakeRecord o 2 | Throws _ => MakeRecord PolicyObservation.zero 0 end).
  refine (@exported_images_are_kept demo_bag_messages demo_world demo_bag demo_args
    demo_files _ demo_arguments demo_stats c 0 "b" r 0 (CompressedImage.Make Header.zero "jpeg" [65; 66])
    (fun _ _ => eq_refl) demo_parsed eq_refl demo_run_passes _ _ eq_refl _).
  - vm_compute. reflexivity.
  - vm_compute. reflexivity.
  - intros [|j'] image' Hlt Hj; [lia|]. by destruct j'.
Defined.

Lemma trailing_slash_never_exports_witness :
  exists what, snd (demo_run demo_world ["--episode"; "ep1"; "--output"; "out/"]%string) = Failed what.
Proof.
  apply (@trailing_slash_never_exports demo_bag_messages demo_world demo_bag
    ["--episode"; "ep1"; "--output"; "out/"]%string demo_files
    (fst (demo_run demo_world ["--episode"; "ep1"; "--output"; "out/"]%string)) _
    (MakeArguments ["data"; "ep1"]%string (MakeNormal ["data"; "out"]%string true) false)).
  - vm_compute. reflexivity.
  - reflexivity.
  - apply surjective_pairing.
Defined.

(** The failed export leaves the empty output directory behind, so that the
    next attempt, now without the slash, is refused too. *)
Example trailing_slash_blocks_retry :
  let '(fs, _) := demo_run demo_world ["--episode"; "ep1"; "--output"; "out/"]%string in
  snd (main (H := demo_bag_messages) demo_world demo_bag demo_args fs) =
    Failed "Output path already exists: /data/out".
Proof. vm_compute. reflexivity. Qed.

(** The program looks at no result of writing the frames: with a disk that
    keeps nothing it passes all the same. *)
Example lost_frames_still_pass :
  let w := MakeWorld (cwd demo_world) (weakly_canonical demo_world) (link_target demo_world)
    (create_directory_error demo_world) (open_fails demo_world) (write_fails demo_world)
    (fun _ _ => ""%string) None (survives demo_world) "" 0 in
  snd (demo_run w demo_args) = Passed demo_stats /\
  fst (demo_run w demo_args) !! ["data"; "out"; "frames.jsonl"]%string = Some (File 0 "").
Proof. vm_compute. split; reflexivity. Qed.
