(* ===== verification/ObservationReplay.v ===== *)
(** * Replaying recorded observations

    Models [vehicle_data/src/observation_replay_node.cpp]: the constructor
    ([configure], which checks the parameters and loads the bag) and the replay
    thread.  The thread polls a stop flag, [rclcpp::ok()] and the steady clock;
    a run is given by the results of these polls, in order, so that the
    definitions are structural in the polls and [Waiting] is a thread that is
    still running when they end.  The bag and [rosbag2] are those of
    [DatasetExporter]. *)
From S2P Require Import Prelude Floats Messages DatasetExporter.
Local Open Scope Z_scope.
Local Open Scope outcome_scope.

(** ** The constructor *)
Record ReplayParameters := MakeReplayParameters {
  bag_path_ : string;
  output_topic_ : string;
  playback_rate_ : double;
  validity_seconds_ : double;
  start_delay_seconds_ : double;
  max_messages_ : Z;
  allow_live_topic_ : bool }.

(** the declared parameters, as the constructor keeps them *)
Definition clamp_parameters (d : ReplayParameters) : ReplayParameters :=
  MakeReplayParameters (bag_path_ d) (output_topic_ d)
    (dmax (playback_rate_ d) (lit 1 2)) (dmax (validity_seconds_ d) (lit 1 1))
    (dmax (start_delay_seconds_ d) dzero) (Z.max (max_messages_ d) 0) (allow_live_topic_ d).

Record ReplayRecord := MakeReplayRecord {
  record_timestamp_ns : Z; record_observation : PolicyObservation.PolicyObservationMsg }.

Definition replay_prefix : string := "/vla/replay/".

Section Loading.
Context `{Rosbag2}.

(** The loop of [load_observations] over what is left to read; [records] is
    what was kept.  [break] leaves the rest, and the reader's error, unread. *)
Fixpoint load_loop (max_messages : Z) (left : list BagMessage) (reader_error : option string)
    (records : list ReplayRecord) : Outcome (list ReplayRecord) :=
  match left with
  | [] => match reader_error with Some e => Throws e | None => Returns records end
  | m :: rest =>
      if negb (str_eqb (topic_name m) "/vla/observation") then
        load_loop max_messages rest reader_error records
      else
        let! observation := read_observation (serialized_data m) in
        let records' := records ++ [MakeReplayRecord (time_stamp m) observation] in
        if (0 <? max_messages) && (max_messages <=? Z.of_nat (List.length records'))
        then Returns records'
        else load_loop max_messages rest reader_error records'
  end.

Definition load_observations (p : ReplayParameters) (bag : Bag) : Outcome (list ReplayRecord) :=
  let! records := load_loop (max_messages_ p) (messages bag) (reader_error bag) [] in
  match records with
  | [] => Throws "bag contains no /vla/observation messages"
  | _ => Returns records
  end.

(** [ObservationReplay::ObservationReplay]; [bag] is what [rosbag2] finds at a path *)
Definition configure (bag : string -> Bag) (declared : ReplayParameters)
  : Outcome (ReplayParameters * list ReplayRecord) :=
  let p := clamp_parameters declared in
  if str_empty (bag_path_ p) then Throws "bag_path parameter is required"
  else if negb (allow_live_topic_ p) && negb (str_prefix replay_prefix (output_topic_ p)) then
    Throws "output_topic must stay under /vla/replay/ unless allow_live_topic=true"
  else
    let! records := load_observations p (bag (bag_path_ p)) in
    Returns (p, records).
End Loading.

(** ** The replay thread *)

(** One evaluation of [!stop_requested_.load() && rclcpp::ok()], with the
    steady clock read after it. *)
Record Poll := MakePoll { stop_requested : bool; ok : bool; steady : Z }.
Definition running (q : Poll) : bool := negb (stop_requested q) && ok q.

(** [wait_until]: [None] is still waiting after all the polls *)
Fixpoint wait_until (target : Z) (polls : list Poll) : option (bool * Z * list Poll) :=
  match polls with
  | [] => None
  | q :: rest =>
      if running q then
        if target <=? steady q then Some (true, steady q, rest) else wait_until target rest
      else Some (false, steady q, rest)
  end.

Inductive ThreadEnd :=
| Waiting          (* the polls ended first *)
| NotStarted       (* stopped during the start delay: returns without [shutdown] *)
| ShutDown.        (* all published or stopped: [rclcpp::shutdown()] *)

Section Thread.
Context `{Rclcpp}.
Variable p : ReplayParameters.
Variable run_id_ : Z.

Definition image_at (current : Z) (image : CompressedImage.CompressedImageMsg) :=
  image <| CompressedImage.header :=
    Header.Make (to_msg current) (Header.frame_id (CompressedImage.header image)) |>.

(** the message published for a record; [current] is [now()] *)
Definition replay_message (current : Z) (m : PolicyObservation.PolicyObservationMsg)
  : PolicyObservation.PolicyObservationMsg :=
  m <| PolicyObservation.header :=
         Header.Make (to_msg current) (Header.frame_id (PolicyObservation.header m)) |>
    <| PolicyObservation.images := map (image_at current) (PolicyObservation.images m) |>
    <| PolicyObservation.generated_at := to_msg current |>
    <| PolicyObservation.valid_until := to_msg (current + from_seconds (validity_seconds_ p)) |>
    <| PolicyObservation.observation_id :=
         ("replay-" ++ to_string run_id_ ++ "-" ++ PolicyObservation.observation_id m)%string |>.

(** when a record is due, [first] being the stamp of the first record *)
Definition relative_nanoseconds (first stamp : Z) : Z :=
  trunc_int (ddiv (of_int (stamp - first)) (playback_rate_ p)).

(** The [for] loop.  [clock n] is [now()] for the [n]-th message; a published
    message comes with the reading of the steady clock that released it. *)
Fixpoint replay_loop (clock : nat -> Z) (started first : Z) (n : nat) (records : list ReplayRecord)
    (polls : list Poll) : list (Z * PolicyObservation.PolicyObservationMsg) * ThreadEnd :=
  match records with
  | [] => ([], ShutDown)
  | r :: rest =>
      match polls with
      | [] => ([], Waiting)
      | q :: polls1 =>
          if negb (running q) then ([], ShutDown)
          else
            match wait_until (started + relative_nanoseconds first (record_timestamp_ns r)) polls1 with
            | None => ([], Waiting)
            | Some (false, _, _) => ([], ShutDown)
            | Some (true, at_, polls2) =>
                let '(published, e) := replay_loop clock started first (S n) rest polls2 in
                ((at_, replay_message (clock n) (record_observation r)) :: published, e)
            end
      end
  end.

(** [replay]; [begin_] is the steady clock when the thread starts.
    [records_.front()] is read after the delay; the constructor leaves at least
    one record. *)
Definition playback_started (begin_ : Z) : Z := begin_ + chrono_duration_cast (start_delay_seconds_ p).

Definition replay (clock : nat -> Z) (begin_ : Z) (records : list ReplayRecord) (polls : list Poll)
  : list (Z * PolicyObservation.PolicyObservationMsg) * ThreadEnd :=
  match wait_until (playback_started begin_) polls with
  | None => ([], Waiting)
  | Some (false, _, _) => ([], NotStarted)
  | Some (true, _, polls1) =>
      replay_loop clock (playback_started begin_)
        match records with [] => 0 | r :: _ => record_timestamp_ns r end 0 records polls1
  end.

(** ** Facts *)
Lemma wait_until_true target polls at_ rest :
  wait_until target polls = Some (true, at_, rest) -> target <= at_.
Proof.
  induction polls as [|q polls IH]; simpl; [done|].
  destruct (running q); [|done]. destruct (Z.leb_spec target (steady q)); [by intros [= <- <-]|done].
Qed.

(** what the loop publishes: record [i] of [records] at its due time or later *)
Definition due (started first : Z) (r : ReplayRecord) : Z :=
  started + relative_nanoseconds first (record_timestamp_ns r).

Definition answers (clock : nat -> Z) (started first : Z) (n : nat) (r : ReplayRecord)
    (o : Z * PolicyObservation.PolicyObservationMsg) : Prop :=
  due started first r <= fst o /\ snd o = replay_message (clock n) (record_observation r).

Lemma replay_loop_prefix clock started first n records polls :
  exists done_ rest, records = done_ ++ rest /\
    List.length (fst (replay_loop clock started first n records polls)) = List.length done_ /\
    (forall i r o, done_ !! i = Some r ->
       fst (replay_loop clock started first n records polls) !! i = Some o ->
       answers clock started first (n + i) r o).
Proof.
  revert n polls. induction records as [|r records IH]; intros n polls; [by exists [], []|]. simpl.
  assert (Hnone : exists done_ rest, r :: records = done_ ++ rest /\
    List.length (@nil (Z * PolicyObservation.PolicyObservationMsg)) = List.length done_ /\
    (forall i r' o, done_ !! i = Some r' ->
       @nil (Z * PolicyObservation.PolicyObservationMsg) !! i = Some o ->
       answers clock started first (n + i) r' o)) by (exists [], (r :: records); naive_solver).
  destruct polls as [|q polls1]; [done|]. destruct (negb (running q)); [done|].
  destruct (wait_until _ polls1) as [[[[] at_] polls2]|] eqn:Ew; [|done..].
  destruct (IH (S n) polls2) as (done_ & rest & -> & Hlen & Hans).
  destruct (replay_loop clock started first (S n) (done_ ++ rest) polls2) as [published e].
  exists (r :: done_), rest. split_and!; [done|simpl in *; by f_equal|].
  intros [|i] r' o; simpl.
  - intros [= <-] [= <-]. rewrite Nat.add_0_r. split; [|done]. by eapply wait_until_true.
  - intros Hr Ho. rewrite Nat.add_succ_r. by apply Hans.
Qed.

(** polls made at or after [t] *)
Definition late (t : Z) (polls : list Poll) : nat :=
  List.length (List.filter (fun q => t <=? steady q) polls).

Lemma wait_until_released t target polls :
  Forall (fun q => running q = true) polls -> target <= t -> (1 <= late t polls)%nat ->
  exists at_ rest, wait_until target polls = Some (true, at_, rest) /\
    Forall (fun q => running q = true) rest /\ (late t polls <= S (late t rest))%nat.
Proof.
  unfold late. intros Hr Ht. induction Hr as [|q polls Hq Hr IH]; simpl; [lia|].
  rewrite Hq. destruct (Z.leb_spec t (steady q)); simpl; intros Hl.
  - rewrite (proj2 (Z.leb_le target (steady q))) by lia. eexists _, polls. split_and!; [done|done|lia].
  - destruct (target <=? steady q); [|by apply IH]. eexists _, polls. split_and!; [done|done|lia].
Qed.

Lemma replay_loop_completes t clock started first n records polls :
  Forall (fun q => running q = true) polls ->
  Forall (fun r => due started first r <= t) records ->
  (2 * List.length records <= late t polls)%nat ->
  List.length (fst (replay_loop clock started first n records polls)) = List.length records /\
  snd (replay_loop clock started first n records polls) = ShutDown.
Proof.
  revert n polls. induction records as [|r records IH]; intros n polls Hr Hd Hl; [done|].
  apply Forall_cons in Hd as [Hd Hds]. simpl in Hl |- *. destruct Hr as [|q polls Hq Hr]; [unfold late in Hl; simpl in Hl; lia|].
  rewrite Hq. simpl. assert (2 * List.length records + 1 <= late t polls)%nat as Hl'.
  { unfold late in *. simpl in Hl. destruct (t <=? steady q); simpl in Hl; lia. }
  destruct (wait_until_released t _ polls Hr Hd) as (at_ & rest & Ew & Hrest & Hlate); [lia|].
  unfold due in Ew. rewrite Ew.
  destruct (IH (S n) rest Hrest Hds) as [Hlen Hend]; [lia|].
  destruct (replay_loop clock started first (S n) records rest). simpl in *. by rewrite Hlen.
Qed.

Lemma list_lookup_full {A B} (P : nat -> A -> B -> Prop) (l : list A) (k : list B) :
  List.length k = List.length l ->
  (forall i x y, l !! i = Some x -> k !! i = Some y -> P i x y) ->
  forall i x, l !! i = Some x -> exists y, k !! i = Some y /\ P i x y.
Proof.
  intros Hlen HP i x Hx. destruct (lookup_lt_is_Some_2 k i) as [y Hy].
  { rewrite Hlen. by eapply lookup_lt_Some. }
  eauto.
Qed.
End Thread.

(** ** Loading *)
Section LoadFacts.
Context `{Rosbag2}.

Definition is_observation (m : BagMessage) : bool := str_eqb (topic_name m) "/vla/observation".

(** [r] is what the bag holds as message [m] *)
Definition recorded_as (m : BagMessage) (r : ReplayRecord) : Prop :=
  record_timestamp_ns r = time_stamp m /\
  read_observation (serialized_data m) = Returns (record_observation r).

Lemma load_loop_spec max left err kept records :
  load_loop max left err kept = Returns records ->
  exists seen rest new, left = seen ++ rest /\ records = kept ++ new /\
    Forall2 recorded_as (List.filter is_observation seen) new /\
    (rest <> [] -> 0 < max <= Z.of_nat (List.length records)) /\
    (0 < max -> Z.of_nat (List.length kept) < max -> Z.of_nat (List.length records) <= max).
Proof.
  revert kept. induction left as [|m left IH]; intros kept; simpl.
  - destruct err; [done|]. intros [= <-]. exists [], [], [].
    split_and!; [done|by rewrite app_nil_r|constructor|intros []; done|lia].
  - unfold is_observation. destruct (str_eqb (topic_name m) "/vla/observation") eqn:Et; simpl.
    + intros (o & Ho & E)%obind_returns.
      destruct (_ && _) eqn:Emax.
      * injection E as <-. apply andb_true_iff in Emax as [H1%Z.ltb_lt H2%Z.leb_le].
        exists [m], left, [MakeReplayRecord (time_stamp m) o]. rewrite length_app in *. simpl in *.
        rewrite Et. split_and!; [done|done|by repeat constructor| |]; intros; lia.
      * apply IH in E as (seen & rest & new & -> & -> & HF & Hrest & Hmax).
        exists (m :: seen), rest, (MakeReplayRecord (time_stamp m) o :: new). simpl. rewrite Et.
        rewrite <- app_assoc in *. simpl in *.
        split_and!; [done|done|by constructor|done|]. intros Hpos Hk. apply Hmax; [done|].
        rewrite length_app in *. simpl. apply andb_false_iff in Emax.
        destruct Emax as [?%Z.ltb_ge|Hl%Z.leb_gt]; [lia|]. rewrite ?length_app in Hl. simpl in Hl. lia.
    + intros E. apply IH in E as (seen & rest & new & -> & -> & HF & Hrest & Hmax).
      exists (m :: seen), rest, new. simpl. rewrite Et. done.
Qed.
End LoadFacts.

(** ** Properties *)

(** the constructor accepts only a bag with observations and, unless the
    live topic is allowed, an output topic under /vla/replay/; what it keeps
    are the first observations of the bag, in order, at most [max_messages] and
    all of them when there is no such bound. *)
Theorem configured_replay `{Rosbag2} bag declared p records :
  configure bag declared = Returns (p, records) ->
  p = clamp_parameters declared /\ records <> [] /\
  (allow_live_topic_ p = false -> str_prefix replay_prefix (output_topic_ p) = true) /\
  exists seen rest, messages (bag (bag_path_ p)) = seen ++ rest /\
    Forall2 recorded_as (List.filter is_observation seen) records /\
    (max_messages_ p = 0 -> rest = []) /\
    (0 < max_messages_ p -> Z.of_nat (List.length records) <= max_messages_ p) /\
    (rest <> [] -> Z.of_nat (List.length records) = max_messages_ p).
Proof.
  unfold configure. cbv zeta. set (q := clamp_parameters declared).
  destruct (str_empty (bag_path_ q)); [done|].
  destruct (negb (allow_live_topic_ q) && _) eqn:Et; [done|].
  intros (l & Hl & [= <- <-])%obind_returns. apply obind_returns in Hl as (k & Hk & Hl).
  apply load_loop_spec in Hk as (seen & rest & new & Hs & -> & HF & Hr & Hm). cbn [app] in *.
  assert (l = new /\ new <> []) as [-> Hne] by (by destruct new; [|injection Hl as <-]).
  split_and!; [done|done| |].
  - intros Ha. rewrite Ha in Et. simpl in Et. by apply negb_false_iff in Et.
  - exists seen, rest. split_and!; [done|done| | |].
    + intros H0. destruct rest; [done|]. destruct Hr; [done|lia].
    + intros Hp. by apply Hm.
    + intros Hrest. apply Hr in Hrest as [H1 H2]. specialize (Hm H1 H1). lia.
Qed.

(** whatever the clocks and the stop flag do, the thread publishes the
    records in order and without gaps, each with its contents, restamped, valid
    for the configured time, and never before it is due. *)
Theorem replay_in_order_and_paced `{Rclcpp} p run_id clock begin_ records polls :
  exists released rest, records = released ++ rest /\
    List.length (fst (replay p run_id clock begin_ records polls)) = List.length released /\
    forall i r, released !! i = Some r ->
      exists at_, fst (replay p run_id clock begin_ records polls) !! i =
          Some (at_, replay_message p run_id (clock i) (record_observation r)) /\
        playback_started p begin_ +
          relative_nanoseconds p (match records with [] => 0 | r0 :: _ => record_timestamp_ns r0 end)
            (record_timestamp_ns r) <= at_.
Proof.
  unfold replay. destruct (wait_until (playback_started p begin_) polls) as [[[[] ?] polls1]|];
    [|by exists [], records..].
  destruct (replay_loop_prefix p run_id clock (playback_started p begin_)
    match records with [] => 0 | r :: _ => record_timestamp_ns r end 0 records polls1)
    as (released & rest & E & Hlen & Hans).
  exists released, rest. split_and!; [done|done|]. intros i r Hi.
  destruct (list_lookup_full _ _ _ Hlen Hans i r Hi) as ([at_ m] & Ho & Hd & Hm).
  exists at_. simpl in Hm. by rewrite Ho, Hm.
Qed.

(** if the node is not stopped, the replay ends: from polls of which two per
    record and one more are made when every record is due, it publishes all
    records and shuts down. *)
Theorem replay_completes `{Rclcpp} p run_id clock begin_ records polls t :
  Forall (fun q => running q = true) polls ->
  playback_started p begin_ <= t ->
  Forall (fun r => due p (playback_started p begin_)
    (match records with [] => 0 | r0 :: _ => record_timestamp_ns r0 end) r <= t) records ->
  (2 * List.length records + 1 <= late t polls)%nat ->
  List.length (fst (replay p run_id clock begin_ records polls)) = List.length records /\
  snd (replay p run_id clock begin_ records polls) = ShutDown.
Proof.
  intros Hr Ht Hd Hl. unfold replay.
  destruct (wait_until_released t (playback_started p begin_) polls Hr Ht) as (at_ & rest & -> & Hrest & Hlate);
    [lia|].
  apply (replay_loop_completes p run_id t); [done|done|lia].
Qed.

(** ** Witnesses *)
#[local] Existing Instance rclcpp_doc.

Definition demo_rosbag : Rosbag2 := {|
  read_observation data := Returns (PolicyObservation.zero <| PolicyObservation.observation_id := data |>);
  read_policy_action _ := Throws "";
  read_training_action _ := Throws "";
  read_comparison _ := Throws "" |}.
#[local] Existing Instance demo_rosbag.

Definition demo_bag : Bag :=
  MakeBag [MakeBagMessage "/tf" 5 ""; MakeBagMessage "/vla/observation" 1000000000 "a";
           MakeBagMessage "/vla/observation" 3000000000 "b"; MakeBagMessage "/vla/observation" 4000000000 "c"]
    (Some "the rest of the bag is damaged"%string).
Definition demo_parameters : ReplayParameters :=
  MakeReplayParameters "run/episode" "/vla/replay/observation" (of_int 2) (of_int 5) (of_int 1) 2 false.
Definition demo_records : list ReplayRecord :=
  match configure (fun _ => demo_bag) demo_parameters with
  | Returns (_, records) => records
  | Throws _ => []
  end.

Lemma configured_replay_witness :
  List.length demo_records = 2%nat /\ str_prefix replay_prefix (output_topic_ demo_parameters) = true.
Proof.
  destruct (configured_replay (fun _ => demo_bag) demo_parameters (clamp_parameters demo_parameters)
    demo_records) as (_ & _ & Ht & _); [vm_compute; reflexivity|].
  split; [vm_compute; reflexivity|]. exact (Ht eq_refl).
Defined.

(** at twice the speed the second record is due one second after the first *)
Definition demo_polls : list Poll :=
  map (fun n => MakePoll false true (Z.of_nat n * 400000000)) (seq 0 20).

Lemma replay_completes_witness :
  map fst (fst (replay demo_parameters 77 (fun _ => 0) 0 demo_records demo_polls)) =
    [2000000000; 2800000000] /\
  List.length (fst (replay demo_parameters 77 (fun _ => 0) 0 demo_records demo_polls)) =
    List.length demo_records.
Proof.
  split; [vm_compute; reflexivity|].
  apply (replay_completes demo_parameters 77 (fun _ => 0) 0 demo_records demo_polls 2000000000);
    [by repeat constructor|vm_compute; discriminate|by repeat constructor|vm_compute; lia].
Defined.
