(* ===== verification/PolicyPath.v ===== *)
(** * The policy's way to the wheels

    The policy gateway, the action runtime and the control chain composed over
    their topics, for every transport that keeps the laws of the interface:
    observations reach the gateway, its actions the runtime, the runtime's raw
    commands the multiplexer, and the chain of [ControlChain] decides.  The debug
    orchestrator publishes on the same topic of raw commands, so a raw command is
    kept with its publisher.  As in [ControlChain] the network delivers any
    published message late, repeatedly or never, and everything else is
    arbitrary.

    [origin] says where a raw command comes from; [policy_path_ok] is the
    invariant that every copy of it on the way still has one. *)
From S2P Require Import Prelude Floats Messages Supervisor PolicyTransport PolicyGateway ActionRuntime ControlMux SafetyGuard ControlChain.
Import Mock.
Local Open Scope Z_scope.

Inductive Publisher := Runtime | Debug.

Section Path.
Context `{Rclcpp} {T W : Type} `{PolicyTransport T W}.

Record PolicyPath := MakePath {
  gateway : VlaPolicyGateway T;
  received : list (Z * PolicyObservation.PolicyObservationMsg);  (* at the gateway, with the time *)
  actions : list PolicyAction.PolicyActionMsg;
  runtime : VlaActionRuntime;
  raw : list (Publisher * TwistStamped);
  chain : Chain }.
#[export] Instance eta_path : Eta PolicyPath := fun s =>
  MakePath (gateway s) (received s) (actions s) (runtime s) (raw s) (chain s).

Definition path_initial (observation_timeout : double) (t : T) (adapter : MobilityAdapter) (c : Chain)
  : PolicyPath :=
  MakePath (PolicyGateway.initial observation_timeout t) [] [] (ActionRuntime.initial adapter) [] c.

Inductive PathEvent :=
| GatewayCallback (e : PolicyGateway.Event (W := W))
| ActionDelivered (i : nat)
| RuntimeTimer (now : Z)
| DebugPublished (m : TwistStamped)
| RawDelivered (i : nat)
| ChainCallback (e : ChainEvent).

Definition observed (e : PolicyGateway.Event (W := W)) : list (Z * PolicyObservation.PolicyObservationMsg) :=
  match e with ObservationReceived now m => [(now, m)] | _ => [] end.
Definition raw_commands (out : list ActionRuntime.Output) : list (Publisher * TwistStamped) :=
  omap (fun o => match o with RawCommand m => Some (Runtime, m) | _ => None end) out.
Definition on_chain (e : ChainEvent) (s : PolicyPath) : PolicyPath * list Twist :=
  let '(c, out) := chain_next (chain s) e in (s <| chain := c |>, out).

Definition path_next (s : PolicyPath) (e : PathEvent) : PolicyPath * list Twist :=
  match e with
  | GatewayCallback e =>
      let '(g, out) := PolicyGateway.next (gateway s) e in
      (s <| gateway := g |> <| received := received s ++ observed e |>
         <| actions := actions s ++ PolicyGateway.actions out |>, [])
  | ActionDelivered i =>
      match actions s !! i with
      | Some m => (s <| runtime := on_action m (runtime s) |>, [])
      | None => (s, [])
      end
  | RuntimeTimer now =>
      let '(r, out) := execute now (runtime s) in
      (s <| runtime := r |> <| raw := raw s ++ raw_commands out |>, [])
  | DebugPublished m => (s <| raw := raw s ++ [(Debug, m)] |>, [])
  | RawDelivered i =>
      match raw s !! i with
      | Some (_, m) => on_chain (VlaDelivered m) s
      | None => (s, [])
      end
  | ChainCallback e => on_chain e s
  end.

(** the multiplexer hears raw commands only through their topic *)
Definition path_event_ok (e : PathEvent) : Prop :=
  match e with
  | ChainCallback (VlaDelivered _) => False
  | ChainCallback e => chain_event_ok e
  | _ => True
  end.

(** ** Where things come from *)
Context `{!TransportLaws T W}.
Variables (timeout : double) (adapter : MobilityAdapter).

(** an observation a prediction may begin with: young enough when it began, and
    not expired *)
Definition taken_up (s : PolicyPath) (o : PolicyObservation.PolicyObservationMsg) : Prop :=
  exists received_at begun, (received_at, o) ∈ received s /\
    dlt timeout (seconds (begun - received_at)) = false /\
    begun <= time_ns (PolicyObservation.valid_until o).

(** an action that carries what the transport predicted for such an observation *)
Definition answers (s : PolicyPath) (o : PolicyObservation.PolicyObservationMsg)
    (m : PolicyAction.PolicyActionMsg) : Prop :=
  taken_up s o /\ exists w t stamp p, well_formed t /\
    snd (predict w (input_of o) t) = Returns p /\ m = action_of stamp p.

(** a raw command that plays one sample of a published action while it is valid *)
Definition plays (s : PolicyPath) (m : PolicyAction.PolicyActionMsg) (command : TwistStamped) : Prop :=
  m ∈ actions s /\ exists sample now, sample ∈ samples_from m /\
    convert adapter sample = Returns (TwistStamped.twist command) /\
    Header.stamp (TwistStamped.header command) = to_msg now /\
    now <= time_ns (PolicyAction.valid_until m).

Definition origin (s : PolicyPath) (r : Publisher * TwistStamped) : Prop :=
  match r with
  | (Debug, _) => True
  | (Runtime, command) => TwistStamped.twist command = Twist.zero \/ exists m, plays s m command
  end.

Definition queued (s : PolicyPath) : Prop :=
  actions_ (runtime s) = [] \/
  exists m, m ∈ actions s /\ valid_until_ (runtime s) = time_ns (PolicyAction.valid_until m) /\
    Forall (fun sample => sample ∈ samples_from m) (actions_ (runtime s)).

(** what a multiplexer holds of the policy *)
Definition heard (s : PolicyPath) (x : VlaControlMux) : Prop :=
  vla_command_ x = Twist.zero \/
  exists publisher m, (publisher, m) ∈ raw s /\ TwistStamped.twist m = vla_command_ x /\
    time_ns (Header.stamp (TwistStamped.header m)) = vla_stamp_ x.

Record policy_path_ok (p : SafetyGuard.Parameters) (s : PolicyPath) : Prop := {
  pp_gateway : PolicyGateway.ok (gateway s);
  pp_timeout : observation_timeout_ (gateway s) = timeout;
  pp_observation o : observation_ (gateway s) = Some o ->
    (observation_received_at_ (gateway s), o) ∈ received s;
  pp_in_flight o : in_flight (gateway s) = Some o -> taken_up s o;
  pp_actions : Forall (fun m => exists o, answers s o m) (actions s);
  pp_adapter : adapter_ (runtime s) = adapter;
  pp_queue : queued s;
  pp_raw : Forall (origin s) (raw s);
  pp_mux : heard s (mux (chain s));
  pp_selections : Forall (fun x => heard s (selector x)) (selections (chain s));
  pp_chain : chain_ok p (chain s) }.

(** topics only grow *)
Record extends (s s' : PolicyPath) : Prop := {
  ex_received : received s ⊆ received s';
  ex_actions : actions s ⊆ actions s';
  ex_raw : raw s ⊆ raw s' }.

Lemma taken_up_extends s s' o : extends s s' -> taken_up s o -> taken_up s' o.
Proof. intros [E _ _] (r & b & Hin & Hrest). exists r, b. split; [by apply E|done]. Qed.
Lemma answers_extends s s' o m : extends s s' -> answers s o m -> answers s' o m.
Proof. intros E [Ht Ha]. split; [by eapply taken_up_extends|done]. Qed.
Lemma plays_extends s s' m c : extends s s' -> plays s m c -> plays s' m c.
Proof. intros [_ E _] [Hm Hp]. split; [by apply E|done]. Qed.
Lemma origin_extends s s' r : extends s s' -> origin s r -> origin s' r.
Proof.
  intros E. destruct r as [[] c]; simpl; [|done]. intros [?|[m Hm]]; [by left|right].
  exists m. by eapply plays_extends.
Qed.
Lemma policy_heard_extends s s' x : extends s s' -> heard s x -> heard s' x.
Proof.
  intros [_ _ E] [?|(pub & m & Hm & Hrest)]; [by left|right]. exists pub, m. split; [by apply E|done].
Qed.

Lemma path_initial_ok p c t : well_formed t -> chain_ok p c ->
  heard (path_initial timeout t adapter c) (mux c) -> selections c = [] ->
  policy_path_ok p (path_initial timeout t adapter c).
Proof.
  intros Ht Hc Hm Hs. split; try done.
  - by left.
  - simpl. rewrite Hs. constructor.
Qed.

(** *** The gateway *)
Lemma gateway_next_timeout g e : observation_timeout_ (fst (PolicyGateway.next g e)) = observation_timeout_ g.
Proof.
  destruct e as [now m|w now|now|w stamp elapsed]; simpl; try done.
  - unfold predict_begin. by repeat case_match.
  - unfold predict_finish. by repeat case_match.
Qed.

Lemma usable_taken_up s now o :
  observation_timeout_ (gateway s) = timeout -> (observation_received_at_ (gateway s), o) ∈ received s ->
  usable now o (gateway s) = true -> taken_up s o.
Proof.
  intros Ht Hin Hu. unfold usable in Hu. apply negb_true_iff, orb_false_iff in Hu as [[Hage Hexp]%orb_false_iff _].
  exists (observation_received_at_ (gateway s)), now. rewrite Ht in Hage. split_and!; [done|done|].
  by apply Z.ltb_ge.
Qed.

(** what a callback of the gateway takes up and publishes *)
Lemma gateway_step s e p : policy_path_ok p s ->
  let g := fst (PolicyGateway.next (gateway s) e) in
  (forall o, observation_ g = Some o -> (observation_received_at_ g, o) ∈ received s ++ observed e) /\
  (forall o, in_flight g = Some o -> taken_up s o) /\
  Forall (fun m => exists o, answers s o m) (PolicyGateway.actions (snd (PolicyGateway.next (gateway s) e))).
Proof.
  intros [Hg Ht Ho Hf _ _ _ _ _ _ _]. destruct e as [now m|w now|now|w stamp elapsed]; simpl.
  - split_and!; [|done|constructor]. intros o [= <-]. apply elem_of_app. right. by apply list_elem_of_singleton.
  - split_and!; [|done|constructor]. intros o Hobs. rewrite app_nil_r. by apply Ho.
  - assert (forall g' : VlaPolicyGateway T, observation_ g' = observation_ (gateway s) ->
      observation_received_at_ g' = observation_received_at_ (gateway s) ->
      forall o, observation_ g' = Some o -> (observation_received_at_ g', o) ∈ received s ++ []) as Hsame
      by (intros g' -> -> o Hobs; rewrite app_nil_r; by apply Ho).
    split; [apply Hsame; unfold predict_begin; by repeat case_match|]. split; [|constructor].
    unfold predict_begin. destruct (prediction_in_progress_ (gateway s)); [done|].
    destruct (negb _); [done|]. destruct (observation_ (gateway s)) as [o'|] eqn:Eo; [|done].
    destruct (usable now o' (gateway s)) eqn:Hu; [|done]. intros o [= <-].
    eapply usable_taken_up; [done|by apply Ho|exact Hu].
  - unfold predict_finish. destruct (in_flight (gateway s)) as [o|] eqn:Ei.
    2:{ cbn [fst snd]. rewrite Ei, app_nil_r. split_and!; [exact Ho|done|constructor]. }
    pose proof (Hf o eq_refl) as Htaken.
    destruct (predict w (input_of o) (transport_ (gateway s))) as [t [pr|x]] eqn:Ep; simpl; rewrite app_nil_r;
      (split_and!; [exact Ho|done|]); [|constructor].
    constructor; [|constructor]. exists o. split; [done|]. exists w, (transport_ (gateway s)), stamp, pr.
    rewrite Ep. split_and!; [exact (ok_transport _ Hg)|done|done].
Qed.

(** *** The runtime *)
Lemma execute_plays s now p : policy_path_ok p s ->
  Forall (fun r => match r with
    | (Debug, _) => True
    | (Runtime, command) => TwistStamped.twist command = Twist.zero \/ exists m, plays s m command
    end) (raw_commands (snd (execute now (runtime s)))).
Proof.
  intros [_ _ _ _ _ Ha Hq _ _ _ _]. unfold execute.
  destruct (actions_ (runtime s)) as [|front rest] eqn:Eq; [simpl; repeat constructor|].
  destruct (now <=? valid_until_ (runtime s)) eqn:Ev; [|simpl; repeat constructor].
  destruct (convert (adapter_ (runtime s)) front) as [twist|e] eqn:Ec; simpl; [|repeat constructor].
  constructor; [|constructor]. right. destruct Hq as [Hq|(m & Hm & Hv & Hall)]; [congruence|]. exists m. split; [done|].
  exists front, now. rewrite Ha in Ec. rewrite Eq in Hall. apply list.Forall_cons in Hall as [Hfront _].
  split_and!; try done. rewrite <- Hv. by apply Z.leb_le.
Qed.

Lemma execute_queued s now r : queued s -> r = fst (execute now (runtime s)) ->
  actions_ r = [] \/
  exists m, m ∈ actions s /\ valid_until_ r = time_ns (PolicyAction.valid_until m) /\
    Forall (fun sample => sample ∈ samples_from m) (actions_ r).
Proof.
  intros Hq ->. rewrite execute_actions.
  destruct Hq as [->|(m & Hm & Hv & Hall)]; [left; by destruct (now <=? _)|].
  destruct (now <=? valid_until_ (runtime s)); [|by left]. right. exists m. split; [done|].
  split; [|by destruct Hall].
  unfold execute. destruct (actions_ (runtime s)) as [|front rest]; [done|].
  destruct (now <=? _); [|done]. by destruct (convert _ _).
Qed.

(** *** The chain *)
Lemma policy_next_heard s x e : heard s x ->
  (forall m, e = VlaReceived m -> exists publisher, (publisher, m) ∈ raw s) ->
  heard s (fst (ControlMux.next x e)).
Proof.
  intros Hx Hm. destruct e as [m|m|n m|m|m|a b]; simpl; try exact Hx.
  - unfold on_lease. by destruct (negb _).
  - destruct (Hm m eq_refl) as [pub Hin]. right. by exists pub, m.
Qed.

Lemma policy_chain_next_heard s e : path_event_ok (ChainCallback e) \/
    (exists publisher m, e = VlaDelivered m /\ (publisher, m) ∈ raw s) ->
  heard s (mux (chain s)) -> Forall (fun x => heard s (selector x)) (selections (chain s)) ->
  heard s (mux (fst (chain_next (chain s) e))) /\
  Forall (fun x => heard s (selector x)) (selections (fst (chain_next (chain s) e))).
Proof.
  intros He. apply chain_next_muxes. intros x Hx Hm. apply policy_next_heard; [exact Hm|]. intros m ->.
  destruct e as [e|i|m'|now m'|m'|m'|a b|now i|now m'|now d|t]; cbn [mux_hears] in Hx; try done;
    [by destruct (_ !! i)|]. injection Hx as ->. destruct He as [[]|(pub & m' & [= <-] & Hin)]. by exists pub.
Qed.

(** *** Everything *)
Lemma policy_on_chain_ok p s e : policy_path_ok p s ->
  path_event_ok (ChainCallback e) \/ (exists publisher m, e = VlaDelivered m /\ (publisher, m) ∈ raw s) ->
  policy_path_ok p (fst (on_chain e s)).
Proof.
  intros [Hg Ht Ho Hf Ha Hd Hq Hr Hm Hs Hc] He. pose proof (policy_chain_next_heard s e He Hm Hs) as [Hm' Hs'].
  assert (chain_event_ok e) as He' by (destruct He as [He|(? & ? & -> & _)]; [by destruct e|done]).
  pose proof (chain_next_ok p _ e He' Hc) as Hc'. unfold on_chain. destruct (chain_next (chain s) e) as [c out].
  by split.
Qed.

Lemma extends_observed (s : PolicyPath) g l m : extends s (s <| gateway := g |> <| received := received s ++ l |>
  <| actions := actions s ++ m |>).
Proof. split; simpl; [apply list_subseteq_app_l|apply list_subseteq_app_l|]; done. Qed.

Lemma policy_path_next_ok p s e : path_event_ok e -> policy_path_ok p s -> policy_path_ok p (fst (path_next s e)).
Proof.
  intros He Hok. destruct e as [e|i|now|m|i|e]; cbn [path_next].
  - pose proof (gateway_step s e p Hok) as (So & Sf & Sa). cbv zeta in *.
    pose proof (gateway_next_ok (gateway s) e (pp_gateway _ _ Hok)) as Sg.
    pose proof (gateway_next_timeout (gateway s) e) as St.
    destruct (PolicyGateway.next (gateway s) e) as [g out]. cbn [fst snd] in *.
    set (s' := upd _ _ _). assert (extends s s') as E by apply extends_observed.
    destruct Hok as [Hg Ht Ho Hf Ha Hd Hq Hr Hm Hs Hc]. split; try done.
    + by rewrite <- Ht.
    + intros o Hi. eapply taken_up_extends; [exact E|by apply Sf].
    + apply Forall_app. split; (eapply Forall_impl; [eassumption|]); intros m (o & Hans); exists o;
        by eapply answers_extends.
    + destruct Hq as [Hq|(m & Hmm & Hv)]; [by left|right]. exists m. split; [by apply E|done].
    + eapply Forall_impl; [exact Hr|]. intros r. by apply origin_extends.
  - destruct (actions s !! i) as [m|] eqn:Ei; [|done].
    destruct Hok as [Hg Ht Ho Hf Ha Hd Hq Hr Hm Hs Hc]. split; try done.
    + cbn [fst upd runtime]. by rewrite on_action_adapter.
    + unfold queued. cbn [fst upd runtime actions]. unfold on_action.
      destruct (validate _ _); [|exact Hq]. destruct (_ <? _); [exact Hq|]. right. exists m.
      split; [by eapply list_elem_of_lookup_2|]. split; [done|]. by apply Forall_forall.
  - pose proof (execute_plays s now p Hok) as Hp. pose proof (execute_queued s now _ (pp_queue _ _ Hok) eq_refl) as Hq'.
    pose proof (execute_adapter now (runtime s)) as Hd'.
    destruct (execute now (runtime s)) as [r out]. cbn [fst snd] in *. set (s' := upd _ _ _).
    assert (extends s s') as E by (split; simpl; try done; apply list_subseteq_app_l; done).
    destruct Hok as [Hg Ht Ho Hf Ha Hd Hq Hr Hm Hs Hc]. split; try done.
    + by rewrite <- Hd.
    + apply Forall_app. split; (eapply Forall_impl; [eassumption|]); intros x; by apply origin_extends.
    + by eapply policy_heard_extends.
    + eapply Forall_impl; [exact Hs|]. intros x. by apply policy_heard_extends.
  - set (s' := upd _ _ _). assert (extends s s') as E by (split; simpl; try done; apply list_subseteq_app_l; done).
    destruct Hok as [Hg Ht Ho Hf Ha Hd Hq Hr Hm Hs Hc]. split; try done.
    + apply Forall_app. split; [|by repeat constructor]. eapply Forall_impl; [exact Hr|]. intros x; by apply origin_extends.
    + by eapply policy_heard_extends.
    + eapply Forall_impl; [exact Hs|]. intros x. by apply policy_heard_extends.
  - destruct (raw s !! i) as [[pub m]|] eqn:Ei; [|done]. apply policy_on_chain_ok; [done|]. right. exists pub, m.
    split; [done|]. by eapply list_elem_of_lookup_2.
  - apply policy_on_chain_ok; [done|by left].
Qed.

Lemma policy_path_run_ok p es s : Forall path_event_ok es -> policy_path_ok p s -> policy_path_ok p (fst (run path_next s es)).
Proof. apply run_invariant_on. intros a e. apply policy_path_next_ok. Qed.

Lemma policy_start_ok t0 now source_timeout frame p : well_formed t0 ->
  policy_path_ok p (path_initial timeout t0 adapter (chain_initial now source_timeout frame p)).
Proof.
  intros Ht. apply path_initial_ok; [done|apply chain_initial_ok|by left|done].
Qed.

(** C2: Whatever moves the vehicle in a VLA mode, the policy process predicted it
    for an observation the vehicle made: when the guard sends a command other
    than zero that the multiplexer took from the policy, the command is, before
    the guard's limits, one sample of a published action, played while the action
    was valid and selected while the raw command was fresh; that action carries a
    prediction for an observation the gateway had received, no older than the
    observation timeout and not expired when the prediction began.  The only
    other publisher of such a command is the debug orchestrator's single step.
    This holds for every transport that keeps the laws of the interface, every
    adapter, and whatever the network does. *)
Theorem policy_motion_answers_an_observation t0 now source_timeout frame p es t v :
  well_formed t0 -> Forall path_event_ok es ->
  let s := fst (run path_next (path_initial timeout t0 adapter (chain_initial now source_timeout frame p)) es) in
  v ∈ snd (path_next s (ChainCallback (GuardTimer t))) -> v <> Twist.zero ->
  exists x src, authorised_motion (chain s) p t v x src /\
    (src = Vla -> exists publisher command, (publisher, command) ∈ raw s /\
      v = limited p (TwistStamped.twist command) /\
      fresh (fresh_now x) (selector x) (time_ns (Header.stamp (TwistStamped.header command))) = true /\
      (publisher = Debug \/ exists m o, plays s m command /\ answers s o m)).
Proof.
  intros Ht Hes s Hv Hne.
  pose proof (policy_path_run_ok p es _ Hes (policy_start_ok t0 now source_timeout frame p Ht)) as Hok. fold s in Hok. clearbody s.
  destruct Hok as [_ _ _ _ Ha _ _ Hr _ Hs Hc].
  assert (v ∈ snd (chain_next (chain s) (GuardTimer t))) as Hv'
    by (revert Hv; cbn [path_next]; unfold on_chain; by destruct (chain_next (chain s) _)).
  destruct (guard_motion p (chain s) t v Hc Hv' Hne) as (x & src & Hmotion). exists x, src. split; [done|].
  intros ->. destruct Hmotion as [Hin _ Hcommand Hfresh _ _]. cbn [candidate fst snd] in *.
  rewrite Forall_forall in Hs. destruct (Hs x Hin) as [Hz|(pub & m & Hm & Htw & Hst)];
    [by rewrite Hz, limited_zero in Hcommand|].
  exists pub, m. rewrite Htw, Hst. split_and!; try done. destruct pub; [|by left]. right.
  rewrite Forall_forall in Hr. destruct (Hr _ Hm) as [Hz|(action & Hplays)];
    [by rewrite <- Htw, Hz, limited_zero in Hcommand|].
  rewrite Forall_forall in Ha. destruct (Ha action (proj1 Hplays)) as [o Ho]. by exists action, o.
Qed.
End Path.

(** ** Witnesses *)
Section Witnesses.
#[local] Existing Instance rclcpp_doc.

(** an observation with a task; the mock policy; a request for the autonomous
    mode once the policy is ready; every message delivered once *)
Definition demo_task : PolicyObservation.PolicyObservationMsg :=
  demo_observation <| PolicyObservation.task := "drive"%string |>.
Definition demo_path_events : list (PathEvent (W := unit)) :=
  [GatewayCallback (ObservationReceived 1000000000 demo_task);
   GatewayCallback (PredictionTimer 1050000000); GatewayCallback (PredictionReturned tt 1100000000 5000000);
   ActionDelivered 0; RuntimeTimer 1110000000;
   ChainCallback (SupervisorCallback (PolicyStatusReceived demo_ready));
   ChainCallback (SupervisorCallback (ModeRequested 1111000000 demo_autonomous));
   ChainCallback (StateDelivered 1); RawDelivered 0; ChainCallback (MuxTimer 1120000000 1120000000);
   ChainCallback (SelectionDelivered 1130000000 0)].
Definition demo_path : PolicyPath (T := MockPolicyTransport) :=
  fst (run path_next (path_initial (lit 75 2) demo_mock TwistMobilityAdapter
    (chain_initial 0 (lit 3 1) "base_link" default_parameters)) demo_path_events).
Definition demo_drive : Readings := MakeReadings 1140000000 1140000000 1140000000 1140000000 1140000000.
(** the mock's velocity, by way of a [float32] *)
Definition demo_velocity : Twist := Twist.planar (to_double (to_float (lit 2 1))) dzero.

Lemma policy_motion_answers_an_observation_witness :
  demo_velocity <> Twist.zero /\
  exists publisher command, (publisher, command) ∈ raw demo_path /\
    (publisher = Debug \/ exists m o, plays TwistMobilityAdapter demo_path m command /\ answers (lit 75 2) demo_path o m).
Proof.
  assert (demo_velocity <> Twist.zero) as Hne by (intros E; vm_compute in E; discriminate E).
  split; [exact Hne|].
  destruct (policy_motion_answers_an_observation (lit 75 2) TwistMobilityAdapter demo_mock 0 (lit 3 1) "base_link"
    default_parameters demo_path_events demo_drive demo_velocity) as (x & src & Hm & Hsrc).
  - split; simpl; lia.
  - repeat constructor; vm_compute; discriminate.
  - vm_compute. apply list_elem_of_here.
  - exact Hne.
  - assert (src = Vla) as ->.
    { destruct Hm as [Hin Ha _ _ _ _]. vm_compute in Hin. apply list_elem_of_singleton in Hin as ->.
      vm_compute in Ha. injection Ha as <-. reflexivity. }
    destruct (Hsrc eq_refl) as (publisher & command & Hin & _ & _ & Ho). exists publisher, command.
    split; [exact Hin|exact Ho].
Defined.
End Witnesses.
