(* ===== verification/TeleopPath.v ===== *)
(** * The operator's way to the wheels

    The operations service, the teleoperation gateway and the control chain
    composed over their topics: the service routes the HTTP requests of the web
    client and turns those it authorises into [/vehicle/teleop_command], the gateway turns those into velocities and leases,
    the leases go back to the service and to the multiplexer, and the chain of
    [ControlChain] decides.  The network delivers any published message late,
    repeatedly or never; requests, goals, clocks and the other inputs of the nodes
    are arbitrary.  Nothing but the service publishes teleoperation commands, and
    nothing but the gateway leases and teleoperation velocities.

    [operators] is what stands behind a command, [driven] behind a velocity;
    [teleop_path_ok] is the invariant that every copy on the way still has one. *)
From S2P Require Import Prelude Floats JsonData Http Messages TeleopGateway OpsApi Supervisor ControlMux SafetyGuard ControlChain.
Local Open Scope Z_scope.

Section Path.
Context `{Rclcpp} `{Nlohmann}.
Variables (token_ : string) (settings : OpsApi.Settings) (parameters : TeleopGateway.Parameters).

Record TeleopPath := MakePath {
  ops : VehicleOpsApi;
  requests : list (Z * HttpRequest);     (* the requests served, with the time *)
  commands : list TeleopCommand.TeleopCommandMsg;
  gateway : TeleopGateway.System;
  leases : list ControlLease.ControlLeaseMsg;
  velocities : list TwistStamped;
  chain : Chain }.
#[export] Instance eta_teleop_path : Eta TeleopPath := fun s =>
  MakePath (ops s) (requests s) (commands s) (gateway s) (leases s) (velocities s) (chain s).

Definition path_initial (c : Chain) : TeleopPath :=
  MakePath OpsApi.initial [] [] TeleopGateway.start [] [] c.

Inductive PathEvent :=
| RequestServed (now : Z) (request : HttpRequest)
| OpsCallback (e : OpsApi.Event)
| LeaseToOps (i : nat) (now : Z)
| GatewayStep (e : TeleopGateway.Event)
| CommandToGateway (i : nat) (c : TeleopGateway.Clock)
| LeaseToMux (i : nat)
| VelocityToMux (i : nat)
| ChainCallback (e : ChainEvent).

Definition teleop_commands (out : list OpsApi.Output) : list TeleopCommand.TeleopCommandMsg :=
  omap (fun o => match o with PublishTeleop m => Some m | _ => None end) out.
Definition published_leases (out : list TeleopGateway.Output) : list ControlLease.ControlLeaseMsg :=
  omap (fun o => match o with LeasePublished m => Some m | _ => None end) out.
Definition published_velocities (out : list TeleopGateway.Output) : list TwistStamped :=
  omap (fun o => match o with CommandPublished m => Some m | _ => None end) out.

Definition on_ops (e : OpsApi.Event) (s : TeleopPath) : TeleopPath :=
  let '(o, out) := OpsApi.next settings (ops s) e in
  s <| ops := o |> <| commands := commands s ++ teleop_commands out |>.
(** a request the service routes to [teleop_command]; what the other requests do
    to the service is an event of its own *)
Definition on_request (now : Z) (request : HttpRequest) (s : TeleopPath) : TeleopPath :=
  let s1 := s <| requests := requests s ++ [(now, request)] |> in
  match route token_ request with
  | Done (Http.TeleopCommand body) => on_ops (CommandTeleop now body) s1
  | _ => s1
  end.
(** a step of the gateway that is not enabled does not happen *)
Definition on_gateway (e : TeleopGateway.Event) (s : TeleopPath) : TeleopPath :=
  match TeleopGateway.step parameters (gateway s) e with
  | Some (g, out) =>
      s <| gateway := g |> <| leases := leases s ++ published_leases out |>
        <| velocities := velocities s ++ published_velocities out |>
  | None => s
  end.
Definition on_chain (e : ChainEvent) (s : TeleopPath) : TeleopPath * list Twist :=
  let '(c, out) := chain_next (chain s) e in (s <| chain := c |>, out).

Definition path_next (s : TeleopPath) (e : PathEvent) : TeleopPath * list Twist :=
  match e with
  | RequestServed now request => (on_request now request s, [])
  | OpsCallback e => (on_ops e s, [])
  | LeaseToOps i now =>
      match leases s !! i with
      | Some m => (on_ops (Message (OpsApi.LeaseReceived m) now) s, [])
      | None => (s, [])
      end
  | GatewayStep e => (on_gateway e s, [])
  | CommandToGateway i c =>
      match commands s !! i with
      | Some m => (on_gateway (TeleopGateway.CommandReceived c m) s, [])
      | None => (s, [])
      end
  | LeaseToMux i =>
      match leases s !! i with
      | Some m => on_chain (LeaseDelivered m) s
      | None => (s, [])
      end
  | VelocityToMux i =>
      match velocities s !! i with
      | Some m => on_chain (MobileDelivered m) s
      | None => (s, [])
      end
  | ChainCallback e => on_chain e s
  end.

(** leases, commands and velocities come only from their topics, teleoperation
    requests only through the router *)
Definition path_event_ok (e : PathEvent) : Prop :=
  match e with
  | OpsCallback (Message (OpsApi.LeaseReceived _) _ | CommandTeleop _ _) => False
  | GatewayStep (TeleopGateway.CommandReceived _ _) => False
  | ChainCallback (LeaseDelivered _ | MobileDelivered _) => False
  | ChainCallback e => chain_event_ok e
  | _ => True
  end.

(** ** Where things come from *)

(** a command the service published: it answers a served request that bears the
    operator's token, and names the holder of an active lease the gateway had
    published *)
Definition operators (s : TeleopPath) (m : TeleopCommand.TeleopCommandMsg) : Prop :=
  exists now request body api lease, (now, request) ∈ requests s /\
    route token_ request = Done (Http.TeleopCommand body) /\
    token_ <> ""%string /\ headers request !! "x-ops-token"%string = Some token_ /\
    snd (teleop_command now body api) = [PublishTeleop m] /\
    lease ∈ leases s /\ ControlLease.active lease = true /\
    ControlLease.lease_id lease = TeleopCommand.lease_id m /\
    ControlLease.controller_id lease = TeleopCommand.controller_id m.

(** a velocity scaled from a command with the dead man's switch held, within the
    lease's limits *)
Definition driven (s : TeleopPath) (m : TeleopCommand.TeleopCommandMsg) (v : TwistStamped) : Prop :=
  m ∈ commands s /\ TeleopCommand.deadman m = true /\
  exists linear_limit angular_limit, TwistStamped.twist v = Twist.planar
    (dmul (dclamp (to_double (TeleopCommand.linear_normalized m)) (of_int (-1)) (of_int 1)) (to_double linear_limit))
    (dmul (dclamp (to_double (TeleopCommand.angular_normalized m)) (of_int (-1)) (of_int 1)) (to_double angular_limit)).

(** the gateway has executed, hearing only published commands *)
Definition played (s : TeleopPath) : Prop :=
  exists es, TeleopGateway.runs parameters TeleopGateway.any TeleopGateway.start es (gateway s) /\
    forall c m, TeleopGateway.CommandReceived c m ∈ es -> m ∈ commands s.

(** what a multiplexer holds of the teleoperation *)
Definition heard (s : TeleopPath) (x : VlaControlMux) : Prop :=
  mobile_command_ x = Twist.zero \/
  exists m, m ∈ velocities s /\ TwistStamped.twist m = mobile_command_ x /\
    time_ns (Header.stamp (TwistStamped.header m)) = mobile_stamp_ x.

Record teleop_path_ok (p : SafetyGuard.Parameters) (s : TeleopPath) : Prop := {
  tp_lease l : message (control_lease_ (ops s)) = Some l -> l ∈ leases s;
  tp_commands : Forall (operators s) (commands s);
  tp_gateway : played s;
  tp_velocities : Forall (fun v => TwistStamped.twist v = Twist.zero \/ exists m, driven s m v) (velocities s);
  tp_mux : heard s (mux (chain s));
  tp_selections : Forall (fun x => heard s (selector x)) (selections (chain s));
  tp_chain : chain_ok p (chain s) }.

(** topics only grow *)
Record extends (s s' : TeleopPath) : Prop := {
  ex_requests : requests s ⊆ requests s';
  ex_commands : commands s ⊆ commands s';
  ex_leases : leases s ⊆ leases s';
  ex_velocities : velocities s ⊆ velocities s' }.

Lemma operators_extends s s' m : extends s s' -> operators s m -> operators s' m.
Proof.
  intros [E1 _ E2 _] (now & request & body & api & lease & Hr & Hroute & Htok & Hhead & Hm & Hl & Hrest).
  exists now, request, body, api, lease. split_and!; try done; [by apply E1|by apply E2|apply Hrest..].
Qed.
Lemma driven_extends s s' m v : extends s s' -> driven s m v -> driven s' m v.
Proof. intros [_ E _ _] [Hm Hrest]. split; [by apply E|done]. Qed.
Lemma velocity_extends s s' v : extends s s' ->
  TwistStamped.twist v = Twist.zero \/ (exists m, driven s m v) ->
  TwistStamped.twist v = Twist.zero \/ (exists m, driven s' m v).
Proof. intros E [?|[m Hm]]; [by left|right]. exists m. by eapply driven_extends. Qed.
Lemma teleop_heard_extends s s' x : extends s s' -> heard s x -> heard s' x.
Proof. intros [_ _ _ E] [?|(m & Hm & Hrest)]; [by left|right]. exists m. split; [by apply E|done]. Qed.

(** *** The service *)
Lemma create_session_publishes now body s m :
  PublishTeleop m ∉ snd (active_debug_create now body s).
Proof. unfold active_debug_create. repeat case_match; simpl; set_solver. Qed.

(** a lease the service knows came in a message *)
Lemma ops_lease s e l : message (control_lease_ (fst (OpsApi.next settings s e))) = Some l ->
  message (control_lease_ s) = Some l \/ exists now, e = Message (OpsApi.LeaseReceived l) now.
Proof.
  destruct e as [m now|now|now body|now action|now body]; simpl; try by left.
  - destruct m; simpl; try by left.
    + intros [= <-]. right. by exists now.
    + unfold on_image. destruct (_ || _); [by left|]. destruct (sample_image m) as [[? ?] ?]. by left.
  - destruct (active_debug_create now body s) as [[s' r] o] eqn:E. unfold active_debug_create in E.
    repeat case_match; simplify_eq; by left.
  - unfold active_debug_control. repeat case_match; by left.
Qed.

(** what a callback of the service publishes *)
Lemma ops_publishes s e m : m ∈ teleop_commands (snd (OpsApi.next settings s e)) ->
  exists now body, e = CommandTeleop now body /\ snd (teleop_command now body s) = [PublishTeleop m].
Proof.
  unfold teleop_commands. intros Hm. apply list_elem_of_omap in Hm as (o & Ho & Hm). destruct o as [text|m']; [done|].
  injection Hm as ->. destruct e as [r now|now|now body|now action|now body]; simpl in Ho; try by apply elem_of_nil in Ho.
  - destruct (active_debug_create now body s) as [[s' r] o] eqn:E. destruct (create_session_publishes now body s m).
    by rewrite E.
  - exists now, body. split; [done|]. unfold teleop_command, parsed in *.
    repeat case_match; simpl in *; first [by apply elem_of_nil in Ho|by apply list_elem_of_singleton in Ho as [= ->]].
Qed.

(** the holder of the lease a command names *)
Lemma teleop_command_lease now body s m : snd (teleop_command now body s) = [PublishTeleop m] ->
  exists lease, message (control_lease_ s) = Some lease /\ ControlLease.active lease = true /\
    ControlLease.lease_id lease = TeleopCommand.lease_id m /\
    ControlLease.controller_id lease = TeleopCommand.controller_id m.
Proof.
  unfold teleop_command, parsed. destruct (parse body) as [input|e]; [|done].
  destruct (command_arguments input) as [c|e]; [|done]. destruct (negb (valid_arguments c)); [done|].
  destruct (holds_lease c s) eqn:Eh; cbn [negb snd]; [|done]. intros [= <-]. unfold holds_lease in Eh.
  destruct (message (control_lease_ s)) as [lease|]; [|done]. exists lease.
  apply andb_true_iff in Eh as [[Ha Hl]%andb_true_iff Hc]. apply str_eqb_spec in Hl, Hc. done.
Qed.

(** a request that reaches [teleop_command] now *)
Definition being_served (s : TeleopPath) (now : Z) (body : string) : Prop :=
  exists request, (now, request) ∈ requests s /\ route token_ request = Done (Http.TeleopCommand body).

Lemma on_ops_ok p s e : teleop_path_ok p s ->
  (forall m now, e = Message (OpsApi.LeaseReceived m) now -> m ∈ leases s) ->
  (forall now body, e = CommandTeleop now body -> being_served s now body) ->
  teleop_path_ok p (on_ops e s).
Proof.
  intros [Hl Hc Hg Hv Hm Hs Hk] He Hreq. unfold on_ops. pose proof (ops_lease (ops s) e) as Hlease.
  pose proof (ops_publishes (ops s) e) as Hpub. destruct (OpsApi.next settings (ops s) e) as [o out]. cbn [fst snd] in *.
  set (s' := upd _ _ _). assert (extends s s') as E by (split; simpl; try done; apply list_subseteq_app_l; done).
  split; try done.
  - intros l Hml. destruct (Hlease l Hml) as [Hold|[now ->]]; [by apply Hl|by apply (He l now)].
  - apply Forall_app. split; [eapply Forall_impl; [exact Hc|]; intros m; by apply operators_extends|].
    apply Forall_forall. intros m Hm'. destruct (Hpub m Hm') as (now & body & -> & Hcmd).
    destruct (Hreq now body eq_refl) as (request & Hin & Hroute).
    destruct (route_guarded token_ request _ Hroute eq_refl) as (Htok & Hhead & _).
    destruct (teleop_command_lease _ _ _ _ Hcmd) as (lease & Hlm & Hrest).
    exists now, request, body, (ops s), lease. split_and!; try done; [by apply Hl|apply Hrest..].
  - destruct Hg as (es & Hr & Hes). exists es. split; [done|]. intros c m Hin. apply E. by eapply Hes.
  - eapply Forall_impl; [exact Hv|]. intros v. by apply velocity_extends.
Qed.

Lemma on_request_ok p s now request : teleop_path_ok p s -> teleop_path_ok p (on_request now request s).
Proof.
  intros Hok. unfold on_request. set (s1 := upd _ _ _).
  assert (extends s s1) as E by (split; simpl; try done; apply list_subseteq_app_l; done).
  assert (teleop_path_ok p s1) as Hok1.
  { destruct Hok as [Hl Hc Hg Hv Hm Hs Hk]. split; try done.
    eapply Forall_impl; [exact Hc|]. intros m. by apply operators_extends. }
  destruct (route token_ request) as [c|] eqn:Er; [|done]. destruct c; try done.
  apply on_ops_ok; [done|done|]. intros now' body' [= <- <-]. exists request. split; [|done].
  apply elem_of_app. right. by apply list_elem_of_singleton.
Qed.

(** *** The gateway *)
Lemma on_gateway_ok p s e : teleop_path_ok p s ->
  (forall c m, e = TeleopGateway.CommandReceived c m -> m ∈ commands s) -> teleop_path_ok p (on_gateway e s).
Proof.
  intros [Hl Hc Hg Hv Hm Hs Hk] He. unfold on_gateway.
  destruct (TeleopGateway.step parameters (gateway s) e) as [[g out]|] eqn:Eg; [|done]. cbn [fst snd].
  set (s' := upd _ _ _). assert (extends s s') as E by (split; simpl; try done; apply list_subseteq_app_l; done).
  destruct Hg as (es & Hr & Hes). split; try done.
  - intros l Hlm. apply E. by apply Hl.
  - eapply Forall_impl; [exact Hc|]. intros m. by apply operators_extends.
  - exists (es ++ [e]). split; [by eapply TeleopGateway.runs_step|]. intros c m.
    rewrite elem_of_app, list_elem_of_singleton. intros [Hin|Hin]; [by eapply Hes|by eapply He].
  - apply Forall_app. split; [eapply Forall_impl; [exact Hv|]; intros v; by apply velocity_extends|].
    apply Forall_forall. intros v Hin. unfold published_velocities in Hin.
    apply list_elem_of_omap in Hin as (o & Ho & Hov). destruct o as [|v'| | | | | |]; try done. injection Hov as ->.
    destruct (runs_publishes _ _ _ _ _ _ _ Hr Eg Ho) as (es1 & c & es2 & s1 & -> & Hr1 & _ & ->).
    cbn [timer_command TwistStamped.twist].
    destruct (command_valid c (node s1)) eqn:Hval; [right|left; unfold timer_twist; by rewrite Hval].
    destruct (published_motion parameters _ _ c Hr1 Hval) as (_ & _ & c0 & m & Hin & Hd & _ & _ & _ & Htw).
    exists m. split; [by eapply Hes, elem_of_app; left|]. split; [done|]. by eexists _, _.
  - by eapply teleop_heard_extends.
  - eapply Forall_impl; [exact Hs|]. intros x. by apply teleop_heard_extends.
Qed.

(** *** The chain *)
Lemma teleop_next_heard s x e : heard s x ->
  (forall m, e = ControlMux.MobileReceived m -> m ∈ velocities s) -> heard s (fst (ControlMux.next x e)).
Proof.
  intros Hx Hm. destruct e as [m|m|n m|m|m|a b]; simpl; try exact Hx.
  - unfold on_lease. destruct (negb _); [by left|exact Hx].
  - right. exists m. split; [by apply Hm|done].
Qed.

Lemma teleop_chain_next_heard s e : (forall m, e = MobileDelivered m -> m ∈ velocities s) ->
  heard s (mux (chain s)) -> Forall (fun x => heard s (selector x)) (selections (chain s)) ->
  heard s (mux (fst (chain_next (chain s) e))) /\
  Forall (fun x => heard s (selector x)) (selections (fst (chain_next (chain s) e))).
Proof.
  intros He. apply chain_next_muxes. intros x Hx Hm. apply teleop_next_heard; [exact Hm|]. intros m ->.
  destruct e as [e|i|m'|now m'|m'|m'|a b|now i|now m'|now d|t]; cbn [mux_hears] in Hx; try done;
    [by destruct (_ !! i)|]. injection Hx as ->. by apply He.
Qed.

Lemma teleop_on_chain_ok p s e : teleop_path_ok p s -> chain_event_ok e ->
  (forall m, e = MobileDelivered m -> m ∈ velocities s) -> teleop_path_ok p (fst (on_chain e s)).
Proof.
  intros [Hl Hc Hg Hv Hm Hs Hk] He' He. pose proof (teleop_chain_next_heard s e He Hm Hs) as [Hm' Hs'].
  pose proof (chain_next_ok p _ e He' Hk) as Hk'. unfold on_chain. destruct (chain_next (chain s) e) as [c out].
  by split.
Qed.

Lemma teleop_path_next_ok p s e : path_event_ok e -> teleop_path_ok p s -> teleop_path_ok p (fst (path_next s e)).
Proof.
  intros He Hok. destruct e as [now request|e|i now|e|i c|i|i|e]; cbn [path_next].
  - by apply on_request_ok.
  - apply on_ops_ok; [done| |]; [intros m now ->|intros now body ->]; done.
  - destruct (leases s !! i) as [m|] eqn:Ei; [|done]. apply on_ops_ok; [done| |done]. intros m' n [= <- <-].
    by eapply list_elem_of_lookup_2.
  - apply on_gateway_ok; [done|]. intros c m ->. done.
  - destruct (commands s !! i) as [m|] eqn:Ei; [|done]. apply on_gateway_ok; [done|]. intros c' m' [= <- <-].
    by eapply list_elem_of_lookup_2.
  - destruct (leases s !! i) as [m|] eqn:Ei; [|done]. by apply teleop_on_chain_ok.
  - destruct (velocities s !! i) as [m|] eqn:Ei; [|done]. apply teleop_on_chain_ok; [done|done|]. intros m' [= <-].
    by eapply list_elem_of_lookup_2.
  - apply teleop_on_chain_ok; [done|by destruct e|]. intros m ->. done.
Qed.

Lemma teleop_path_run_ok p es s : Forall path_event_ok es -> teleop_path_ok p s -> teleop_path_ok p (fst (run path_next s es)).
Proof. apply run_invariant_on. intros a e. apply teleop_path_next_ok. Qed.

Lemma teleop_start_ok now source_timeout frame p :
  teleop_path_ok p (path_initial (chain_initial now source_timeout frame p)).
Proof.
  split; try done.
  - exists []. split; [constructor|]. intros c m Hin. by apply elem_of_nil in Hin.
  - by left.
  - apply chain_initial_ok.
Qed.

(** C3: Whatever moves the vehicle in a teleoperation mode, an operator asked for:
    when the guard sends a command other than zero
    that the multiplexer took from the teleoperation, it is, before the guard's
    limits, a velocity that was fresh when it was selected, scaled from a command
    whose dead man's switch was held; and that command answers an HTTP request
    that bore the operator's token and named the holder of an active lease which
    the gateway itself had published.  This holds for every interleaving of the service, the
    gateway's threads and the control chain, and whatever the network does. *)
Theorem teleoperation_answers_a_request now source_timeout frame p es t v :
  Forall path_event_ok es ->
  let s := fst (run path_next (path_initial (chain_initial now source_timeout frame p)) es) in
  v ∈ snd (path_next s (ChainCallback (GuardTimer t))) -> v <> Twist.zero ->
  exists x src, authorised_motion (chain s) p t v x src /\
    (src = Mobile -> exists velocity m, velocity ∈ velocities s /\
      v = limited p (TwistStamped.twist velocity) /\
      fresh (fresh_now x) (selector x) (time_ns (Header.stamp (TwistStamped.header velocity))) = true /\
      driven s m velocity /\ operators s m).
Proof.
  intros Hes s Hv Hne.
  pose proof (teleop_path_run_ok p es _ Hes (teleop_start_ok now source_timeout frame p)) as Hok. fold s in Hok. clearbody s.
  destruct Hok as [_ Hc _ Hvel _ Hs Hk].
  assert (v ∈ snd (chain_next (chain s) (GuardTimer t))) as Hv'
    by (revert Hv; cbn [path_next]; unfold on_chain; by destruct (chain_next (chain s) _)).
  destruct (guard_motion p (chain s) t v Hk Hv' Hne) as (x & src & Hmotion). exists x, src. split; [done|].
  intros ->. destruct Hmotion as [Hin _ Hcommand Hfresh _ _]. cbn [candidate fst snd] in *.
  rewrite Forall_forall in Hs. destruct (Hs x Hin) as [Hz|(velocity & Hm & Htw & Hst)];
    [by rewrite Hz, limited_zero in Hcommand|].
  rewrite Forall_forall in Hvel. destruct (Hvel _ Hm) as [Hz|(m & Hdriven)];
    [by rewrite <- Htw, Hz, limited_zero in Hcommand|].
  exists velocity, m. rewrite Htw, Hst. split_and!; try done.
  rewrite Forall_forall in Hc. apply Hc, Hdriven.
Qed.
End Path.

(** ** Witnesses *)
Module Phone.
(** a library that reads one request: A drives with the lease it was granted *)
Definition request : JsonValue :=
  J_object [("lease_id", J_string (demo_id second 1)); ("controller_id", J_string "A"); ("sequence", J_integer 1);
            ("deadman", J_bool true); ("linear", J_number (lit 5 1))]%string.
Definition nlohmann_phone : Nlohmann := {|
  dump _ := Returns "{}"%string;
  dump_indent _ _ := Returns "{}"%string;
  parse _ := Returns request;
  get_int v := match v with J_integer z => Returns z | _ => type_error end;
  get_uint32 v := match v with J_integer z => Returns z | _ => type_error end;
  get_uint64 v := match v with J_integer z => Returns z | _ => type_error end;
  get_float := finite_number; get_double := finite_number
|}.
#[local] Existing Instance nlohmann_phone.
Definition post : HttpRequest :=
  Http.MakeRequest "POST" "/api/teleop/command" {["x-ops-token"%string := "secret"%string]} "command".
#[local] Existing Instance rclcpp_doc.

(** A acquires the lease and drives; every message is delivered once *)
Definition driving : list PathEvent :=
  (GatewayStep <$> acquire second "A") ++
  [LeaseToOps 0 second; RequestServed second post; CommandToGateway 0 (at_ns (second + 5));
   GatewayStep (TeleopGateway.TimerFired (at_ns (second + 1000)));
   GatewayStep (TeleopGateway.ExecutorStep (at_ns (second + 1000)) yes);
   GatewayStep (TeleopGateway.ExecutorStep (at_ns (second + 1000)) yes);
   ChainCallback (SupervisorCallback (Supervisor.ModeRequested second
     (MakeModeRequest SystemState.MODE_MOBILE_TELEOP "teleop" "")));
   ChainCallback (StateDelivered 1); LeaseToMux 0; VelocityToMux 0;
   ChainCallback (MuxTimer (second + 2000) (second + 2000)); ChainCallback (SelectionDelivered (second + 3000) 0)].
Definition arrived : TeleopPath :=
  fst (run (path_next "secret" demo_settings TeleopGateway.default_parameters)
    (path_initial (chain_initial 0 (lit 3 1) "base_link" SafetyGuard.default_parameters)) driving).
Definition tick : Readings :=
  MakeReadings (second + 4000) (second + 4000) (second + 4000) (second + 4000) (second + 4000).
Definition speed : Twist :=
  Twist.planar (dmul (dclamp (to_double (to_float (lit 5 1))) (of_int (-1)) (of_int 1)) (to_double (litf 3 1))) dzero.

Lemma teleoperation_answers_a_request_witness :
  speed <> Twist.zero /\ exists m, m ∈ commands arrived /\ TeleopCommand.deadman m = true /\ operators "secret" arrived m.
Proof.
  assert (speed <> Twist.zero) as Hne by (intros E; vm_compute in E; discriminate E).
  split; [exact Hne|].
  destruct (teleoperation_answers_a_request "secret" demo_settings TeleopGateway.default_parameters 0 (lit 3 1) "base_link"
    SafetyGuard.default_parameters driving tick speed) as (x & src & Hm & Hsrc).
  - repeat constructor; vm_compute; discriminate.
  - vm_compute. apply list_elem_of_here.
  - exact Hne.
  - assert (src = Mobile) as ->.
    { destruct Hm as [Hin Ha _ _ _ _]. vm_compute in Hin. apply list_elem_of_singleton in Hin as ->.
      vm_compute in Ha. injection Ha as <-. reflexivity. }
    destruct (Hsrc eq_refl) as (velocity & m & _ & _ & _ & (Hmc & Hd & _) & Ho).
    exists m. split; [exact Hmc|split; [exact Hd|exact Ho]].
Defined.
End Phone.
