(* ===== verification/Operation.v ===== *)
(** * The operation orchestrator

    Models [vehicle_operation/src/operation_orchestrator_node.cpp], which starts
    and stops the platform's systemd units along their dependencies.  Calls run
    in a state-and-exception monad [M]: an exception keeps the changes made so
    far.  [systemctl], the ROS graph and the clocks are the operations of the
    class [System] over a world of any type; the commands that were run are
    logged in [executed].  The services hold [control_mutex_] and are modelled
    one after the other. *)
From S2P Require Import Prelude Floats Messages Json Text FileSystem.
Local Open Scope Z_scope.

(** ** Text helpers *)

(** [std::getline] over a stream: the lines, a last empty one left out *)
Fixpoint lines_from (s current : string) : list string :=
  match s with
  | EmptyString => if str_empty current then [] else [current]
  | String c r =>
      if code c =? 10 then current :: lines_from r ""
      else lines_from r (current ++ String c "")
  end.

(** the text before and after the first [=] *)
Fixpoint split_equals (s : string) : option (string * string) :=
  match s with
  | EmptyString => None
  | String c r =>
      if Ascii.eqb c "=" then Some (""%string, r)
      else match split_equals r with Some (k, v) => Some (String c k, v) | None => None end
  end.

Definition parse_properties (text : string) : gmap string string :=
  fold_left (fun m line => match split_equals line with Some (k, v) => <[k := v]> m | None => m end)
    (lines_from text "") ∅.

(** [std::stoll]: white space, a sign, at least one digit; the rest is ignored *)
Definition stoll (s : string) : option Z :=
  let read sign r :=
    match leading_digits r None with
    | Some n => let v := sign * n in
                if (- 2 ^ 63 <=? v) && (v <? 2 ^ 63) then Some v else None
    | None => None
    end in
  match skip_spaces s with
  | String c r => if Ascii.eqb c "-" then read (-1) r else if Ascii.eqb c "+" then read 1 r
                  else read 1 (String c r)
  | EmptyString => None
  end.

Definition integer_value (values : gmap string string) (key : string) : Z :=
  match values !! key with
  | None => 0
  | Some text => if str_empty text then 0 else default 0 (stoll text)
  end.

(** [candidate.lexically_relative(root)] of two canonical absolute paths *)
Fixpoint lexically_relative (candidate root : path) : path :=
  match candidate, root with
  | [], [] => ["."%string]
  | c :: cs, r :: rs => if str_eqb c r then lexically_relative cs rs
                        else map (fun _ => ".."%string) root ++ candidate
  | _, _ => map (fun _ => ".."%string) root ++ candidate
  end.
Definition path_is_within (root candidate : path) : bool :=
  match lexically_relative candidate root with
  | [] => false
  | first :: _ => negb (str_eqb first "..")
  end.

(** ** State *)
Record ComponentDefinition := MakeDefinition {
  id : string;
  display_name : string;
  group_name : string;
  unit_ : string;
  log_path : path;
  dependencies : list string;
  expected_nodes : list string;
  health_topics : list string }.

Record Configuration := MakeConfiguration {
  component_order_ : list string;
  profile_order_ : list string;
  components_ : gmap string ComponentDefinition;
  profiles_ : gmap string (list string);
  log_root_ : path }.

(** how a child process ended *)
Inductive WaitStatus := Exited (status : Z) | Signaled (signal : Z).
Record CommandResult := MakeResult { exit_code : Z; output : string }.

(** the outside of the node, over a world of type [W] *)
Class System (W : Type) := {
  (** [fork], [exec] and [waitpid] of a command, with its output; [Throws] when
      the pipe or the process cannot be made *)
  execute : list string -> W -> Outcome (WaitStatus * string) * W;
  node_names : W -> list string;        (* [get_node_names] *)
  publisher_count : string -> W -> nat; (* [get_publishers_info_by_topic] *)
  steady_now : W -> Z;                  (* nanoseconds *)
  monotonic_us : W -> Z;                (* [CLOCK_MONOTONIC], microseconds *)
  sleep_for : Z -> W -> W }.

Record State (W : Type) := MakeState {
  configuration : Configuration;
  states_ : gmap string ComponentState.ComponentStateMsg;
  recently_stopped_ : gmap string Z;
  world : W;
  executed : list (list string) }.
Arguments configuration {W} _.
Arguments states_ {W} _.
Arguments recently_stopped_ {W} _.
Arguments world {W} _.
Arguments executed {W} _.
Arguments MakeState {W} _ _ _ _ _.
#[export] Instance eta_operation_state W : Eta (State W) := fun s =>
  MakeState (configuration s) (states_ s) (recently_stopped_ s) (world s) (executed s).

(** ** The monad *)
Definition M (W A : Type) : Type := State W -> Outcome A * State W.
Definition ret {W A} (a : A) : M W A := fun s => (Returns a, s).
Definition throw {W A} (what : string) : M W A := fun s => (Throws what, s).
Definition bind {W A B} (m : M W A) (k : A -> M W B) : M W B := fun s =>
  match m s with
  | (Returns a, s') => k a s'
  | (Throws e, s') => (Throws e, s')
  end.
Definition get {W} : M W (State W) := fun s => (Returns s, s).
Definition modify {W} (f : State W -> State W) : M W unit := fun s => (Returns tt, f s).

Declare Scope operation_scope.
Notation "'let*' x ':=' m 'in' k" := (bind m (fun x => k))
  (at level 10, x pattern, m at level 100, k at level 200) : operation_scope.
Local Open Scope operation_scope.

Lemma bind_returns {W A B} (m : M W A) (k : A -> M W B) s b s' :
  bind m k s = (Returns b, s') <-> exists a s1, m s = (Returns a, s1) /\ k a s1 = (Returns b, s').
Proof. unfold bind. destruct (m s) as [[a|e] s1]; naive_solver. Qed.

(** an unknown key of [std::unordered_map::at] *)
Definition at_ {W A} (m : gmap string A) (key : string) : M W A :=
  match m !! key with Some a => ret a | None => throw "_Map_base::at" end.

(** ** Configuration *)

(** the parameters of one component, with their defaults applied *)
Record ComponentParameters := MakeParameters {
  c_display_name : string; c_group_name : string; c_unit : string; c_log_path : string;
  c_dependencies : list string; c_expected_nodes : list string; c_health_topics : list string }.

Record Parameters := MakeNodeParameters {
  log_root : string; component_ids : list string; component_parameters : string -> ComponentParameters;
  profile_ids : list string; profile_components : string -> list string }.

(** what the file system answers while the configuration is loaded *)
Record LoadWorld := MakeLoadWorld {
  create_log_root_fails : bool;
  weakly_canonical : string -> option path }.

Definition unit_char (c : ascii) : bool :=
  is_digit c || ((65 <=? code c) && (code c <=? 90)) || ((97 <=? code c) && (code c <=? 122)) ||
  Ascii.eqb c "@" || Ascii.eqb c "_" || Ascii.eqb c "." || Ascii.eqb c "-".

Local Open Scope outcome_scope.

Definition load_component (w : LoadWorld) (root : path) (name : string) (p : ComponentParameters)
  : Outcome ComponentDefinition :=
  let candidate := if starts_with_slash (c_log_path p) then c_log_path p
                   else path_join (path_text root) (c_log_path p) in
  match weakly_canonical w candidate with
  | None => Throws ("Invalid log path for component " ++ name)
  | Some resolved =>
      if negb (path_is_within root resolved) then Throws ("Invalid log path for component " ++ name)
      else if str_empty (c_unit p) || str_empty (c_log_path p) || negb (all_chars unit_char (c_unit p)) then
        Throws ("Invalid systemd unit for component " ++ name)
      else Returns (MakeDefinition name (c_display_name p) (c_group_name p) (c_unit p) resolved
             (c_dependencies p) (c_expected_nodes p) (c_health_topics p))
  end.

(** a second declaration of a parameter throws in [rclcpp], so that a repeated
    id is refused *)
Fixpoint load_components (w : LoadWorld) (root : path) (p : string -> ComponentParameters)
    (ids : list string) (m : gmap string ComponentDefinition) : Outcome (gmap string ComponentDefinition) :=
  match ids with
  | [] => Returns m
  | name :: r =>
      match m !! name with
      | Some _ => Throws ("parameter 'components." ++ name ++ ".display_name' has already been declared")
      | None => let! d := load_component w root name (p name) in
                load_components w root p r (<[name := d]> m)
      end
  end.

Definition unknown_names {A} (m : gmap string A) (names : list string) : list string :=
  List.filter (fun n => match m !! n with None => true | Some _ => false end) names.

(** the first component with an unknown dependency, in the (unspecified) order of the map *)
Fixpoint check_dependencies (m : gmap string ComponentDefinition)
    (l : list (string * ComponentDefinition)) : Outcome unit :=
  match l with
  | [] => Returns tt
  | (name, d) :: r =>
      match unknown_names m (dependencies d) with
      | x :: _ => Throws (name ++ " has unknown dependency " ++ x)
      | [] => check_dependencies m r
      end
  end.

Fixpoint load_profiles (m : gmap string ComponentDefinition) (p : string -> list string)
    (ids : list string) (acc : gmap string (list string)) : Outcome (gmap string (list string)) :=
  match ids with
  | [] => Returns acc
  | name :: r =>
      match acc !! name with
      | Some _ => Throws ("parameter 'profiles." ++ name ++ ".components' has already been declared")
      | None =>
          match unknown_names m (p name) with
          | x :: _ => Throws (name ++ " has unknown component " ++ x)
          | [] => load_profiles m p r (<[name := p name]> acc)
          end
      end
  end.

Definition load_configuration (w : LoadWorld) (p : Parameters) : Outcome Configuration :=
  if str_empty (log_root p) then Throws "log_root must be configured"
  else if create_log_root_fails w then Throws "Unable to create configured log_root"
  else match weakly_canonical w (log_root p) with
  | None => Throws "Unable to resolve configured log_root"
  | Some root =>
      match component_ids p with
      | [] => Throws "component_ids must not be empty"
      | _ =>
          let! m := load_components w root (component_parameters p) (component_ids p) ∅ in
          let! _ := check_dependencies m (map_to_list m) in
          let! profiles := load_profiles m (profile_components p) (profile_ids p) ∅ in
          Returns (MakeConfiguration (component_ids p) (profile_ids p) m profiles root)
      end
  end.

(** ** Reading a log *)
Definition push_line (tail : list string) (line : string) : list string :=
  let tail := tail ++ [line] in if (160 <? List.length tail)%nat then List.tl tail else tail.

Record LogResponse := MakeLog { log_accepted : bool; log_message : string; content : string }.

(** [file] is the content of the log file, [None] when it cannot be opened *)
Definition read_component_log (c : Configuration) (file : path -> option string) (component_id : string)
  : LogResponse :=
  match components_ c !! component_id with
  | None => MakeLog false "Unknown component" ""
  | Some d =>
      match file (log_path d) with
      | None => MakeLog false "Component log is not available yet" ""
      | Some text =>
          MakeLog true "Log loaded"
            (String.concat "" (map (fun l => l ++ String (char 10) "")%string
                                 (fold_left push_line (lines_from text "") [])))
      end
  end.

(** ** Inspection *)
Section Orchestrator.
Context {W : Type} `{System W}.
Local Open Scope operation_scope.

Definition run_command (arguments : list string) : M W CommandResult := fun s =>
  match arguments with
  | [] => (Throws "Command is empty", s)
  | _ =>
      let '(outcome, w) := execute arguments (world s) in
      let s := s <| world := w |> <| executed := executed s ++ [arguments] |> in
      match outcome with
      | Throws e => (Throws e, s)
      | Returns (status, text) =>
          (Returns (MakeResult (match status with Exited n => n | Signaled n => 128 + n end) text), s)
      end
  end.

Definition without_slash (name : string) : string :=
  match name with
  | String c r => if Ascii.eqb c "/" then r else name
  | EmptyString => name
  end.

(** the loops over expected nodes and topics: all of them *)
Definition nodes_present (d : ComponentDefinition) (names : list string) : bool :=
  let normalized_nodes := map without_slash names in
  forallb (fun expected => str_in (without_slash expected) normalized_nodes) (expected_nodes d).
Definition topics_present (d : ComponentDefinition) (w : W) : bool :=
  forallb (fun topic => (0 <? publisher_count topic w)%nat) (health_topics d).

(** an entry younger than 15 seconds; an older one is erased *)
Definition check_recently_stopped (name : string) : M W bool :=
  let* s := get in
  match recently_stopped_ s !! name with
  | None => ret false
  | Some stopped =>
      if steady_now (world s) - stopped <? 15000000000 then ret true
      else let* _ := modify (fun s => s <| recently_stopped_ := delete name (recently_stopped_ s) |>) in
           ret false
  end.

(** the chain of conditions that names the state *)
Definition component_state (load_state active_state sub_state : string)
    (managed healthy nodes recently no_expected : bool) (exit : Z) : string * string :=
  if negb (str_eqb load_state "loaded") then
    ("unavailable", "systemd unit is not installed")%string
  else if negb managed && nodes && recently then
    ("stopping", "systemd stopped; waiting for ROS graph cleanup")%string
  else if negb managed && nodes && negb no_expected then
    ("external", "ROS nodes are running outside the orchestrator")%string
  else if str_eqb active_state "activating" then ("starting"%string, sub_state)
  else if str_eqb active_state "deactivating" then ("stopping"%string, sub_state)
  else if str_eqb active_state "failed" then
    ("failed", "Unit failed with exit code " ++ to_string exit)%string
  else if str_eqb active_state "active" then
    (if healthy then ("running", "ROS nodes and health topics are available")%string
     else ("degraded", "Unit active but ROS health checks are incomplete")%string)
  else ("stopped", "Component is stopped")%string.

Definition show_command (unit_name : string) : list string :=
  ["systemctl"; "--user"; "show"; unit_name;
   "--property=LoadState,ActiveState,SubState,MainPID,ExecMainStatus,ActiveEnterTimestampMonotonic"]%string.

Definition is_managed (active_state : string) : bool :=
  str_in active_state ["active"; "activating"; "deactivating"]%string.

Definition inspect (d : ComponentDefinition) : M W ComponentState.ComponentStateMsg :=
  let* command := run_command (show_command (unit_ d)) in
  let properties := parse_properties (output command) in
  let load_state := default "not-found"%string (properties !! "LoadState"%string) in
  let active_state := default "inactive"%string (properties !! "ActiveState"%string) in
  let sub_state := default "dead"%string (properties !! "SubState"%string) in
  let managed := is_managed active_state in
  let exit := swrap32 (integer_value properties "ExecMainStatus") in
  let* recently := check_recently_stopped (id d) in
  let* s := get in
  let nodes := nodes_present d (node_names (world s)) in
  let topics := topics_present d (world s) in
  let healthy := managed && str_eqb active_state "active" && nodes && topics in
  let '(state, message) := component_state load_state active_state sub_state managed healthy nodes
    recently (match expected_nodes d with [] => true | _ => false end) exit in
  let entered := integer_value properties "ActiveEnterTimestampMonotonic" in
  let now_us := monotonic_us (world s) in
  let uptime := if managed && (0 <? entered) && (entered <? now_us)
                then ddiv (of_int (now_us - entered)) (of_int 1000000) else dzero in
  let can_stop := managed && str_in state ["running"; "degraded"; "starting"]%string in
  ret (ComponentState.Make (id d) (display_name d) (group_name d) (unit_ d) state managed healthy
    (str_in state ["stopped"; "failed"]%string) can_stop can_stop
    (integer_value properties "MainPID") uptime exit message
    (dependencies d) (expected_nodes d) (health_topics d)).

(** the states of the components of a list, in its order *)
Fixpoint inspect_all (ids : list string) : M W (gmap string ComponentState.ComponentStateMsg) :=
  match ids with
  | [] => ret ∅
  | name :: r =>
      let* s := get in
      let* d := at_ (components_ (configuration s)) name in
      let* state := inspect d in
      let* rest := inspect_all r in
      ret (<[name := state]> rest)
  end.

Definition refresh_states : M W unit :=
  let* s := get in
  let* updated := inspect_all (component_order_ (configuration s)) in
  modify (fun s => s <| states_ := updated |>).

Definition state_for (name : string) : M W ComponentState.ComponentStateMsg :=
  let* s := get in ret (default ComponentState.zero (states_ s !! name)).

(** ** Control *)
Definition control_command (action unit_name : string) : list string :=
  ["systemctl"; "--user"; "--no-ask-password"; action; unit_name]%string.

(** the loop over the dependencies of a component to start *)
Fixpoint for_dependencies (control : string -> gset string -> M W (bool * gset string))
    (names : list string) (visited : gset string) : M W (bool * gset string) :=
  match names with
  | [] => ret (true, visited)
  | dependency :: r =>
      let* (ok, visited) := control dependency visited in
      if ok then for_dependencies control r visited else ret (false, visited)
  end.

(** the first managed dependent of a component to stop *)
Fixpoint managed_dependent (c : Configuration) (states : gmap string ComponentState.ComponentStateMsg)
    (name : string) (order : list string) : option string :=
  match order with
  | [] => None
  | dependent_id :: r =>
      let depends := match components_ c !! dependent_id with
                     | Some d => str_in name (dependencies d) | None => false end in
      if depends && ComponentState.managed (default ComponentState.zero (states !! dependent_id))
      then Some dependent_id else managed_dependent c states name r
  end.

Definition run_action (name unit_name action : string) : M W unit :=
  if negb (str_in action ["start"; "stop"; "restart"]%string) then
    throw ("Unsupported action: " ++ action)%string
  else
    let* result := run_command (control_command action unit_name) in
    if negb (exit_code result =? 0) then throw (trim (output result))
    else modify (fun s =>
      s <| recently_stopped_ := if str_eqb action "stop"
                                then <[name := steady_now (world s)]> (recently_stopped_ s)
                                else delete name (recently_stopped_ s) |>
        <| world := sleep_for 250000000 (world s) |>).

(** [visited] is the set the calls share; the fuel bounds their depth *)
Fixpoint control_component (fuel : nat) (name action : string) (force : bool) (visited : gset string)
  : M W (bool * gset string) :=
  match fuel with
  | O => throw "out of fuel"
  | S f =>
      let* s := get in
      match components_ (configuration s) !! name with
      | None => throw ("Unknown component: " ++ name)%string
      | Some d =>
          if decide (name ∈ visited) then ret (true, visited)
          else
            let visited := visited ∪ {[ name ]} in
            let* (ok, visited) :=
              (if str_in action ["start"; "restart"]%string && negb force then
                 for_dependencies (fun x v => control_component f x "start" false v) (dependencies d) visited
               else ret (true, visited)) in
            if negb ok then ret (false, visited)
            else
              let* _ :=
                (if str_eqb action "stop" && negb force then
                   let* _ := refresh_states in
                   let* s := get in
                   match managed_dependent (configuration s) (states_ s) name
                           (component_order_ (configuration s)) with
                   | Some dependent_id => throw ("Stop dependent component first: " ++ dependent_id)%string
                   | None => ret tt
                   end
                 else ret tt) in
              let* _ := run_action name (unit_ d) action in
              ret (true, visited)
      end
  end.

Definition fuel_for (c : Configuration) : nat := S (size (components_ c)).
Definition control (name action : string) (force : bool) : M W bool :=
  let* s := get in
  let* (ok, _) := control_component (fuel_for (configuration s)) name action force ∅ in
  ret ok.

(** ** Services *)
Definition list_components : M W (list ComponentState.ComponentStateMsg * list string) :=
  let* _ := refresh_states in
  let* s := get in
  let* components := (fix go ids := match ids with
      | [] => ret []
      | name :: r => let* c := at_ (states_ s) name in let* l := go r in ret (c :: l)
      end) (component_order_ (configuration s)) in
  ret (components, profile_order_ (configuration s)).

Record ControlResponse := MakeControl {
  accepted : bool; message : string; component : ComponentState.ComponentStateMsg }.

(** a [try] block: the handler gets the text of the exception *)
Definition try_catch {A} (body : M W A) (handler : string -> M W A) : M W A := fun s =>
  match body s with
  | (Returns a, s') => (Returns a, s')
  | (Throws e, s') => handler e s'
  end.

Definition control_service (component_id action : string) (force : bool) : M W ControlResponse :=
  try_catch
    (let* ok := control component_id action force in
     let* _ := refresh_states in
     let* c := state_for component_id in
     ret (MakeControl ok (if ok then "组件操作已完成" else "组件操作被拒绝") c))
    (fun what => let* c := state_for component_id in ret (MakeControl false what c)).

Record ProfileResponse := MakeProfile {
  profile_accepted : bool; profile_message : string;
  profile_states : list ComponentState.ComponentStateMsg }.

Fixpoint control_all (action : string) (components : list string) : M W unit :=
  match components with
  | [] => ret tt
  | name :: r =>
      let* ok := control name action (str_eqb action "stop") in
      if ok then control_all action r else throw ("Profile operation failed at " ++ name)%string
  end.

Fixpoint states_for (ids : list string) : M W (list ComponentState.ComponentStateMsg) :=
  match ids with
  | [] => ret []
  | name :: r => let* c := state_for name in let* l := states_for r in ret (c :: l)
  end.

Definition profile_service (profile_id action : string) : M W ProfileResponse :=
  try_catch
    (let* s := get in
     match profiles_ (configuration s) !! profile_id with
     | None => throw ("Unknown profile: " ++ profile_id)%string
     | Some components =>
         let* _ := control_all action (if str_eqb action "stop" then rev components else components) in
         let* _ := refresh_states in
         let* l := states_for (component_order_ (configuration s)) in
         ret (MakeProfile true "场景操作已完成" l)
     end)
    (fun what => ret (MakeProfile false what [])).

(** ** Frame lemmas *)

(** a part of the state that a computation leaves alone *)
Definition keeps {X A} (part : State W -> X) (m : M W A) : Prop :=
  forall s, part (snd (m s)) = part s.

Section Keeps.
Context {X : Type} (part : State W -> X).
Lemma keeps_ret {A} (a : A) : keeps part (ret a).
Proof. done. Qed.
Lemma keeps_throw {A} e : keeps part (throw (A := A) e).
Proof. done. Qed.
Lemma keeps_get : keeps part get.
Proof. done. Qed.
Lemma keeps_modify f : (forall s, part (f s) = part s) -> keeps part (modify f).
Proof. intros Hf s. apply Hf. Qed.
Lemma keeps_bind {A B} (m : M W A) (k : A -> M W B) :
  keeps part m -> (forall a, keeps part (k a)) -> keeps part (bind m k).
Proof.
  intros Hm Hk s. unfold bind. specialize (Hm s). destruct (m s) as [[a|e] s1]; [|done].
  rewrite (Hk a s1). done.
Qed.
End Keeps.

Lemma keeps_run_command arguments : keeps configuration (run_command arguments).
Proof.
  intros s. unfold run_command. destruct arguments; [done|].
  destruct (execute _ _) as [[[st t]|e] w]; done.
Qed.

#[local] Hint Resolve keeps_ret keeps_throw keeps_get keeps_run_command : vehicle.

Ltac keeps_all :=
  repeat first
    [ progress intros
    | solve [auto with vehicle]
    | apply keeps_bind
    | apply keeps_modify; done
    | match goal with |- keeps _ (match ?x with _ => _ end) => destruct x end ].

Lemma keeps_inspect d : keeps configuration (inspect d).
Proof. unfold inspect, check_recently_stopped. keeps_all. Qed.

#[local] Hint Resolve keeps_inspect : vehicle.

Lemma keeps_refresh_states : keeps configuration refresh_states.
Proof.
  assert (forall ids, keeps configuration (inspect_all ids)) as Hi.
  { induction ids; cbn [inspect_all]; unfold at_; keeps_all. }
  unfold refresh_states. keeps_all.
Qed.

Lemma keeps_run_action name unit_name action : keeps configuration (run_action name unit_name action).
Proof. unfold run_action. keeps_all. Qed.

(** ** Starting along the dependencies *)
Definition depends (c : Configuration) (x d : string) : Prop :=
  exists def, components_ c !! x = Some def /\ d ∈ dependencies def.





Section Acyclic.
Variable c : Configuration.
Variable rank : string -> nat.
Hypothesis acyclic : forall x d, depends c x d -> (rank d < rank x)%nat.





End Acyclic.


(** ** Stopping *)
Lemma run_command_executed arguments s :
  arguments <> [] -> executed (snd (run_command arguments s)) = executed s ++ [arguments].
Proof.
  unfold run_command. destruct arguments; [done|]. intros _.
  match goal with |- context [execute ?a ?b] => by destruct (execute a b) as [[[st t]|e] w] end.
Qed.

Lemma inspect_executed d s : executed (snd (inspect d s)) = executed s ++ [show_command (unit_ d)].
Proof.
  rewrite <- (run_command_executed (show_command (unit_ d)) s) by done.
  assert (keeps executed (check_recently_stopped (id d))) as Hc.
  { unfold check_recently_stopped. keeps_all. }
  unfold inspect, bind at 1. destruct (run_command _ s) as [[r|e] s1]; [|done]. cbv zeta.
  match goal with |- executed (snd (?m s1)) = _ => assert (keeps executed m) as Hm end; [keeps_all|].
  apply Hm.
Qed.

(** a refresh runs nothing but [systemctl show] *)
Lemma refresh_executed s : exists units, executed (snd (refresh_states s)) = executed s ++ map show_command units.
Proof.
  assert (forall ids s, exists units,
    executed (snd (inspect_all ids s)) = executed s ++ map show_command units) as Hall.
  { induction ids as [|n r IH]; intros s0; [by exists []; rewrite app_nil_r|].
    cbn [inspect_all]. unfold bind, get, at_, ret. cbv beta iota.
    destruct (components_ _ !! n) as [d|]; [|by exists []; rewrite app_nil_r].
    pose proof (inspect_executed d s0) as E.
    destruct (inspect d s0) as [[x|e] s1]; cbn [snd] in *; [|by exists [unit_ d]].
    destruct (IH s1) as [units E1]. exists (unit_ d :: units).
    destruct (inspect_all r s1) as [[y|e] s2]; cbn [snd] in *; by rewrite E1, E, <- app_assoc. }
  unfold refresh_states, bind, get. cbv beta iota.
  destruct (Hall (component_order_ (configuration s)) s) as [units E]. exists units.
  by destruct (inspect_all _ s) as [[x|e] s1].
Qed.

Lemma managed_dependent_spec c states name order :
  match managed_dependent c states name order with
  | Some x => x ∈ order /\ depends c x name /\
      ComponentState.managed (default ComponentState.zero (states !! x)) = true
  | None => forall x, x ∈ order -> depends c x name ->
      ComponentState.managed (default ComponentState.zero (states !! x)) = false
  end.
Proof.
  induction order as [|y r IH]; cbn [managed_dependent]; [by intros x ?%elem_of_nil|].
  assert (match components_ c !! y with Some d => str_in name (dependencies d) | None => false end = true
    <-> depends c y name) as Hdep.
  { unfold depends. destruct (components_ c !! y) as [d|]; [rewrite str_in_spec|]; naive_solver. }
  destruct (match components_ c !! y with Some d => _ | None => _ end) eqn:E; cbn [andb].
  - destruct (ComponentState.managed _) eqn:Em.
    + split; [by apply list_elem_of_here|]. split; [by apply Hdep|done].
    + destruct (managed_dependent c states name r) as [x|].
      * destruct IH as (? & ? & ?). split; [by apply list_elem_of_further|done].
      * intros x [->|Hx]%elem_of_cons Hd; [done|by apply IH].
  - destruct (managed_dependent c states name r) as [x|].
    + destruct IH as (? & ? & ?). split; [by apply list_elem_of_further|done].
    + intros x [->|Hx]%elem_of_cons Hd; [by apply Hdep in Hd|by apply IH].
Qed.

Lemma run_action_executed name unit_name action s :
  str_in action ["start"; "stop"; "restart"]%string = true ->
  executed (snd (run_action name unit_name action s)) = executed s ++ [control_command action unit_name].
Proof.
  intros Ha. rewrite <- (run_command_executed (control_command action unit_name) s) by done.
  unfold run_action. rewrite Ha. cbn [negb]. unfold bind.
  destruct (run_command _ s) as [[r|e] s1]; [|done]. by destruct (negb _).
Qed.

Lemma control_stop name s d :
  components_ (configuration s) !! name = Some d ->
  control name "stop" false s =
  match refresh_states s with
  | (Throws e, s1) => (Throws e, s1)
  | (Returns _, s1) =>
      match managed_dependent (configuration s1) (states_ s1) name (component_order_ (configuration s1)) with
      | Some x => (Throws ("Stop dependent component first: " ++ x), s1)
      | None => match run_action name (unit_ d) "stop" s1 with
                | (Throws e, s2) => (Throws e, s2)
                | (Returns _, s2) => (Returns true, s2)
                end
      end
  end.
Proof.
  intros Hd. unfold control, fuel_for. cbn [control_component]. unfold bind, get, ret. cbv beta iota.
  rewrite Hd. destruct (decide _) as [Hin|_]; [by apply elem_of_empty in Hin|].
  change (str_in "stop" ["start"; "restart"]%string && negb false) with false.
  change (str_eqb "stop" "stop" && negb false) with true. cbv beta iota. cbn [negb].
  destruct (refresh_states s) as [[[]|e] s1]; [|done].
  destruct (managed_dependent _ _ _ _) as [x|]; [done|].
  by destruct (run_action _ _ _ s1) as [[[]|e] s2].
Qed.

(** An unforced stop first refreshes the states.  When a component that
    depends on the given one is then managed, the stop is refused by its name
    and only [systemctl show] has run; otherwise [systemctl stop] runs on the
    component's unit, and on nothing else. *)
Theorem stop_needs_stopped_dependents name s s1 d :
  components_ (configuration s) !! name = Some d ->
  refresh_states s = (Returns tt, s1) ->
  let c := configuration s in
  let managed x := ComponentState.managed (default ComponentState.zero (states_ s1 !! x)) in
  (exists units, executed s1 = executed s ++ map show_command units) /\
  ((exists x, x ∈ component_order_ c /\ depends c x name /\ managed x = true /\
      control name "stop" false s = (Throws ("Stop dependent component first: " ++ x), s1)) \/
   (forall x, x ∈ component_order_ c -> depends c x name -> managed x = false) /\
   executed (snd (control name "stop" false s)) = executed s1 ++ [control_command "stop" (unit_ d)]).
Proof.
  intros Hd Hr c managed. split.
  { pose proof (refresh_executed s) as E. by rewrite Hr in E. }
  pose proof (keeps_refresh_states s) as Hc. rewrite Hr in Hc. cbn [snd] in Hc.
  pose proof (managed_dependent_spec c (states_ s1) name (component_order_ c)) as Hm.
  rewrite (control_stop _ _ _ Hd), Hr, Hc. fold c.
  destruct (managed_dependent c (states_ s1) name (component_order_ c)) as [x|].
  - left. exists x. by destruct Hm as (? & ? & ?).
  - right. split; [done|]. rewrite <- (run_action_executed name (unit_ d) "stop") by done.
    by destruct (run_action _ _ _ s1) as [[[]|e] s2].
Qed.


(** ** The fuel *)
Lemma keeps_for_dependencies control names visited :
  (forall n v, keeps configuration (control n v)) ->
  keeps configuration (for_dependencies control names visited).
Proof.
  intros Hc. revert visited; induction names as [|n r IH]; intros visited; cbn [for_dependencies];
    keeps_all.
Qed.

#[local] Hint Resolve keeps_refresh_states keeps_run_action : vehicle.

Lemma keeps_control fuel name action force visited :
  keeps configuration (control_component fuel name action force visited).
Proof.
  revert name action force visited; induction fuel as [|f IH]; intros name action force visited;
    cbn [control_component]; [keeps_all|].
  apply keeps_bind; [apply keeps_get|]. intros s.
  destruct (components_ _ !! name) as [d|]; [|keeps_all]. destruct (decide _); [keeps_all|]. cbv zeta.
  apply keeps_bind; [|intros [[] v]; cbn [negb]; keeps_all].
  destruct (_ && _); [|keeps_all]. apply keeps_for_dependencies. intros. apply IH.
Qed.

Lemma for_dependencies_grows control names visited s b visited' s' :
  (forall n v s b v' s', control n v s = (Returns (b, v'), s') -> v ⊆ v') ->
  for_dependencies control names visited s = (Returns (b, visited'), s') -> visited ⊆ visited'.
Proof.
  intros Hc. revert visited s; induction names as [|n r IH]; intros visited s; cbn [for_dependencies].
  { by intros [= _ <- _]. }
  intros ([ok v1] & s1 & H1%Hc & H2)%bind_returns. destruct ok; [apply IH in H2; set_solver|].
  injection H2 as _ <- _. done.
Qed.

Lemma visited_grows fuel name action force visited s b visited' s' :
  control_component fuel name action force visited s = (Returns (b, visited'), s') ->
  visited ⊆ visited'.
Proof.
  revert name action force visited s b visited' s'.
  induction fuel as [|f IH]; intros name action force visited s b visited' s';
    cbn [control_component]; [done|]. intros (s0 & s1 & [= <- <-] & Hk)%bind_returns.
  destruct (components_ _ !! name) as [d|]; [|done].
  destruct (decide _); [by injection Hk as _ <- _|].
  apply bind_returns in Hk as ([ok v1] & s1 & H1 & Hk).
  assert (visited ⊆ v1) as Hv.
  { destruct (_ && _); [|injection H1 as _ <- _; set_solver].
    apply for_dependencies_grows in H1; [set_solver|]. intros *. apply IH. }
  destruct ok; cbn [negb] in Hk; [|by injection Hk as _ <- _].
  apply bind_returns in Hk as ([] & s2 & _ & Hk). apply bind_returns in Hk as ([] & s3 & _ & Hk).
  by injection Hk as _ <- _.
Qed.

(** the components a traversal can still enter *)
Definition remaining (s : State W) (visited : gset string) : nat :=
  size (dom (components_ (configuration s)) ∖ visited).

Lemma remaining_grows s s1 visited v1 :
  configuration s1 = configuration s -> visited ⊆ v1 -> (remaining s1 v1 <= remaining s visited)%nat.
Proof. intros Hc Hv. unfold remaining. rewrite Hc. apply subseteq_size. set_solver. Qed.

Lemma remaining_visit s visited name :
  is_Some (components_ (configuration s) !! name) -> name ∉ visited ->
  (remaining s (visited ∪ {[ name ]}) < remaining s visited)%nat.
Proof.
  intros Hd%elem_of_dom Hn. unfold remaining. apply subset_size.
  split; [set_solver|]. intros Hs. assert (name ∈ dom (components_ (configuration s)) ∖ visited) as Hin
    by set_solver. apply Hs in Hin. set_solver.
Qed.

Lemma bind_congruence {A B} (m1 m2 : M W A) (k : A -> M W B) s : m1 s = m2 s -> bind m1 k s = bind m2 k s.
Proof. unfold bind. by intros ->. Qed.

Lemma bind_get {A} (k : State W -> M W A) s : bind get k s = k s s.
Proof. done. Qed.

Lemma for_dependencies_fuel f f' names visited s :
  (forall name visited s, (remaining s visited < f)%nat ->
     control_component f' name "start" false visited s = control_component f name "start" false visited s) ->
  (remaining s visited < f)%nat ->
  for_dependencies (fun x v => control_component f' x "start" false v) names visited s =
  for_dependencies (fun x v => control_component f x "start" false v) names visited s.
Proof.
  intros Heq. revert visited s; induction names as [|n r IH]; intros visited s Hf; [done|].
  cbn [for_dependencies]. unfold bind at 1 2. rewrite Heq by done.
  destruct (control_component f n "start" false visited s) as [[[ok v1]|e] s1] eqn:E; [|done].
  destruct ok; [|done]. apply IH.
  pose proof (keeps_control f n "start" false visited s) as Hc. rewrite E in Hc.
  apply visited_grows in E. pose proof (remaining_grows s s1 visited v1 Hc E). lia.
Qed.

(** The recursion over the dependencies always terminates, cycles included:
    with one more unit of fuel than there are components not yet visited, more
    fuel changes nothing, so that [control], which starts with that much, is
    the unbounded recursion of the source. *)
Theorem control_fuel_is_enough f f' name action force visited s :
  (remaining s visited < f <= f')%nat ->
  control_component f' name action force visited s = control_component f name action force visited s.
Proof.
  revert f' name action force visited s; induction f as [|f IH]; intros [|f'] name action force visited s Hf;
    [lia..|]. cbn [control_component]. rewrite !bind_get.
  destruct (components_ (configuration s) !! name) as [d|] eqn:Hd; [|done].
  destruct (decide (name ∈ visited)) as [|Hn]; [done|]. cbv zeta. apply bind_congruence.
  destruct (_ && _); [|done].
  pose proof (remaining_visit s visited name ltac:(by rewrite Hd) Hn) as Hlt.
  apply for_dependencies_fuel; [|lia]. intros x v s' Hx. apply IH. lia.
Qed.
End Orchestrator.

(** ** Inspection *)

(** A component's reported state is consistent for every answer of systemd
    and of the ROS graph: it can be started only while its unit is not managed,
    stopped or restarted only while it is managed, never both; and it is
    reported running only when its unit is active and every expected node and
    health topic is present. *)
Theorem inspected_state_is_consistent `{System W} d s m s' :
  inspect d s = (Returns m, s') ->
  (ComponentState.can_start m = true -> ComponentState.managed m = false) /\
  (ComponentState.can_stop m = true ->
     ComponentState.managed m = true /\ ComponentState.can_start m = false) /\
  ComponentState.can_restart m = ComponentState.can_stop m /\
  (ComponentState.state m = "running"%string ->
     ComponentState.managed m = true /\ ComponentState.healthy m = true /\
     nodes_present d (node_names (world s')) = true /\ topics_present d (world s') = true).
Proof.
  unfold inspect. intros (r & s1 & _ & Hk)%bind_returns. cbv zeta in Hk.
  apply bind_returns in Hk as (recently & s2 & _ & Hk).
  apply bind_returns in Hk as (s3 & s3' & [= <- <-] & Hk).
  set (load := default _ (_ !! "LoadState"%string)) in *.
  set (active := default _ (_ !! "ActiveState"%string)) in *.
  set (healthy := is_managed active && _ && _ && _) in *.
  set (none := match expected_nodes d with [] => true | _ => false end) in *.
  destruct (component_state _ _ _ _ _ _ _ _ _) as [state msg] eqn:Es. injection Hk as <- <-.
  cbn [ComponentState.can_start ComponentState.managed ComponentState.can_stop
       ComponentState.can_restart ComponentState.state ComponentState.healthy].
  unfold component_state in Es.
  assert (is_managed active = true -> str_eqb active "failed" = false) as Hf.
  { unfold is_managed. rewrite str_in_spec, str_eqb_neq. intros Hin ->. set_solver. }
  assert (is_managed active = false -> str_eqb active "activating" = false /\
    str_eqb active "deactivating" = false /\ str_eqb active "active" = false) as Hn.
  { unfold is_managed. intros Hin. split_and!; apply str_eqb_neq; intros E; by rewrite E in Hin. }
  assert (healthy = true -> is_managed active = true /\ nodes_present d (node_names (world s2)) = true /\
    topics_present d (world s2) = true) as Hh.
  { unfold healthy. rewrite !andb_true_iff. tauto. }
  assert (str_eqb active "failed" = true -> is_managed active = false) as Hf'.
  { intros Ef. destruct (is_managed active); [|done]. by rewrite Hf in Ef. }
  assert (str_eqb active "activating" = false -> str_eqb active "deactivating" = false ->
    str_eqb active "active" = false -> is_managed active = false) as Hs.
  { unfold is_managed, str_in. cbn [existsb]. intros H1 H2 H3. by rewrite H1, H2, H3. }
  clearbody healthy. clear Hn Hf.
  repeat case_match; injection Es as <- <-; cbn [str_in existsb];
    (split; [|split; [|split]]); rewrite ?andb_false_r, ?andb_true_r; naive_solver.
Qed.

(** ** Reading a log *)
Definition last_lines (n : nat) (l : list string) : list string := drop (List.length l - n) l.

Lemma push_line_last l x : push_line (last_lines 160 l) x = last_lines 160 (l ++ [x]).
Proof.
  unfold push_line, last_lines. rewrite !length_app, length_drop. cbn [List.length].
  destruct (Nat.ltb_spec 160 (List.length l - (List.length l - 160) + 1)) as [Hlt|Hge].
  - assert (List.length l - 160 < List.length l)%nat by lia.
    replace (List.length l + 1 - 160)%nat with (S (List.length l - 160)) by lia.
    rewrite drop_app_le by lia. destruct (drop (List.length l - 160) l) as [|y r] eqn:E.
    + apply (f_equal (@List.length string)) in E. rewrite length_drop in E. simpl in E. lia.
    + cbn [List.tl app]. f_equal. rewrite <- Nat.add_1_r, <- drop_drop, E. done.
  - replace (List.length l + 1 - 160)%nat with 0%nat by lia.
    replace (List.length l - 160)%nat with 0%nat by lia. done.
Qed.

Lemma fold_push_line l : fold_left push_line l [] = last_lines 160 l.
Proof.
  induction l as [|x l IH] using rev_ind; [done|].
  rewrite fold_left_app, IH. cbn [fold_left]. apply push_line_last.
Qed.

(** Reading a component's log returns exactly the last 160 lines of its
    file, or all of them when there are fewer. *)
Theorem log_content_is_last_lines c file component_id d text :
  components_ c !! component_id = Some d -> file (log_path d) = Some text ->
  read_component_log c file component_id =
  MakeLog true "Log loaded"
    (String.concat "" (map (fun l => l ++ String (char 10) "")%string (last_lines 160 (lines_from text "")))).
Proof. unfold read_component_log. intros -> ->. by rewrite fold_push_line. Qed.

(** ** Configuration *)
Lemma relative_first root candidate :
  ~ root `prefix_of` candidate -> List.hd ""%string (lexically_relative candidate root) = ".."%string.
Proof.
  revert root; induction candidate as [|c cs IH]; intros [|r rs] Hn; cbn [lexically_relative]; try done.
  - exfalso. apply Hn. by exists (c :: cs).
  - destruct (str_eqb c r) eqn:E; [|done]. apply str_eqb_spec in E as ->. apply IH.
    intros Hp. apply Hn. by apply prefix_cons.
Qed.

Lemma path_is_within_under root candidate : path_is_within root candidate = true -> under root candidate = true.
Proof.
  unfold path_is_within. intros Hw. apply under_spec. destruct (decide (root `prefix_of` candidate)) as [|Hn]; [done|].
  exfalso. apply relative_first in Hn. destruct (lexically_relative candidate root); [done|].
  cbn [List.hd] in Hn. by rewrite Hn in Hw.
Qed.

(** what loading promises of one component *)
Definition component_ok (root : path) (name : string) (d : ComponentDefinition) : Prop :=
  id d = name /\ under root (log_path d) = true /\
  unit_ d <> ""%string /\ all_chars unit_char (unit_ d) = true.

Lemma load_component_ok w root name p d :
  load_component w root name p = Returns d -> component_ok root name d.
Proof.
  unfold load_component. destruct (weakly_canonical w _) as [resolved|]; [|done].
  destruct (path_is_within root resolved) eqn:Hp; cbn [negb]; [|done].
  destruct (str_empty (c_unit p)) eqn:Hu; [done|]. destruct (str_empty (c_log_path p)); [done|].
  destruct (all_chars unit_char (c_unit p)) eqn:Hc; [|done]. intros [= <-].
  split_and!; try done; [by apply path_is_within_under|]. cbn. intros E. by rewrite E in Hu.
Qed.

Lemma load_components_ok w root p ids m m' :
  load_components w root p ids m = Returns m' ->
  (forall name d, m !! name = Some d -> component_ok root name d) ->
  (forall name d, m' !! name = Some d -> component_ok root name d) /\
  dom m' = dom m ∪ list_to_set ids /\ NoDup ids.
Proof.
  revert m; induction ids as [|name r IH]; intros m; cbn [load_components].
  { intros [= <-] Hm. split; [done|]. split; [set_solver|constructor]. }
  destruct (m !! name) eqn:E; [done|]. intros (d & Hd & Hr)%obind_returns Hm.
  pose proof (load_component_ok _ _ _ _ _ Hd) as Hok.
  destruct (IH _ Hr) as (H1 & H2 & H3).
  { intros x y. rewrite lookup_insert_Some. intros [[<- <-]|[_ Hx]]; [done|by apply Hm]. }
  split; [done|]. split; [rewrite H2; set_solver|]. constructor; [|done].
  intros Hin. revert r m E Hr Hm H2 H3 Hin IH. clear. intros r m E Hr Hm H2 H3 Hin _.
  assert (forall ids m m' x, load_components w root p ids m = Returns m' -> is_Some (m !! x) -> x ∉ ids) as Hx.
  { clear. induction ids as [|y r IH]; intros m m' x; cbn [load_components]; [by intros _ _ ?%elem_of_nil|].
    destruct (m !! y) eqn:E; [done|]. intros (d & _ & Hr)%obind_returns Hx [->|Hin]%elem_of_cons.
    - rewrite E in Hx. by destruct Hx.
    - eapply IH; [exact Hr| |exact Hin]. rewrite lookup_insert_is_Some'. by right. }
  eapply Hx; [exact Hr| |exact Hin]. rewrite lookup_insert_eq. by eexists.
Qed.

Lemma unknown_names_nil {A} (m : gmap string A) names :
  unknown_names m names = [] -> forall x, x ∈ names -> is_Some (m !! x).
Proof.
  intros Hn x Hx. destruct (m !! x) eqn:E; [by eexists|exfalso].
  assert (In x (unknown_names m names)) as Hin; [|by rewrite Hn in Hin].
  apply filter_In. split; [by apply list_elem_of_In|]. by rewrite E.
Qed.

Lemma check_dependencies_ok m l :
  check_dependencies m l = Returns tt ->
  forall name d x, (name, d) ∈ l -> x ∈ dependencies d -> is_Some (m !! x).
Proof.
  induction l as [|[n e] r IH]; cbn [check_dependencies]; [by intros _ ? ? ? ?%elem_of_nil|].
  destruct (unknown_names m (dependencies e)) eqn:E; [|done]. intros Hr name d x [[= -> ->]|Hin]%elem_of_cons.
  - by apply unknown_names_nil.
  - by eapply IH.
Qed.

Lemma load_profiles_ok m p ids acc profiles :
  load_profiles m p ids acc = Returns profiles ->
  (forall n l x, acc !! n = Some l -> x ∈ l -> is_Some (m !! x)) ->
  forall n l x, profiles !! n = Some l -> x ∈ l -> is_Some (m !! x).
Proof.
  revert acc; induction ids as [|n r IH]; intros acc; cbn [load_profiles]; [by intros [= <-]|].
  destruct (acc !! n); [done|]. destruct (unknown_names m (p n)) eqn:E; [|done].
  intros Hr Ha. apply (IH _ Hr). intros y l x. rewrite lookup_insert_Some.
  intros [[<- <-]|[_ Hy]]; [by apply unknown_names_nil|by eapply Ha].
Qed.

(** A configuration that loads is sound: component ids are unique and each
    has a definition; every log file lies in the log directory; every unit name
    consists of the permitted characters; and the dependencies of components
    and the members of profiles are configured components, so that no lookup
    during control can fail. *)
Theorem loaded_configuration_is_sound w p c :
  load_configuration w p = Returns c ->
  NoDup (component_order_ c) /\
  (forall name, name ∈ component_order_ c <-> is_Some (components_ c !! name)) /\
  (forall name d, components_ c !! name = Some d -> component_ok (log_root_ c) name d) /\
  (forall x y, depends c x y -> is_Some (components_ c !! y)) /\
  (forall n l x, profiles_ c !! n = Some l -> x ∈ l -> is_Some (components_ c !! x)).
Proof.
  unfold load_configuration. destruct (str_empty _); [done|]. destruct (create_log_root_fails w); [done|].
  destruct (weakly_canonical w _) as [root|]; [|done].
  destruct (component_ids p) as [|i ids] eqn:Ei; [done|]. rewrite <- Ei.
  intros (m & Hm & Hk)%obind_returns. apply obind_returns in Hk as ([] & Hd & Hk).
  apply obind_returns in Hk as (profiles & Hp & [= <-]). cbn.
  apply load_components_ok in Hm as (Hok & Hdom & Hu); [|by intros ? ? ?%lookup_empty_Some].
  split_and!; try done.
  - intros name. rewrite <- elem_of_dom, Hdom, dom_empty_L. set_solver.
  - intros x y (d & Hx & Hy). eapply check_dependencies_ok; [exact Hd| |exact Hy].
    by apply elem_of_map_to_list.
  - eapply load_profiles_ok; [exact Hp|]. by intros ? ? ? ?%lookup_empty_Some.
Qed.

(** ** A demonstration system

    The world is the list of active units; every unit is installed. *)
Definition demo_show (active : bool) : string :=
  ("LoadState=loaded" ++ String (char 10) ("ActiveState=" ++ (if active then "active" else "inactive")))%string.

#[local] Instance demo_system : System (list string) := {|
  execute args w :=
    match args with
    | [_; _; verb; a; u]%list =>
        if str_eqb verb "show" then (Returns (Exited 0, demo_show (str_in a w)), w)
        else if str_eqb a "start" then (Returns (Exited 0, ""%string), u :: w)
        else (Returns (Exited 0, ""%string), List.filter (fun x => negb (str_eqb x u)) w)
    | _ => (Throws "Unable to fork command", w)
    end;
  node_names _ := []; publisher_count _ _ := 0%nat; steady_now _ := 0; monotonic_us _ := 0;
  sleep_for _ w := w |}.

Definition demo_component (name : string) (deps : list string) : ComponentDefinition :=
  MakeDefinition name name "demo" (name ++ ".service") ["log"; name]%string deps [] [].
Definition demo_configuration : Configuration :=
  MakeConfiguration ["cam"; "core"; "obs"]%string []
    (<["cam"%string := demo_component "cam" []]> (<["core"%string := demo_component "core" []]>
      (<["obs"%string := demo_component "obs" ["cam"; "core"]%string]> ∅))) ∅ ["log"%string].
Definition demo_state (active : list string) : State (list string) :=
  MakeState demo_configuration ∅ ∅ active [].



Example demo_start_order :
  executed (snd (control "obs" "start" false (demo_state []))) =
  map (control_command "start") ["cam.service"; "core.service"; "obs.service"]%string.
Proof. vm_compute. reflexivity. Qed.


Lemma demo_refresh :
  refresh_states (demo_state ["obs.service"%string]) =
  (Returns tt, snd (refresh_states (demo_state ["obs.service"%string]))).
Proof.
  assert (fst (refresh_states (demo_state ["obs.service"%string])) = Returns tt) as <-
    by (vm_compute; reflexivity). apply surjective_pairing.
Qed.

(** the camera is not stopped while the observation component runs *)
Lemma stop_needs_stopped_dependents_witness :
  exists x, fst (control "cam" "stop" false (demo_state ["obs.service"%string])) =
    Throws ("Stop dependent component first: " ++ x).
Proof.
  destruct (stop_needs_stopped_dependents "cam" (demo_state ["obs.service"%string]) _
    (demo_component "cam" []) eq_refl demo_refresh) as [_ [(x & _ & _ & _ & E)|[H _]]].
  - exists x. by rewrite E.
  - exfalso. specialize (H "obs"%string). cbv zeta in H.
    enough (true = false) by done. etransitivity; [|apply H].
    + vm_compute. reflexivity.
    + vm_compute. do 2 apply list_elem_of_further. apply list_elem_of_here.
    + exists (demo_component "obs" ["cam"; "core"]%string). split; [vm_compute; reflexivity|].
      apply list_elem_of_here.
Defined.

Lemma control_fuel_is_enough_witness :
  control_component 9 "obs" "start" false ∅ (demo_state []) =
  control_component 4 "obs" "start" false ∅ (demo_state []).
Proof.
  apply (control_fuel_is_enough 4 9). split; [|lia].
  assert (remaining (demo_state []) ∅ = 3%nat) as -> by (vm_compute; reflexivity). lia.
Defined.

Lemma inspected_state_is_consistent_witness :
  exists m s', inspect (demo_component "cam" []) (demo_state ["cam.service"%string]) = (Returns m, s') /\
    ComponentState.state m = "running"%string /\ ComponentState.healthy m = true.
Proof.
  do 2 eexists. split; [vm_compute; reflexivity|]. split; [reflexivity|].
  refine (proj1 (proj2 (proj2 (proj2 (proj2 (inspected_state_is_consistent (demo_component "cam" [])
    (demo_state ["cam.service"%string]) _ _ _))) _))); vm_compute; reflexivity.
Defined.

Lemma log_content_is_last_lines_witness :
  content (read_component_log demo_configuration (fun _ => Some "only line"%string) "cam") =
  ("only line" ++ String (char 10) "")%string.
Proof.
  rewrite (log_content_is_last_lines _ _ "cam" (demo_component "cam" []) "only line");
    vm_compute; reflexivity.
Defined.

Definition demo_load_world : LoadWorld := {|
  create_log_root_fails := false;
  weakly_canonical s := Some (if str_eqb s "/log" then ["log"] else ["log"; "cam"])%string |}.
Definition demo_parameters : Parameters := MakeNodeParameters "/log" ["cam"%string]
  (fun _ => MakeParameters "cam" "demo" "cam.service" "cam" [] [] []) [] (fun _ => []).

Lemma loaded_configuration_is_sound_witness :
  exists c, load_configuration demo_load_world demo_parameters = Returns c /\ NoDup (component_order_ c) /\
    is_Some (components_ c !! "cam"%string).
Proof.
  eexists. split; [reflexivity|].
  destruct (loaded_configuration_is_sound demo_load_world demo_parameters _ eq_refl) as (Hu & Hc & _).
  split; [exact Hu|]. apply Hc. apply list_elem_of_here.
Defined.
