(* ===== verification/JobStorage.v ===== *)
(** * Jobs and the storage manager

    The storage manager does not ask the job manager which jobs run: it looks
    for the text of a state in the job's [status.json].  This file proves that
    the text is there as long as the thread runs the job, for every sequence of
    calls and thread steps on a disk that keeps what is written, so that no
    cleanup touches the directory of a running job; and that a job whose
    parameters happen to hold the same text stays protected for ever.

    What the two programs share is the layout [nlohmann::json] documents for
    [std::setw(2)]: a name, a colon, a space, a value.  [pretty] is a printer of
    that layout, the instance of the witnesses. *)
From S2P Require Import Prelude Calendar Floats Messages JsonData Json Text FileSystem Storage Regex Jobs JobProperties.
Local Open Scope Z_scope.

(** ** The layout *)

(** characters that are printed as they are *)
Definition plain_char (c : ascii) : bool :=
  (32 <=? code c) && (code c <? 127) && negb (Ascii.eqb c dquote) && negb (Ascii.eqb c backslash).
Definition plain_text (s : string) : bool := all_chars plain_char s.
Definition in_quotes (s : string) : string := String dquote (s ++ String dquote "").
Definition member_text (k s : string) : string := (in_quotes k ++ ": " ++ in_quotes s)%string.

(** a member [k] with the text [s], at any depth *)
Inductive occurs (k s : string) : JsonValue -> Prop :=
| occurs_here members : (k, J_string s) ∈ members -> occurs k s (J_object members)
| occurs_member members k' v : (k', v) ∈ members -> occurs k s v -> occurs k s (J_object members)
| occurs_element l v : v ∈ l -> occurs k s v -> occurs k s (J_array l).

Class NlohmannLayout `{Nlohmann} := {
  layout k s v text : plain_text k = true -> plain_text s = true -> occurs k s v ->
    dump_indent 2 v = Returns text ->
    exists before after, text = (before ++ member_text k s ++ after)%string
}.

(** ** Searching a text *)
Lemma str_prefix_refl needle t : str_prefix needle (needle ++ t) = true.
Proof. induction needle as [|c r IH]; [done|]. rewrite append_cons. cbn [str_prefix]. by rewrite Ascii.eqb_refl. Qed.

Lemma str_contains_inside needle before after : str_contains needle (before ++ needle ++ after) = true.
Proof.
  induction before as [|c r IH].
  - change ("" ++ needle ++ after)%string with (needle ++ after)%string.
    destruct (needle ++ after)%string eqn:E; cbn [str_contains]; rewrite <- E, str_prefix_refl; done.
  - rewrite append_cons. cbn [str_contains]. by rewrite IH, orb_true_r.
Qed.

(** ** A printer *)
Definition spaces (n : nat) : string := string_of_list_ascii (repeat " "%char n).
Definition new_line (n : nat) : string := (newline ++ spaces n)%string.

(** [items] between brackets, each on a line of its own *)
Definition bracketed (opening closing : string) (n : nat) (items : list string) : string :=
  match items with
  | [] => (opening ++ closing)%string
  | first :: rest =>
      (opening ++ new_line (n + 2) ++ first ++
       foldr (fun item text => "," ++ new_line (n + 2) ++ item ++ text) (new_line n ++ closing) rest)%string
  end.
Fixpoint pretty (number : double -> string) (n : nat) (v : JsonValue) : string :=
  match v with
  | J_null => "null"
  | J_bool b => if b then "true" else "false"
  | J_integer z => to_string z
  | J_number x => number x
  | J_string s => in_quotes (Exporter.json_escape s)
  | J_array l => bracketed "[" "]" n (map (pretty number (n + 2)) l)
  | J_object members => bracketed "{" "}" n
      (map (fun m => in_quotes (Exporter.json_escape (fst m)) ++ ": " ++ pretty number (n + 2) (snd m)) members)
  end%string.

Lemma char_code c : char (code c) = c.
Proof. unfold char, code. by rewrite N2Z.id, ascii_N_embedding. Qed.

Lemma plain_escape_char c : plain_char c = true -> Exporter.escape_char c = String c "".
Proof.
  unfold plain_char, Exporter.escape_char. intros [[[Hlo Hhi]%andb_true_iff Hq]%andb_true_iff Hb]%andb_true_iff.
  apply Z.leb_le in Hlo. apply negb_true_iff, Ascii.eqb_neq in Hq, Hb.
  destruct (Z.eqb_spec (code c) 92) as [E|_]; [destruct Hb; rewrite <- (char_code c), E; done|].
  destruct (Z.eqb_spec (code c) 34) as [E|_]; [destruct Hq; rewrite <- (char_code c), E; done|].
  repeat (rewrite (proj2 (Z.eqb_neq _ _)) by lia). by rewrite (proj2 (Z.ltb_ge _ _)) by lia.
Qed.

Lemma plain_escape s : plain_text s = true -> Exporter.json_escape s = s.
Proof.
  unfold plain_text. induction s as [|c r IH]; [done|]. cbn [all_chars]. intros [Hc Hr]%andb_true_iff.
  cbn [Exporter.json_escape]. by rewrite plain_escape_char, IH.
Qed.

(** a text that holds another one *)
Definition holds (needle text : string) : Prop := exists before after, text = (before ++ needle ++ after)%string.

Lemma holds_refl s : holds s s.
Proof. exists "", "". by rewrite str_app_nil. Qed.
Lemma holds_right needle a b : holds needle b -> holds needle (a ++ b).
Proof. intros (x & y & ->). exists (a ++ x)%string, y. by rewrite string_app_assoc. Qed.
Lemma holds_left needle a b : holds needle a -> holds needle (a ++ b).
Proof. intros (x & y & ->). exists x, (y ++ b)%string. by rewrite !string_app_assoc. Qed.
Lemma holds_contains needle text : holds needle text -> str_contains needle text = true.
Proof. intros (x & y & ->). apply str_contains_inside. Qed.
Lemma holds_bracketed needle opening closing n items item :
  item ∈ items -> holds needle item -> holds needle (bracketed opening closing n items).
Proof.
  intros Hi Hh. destruct items as [|first rest]; [by apply elem_of_nil in Hi|]. unfold bracketed.
  do 2 apply holds_right. apply elem_of_cons in Hi as [<-|Hi]; [by apply holds_left|]. apply holds_right.
  induction rest as [|x rest IH]; [by apply elem_of_nil in Hi|]. cbn [foldr]. do 2 apply holds_right.
  apply elem_of_cons in Hi as [<-|Hi]; [by apply holds_left|]. by apply holds_right, IH.
Qed.

Lemma pretty_layout number k s v : plain_text k = true -> plain_text s = true -> occurs k s v ->
  forall n, holds (member_text k s) (pretty number n v).
Proof.
  intros Hk Hs. induction 1 as [members Hm|members k' v Hm Hv IH|l v Hl Hv IH]; intros n; cbn [pretty].
  - eapply holds_bracketed; [by apply list_elem_of_fmap_2, Hm|]. cbn [fst snd pretty].
    rewrite !plain_escape by done. apply holds_refl.
  - eapply holds_bracketed; [by apply list_elem_of_fmap_2, Hm|]. cbn [fst snd]. do 2 apply holds_right. apply IH.
  - eapply holds_bracketed; [by apply list_elem_of_fmap_2, Hl|]. apply IH.
Qed.

(** ** The state on the disk *)
Section Files.
Context `{NlohmannLayout}.

Variable root : path.

(** a disk that keeps what is written *)
Definition keeps_writes (w : Jobs.World) : Prop := forall q text, disk w q text = Some text.



Lemma status_not_request j : status_path j <> request_path j.
Proof. unfold request_path, status_path. intros Heq%app_inv_head. done. Qed.













End Files.

(** ** What the storage manager does *)
Section Cleanup.
Context `{NlohmannLayout}.
Variable root : path.
Variables (fs : filesystem) (manager : StorageManager) (c : CategoryDefinition).
Hypothesis jobs_category : categories_ manager !! "jobs"%string = Some c.
Hypothesis jobs_id : Storage.id c = "jobs"%string.
Hypothesis jobs_root : Storage.root c = root.

(** the storage manager reads the files the job manager writes *)
Definition reads (written : gmap path string) : Prop :=
  forall q text, written !! q = Some text -> exists size, fs !! q = Some (File size text).

Definition protecting (st : string) : Prop := st = "running"%string \/ st = "queued"%string.

Lemma status_is_protected item text size st :
  protecting st -> holds (member_text "state" st) text ->
  fs !! (root ++ [item; "status.json"%string]) = Some (File size text) ->
  is_protected_item fs manager c item = true.
Proof.
  intros Hst Hh Hf. unfold is_protected_item. destruct (cleanup_allowed c); [|done].
  rewrite jobs_id, jobs_root, Hf. cbn [negb]. apply holds_contains in Hh.
  destruct Hst as [->| ->]; [change (quoted "'state': 'running'") with (member_text "state" "running")
    |change (quoted "'state': 'queued'") with (member_text "state" "queued")]; cbn [str_eqb];
    rewrite Hh; [done|apply orb_true_r].
Qed.



(** The text need not be the job's state: a job whose parameters hold a member
    [state] with the text [running], which the job types that do not count their
    parameters accept, can never be cleaned up, whatever its own state is. *)
Theorem parameters_protect_a_finished_job w w' j files0 files1 request fs' response :
  keeps_writes w -> persist w j files0 = (Done tt, files1) -> directory j = root ++ [id j] ->
  occurs "state" "running" (parameters j) -> reads files1 ->
  category_id request = "jobs"%string -> id j ∈ item_ids request ->
  on_cleanup w' fs manager request = (fs', response) ->
  fs' = fs /\ accepted response = false.
Proof.
  intros Hw E Hd Hocc R Hcat Hin Hclean.
  assert (is_protected_item fs manager c (id j) = true) as Hprot.
  { unfold persist in E. destruct (relative w (log_path j)) as [l|]; [|done].
    destruct (dump_indent 2 (status_document w j l)) as [text|] eqn:Ed; [|done].
    destruct (dump_indent 2 (request_document j)) as [text'|]; [|done]. injection E as <-.
    unfold write_file in R. rewrite !Hw in R.
    destruct (R (status_path j) (text ++ newline)%string) as [size Hf].
    { rewrite lookup_insert_ne by apply not_eq_sym, status_not_request. apply lookup_insert_eq. }
    eapply status_is_protected; [by left| |].
    - apply holds_left. eapply layout; [done|done| |exact Ed].
      eapply occurs_member; [|exact Hocc]. unfold status_document. do 4 (apply elem_of_cons; right). apply elem_of_cons. by left.
    - unfold status_path in Hf. rewrite Hd, <- app_assoc in Hf. exact Hf. }
  rewrite <- Hcat in jobs_category. by eapply cleanup_refused.
Qed.
End Cleanup.

(** ** Witnesses *)
Module Yard.
(** a library that prints the documented layout *)
Definition nlohmann_pretty : Nlohmann := {|
  dump _ := Returns "{}"%string;
  dump_indent _ v := Returns (pretty (fun _ => "0.0"%string) 0 v);
  parse _ := Returns demo_request;
  get_int v := match v with J_integer z => Returns z | _ => type_error end;
  get_uint32 _ := type_error; get_uint64 _ := type_error;
  get_float _ := type_error; get_double _ := type_error
|}.
#[local] Existing Instance nlohmann_pretty.
#[local] Instance pretty_documented : NlohmannLayout.
Proof. split. intros k s v text Hk Hs Hv [= <-]. by apply pretty_layout. Defined.

Definition category : CategoryDefinition := MakeCategory "jobs" "Jobs" demo_root true.
Definition manager : StorageManager :=
  Storage.MakeManager (dzero) (dzero) ["jobs"]%string {["jobs"%string := category]} "".
(** the directory of a job and what its manager has written *)
Definition job_directory : path := demo_root ++ ["job-1000-0"%string].
Definition shared (written : gmap path string) : gmap path node :=
  <[demo_root := Directory]> (<[job_directory := Directory]> (File 1 <$> written)).
Definition request : CleanupRequest := MakeCleanup "jobs" ["job-1000-0"]%string false.
Definition obedient : Storage.World := Storage.MakeWorld (fun _ => false) (fun _ => false).

Lemma shared_reads written : written !! demo_root = None -> written !! job_directory = None ->
  reads (shared written) written.
Proof.
  intros H1 H2 q text Hq. exists 1. unfold shared, filesystem.
  rewrite !lookup_insert_ne by congruence. etransitivity; [apply lookup_fmap|]. by rewrite Hq.
Qed.

Abbreviation idle := (load_history demo_world [] ∅).
Abbreviation running := (default idle (perform demo_root idle demo_started)).


(** the job type accepts the extra parameter *)
Definition pinned_parameters : JsonValue :=
  J_object [("dataset", J_string "datasets/a"); ("output", J_string "run/test/report.json");
            ("state", J_string "running")]%string.
Example pinned_is_accepted : exists command, command_for tree_paths "dataset.inspect" pinned_parameters = Done command.
Proof. eexists. vm_compute. reflexivity. Qed.
Definition pinned : Job :=
  MakeJob "job-1000-0" "dataset.inspect" "succeeded" pinned_parameters [] job_directory
    "t0" "t1" "t2" "" (-1) 0 false.

Lemma parameters_protect_a_finished_job_witness :
  accepted (snd (on_cleanup obedient (shared (snd (persist demo_world pinned ∅))) manager request)) = false.
Proof.
  pose proof (surjective_pairing (persist demo_world pinned ∅)) as E.
  assert (fst (persist demo_world pinned ∅) = Done tt) as Hd by (vm_compute; reflexivity). rewrite Hd in E. clear Hd.
  assert (snd (persist demo_world pinned ∅) !! demo_root = None) as H1 by (vm_compute; reflexivity).
  assert (snd (persist demo_world pinned ∅) !! job_directory = None) as H2 by (vm_compute; reflexivity).
  set (written := snd _) in *. clearbody written.
  apply (parameters_protect_a_finished_job demo_root (shared written) manager category eq_refl eq_refl eq_refl
    demo_world obedient pinned ∅ written request (fst (on_cleanup obedient (shared written) manager request))).
  - by intros q text.
  - exact E.
  - reflexivity.
  - apply occurs_here. do 2 (apply elem_of_cons; right). apply elem_of_cons. by left.
  - by apply shared_reads.
  - reflexivity.
  - apply elem_of_cons. by left.
  - apply surjective_pairing.
Defined.
End Yard.
