(* ===== verification/Interplay.v ===== *)
(** * Components together

    Statements about two components that meet in a message: the recorder's
    published state protects the episode it records from the storage manager,
    and the action capture's reasons reach the dataset exporter. *)
From S2P Require Import Prelude Floats Messages ActionCapture EpisodeRecorder.
From S2P Require Import FileSystem Storage DatasetExporter.
Local Open Scope Z_scope.

(** the storage manager when the recorder's last published state has arrived *)
Definition informed (out : list EpisodeRecorder.Output) (manager : StorageManager) : StorageManager :=
  match last_published out with Some m => on_episode m manager | None => manager end.

Section Recording.
Context `{Rclcpp}.
Variable p : EpisodeRecorder.Parameters.
Variable fixed1 : double -> string.

(** the last state in the recorder's output, as its subscribers see it *)
Lemma last_state_announces_recording w s0 o0 es :
  EpisodeRecorder.constructor p w = Returns (s0, o0) ->
  let '(s, out) := run (EpisodeRecorder.next p fixed1) s0 es in
  exists m, last_published (o0 ++ out) = Some m /\
    EpisodeState.episode_id m = episode_id_ s /\
    (recording_ s = true -> EpisodeState.state m = EpisodeState.STATE_RECORDING).
Proof.
  unfold EpisodeRecorder.constructor. destruct (str_empty _); [done|]. intros [= <- <-].
  assert (EpisodeRecorder.ok EpisodeRecorder.initial
    (last_published [publish_state w 0 "Episode recorder ready" EpisodeRecorder.initial]) 0) as H0.
  { split; simpl; [done|by split|by left|by eexists|done]. }
  pose proof (run_ok p fixed1 es _ _ _ H0) as Hr.
  destruct (run (EpisodeRecorder.next p fixed1) EpisodeRecorder.initial es) as [s out].
  destruct Hr as [_ Hr _ (m & Hm & Hst & Hid) _]. exists m.
  split; [unfold last_published; by rewrite fold_left_app|]. split; [done|].
  intros Hrec. rewrite Hst. by apply Hr.
Qed.

(** The recorder's announcements protect its data: after any sequence of
    callbacks of the recorder, while it is recording and the storage manager
    has its last published state, no cleanup request for episodes changes
    anything in the directory of the episode being recorded. *)
Theorem recorded_episode_survives_cleanup w s0 o0 es cw fs manager request fs' response c q :
  EpisodeRecorder.constructor p w = Returns (s0, o0) ->
  let '(s, out) := run (EpisodeRecorder.next p fixed1) s0 es in
  recording_ s = true -> episode_id_ s <> ""%string ->
  categories_ manager !! "episodes"%string = Some c -> Storage.id c = "episodes"%string ->
  category_id request = "episodes"%string ->
  on_cleanup cw fs (informed (o0 ++ out) manager) request = (fs', response) ->
  under (root c ++ [episode_id_ s]) q = true ->
  fs' !! q = fs !! q.
Proof.
  intros Hc. pose proof (last_state_announces_recording w s0 o0 es Hc) as Hl.
  destruct (run _ s0 es) as [s out]. destruct Hl as (m & Hm & Hid & Hst).
  intros Hrec Hne Hcat Hcid Hreq Hclean Hq. unfold informed in Hclean. rewrite Hm in Hclean.
  rewrite <- Hid in Hq, Hne. eapply active_episode_untouched; eauto.
Qed.
End Recording.

Section Reasons.
Context `{Rclcpp}.
Variable atan : double -> double.

(** the requested and the executed action captured for one command *)
Definition captured (now : Z) (m : TwistStamped) (command : Twist) (s : VehicleActionCapture)
  : TrainingAction.TrainingActionMsg * TrainingAction.TrainingActionMsg :=
  (snd (on_target atan m s), on_executed atan now command s).

(** The safety mode of a dataset frame is only right for the executed
    action: while the operator's obstacle override is on, the executed action
    is exported with [manual_obstacle_override], but the requested action of
    the same frame, whose only reason carries a prefix the exporter does not
    look for, is exported as [normal] and not overridden. *)
Theorem requested_action_loses_override now m command s :
  ActionCapture.manual_obstacle_override_ s = true ->
  let '(requested, executed) := captured now m command s in
  safety_mode executed = "manual_obstacle_override"%string /\ obstacle_override executed = true /\
  TrainingAction.safety_reasons requested = ["safety_mode:manual_obstacle_override"%string] /\
  safety_mode requested = "normal"%string /\ obstacle_override requested = false.
Proof.
  intros Ho. unfold captured.
  assert (TrainingAction.safety_reasons (snd (on_target atan m s)) =
    ["safety_mode:manual_obstacle_override"%string]) as Hr.
  { unfold on_target, encode. cbn. rewrite Ho. by destruct (str_eqb (adapter_ s) "twist"). }
  assert (obstacle_override (on_executed atan now command s) = true) as He.
  { unfold obstacle_override, has_safety_reason, on_executed. cbn. rewrite Ho.
    apply orb_true_iff. left. apply str_in_spec. rewrite !elem_of_app. right. left.
    by apply list_elem_of_singleton. }
  assert (obstacle_override (snd (on_target atan m s)) = false) as Hn.
  { unfold obstacle_override, has_safety_reason. by rewrite Hr. }
  unfold safety_mode. rewrite He, Hn. done.
Qed.
End Reasons.

(** ** Witnesses *)
Section Witnesses.
#[local] Existing Instance rclcpp_doc.

Definition demo_recorder_world : EpisodeRecorder.World := EpisodeRecorder.demo_world (Returns tt).
Definition demo_recorder_events : list EpisodeRecorder.Event :=
  [ObservationStatusReceived true; StartRequested demo_recorder_world (MakeStart "b" "fetch" "op")].
Definition demo_first_output : list EpisodeRecorder.Output :=
  [publish_state demo_recorder_world 0 "Episode recorder ready" EpisodeRecorder.initial].

(** episode [b] is being recorded; a cleanup of [a] and [b] leaves [b] alone *)
Lemma recorded_episode_survives_cleanup_witness :
  let out := snd (run (EpisodeRecorder.next (default_parameters "/data") demo_fixed1)
    EpisodeRecorder.initial demo_recorder_events) in
  fst (on_cleanup demo_cleanup_world demo_fs (informed (demo_first_output ++ out) demo_manager)
    (demo_cleanup ["a"; "b"]%string)) !! ["data"; "episodes"; "b"]%string =
  demo_fs !! ["data"; "episodes"; "b"]%string.
Proof.
  assert (EpisodeRecorder.constructor (default_parameters "/data") demo_recorder_world =
    Returns (EpisodeRecorder.initial, demo_first_output)) as H0
    by (unfold EpisodeRecorder.constructor; reflexivity).
  pose proof (fun fs' response q => recorded_episode_survives_cleanup (default_parameters "/data") demo_fixed1
    demo_recorder_world _ _ demo_recorder_events demo_cleanup_world demo_fs demo_manager
    (demo_cleanup ["a"; "b"]%string) fs' response demo_category q H0) as Ht.
  destruct (run (EpisodeRecorder.next (default_parameters "/data") demo_fixed1)
    EpisodeRecorder.initial demo_recorder_events) as [s out] eqn:E.
  assert (recording_ s = true /\ episode_id_ s = "b"%string) as [Hr Hi]
    by (vm_compute in E; injection E as <- _; split; reflexivity).
  rewrite Hi in *. eapply (Ht _ _ _ Hr); try reflexivity; try discriminate.
  apply surjective_pairing.
Defined.

Lemma requested_action_loses_override_witness :
  safety_mode (on_executed (fun x => x) 9 Twist.zero demo_capture) = "manual_obstacle_override"%string /\
  safety_mode (snd (on_target (fun x => x) demo_selected demo_capture)) = "normal"%string.
Proof.
  destruct (requested_action_loses_override (fun x => x) 9 demo_selected Twist.zero demo_capture eq_refl)
    as (He & _ & _ & Hr & _). split; [exact He|exact Hr].
Defined.
End Witnesses.
